(* ===== verification/_CoqProject ===== *)
-Q . S2P
Prelude.v
GoStrings.v
GoScan.v
GoRegexp.v
GoTime.v
GoRuntime.v
Types.v
Kube.v
NodeLock.v
Codec.v
Devices.v
VendorFlags.v
Score.v
FitFacts.v
BookFacts.v
ScoreFacts.v
CalcFacts.v
ScoreProps.v
Scheduler.v
Register.v
UsageFacts.v
FilterFacts.v
FilterProps.v
RegisterProps.v
SchedThreads.v
ThreadFacts.v
ThreadProps.v
SchedServer.v
Webhook.v
SchedMain.v
PodAlloc.v
DCU.v
DCUFacts.v
DCUStart.v
DCUStartFacts.v
DCUDriver.v
DCUDriverFacts.v
Cndev.v
CndevBindings.v
MLUAlloc.v
MLU.v
MLUFacts.v
MLUServer.v
MLUServerFacts.v
Monitor.v
MonitorFacts.v
MonitorServer.v
MonitorServerFacts.v
Region.v
RegionFacts.v
Nvidia.v
NvidiaFacts.v
EndToEnd.v
NvidiaMap.v
NvidiaMapFacts.v
NvidiaHealth.v
NvidiaMain.v
NvidiaMainFacts.v
NvidiaOptions.v
Handshake.v
NvidiaServe.v
Oci.v
Prometheus.v
Metrics.v
MetricsFacts.v
MonitorMain.v
LockCycle.v
