(* ===== verification/Prelude.v ===== *)
(** * Verification of the k8s vGPU scheduler: overview and prelude

    ** The program

    The repository shares accelerator cards (NVIDIA, Cambricon MLU, Hygon DCU,
    Iluvatar) between the pods of a Kubernetes cluster.  Its processes talk
    through annotations of nodes and pods only:

    - the _admission webhook_ ([pkg/scheduler/webhook.go]) sees a pod when it
      is created, lets every vendor ([pkg/device]) complete the container's
      resources, and sends pods that ask for a card to this scheduler;
    - the _device plugins_ ([pkg/device-plugin]), one per vendor and node,
      write the cards of their node into a node annotation (with a handshake
      annotation that proves they are alive);
    - the _scheduler extender_ ([pkg/scheduler]) reads these annotations in a
      loop, keeps a table of nodes and a table of placed pods, and answers
      [Filter] (choose a node and the cards of every container, write the
      choice to the pod's annotations) and [Bind] (lock the node, mark the pod
      as allocating, bind it);
    - the device plugin on the chosen node is then called by the kubelet
      ([Allocate]): it looks for the pod that is allocating, reads the cards
      of its next container, erases them from the annotation, answers with
      environment, mounts and device files, and at the end releases the node;
    - the _monitor_ ([cmd/vGPUmonitor]) runs on every node and adjusts the
      shared memory regions of the containers, so that tasks of low priority
      wait for tasks of high priority on the same card.

    ** Files

    The language and its library:
    - [Prelude]: machine integers, panics and the result type of fallible Go
      code, slices with Go's out-of-range behaviour, tactics and hints;
    - [GoStrings], [GoScan], [GoTime]: [strings], [strconv], [fmt] (with
      [Sscanf]), [bufio.Scanner] and [time] as used;
    - [GoRegexp]: the regular expressions the drivers' files are searched
      with, their meaning and a matcher that finds the leftmost match;
    - [GoRuntime]: the class of what Go leaves open (the order of map ranges,
      ties of [sort.Sort]) with its laws, and float32 and float64 arithmetic.

    Data and interfaces:
    - [Types]: [pkg/util/types.go], [pkg/api], the parts of Kubernetes objects
      the program reads or writes, the kubelet's device-plugin messages;
    - [Kube]: the calls of client-go as a record [KubeClient] over an abstract
      cluster, the documented behaviour of the API server as the class
      [KubeServer] (optimistic concurrency, other clients between two calls)
      and an in-memory server for the witnesses.

    Scheduler side:
    - [NodeLock]: [pkg/util/nodelock/nodelock.go];
    - [Codec]: the encoders and decoders of [pkg/util/util.go];
    - [Devices]: the vendors of [pkg/device], behind the class
      [DeviceContract], and [Resourcereqs] of [pkg/k8sutil/pod.go];
      [VendorFlags]: the flags the vendors declare ([GlobalFlagSet]);
    - [Score], with [FitFacts], [BookFacts], [ScoreFacts], [CalcFacts] and
      [ScoreProps]: [pkg/scheduler/score.go];
    - [Scheduler], [Register], with [UsageFacts], [FilterFacts],
      [FilterProps] and [RegisterProps]: [pkg/scheduler/scheduler.go],
      [nodes.go] and [pods.go];
    - [SchedThreads], [ThreadFacts], [ThreadProps]: the same handlers cut into
      the steps of the goroutines that run them, and their interleavings;
    - [SchedServer]: the HTTP routes of [pkg/scheduler/routes] and the metrics
      of [cmd/scheduler/metrics.go];
    - [Webhook]: [pkg/scheduler/webhook.go];
    - [SchedMain]: the binary [cmd/scheduler]: flags, start-up with the first
      list of the informer, routes.

    Node side:
    - [PodAlloc]: the allocation protocol of [pkg/util/util.go] and
      [pkg/device/devices.go] that all device plugins share;
    - [DCU], [DCUFacts]: allocation of [pkg/device-plugin/hygon/dcu];
      [DCUStart], [DCUStartFacts]: its start, which reads the cards from the
      output of the vendor's tools, [ListAndWatch] and the scan of sysfs
      ([amdgpu]); [DCUDriver], [DCUDriverFacts]: the rest of [amdgpu] and
      [hwloc], the calls into the C libraries and the firmware files;
    - [Cndev], [CndevBindings], [MLUAlloc], [MLU], [MLUFacts]:
      [pkg/device-plugin/mlu] with its packages [cndev] and [allocator]; the class [AllocatorContract] is what
      the plugin relies on of the three topology allocators;
      [MLUServer], [MLUServerFacts]: its server, the restarts of
      [cmd/device-plugin/mlu], the notifications of the device cache and the
      call of the topology tool ([cntopo]);
    - [Nvidia], [NvidiaFacts]: devices and allocation of
      [pkg/device-plugin/nvidiadevice/nvinternal]; [NvidiaMap],
      [NvidiaMapFacts]: the device map with MIG devices and replicas ([rm],
      [mig]); [NvidiaHealth]: health events and [ListAndWatch];
      [NvidiaMain], [NvidiaMainFacts]: options, registration, CDI, the
      server's life and the restarts of [cmd/device-plugin/nvidia];
      [NvidiaServe]: sockets, the registration request, the preferred
      allocation of the resource managers, the command line;
      [NvidiaOptions]: the functional options of [cdi] and [manager];
    - [Monitor], [MonitorFacts], [MonitorServer], [MonitorServerFacts]:
      [cmd/vGPUmonitor], the feedback and the table of regions, then host
      pids and metrics; [Region], [RegionFacts]: the bytes of the mapped
      files; [MonitorMain]: the process, with the goroutines that share the
      table;
    - [Oci]: the runtime shim of [pkg/oci].

    Programs joined:
    - [EndToEnd]: the scheduler's [Filter] and the plugin's [Allocate] joined
      by the annotations;
    - [LockCycle]: [Bind] and [Allocate] joined by the lock of the node;
    - [Handshake]: the registration loops of the NVIDIA plugin and of the
      scheduler joined by the handshake annotation, with a machine of four
      phases as their specification;
    - [Prometheus], [Metrics], [MetricsFacts]: the Prometheus client library
      as the class [PromClient], and the three programs that serve metrics
      through it ([cmd/scheduler/metrics.go], [cmd/vGPUmonitor/metrics.go],
      [cmd/vGPUmonitor/testcollector]).

    Each definition has the name of the Go function it models, with a prefix
    where several packages use one name; the loops of a function are separate
    definitions ([fit_loop] is the loop of [fitInCertainDevice]).

    ** State and effects

    Go maps are [gmap]s and every range over one goes through [GoRuntime], so
    a theorem holds for every iteration order.  Integers keep their width:
    [i32] and [i64] are wrap-around, written wherever the code computes or
    converts.  A function that can fail returns its error as a value, in the
    shape of the Go results; a panic (index out of range, nil dereference,
    write to a nil map) is a result of its own and ends the handler.  Objects
    that are shared by pointer live in a heap where a claim depends on the
    sharing ([NodeInfo], reachable from the node table and from the table of
    the registration loop).  Calls to the API server thread the cluster
    ([K W]).  A handler of the extender is one function ([Filter], [onAddPod],
    [register_device]); in [SchedThreads] it is a sequence of steps between
    which the other goroutines run, and [filter_steps_agree] connects the two.
    Where goroutines exchange messages over unbuffered channels the sender and
    the receiver are one list of messages ([ListAndWatch]), or a step relation when the program may block
    ([cache_step] of the MLU device cache).  A process that is restarted by
    its environment is a function from its state and an event to the next
    state ([main_step]), and its theorems hold for every list of events.

    ** What the theorems show

    - Fitting ([ScoreProps]): [fitInCertainDevice] returns a choice exactly
      when the node has enough eligible cards, and every card it returns
      admits the request; booking keeps the limits of each card; [calcScore]
      grants what the containers ask for, and accounts for it, on every node
      it accepts; for a container that asks for two kinds of card, the cards
      granted first are recorded twice in the pod's account.  The memory asked
      of a card is the amount, the percentage, the default or the whole card,
      in this order.  These hold for amounts that are not negative, a
      percentage of at most 101 and cards whose memory times 101 fits an
      int32; a larger percentage wraps around and is granted as a negative
      amount.
    - Extender ([FilterProps], [RegisterProps]): the recomputed node usage is
      the sum over the recorded pods; [Filter] keeps every card within its
      capacity and chooses a node of highest score; every state the handlers
      reach is within capacity; a restarted scheduler that reads the
      annotations back has the same accounts, and after the first list of the
      informer knows exactly the running pods ([SchedMain]); registration merges the cards
      a plugin reports; the handshake time-out is off by the local zone.
    - Goroutines ([ThreadProps], [SchedMain]): the cards stay within capacity
      in every interleaving of [Filter] with registrations, deletions, and
      events of pods that are recorded, have ended or carry no assignment, and
      for every sequence of HTTP requests, when each container asks for one
      kind of card within the bounds above.  Outside of this the accounts go
      wrong: an event that is out of date, and a request before the first list
      is delivered, over-commit cards.
    - From the extender to the container ([EndToEnd], [LockCycle]): the
      container sees the cards, memory and cores that the scheduler has on its
      books; [Bind] locks the node and marks the pod as allocating, and the
      [Allocate] that follows marks it "success" or "failed" and leaves the
      node as it was before, unless its response cannot be built.
    - Handshake ([Handshake]): in every order of their turns the two loops
      follow the machine; a plugin that answers in time keeps its cards, one
      that falls silent loses those of its last report after the time-out;
      west of UTC a live plugin loses them too.
    - Protocol ([Codec], [NodeLock], [PodAlloc], [Devices], [Webhook]): the
      annotation codecs round trip; a lock is taken only on a node that is
      not locked and an unexpired lock is honoured; a request is handed to a plugin
      once; the vendors' requests are the ones the pod's limits describe; the
      webhook takes over exactly the pods with a container, not privileged,
      that has a limit of one of the four resources the vendors test, and the
      containers it returns are described.
    - Metrics ([SchedServer], [MetricsFacts]): a scrape has no two metrics of
      one name and labels unless a pod has one card twice, and then it has;
      every metric has the labels of its descriptor, the registration never
      panics, and a scrape is answered with exactly the metrics collected, or
      with an error when two are one series; two zones do not collide.
    - Plugins ([DCUFacts], [Cndev], [MLUAlloc], [MLUFacts], [NvidiaFacts]):
      the core mask of a new container is disjoint from those of the
      containers known to the last refresh (but not from one made since); the search of link groups
      ends and returns the cards linked with card 0 and the others; the MLU allocators return
      a best ring of the topology tool as it is, and without a ring exactly as
      many offered cards as asked; under best effort they always return; the answers to the kubelet name the cards the scheduler chose; the
      distributed NVIDIA allocation is exact and balanced.  Three theorems
      show faults of the code: the DCU plugin's [Allocate] always fails, the
      MLU health loop toggles, the NUMA column is always zero.
    - From the cards to the scheduler ([NvidiaMapFacts], [NvidiaMainFacts],
      [DCUStartFacts]): the device map is the one the configuration
      describes, with exactly the replicas asked for; the options are never
      nil and the start of the plugin never panics; the registered cards are
      found in the scheduler's table by its next registration round; the
      start of the DCU plugin reads back what the tools print, for cards whose
      series is one word.
    - Health ([NvidiaHealth], [MLUServerFacts], [DCUStartFacts]): the event
      loop passes on exactly the devices an event concerns when every card
      carries one device; a critical error marks one device of the card, and it
      and an MLU that reads unhealthy reach the kubelet on every virtual device
      of that device; devices that share
      a card are not all marked, the DCU list never changes, and the
      notifications of the MLU cache stop at the first report.
    - Life of the plugins ([NvidiaMainFacts], [MLUServerFacts]): restarts
      leave no server running; a start without error has registered with the
      kubelet; the NVIDIA registration loops accumulate; the crash limit.
    - Monitor ([MonitorFacts], [MonitorServerFacts]): one round of [Observe]
      refines a description per region; regions of live containers are kept;
      a task on one card waits for higher priorities, a task on several is
      checked on its first card only; host pids go to the slots in the order
      of the processes; a scrape reports the memory of every container.
      Of the process ([MonitorMain]): the lock is held by one goroutine at a
      time, but a scrape walks the table without it, and the feedback does
      not wait for the client.
    - Bytes ([RegionFacts], [Oci]): the layout of the shared region and its
      round trip; a round of [Observe] and the writing of host pids change
      exactly the bytes of their fields; a specification that is flushed is
      the one loaded next.
    - Drivers ([CndevBindings], [DCUDriverFacts], [GoRegexp]): the link groups
      computed from the driver's answers; the matcher is sound, complete and
      leftmost; firmware versions below 2^31 are read as printed; every handle
      that is opened is closed.

    ** Bounds

    Retry loops have the constants of the code ([MaxLockRetry], the [retries]
    of the MLU plugin) and need no fuel.  Printing of integers recurses on a
    fuel of 20 decimal and 16 hexadecimal digits, which is every digit a
    64-bit integer has.  The breadth-first search [link_loop] runs on a fuel
    that [link_groups_partition] shows to be enough.  The other loops are
    structural over the slice or the listed map they range over.

    ** What is not modelled

    What the C libraries (NVML, cndev, hwloc, libdrm), the tools [cntopo],
    [hy-smi] and [hdmcli], the GPU allocator, the CDI, JSON, router and
    command-line libraries answer: these are parameters.  The transport of
    gRPC and HTTP ([dial]), the text Prometheus writes, the usage text of the
    Hygon binary, generated code (protobuf, the mocks of [cdi] and [cntopo]),
    the construction of Kubernetes clients and of the file and signal watchers
    of the binaries, which only call the library, log messages.

    The handshake and the life of the lock are proved for one plugin on a node
    nobody else writes to; with interference the theorems of [NodeLock] and
    [RegisterProps] apply to each call.  A round of the scheduler reads the
    current version of a node, not the informer's cache of it.  The steps of
    [SchedThreads] have one [Filter] at a time, take each read of a table as
    one step (the crash of the Go runtime on an unlocked read beside a write
    is left out) and may meet any API server at each call.  Two schedulers on one cluster are not
    considered: nothing in the code excludes them. *)

From Stdlib Require Import ZArith Lia.
From stdpp Require Import base decidable option gmap strings numbers sorting list.


(** ** Machine integers

    Go's [int32] and [int] (64 bits on every platform the program is built
    for) are [Z] with the wrap-around written out. *)
Declare Scope go_scope.
Delimit Scope go_scope with go.
Open Scope go_scope.
Open Scope Z_scope.

Definition wrap (w z : Z) : Z := (z + 2 ^ (w - 1)) mod 2 ^ w - 2 ^ (w - 1).

Abbreviation i32 := (wrap 32).
Abbreviation i64 := (wrap 64).

Definition min_i32 : Z := - 2147483648.
Definition max_i32 : Z := 2147483647.
Definition min_i64 : Z := - 9223372036854775808.
Definition max_i64 : Z := 9223372036854775807.

Definition in_i32 (z : Z) : Prop := min_i32 <= z <= max_i32.
Definition in_i64 (z : Z) : Prop := min_i64 <= z <= max_i64.

#[export] Instance in_i32_dec z : Decision (in_i32 z).
Proof. unfold in_i32. apply _. Defined.

(** ** Outcomes: a Go call returns or panics *)
Inductive panic : Type :=
| IndexOutOfRange
| NilDereference
| NilMapWrite
| MakeNegativeCap
| SliceBounds
| NegativeRepeat
| CloseClosed   (* [close] of a closed channel *)
| Explicit      (* [panic(v)] *)
| Fatal.        (* [log.Fatalf] and [klog.Fatalf] *)

Inductive outcome (A : Type) : Type :=
| Ret (a : A)
| Panic (p : panic).
Arguments Ret {A} a.
Arguments Panic {A} p.

#[export] Instance outcome_ret : MRet outcome := fun A a => Ret a.
#[export] Instance outcome_bind : MBind outcome :=
  fun A B f m => match m with Ret a => f a | Panic p => Panic p end.

#[export] Instance panic_eq_dec : EqDecision panic.
Proof. solve_decision. Defined.
#[export] Instance outcome_eq_dec `{EqDecision A} : EqDecision (outcome A).
Proof. solve_decision. Defined.

(** Go's [error] interface value: [None] is [nil]. *)
Definition error : Type := string.

Definition returns {A} (m : outcome A) : Prop := exists a, m = Ret a.

(** [xs[i]] of a slice: panics out of range. *)
Definition slice_get {A} (l : list A) (i : nat) : outcome A :=
  match l !! i with Some a => Ret a | None => Panic IndexOutOfRange end.

(** [xs[i] = v]: panics out of range. *)
Definition slice_set {A} (l : list A) (i : nat) (v : A) : outcome (list A) :=
  if decide (i < length l)%nat then Ret (<[i:=v]> l) else Panic IndexOutOfRange.

(** ** Tactics *)

(** Case analysis on the innermost stuck match or if of the goal, keeping
    the equation. *)
Ltac case_goal :=
  match goal with
  | |- context [match ?x with _ => _ end] =>
      lazymatch x with context [match _ with _ => _ end] => fail | _ => idtac end;
      let E := fresh "E" in destruct x eqn:E
  end.

(** The same in a hypothesis. *)
Ltac case_hyp H :=
  match type of H with
  | context [match ?x with _ => _ end] =>
      lazymatch x with context [match _ with _ => _ end] => fail | _ => idtac end;
      let E := fresh "E" in destruct x eqn:E
  end.

(** Turns the boolean tests of the translated code into propositions. *)
Ltac bool_to_prop :=
  repeat match goal with
  | H : _ && _ = true |- _ => apply andb_true_iff in H as [? ?]
  | H : _ && _ = false |- _ => apply andb_false_iff in H
  | H : _ || _ = true |- _ => apply orb_true_iff in H
  | H : _ || _ = false |- _ => apply orb_false_iff in H as [? ?]
  | H : negb _ = true |- _ => apply negb_true_iff in H
  | H : negb _ = false |- _ => apply negb_false_iff in H
  | H : (_ <? _) = true |- _ => apply Z.ltb_lt in H
  | H : (_ <? _) = false |- _ => apply Z.ltb_ge in H
  | H : (_ <=? _) = true |- _ => apply Z.leb_le in H
  | H : (_ <=? _) = false |- _ => apply Z.leb_gt in H
  | H : (_ =? _) = true |- _ => apply Z.eqb_eq in H
  | H : (_ =? _) = false |- _ => apply Z.eqb_neq in H
  | H : bool_decide _ = true |- _ => apply bool_decide_eq_true in H
  | H : bool_decide _ = false |- _ => apply bool_decide_eq_false in H
  end.

(** ** Integers at their width *)
Lemma wrap32_unfold z : i32 z = (z + 2147483648) mod 4294967296 - 2147483648.
Proof. reflexivity. Qed.

Lemma wrap64_unfold z :
  i64 z = (z + 9223372036854775808) mod 18446744073709551616 - 9223372036854775808.
Proof. reflexivity. Qed.

Lemma wrap32_in z : in_i32 (i32 z).
Proof.
  unfold in_i32, min_i32, max_i32. rewrite wrap32_unfold.
  pose proof (Z.mod_pos_bound (z + 2147483648) 4294967296). lia.
Qed.

Lemma wrap32_id z : in_i32 z -> i32 z = z.
Proof.
  unfold in_i32, min_i32, max_i32. intros H. rewrite wrap32_unfold.
  rewrite Z.mod_small; lia.
Qed.

Lemma wrap64_id z : in_i64 z -> i64 z = z.
Proof.
  unfold in_i64, min_i64, max_i64. intros H. rewrite wrap64_unfold.
  rewrite Z.mod_small; lia.
Qed.

(** Wrapping is a congruence for addition, so a chain of wrapped additions
    is the wrapped sum. *)
Lemma wrap32_add_l a b : i32 (i32 a + b) = i32 (a + b).
Proof.
  rewrite !wrap32_unfold. f_equal.
  replace ((a + 2147483648) mod 4294967296 - 2147483648 + b + 2147483648)
    with ((a + 2147483648) mod 4294967296 + b) by lia.
  rewrite Zplus_mod_idemp_l. f_equal. lia.
Qed.

Lemma wrap32_0 : i32 0 = 0.
Proof. reflexivity. Qed.

(** Solves goals on wrapped numbers that are in range: rewrites the wrap
    away, then [lia]. *)
Ltac width :=
  unfold in_i32, in_i64, min_i32, max_i32, min_i64, max_i64 in *;
  repeat match goal with
  | |- context [wrap 32 ?z] => rewrite (wrap32_id z) by (unfold in_i32, min_i32, max_i32; lia)
  | |- context [wrap 64 ?z] => rewrite (wrap64_id z) by (unfold in_i64, min_i64, max_i64; lia)
  | H : context [wrap 32 ?z] |- _ =>
      rewrite (wrap32_id z) in H by (unfold in_i32, min_i32, max_i32; lia)
  end; try lia.

(** ** Outcomes *)
Lemma bind_Ret_inv {A B} (m : outcome A) (f : A -> outcome B) b :
  m ≫= f = Ret b -> exists a, m = Ret a /\ f a = Ret b.
Proof. destruct m; [eauto | discriminate]. Qed.

Lemma slice_get_Ret {A} (l : list A) i a : slice_get l i = Ret a <-> l !! i = Some a.
Proof. unfold slice_get. destruct (l !! i); split; congruence. Qed.

Lemma slice_get_Panic {A} (l : list A) i :
  (length l <= i)%nat -> slice_get l i = Panic IndexOutOfRange.
Proof. intros H. unfold slice_get. by rewrite lookup_ge_None_2. Qed.

(** ** Sums over lists *)
Definition zsum (l : list Z) : Z := foldr Z.add 0 l.

Lemma zsum_cons a l : zsum (a :: l) = a + zsum l.
Proof. done. Qed.

Lemma zsum_app l k : zsum (l ++ k) = zsum l + zsum k.
Proof. induction l; simpl; lia. Qed.

Lemma zsum_nonneg l : Forall (fun z => 0 <= z) l -> 0 <= zsum l.
Proof. induction 1; simpl; lia. Qed.

#[export] Instance zsum_perm : Proper ((≡ₚ) ==> eq) zsum.
Proof. intros l k H. induction H; simpl; lia. Qed.

Lemma zsum_concat ls : zsum (concat ls) = zsum (map zsum ls).
Proof. induction ls as [|l ls IH]; simpl; [done|]. rewrite zsum_app. lia. Qed.

Lemma elem_of_concat {A} (x : A) ls : x ∈ concat ls <-> exists l, x ∈ l /\ l ∈ ls.
Proof. rewrite list_elem_of_In, in_concat. setoid_rewrite list_elem_of_In. naive_solver. Qed.

Create HintDb vgpu.
#[export] Hint Resolve wrap32_in zsum_nonneg : vgpu.
Create Rewrite HintDb vgpu_sums.
#[export] Hint Rewrite zsum_app zsum_concat : vgpu_sums.

(** ** Maps built by a loop of writes *)
Section fold_insert.
Context {A B : Type} (f : A -> string) (g : A -> B).

(** A loop [for a in l: m[f a] = g a] with distinct keys writes exactly the
    pairs of the list. *)
Lemma foldl_insert_list_to_map (l : list A) :
  NoDup (f <$> l) ->
  foldl (fun m a => <[f a := g a]> m) (∅ : gmap string B) l
  = list_to_map ((fun a => (f a, g a)) <$> l).
Proof.
  assert (forall m0 : gmap string B,
    foldl (fun m a => <[f a := g a]> m) m0 l
    = list_to_map (reverse ((fun a => (f a, g a)) <$> l)) ∪ m0) as H.
  { induction l as [|a l IH]; intros m0; simpl; [by rewrite (left_id_L ∅ _)|].
    rewrite IH, reverse_cons, list_to_map_app. simpl.
    rewrite <- (assoc_L (∪)). f_equal.
    by rewrite <- insert_union_l, (left_id_L ∅ (∪)). }
  intros Hnd. rewrite H, (right_id_L ∅ (∪)). apply list_to_map_proper; [|apply reverse_Permutation].
  rewrite reverse_Permutation, <- list_fmap_compose. done.
Qed.
End fold_insert.

Lemma foldl_ext {A B} (f g : B -> A -> B) b l :
  (forall b a, a ∈ l -> f b a = g b a) -> foldl f b l = foldl g b l.
Proof.
  revert b. induction l as [|a l IH]; intros b H; simpl; [done|].
  rewrite H by by left. apply IH. intros b' a' Ha. apply H. by right.
Qed.

(** A loop over the entries of a map that writes some of them. *)
Lemma foldl_insert_opt {A B} (g : A -> option B) (l : list (string * A)) (m : gmap string B) k :
  NoDup l.*1 ->
  foldl (fun m '(k, a) => match g a with Some b => <[k := b]> m | None => m end) m l !! k
  = match list_to_map (M := gmap string A) l !! k ≫= g with Some b => Some b | None => m !! k end.
Proof.
  revert m. induction l as [|[k0 a0] l IH]; intros m Hnd.
  { by rewrite list_to_map_nil, lookup_empty. }
  apply NoDup_cons in Hnd as [Hni Hnd]. simpl in Hni |- *. rewrite IH by done.
  destruct (decide (k0 = k)) as [->|Hne].
  - rewrite lookup_insert_eq. rewrite not_elem_of_list_to_map_1 by done. simpl.
    destruct (g a0); [by rewrite lookup_insert_eq|done].
  - rewrite lookup_insert_ne by done. destruct (g a0); [by rewrite lookup_insert_ne|done].
Qed.
