(* ===== verification/GoStrings.v ===== *)
(** * Go's [strings] and [strconv], as the program uses them

    Strings are byte strings ([String.string]).  [strings.ToUpper] is modelled
    on ASCII letters; device types and the annotations compared with them are
    ASCII.  [strconv.ParseInt] keeps Go's distinction between a syntax error
    (value 0) and a range error (value clamped to the width), because the
    program ignores the error and uses the value. *)

From Stdlib Require Import ZArith Lia Ascii String.
From stdpp Require Import base decidable option gmap strings numbers sorting list.
From S2P Require Import Prelude.

#[local] Open Scope string_scope.
#[local] Open Scope Z_scope.

#[global] Arguments String.append !_ _ : simpl nomatch.

(** ** [strings] *)

Fixpoint has_char (c : ascii) (s : string) : bool :=
  match s with
  | EmptyString => false
  | String a s' => (a =? c)%char || has_char c s'
  end.

(** [strings.Contains(s, sub)] *)
Fixpoint contains (s sub : string) : bool :=
  String.prefix sub s ||
  match s with
  | EmptyString => false
  | String _ s' => contains s' sub
  end.

(** [strings.Split(s, sep)] for a separator of one byte *)
Fixpoint split (sep : ascii) (s : string) : list string :=
  match s with
  | EmptyString => [""]
  | String a s' =>
      if (a =? sep)%char then "" :: split sep s'
      else match split sep s' with
           | [] => [String a ""]
           | w :: ws => String a w :: ws
           end
  end.

(** [strings.Join(elems, sep)] *)
Fixpoint join (sep : string) (l : list string) : string :=
  match l with
  | [] => ""
  | [a] => a
  | a :: l' => a +:+ sep +:+ join sep l'
  end.

Definition upper_char (c : ascii) : ascii :=
  let n := N_of_ascii c in
  if ((97 <=? n) && (n <=? 122))%N then ascii_of_N (n - 32) else c.

(** [strings.ToUpper] *)
Fixpoint to_upper (s : string) : string :=
  match s with
  | EmptyString => ""
  | String c s' => String (upper_char c) (to_upper s')
  end.

Definition lower_char (c : ascii) : ascii :=
  let n := N_of_ascii c in
  if ((65 <=? n) && (n <=? 90))%N then ascii_of_N (n + 32) else c.

(** [strings.ToLower] on ASCII letters *)
Fixpoint to_lower (s : string) : string :=
  match s with
  | EmptyString => ""
  | String c s' => String (lower_char c) (to_lower s')
  end.

(** [filepath.Base] and [path.Base] of a path without a slash at its end *)
Fixpoint path_base (p : string) : string :=
  match p with
  | EmptyString => ""
  | String c p' => if has_char "/" p then (if (c =? "/")%char && negb (has_char "/" p') then p' else path_base p') else p
  end.

(** ** [strconv] *)

Inductive num_error := ErrSyntax | ErrRange.

#[export] Instance num_error_eq_dec : EqDecision num_error.
Proof. solve_decision. Defined.

Definition byte_val (c : ascii) : Z := Z.of_N (N_of_ascii c).

(** The digit a byte stands for: 0-9, then letters of either case. *)
Definition digit_val (c : ascii) : option Z :=
  let b := byte_val c in
  if (48 <=? b) && (b <=? 57) then Some (b - 48)
  else if (97 <=? b) && (b <=? 122) then Some (b - 97 + 10)
  else if (65 <=? b) && (b <=? 90) then Some (b - 65 + 10)
  else None.

(** The loop of [strconv.ParseUint]: stops with a syntax error at the first
    byte that is no digit, with a range error as soon as the value exceeds
    [maxVal], whichever comes first. *)
Fixpoint parse_uint_loop (base maxVal n : Z) (s : string) : Z * option num_error :=
  match s with
  | EmptyString => (n, None)
  | String c s' =>
      match digit_val c with
      | None => (0, Some ErrSyntax)
      | Some d =>
          if base <=? d then (0, Some ErrSyntax)
          else if maxVal <? n * base + d then (maxVal, Some ErrRange)
          else parse_uint_loop base maxVal (n * base + d) s'
      end
  end.

Definition parse_uint (base bits : Z) (s : string) : Z * option num_error :=
  match s with
  | EmptyString => (0, Some ErrSyntax)
  | _ => parse_uint_loop base (2 ^ bits - 1) 0 s
  end.

(** [strconv.ParseInt(s, base, bits)] for a non-zero base *)
Definition parse_int (base bits : Z) (s : string) : Z * option num_error :=
  match s with
  | EmptyString => (0, Some ErrSyntax)
  | String c s' =>
      let '(neg, digits) :=
        if (c =? "+")%char then (false, s')
        else if (c =? "-")%char then (true, s')
        else (false, s) in
      let '(un, err) := parse_uint base bits digits in
      if decide (err = Some ErrSyntax) then (0, err)
      else
        let cutoff := 2 ^ (bits - 1) in
        if negb neg && (cutoff <=? un) then (cutoff - 1, Some ErrRange)
        else if neg && (cutoff <? un) then (- cutoff, Some ErrRange)
        else (if neg then - un else un, None)
  end.

(** [strconv.Atoi] on a 64-bit platform *)
Definition atoi (s : string) : Z * option num_error := parse_int 10 64 s.

Definition digit_char (d : Z) : ascii := ascii_of_N (Z.to_N (48 + d)).

Fixpoint itoa_loop (fuel : nat) (n : Z) (acc : string) : string :=
  match fuel with
  | O => acc
  | S f =>
      let acc' := String (digit_char (n mod 10)) acc in
      if n <? 10 then acc' else itoa_loop f (n / 10) acc'
  end.

(** [strconv.Itoa], [strconv.FormatInt(_, 10)]: 20 digits hold any 64-bit
    magnitude. *)
Definition itoa (z : Z) : string :=
  if z <? 0 then String "-" (itoa_loop 20 (- z) "") else itoa_loop 20 z "".

(** [strconv.FormatInt(_, 16)]: 16 digits hold any 64-bit magnitude. *)
Definition hex_digit_char (d : Z) : ascii := ascii_of_N (Z.to_N (if d <? 10 then 48 + d else 87 + d)).

Fixpoint hex_loop (fuel : nat) (n : Z) (acc : string) : string :=
  match fuel with
  | O => acc
  | S f =>
      let acc' := String (hex_digit_char (n mod 16)) acc in
      if n <? 16 then acc' else hex_loop f (n / 16) acc'
  end.

Definition format_hex (z : Z) : string :=
  if z <? 0 then String "-" (hex_loop 16 (- z) "") else hex_loop 16 z "".

(** [strings.Split(s, sep)] for a longer separator; [skip] bytes of a
    separator already recognised remain. *)
Fixpoint split_on (sep : string) (skip : nat) (s : string) : list string :=
  match s with
  | EmptyString => [""]
  | String a s' =>
      match skip with
      | S k => split_on sep k s'
      | O =>
          if String.prefix sep s then "" :: split_on sep (String.length sep - 1) s'
          else match split_on sep 0 s' with
               | [] => [String a ""]
               | w :: ws => String a w :: ws
               end
      end
  end.

(** [strings.Trim(s, c)] and [bytes.Trim] for one byte *)
Fixpoint trim_left (c : ascii) (s : string) : string :=
  match s with
  | String a s' => if (a =? c)%char then trim_left c s' else s
  | EmptyString => ""
  end.

Fixpoint trim_right (c : ascii) (s : string) : string :=
  match s with
  | EmptyString => ""
  | String a s' =>
      match trim_right c s' with
      | EmptyString => if (a =? c)%char then "" else String a ""
      | t => String a t
      end
  end.

Definition trim (c : ascii) (s : string) : string := trim_right c (trim_left c s).

(** [fmt.Sscanf(s, prefix + "%d", &i)]: the literal text, then white space
    (not a newline), then a number that ends at the first byte that is no
    digit; [None] is the error return, which leaves the variable as it is. *)
Fixpoint strip_prefix (prefix s : string) : option string :=
  match prefix, s with
  | EmptyString, _ => Some s
  | String a p, String b s' => if (a =? b)%char then strip_prefix p s' else None
  | _, _ => None
  end.

Fixpoint skip_space (s : string) : string :=
  match s with
  | String c s' =>
      let b := byte_val c in
      if (b =? 32) || (b =? 9) || (b =? 11) || (b =? 12) || (b =? 13) then skip_space s' else s
  | EmptyString => ""
  end.

Fixpoint digits_prefix (s : string) : string :=
  match s with
  | String c s' => if (48 <=? byte_val c) && (byte_val c <=? 57) then String c (digits_prefix s') else ""
  | EmptyString => ""
  end.

Definition sscanf_int (prefix s : string) : option Z :=
  match strip_prefix prefix s with
  | None => None
  | Some rest =>
      let tok := match skip_space rest with
                 | String c s' => if (c =? "+")%char || (c =? "-")%char then String c (digits_prefix s')
                                  else digits_prefix (String c s')
                 | EmptyString => ""
                 end in
      match parse_int 10 64 tok with (v, None) => Some v | (_, Some _) => None end
  end.

(** White space among the ASCII bytes. *)
Definition is_space (c : ascii) : bool :=
  let b := byte_val c in (b =? 32) || ((9 <=? b) && (b <=? 13)).

(** [strings.TrimSpace] on ASCII text *)
Fixpoint trim_space_left (s : string) : string :=
  match s with
  | String c s' => if is_space c then trim_space_left s' else s
  | EmptyString => ""
  end.

Fixpoint trim_space_right (s : string) : string :=
  match s with
  | EmptyString => ""
  | String c s' =>
      match trim_space_right s' with
      | EmptyString => if is_space c then "" else String c ""
      | t => String c t
      end
  end.

Definition trim_space (s : string) : string := trim_space_right (trim_space_left s).

(** [strings.ReplaceAll(s, old, new)] for single bytes *)
Fixpoint replace_char (old new : ascii) (s : string) : string :=
  match s with
  | EmptyString => ""
  | String c s' => String (if (c =? old)%char then new else c) (replace_char old new s')
  end.

(** [strings.TrimPrefix] *)
Definition trim_prefix (s prefix : string) : string := default s (strip_prefix prefix s).

(** [strings.SplitN(s, sep, 2)] for a separator of one byte: the text before
    and after the first separator, or [None] *)
Fixpoint cut (sep : ascii) (s : string) : option (string * string) :=
  match s with
  | EmptyString => None
  | String c s' =>
      if (c =? sep)%char then Some ("", s')
      else match cut sep s' with Some (a, b) => Some (String c a, b) | None => None end
  end.

(** [strconv.FormatBool] *)
Definition format_bool (b : bool) : string := if b then "true" else "false".

(** [strconv.ParseBool]: [None] is the syntax error *)
Definition parse_bool (s : string) : option bool :=
  if bool_decide (s ∈ ["1"; "t"; "T"; "TRUE"; "true"; "True"]) then Some true
  else if bool_decide (s ∈ ["0"; "f"; "F"; "FALSE"; "false"; "False"]) then Some false
  else None.

(** ** Lemmas: characters and appending *)
Lemma str_app_assoc (a b c : string) : (a +:+ b) +:+ c = a +:+ b +:+ c.
Proof. induction a as [|x a IH]; simpl; [done|]. by rewrite IH. Qed.

Lemma str_app_nil_r (a : string) : a +:+ "" = a.
Proof. induction a as [|x a IH]; simpl; [done|]. by rewrite IH. Qed.

Lemma has_char_app c a b : has_char c (a +:+ b) = has_char c a || has_char c b.
Proof. induction a as [|x a IH]; simpl; [done|]. by rewrite IH, orb_assoc. Qed.

Lemma contains_char c s : contains s (String c "") = has_char c s.
Proof.
  induction s as [|a s IH]; [done|]. simpl.
  rewrite IH. f_equal. destruct (Ascii.ascii_dec c a) as [->|Hne].
  - rewrite Ascii.eqb_refl. by destruct s.
  - symmetry. apply Ascii.eqb_neq. congruence.
Qed.

Lemma prefix_has_char c sub s :
  String.prefix sub s = true -> has_char c sub = true -> has_char c s = true.
Proof.
  revert s. induction sub as [|a sub IH]; intros s; [done|]. destruct s as [|b s]; [done|]. simpl.
  destruct (Ascii.ascii_dec a b) as [->|]; [|done]. intros Hp [->|Hc]%orb_true_iff; [done|].
  rewrite (IH _ Hp Hc). by rewrite orb_true_r.
Qed.

Lemma prefix_app p s : String.prefix p (p +:+ s) = true.
Proof.
  induction p as [|c p IH]; [by destruct s|]. simpl. destruct (Ascii.ascii_dec c c); [done|congruence].
Qed.

Lemma contains_prefix p s : contains (p +:+ s) p = true.
Proof. pose proof (prefix_app p s) as H. destruct (p +:+ s); cbn [contains]; by rewrite H. Qed.

Lemma contains_app_r a s sub : contains s sub = true -> contains (a +:+ s) sub = true.
Proof. intros Hs. induction a as [|c a IH]; [done|]. simpl. by rewrite IH, orb_true_r. Qed.

(** A text without a character of [sub] does not contain [sub]. *)
Lemma contains_no_char c sub s : has_char c sub = true -> has_char c s = false -> contains s sub = false.
Proof.
  intros Hc. induction s as [|a s IH]; simpl; intros Hs.
  - rewrite orb_false_r. destruct (String.prefix sub "") eqn:E; [|done].
    by pose proof (prefix_has_char _ _ _ E Hc).
  - apply orb_false_iff in Hs as [Ha Hs]. rewrite (IH Hs), orb_false_r.
    destruct (String.prefix sub (String a s)) eqn:E; [|done].
    pose proof (prefix_has_char _ _ _ E Hc) as Hx. simpl in Hx. by rewrite Ha, Hs in Hx.
Qed.

(** ** Lemmas: splitting *)
Lemma split_nonempty c s : split c s <> [].
Proof.
  destruct s; simpl; [done|].
  case_match; [done|]. by case_match.
Qed.

Lemma split_no_sep c s : has_char c s = false -> split c s = [s].
Proof.
  induction s as [|a s IH]; simpl; [done|].
  intros [-> Hs]%orb_false_iff. by rewrite (IH Hs).
Qed.

Lemma split_app c a b :
  has_char c a = false -> split c (a +:+ String c b) = a :: split c b.
Proof.
  induction a as [|x a IH]; simpl.
  - intros _. by rewrite Ascii.eqb_refl.
  - intros [-> Ha]%orb_false_iff. by rewrite (IH Ha).
Qed.

(** The pieces of a split rejoin to the string: nothing is lost. *)
Lemma join_split c s : join (String c "") (split c s) = s.
Proof.
  induction s as [|a s IH]; [done|]. simpl.
  pose proof (split_nonempty c s) as Hne.
  destruct (Ascii.eqb_spec a c) as [->|Hac].
  - destruct (split c s) as [|w ws]; [done|]. simpl in *. by rewrite IH.
  - destruct (split c s) as [|w [|w' ws]]; [done| |]; simpl in *; by rewrite IH.
Qed.

(** ** Lemmas: decimal printing and parsing *)
Lemma digit_val_char d : 0 <= d < 10 -> digit_val (digit_char d) = Some d.
Proof.
  intros H. assert (d ∈ [0;1;2;3;4;5;6;7;8;9]) as Hin.
  { rewrite !list_elem_of_In. simpl. lia. }
  repeat (apply elem_of_cons in Hin as [->|Hin]; [reflexivity|]). inversion Hin.
Qed.

Lemma digit_char_not_minus d : 0 <= d < 10 -> (digit_char d =? "+")%char = false
  /\ (digit_char d =? "-")%char = false.
Proof.
  intros H. assert (d ∈ [0;1;2;3;4;5;6;7;8;9]) as Hin.
  { rewrite !list_elem_of_In. simpl. lia. }
  repeat (apply elem_of_cons in Hin as [->|Hin]; [split; reflexivity|]). inversion Hin.
Qed.

Lemma parse_loop_itoa_loop fuel maxVal n tail :
  0 <= n < 10 ^ Z.of_nat fuel -> n <= maxVal ->
  parse_uint_loop 10 maxVal 0 (itoa_loop fuel n tail) = parse_uint_loop 10 maxVal n tail.
Proof.
  revert n tail. induction fuel as [|f IH]; intros n tail Hn Hmax.
  - simpl in *. f_equal. lia.
  - pose proof (Z.div_mod n 10) as Hdm. pose proof (Z.mod_pos_bound n 10) as Hm.
    rewrite Nat2Z.inj_succ, Z.pow_succ_r in Hn by lia.
    simpl. destruct (Z.ltb_spec n 10).
    + rewrite Z.mod_small by lia. simpl. rewrite digit_val_char by lia.
      destruct (Z.leb_spec 10 n); [lia|]. destruct (Z.ltb_spec maxVal (0 * 10 + n)); [lia|]. done.
    + rewrite IH; [|split; [apply Z.div_pos; lia|apply Z.div_lt_upper_bound; lia]|].
      2:{ assert (n / 10 <= n) by (apply Z.div_le_upper_bound; lia). lia. }
      simpl. rewrite digit_val_char by lia.
      destruct (Z.leb_spec 10 (n mod 10)); [lia|].
      destruct (Z.ltb_spec maxVal (n / 10 * 10 + n mod 10)); [lia|]. f_equal. lia.
Qed.

(** The text of a number starts with one of its digits. *)
Lemma itoa_loop_head fuel n tail :
  0 <= n -> exists d rest, 0 <= d < 10 /\ itoa_loop (S fuel) n tail = String (digit_char d) rest.
Proof.
  revert n tail. induction fuel as [|f IH]; intros n tail Hn.
  - exists (n mod 10), tail. split; [apply Z.mod_pos_bound; lia|].
    simpl. by destruct (n <? 10).
  - change (itoa_loop (S (S f)) n tail) with
      (let acc' := String (digit_char (n mod 10)) tail in
       if n <? 10 then acc' else itoa_loop (S f) (n / 10) acc').
    cbv zeta. destruct (n <? 10).
    + eexists _, _. split; [|reflexivity]. apply Z.mod_pos_bound; lia.
    + apply IH. apply Z.div_pos; lia.
Qed.

Lemma parse_uint_itoa bits n :
  0 <= n < 10 ^ 20 -> n <= 2 ^ bits - 1 ->
  parse_uint 10 bits (itoa_loop 20 n "") = (n, None).
Proof.
  intros Hn Hb. unfold parse_uint.
  destruct (itoa_loop_head 19 n "") as (d & rest & Hd & E); [lia|].
  rewrite E, <- E. by rewrite parse_loop_itoa_loop.
Qed.

(** [ParseInt(Itoa(z), 10, bits)] gives [z] back, with no error, for every
    [z] of the width. *)
Lemma parse_int_itoa bits z :
  1 <= bits <= 64 -> - 2 ^ (bits - 1) <= z < 2 ^ (bits - 1) ->
  parse_int 10 bits (itoa z) = (z, None).
Proof.
  intros Hbits Hz.
  assert (2 ^ bits = 2 * 2 ^ (bits - 1)) as Hpow.
  { rewrite <- Z.pow_succ_r by lia. f_equal. lia. }
  assert (2 ^ (bits - 1) <= 2 ^ 63) as Hle by (apply Z.pow_le_mono_r; lia).
  assert (0 < 2 ^ (bits - 1)) as Hpos by (apply Z.pow_pos_nonneg; lia).
  change (2 ^ 63) with 9223372036854775808 in Hle.
  assert (10 ^ 20 = 100000000000000000000) as H10 by reflexivity.
  unfold itoa. destruct (Z.ltb_spec z 0).
  - cbn [parse_int]. change (("-" =? "+")%char) with false.
    change (("-" =? "-")%char) with true. cbv iota.
    rewrite parse_uint_itoa by lia. rewrite decide_False by done. cbn [negb andb].
    destruct (Z.ltb_spec (2 ^ (bits - 1)) (- z)); [lia|]. f_equal. lia.
  - destruct (itoa_loop_head 19 z "") as (d & rest & Hd & E); [lia|].
    unfold parse_int. rewrite E.
    destruct (digit_char_not_minus d Hd) as [-> ->]. rewrite <- E.
    rewrite parse_uint_itoa by lia. rewrite decide_False by done. cbn [negb andb].
    destruct (Z.leb_spec (2 ^ (bits - 1)) z); [lia|]. done.
Qed.

Lemma itoa_inj i j : in_i64 i -> in_i64 j -> itoa i = itoa j -> i = j.
Proof.
  unfold in_i64, min_i64, max_i64. intros Hi Hj E.
  pose proof (parse_int_itoa 64 i ltac:(lia) ltac:(lia)) as Ei.
  pose proof (parse_int_itoa 64 j ltac:(lia) ltac:(lia)) as Ej. rewrite E, Ej in Ei. congruence.
Qed.

(** [Sscanf] reads back a number printed after its literal text. *)
Lemma strip_prefix_app p s : strip_prefix p (p +:+ s) = Some s.
Proof. induction p as [|a p IH]; [by destruct s|]. simpl. by rewrite Ascii.eqb_refl. Qed.

Lemma byte_digit_char d : 0 <= d < 10 -> byte_val (digit_char d) = 48 + d.
Proof.
  intros Hd. unfold byte_val, digit_char. rewrite N_ascii_embedding by lia. lia.
Qed.

Lemma digits_prefix_itoa fuel n tail :
  0 <= n -> digits_prefix tail = tail -> digits_prefix (itoa_loop fuel n tail) = itoa_loop fuel n tail.
Proof.
  revert n tail. induction fuel as [|f IH]; intros n tail Hn Ht; [done|]. cbn [itoa_loop].
  assert (digits_prefix (String (digit_char (n mod 10)) tail) = String (digit_char (n mod 10)) tail) as E.
  { pose proof (Z.mod_pos_bound n 10 ltac:(lia)). simpl. rewrite byte_digit_char by lia.
    destruct (Z.leb_spec 48 (48 + n mod 10)); [|lia]. destruct (Z.leb_spec (48 + n mod 10) 57); [|lia].
    simpl. by rewrite Ht. }
  destruct (n <? 10); [done|]. apply IH; [apply Z.div_pos; lia|done].
Qed.

Lemma sscanf_itoa prefix n : 0 <= n < 2 ^ 63 -> sscanf_int prefix (prefix +:+ itoa n) = Some n.
Proof.
  intros Hn. unfold sscanf_int. rewrite strip_prefix_app.
  assert (10 ^ 20 = 100000000000000000000) as H10 by reflexivity.
  assert (2 ^ 63 = 9223372036854775808) as H63 by reflexivity.
  destruct (itoa_loop_head 19 n "") as (d & rest & Hd & E); [lia|].
  assert (itoa n = String (digit_char d) rest) as Ei.
  { unfold itoa. destruct (Z.ltb_spec n 0); [lia|done]. }
  assert (digits_prefix (itoa n) = itoa n) as Ed.
  { unfold itoa. destruct (Z.ltb_spec n 0); [lia|]. by apply digits_prefix_itoa. }
  rewrite Ei. cbn [skip_space]. rewrite byte_digit_char by lia.
  destruct (Z.eqb_spec (48 + d) 32); [lia|]. destruct (Z.eqb_spec (48 + d) 9); [lia|].
  destruct (Z.eqb_spec (48 + d) 11); [lia|]. destruct (Z.eqb_spec (48 + d) 12); [lia|].
  destruct (Z.eqb_spec (48 + d) 13); [lia|]. cbn [orb].
  destruct (digit_char_not_minus d Hd) as [-> ->]. cbn [orb].
  rewrite <- Ei, Ed, (parse_int_itoa 64 n); [done|lia|lia].
Qed.

(** A printed number has no separator in it. *)
Lemma digit_char_has c d : 0 <= d < 10 -> digit_val c = None -> (digit_char d =? c)%char = false.
Proof.
  intros Hd Hc. apply Ascii.eqb_neq. intros <-. by rewrite digit_val_char in Hc.
Qed.

(** A printed number has only digits and perhaps a sign. *)
Definition decimal (c : ascii) : bool := (48 <=? byte_val c) && (byte_val c <=? 57).

Lemma itoa_loop_no_letter c fuel n tail :
  0 <= n -> decimal c = false -> has_char c (itoa_loop fuel n tail) = has_char c tail.
Proof.
  intros Hn Hc. revert n tail Hn. induction fuel as [|f IH]; intros n tail Hn; [done|]. simpl.
  assert (has_char c (String (digit_char (n mod 10)) tail) = has_char c tail) as E.
  { simpl. destruct (Ascii.eqb_spec (digit_char (n mod 10)) c) as [<-|]; [|done].
    unfold decimal in Hc. pose proof (Z.mod_pos_bound n 10 ltac:(lia)). rewrite byte_digit_char in Hc by done. lia. }
  destruct (n <? 10); [done|]. rewrite IH; [done|]. apply Z.div_pos; lia.
Qed.

Lemma itoa_no_letter c n : 0 <= n -> decimal c = false -> has_char c (itoa n) = false.
Proof. intros Hn Hc. unfold itoa. destruct (Z.ltb_spec n 0); [lia|]. by rewrite itoa_loop_no_letter. Qed.

Lemma itoa_loop_has_char c fuel n tail :
  0 <= n -> digit_val c = None -> has_char c (itoa_loop fuel n tail) = has_char c tail.
Proof.
  intros Hn Hc. revert n tail Hn. induction fuel as [|f IH]; intros n tail Hn; [done|]. simpl.
  assert (has_char c (String (digit_char (n mod 10)) tail) = has_char c tail) as E.
  { simpl. rewrite digit_char_has; [done|apply Z.mod_pos_bound; lia|done]. }
  destruct (n <? 10); [done|]. rewrite IH; [done|]. apply Z.div_pos; lia.
Qed.

Lemma itoa_has_char c z :
  digit_val c = None -> (c =? "-")%char = false -> has_char c (itoa z) = false.
Proof.
  intros Hc Hm. unfold itoa. destruct (Z.ltb_spec z 0).
  - cbn [has_char]. rewrite itoa_loop_has_char by (done || lia). cbn [has_char].
    rewrite orb_false_r. apply Ascii.eqb_neq. apply Ascii.eqb_neq in Hm. congruence.
  - rewrite itoa_loop_has_char by (done || lia). done.
Qed.

Lemma parse_format_bool b : parse_bool (format_bool b) = Some b.
Proof. by destruct b. Qed.

#[export] Hint Resolve split_no_sep split_app itoa_has_char parse_int_itoa : vgpu.
