(* ===== verification/GoScan.v ===== *)
(** * Go's [fmt.Sscanf]

    The device plugins read the output of command line tools and the files of
    the kernel with [fmt.Sscanf] and the verbs [%d] and [%s].  A format is a
    list of items: literal bytes, runs of white space, verbs.  A run of white
    space without a newline matches at least one space of the input (or its
    end), never a newline; each newline of the format matches spaces and then
    a newline or the end of the input; [%d] and [%s] skip spaces first.  The
    scan returns the values read before the first mismatch, and the error. *)

From Stdlib Require Import ZArith Lia Ascii String.
From stdpp Require Import base decidable option gmap strings numbers sorting list.
From S2P Require Import Prelude GoStrings.

#[local] Open Scope string_scope.
#[local] Open Scope Z_scope.

Definition NL : ascii := "010".

Inductive fmt_item :=
| Lit (c : ascii)
| Spaces (newlines : nat) (trailing : bool)
| VerbD
| VerbS.

Inductive scan_value :=
| SInt (z : Z)
| SStr (s : string).

(** A byte of white space in front of the items that follow it. *)
Definition add_space (c : ascii) (l : list fmt_item) : list fmt_item :=
  match l with
  | Spaces n t :: l' => Spaces (if (c =? NL)%char then S n else n) t :: l'
  | _ => Spaces (if (c =? NL)%char then 1 else 0) (negb (c =? NL)%char) :: l
  end.

(** The items of a format whose verbs are [%d] and [%s]. *)
Fixpoint parse_format (f : string) : list fmt_item :=
  match f with
  | EmptyString => []
  | String c f' =>
      if is_space c then add_space c (parse_format f')
      else if (c =? "%")%char then
        match f' with
        | String v f'' =>
            (if (v =? "d")%char then VerbD else if (v =? "s")%char then VerbS else Lit v) :: parse_format f''
        | EmptyString => []
        end
      else Lit c :: parse_format f'
  end.

Definition mismatch : error := "input does not match format".
Definition unexpected_EOF : error := "unexpected EOF".
Definition unexpected_newline : error := "unexpected newline".
Definition expected_integer : error := "expected integer".
Definition format_newline : error := "newline in format does not match input".
Definition expected_space : error := "expected space in input to match format".
Definition input_newline : error := "newline in input does not match format".

(** [for isSpace(inputc) && inputc != '\n' { inputc = s.getRune() }] *)
Fixpoint drop_blanks (s : string) : string :=
  match s with
  | String c s' => if is_space c && negb (c =? NL)%char then drop_blanks s' else s
  | EmptyString => ""
  end.

(** [SkipSpace]: a newline in front of a verb is an error. *)
Definition SkipSpace (s : string) : string + error :=
  match drop_blanks s with
  | String c s' => if (c =? NL)%char then inr unexpected_newline else inl (String c s')
  | EmptyString => inl ""
  end.

(** The newlines of a run in the format. *)
Fixpoint match_newlines (n : nat) (s : string) : string + error :=
  match n with
  | O => inl s
  | S n' =>
      match drop_blanks s with
      | EmptyString => match_newlines n' ""
      | String c s' => if (c =? NL)%char then match_newlines n' s' else inr format_newline
      end
  end.

(** The spaces behind the last newline of a run. *)
Definition match_trailing (alone : bool) (s : string) : string + error :=
  match s with
  | EmptyString => inl ""
  | String c _ =>
      if alone && negb (is_space c) then inr expected_space
      else if alone && (c =? NL)%char then inr input_newline
      else inl (drop_blanks s)
  end.

Definition match_spaces (newlines : nat) (trailing : bool) (s : string) : string + error :=
  match match_newlines newlines s with
  | inr e => inr e
  | inl s => if trailing then match_trailing (newlines =? 0)%nat s else inl s
  end.

(** The bytes after the digits at the start. *)
Fixpoint after_digits (s : string) : string :=
  match s with
  | String c s' => if (48 <=? byte_val c) && (byte_val c <=? 57) then after_digits s' else s
  | EmptyString => ""
  end.

(** [scanInt] for base 10 and an [int] *)
Definition scan_int (s : string) : (Z * string) + error :=
  match s with
  | EmptyString => inr unexpected_EOF
  | String c s' =>
      let '(sign, s) := if (c =? "+")%char || (c =? "-")%char then (String c "", s') else ("", s) in
      match digits_prefix s with
      | EmptyString => inr (if decide (s = "") then unexpected_EOF else expected_integer)
      | tok =>
          match parse_int 10 64 (sign +:+ tok) with
          | (v, None) => inl (v, after_digits s)
          | (_, Some _) => inr "integer overflow"
          end
      end
  end.

Fixpoint take_word (s : string) : string * string :=
  match s with
  | EmptyString => ("", "")
  | String c s' => if is_space c then ("", s) else let '(w, r) := take_word s' in (String c w, r)
  end.

(** [convertString] for [%s] *)
Definition scan_word (s : string) : (string * string) + error :=
  match s with EmptyString => inr unexpected_EOF | _ => inl (take_word s) end.

(** [doScanf]: the values scanned, and the error that ended the scan. *)
Fixpoint scan (items : list fmt_item) (s : string) (vals : list scan_value)
    : list scan_value * option error :=
  match items with
  | [] => (vals, None)
  | Lit c :: items' =>
      match s with
      | EmptyString => (vals, Some unexpected_EOF)
      | String a s' => if (a =? c)%char then scan items' s' vals else (vals, Some mismatch)
      end
  | Spaces n t :: items' =>
      match match_spaces n t s with
      | inr e => (vals, Some e)
      | inl s => scan items' s vals
      end
  | VerbD :: items' =>
      match SkipSpace s with
      | inr e => (vals, Some e)
      | inl s => match scan_int s with
                 | inr e => (vals, Some e)
                 | inl (v, s) => scan items' s (vals ++ [SInt v])
                 end
      end
  | VerbS :: items' =>
      match SkipSpace s with
      | inr e => (vals, Some e)
      | inl s => match scan_word s with
                 | inr e => (vals, Some e)
                 | inl (w, s) => scan items' s (vals ++ [SStr w])
                 end
      end
  end.

Definition Sscanf (s format : string) : list scan_value * option error := scan (parse_format format) s [].

(** ** Lines *)

(** The lines [bufio.Scanner] returns: ended by a newline, a carriage return
    before it dropped, no empty line at the end. *)
Fixpoint drop_last_empty (l : list string) : list string :=
  match l with
  | [] => []
  | [w] => if decide (w = "") then [] else [w]
  | w :: l' => w :: drop_last_empty l'
  end.

Fixpoint drop_CR (s : string) : string :=
  match s with
  | EmptyString => ""
  | String c EmptyString => if (c =? "013")%char then ""%string else s
  | String c s' => String c (drop_CR s')
  end.

Definition scan_lines (content : string) : list string := drop_CR <$> drop_last_empty (split NL content).

(** ** Reading back what was printed *)

(** Not a digit at the start: where a printed number ends. *)
Definition ends_number (s : string) : bool :=
  match s with String c _ => negb ((48 <=? byte_val c) && (byte_val c <=? 57)) | EmptyString => true end.

Lemma digits_prefix_app fuel n tail s :
  0 <= n -> digits_prefix tail = tail -> ends_number s = true ->
  digits_prefix (itoa_loop fuel n tail +:+ s) = itoa_loop fuel n tail
  /\ after_digits (itoa_loop fuel n tail +:+ s) = s.
Proof.
  intros Hn Ht Hs. pose proof (digits_prefix_itoa fuel n tail Hn Ht) as Hd.
  remember (itoa_loop fuel n tail) as t eqn:Et. clear Et Ht tail.
  induction t as [|c t IH]; simpl.
  - destruct s as [|a s]; [done|]. simpl in Hs |- *. apply negb_true_iff in Hs. by rewrite Hs.
  - simpl in Hd. destruct ((48 <=? byte_val c) && (byte_val c <=? 57)); [|done].
    injection Hd as Hd. destruct (IH Hd) as [-> ->]. done.
Qed.

Lemma itoa_nonneg_head n :
  0 <= n -> exists d rest, 0 <= d < 10 /\ itoa n = String (digit_char d) rest /\ itoa n = itoa_loop 20 n "".
Proof.
  intros Hn. destruct (itoa_loop_head 19 n "") as (d & rest & Hd & E); [lia|].
  exists d, rest. unfold itoa. destruct (Z.ltb_spec n 0); [lia|]. done.
Qed.

Lemma digit_char_no_space d : 0 <= d < 10 -> is_space (digit_char d) = false.
Proof.
  intros Hd. unfold is_space. rewrite byte_digit_char by done.
  destruct (Z.eqb_spec (48 + d) 32); [lia|]. destruct (Z.leb_spec (48 + d) 13); [lia|]. by rewrite andb_false_r.
Qed.

Lemma digit_char_no_NL d : 0 <= d < 10 -> (digit_char d =? NL)%char = false.
Proof. intros Hd. apply digit_char_has; done. Qed.

Lemma scan_itoa n s items vals :
  0 <= n < 2 ^ 63 -> ends_number s = true ->
  scan (VerbD :: items) (itoa n +:+ s) vals = scan items s (vals ++ [SInt n]).
Proof.
  intros Hn Hs. destruct (itoa_nonneg_head n) as (d & rest & Hd & E & El); [lia|].
  destruct (digits_prefix_app 20 n "" s) as [Hp Ha]; [lia|done|done|]. rewrite <- El in Hp, Ha.
  cbn [scan]. rewrite E in Hp, Ha |- *. cbn [String.append] in *. unfold SkipSpace. cbn [drop_blanks].
  rewrite digit_char_no_space by done. cbn [andb]. rewrite digit_char_no_NL by done.
  unfold scan_int. destruct (digit_char_not_minus d Hd) as [-> ->]. cbn [orb].
  rewrite Hp, Ha. cbn [String.append]. rewrite <- E, parse_int_itoa by lia. done.
Qed.

Lemma scan_lit c s items vals : scan (Lit c :: items) (String c s) vals = scan items s vals.
Proof. cbn [scan]. by rewrite Ascii.eqb_refl. Qed.

(** A number printed at the very end. *)
Lemma scan_itoa_end n items vals :
  0 <= n < 2 ^ 63 -> scan (VerbD :: items) (itoa n) vals = scan items "" (vals ++ [SInt n]).
Proof. intros Hn. rewrite <- (str_app_nil_r (itoa n)). by apply scan_itoa. Qed.

(** One space of the format in front of a number. *)
Lemma scan_blank_itoa n s items vals :
  0 <= n < 2 ^ 63 -> ends_number s = true ->
  scan (Spaces 0 true :: VerbD :: items) (String " " (itoa n +:+ s)) vals = scan items s (vals ++ [SInt n]).
Proof.
  intros Hn Hs. rewrite <- (scan_itoa n s items vals Hn Hs).
  destruct (itoa_nonneg_head n) as (d & rest & Hd & E & _); [lia|]. rewrite E.
  cbn [scan match_spaces match_newlines match_trailing String.append drop_blanks].
  unfold match_spaces, match_trailing. cbn [match_newlines drop_blanks]. cbn [Nat.eqb].
  change (is_space " ") with true. change ((" " =? NL)%char) with false. cbn [andb negb].
  rewrite digit_char_no_space by done. done.
Qed.

(** White space of the format in front of a literal or a verb: it takes the
    blanks of the input. *)
Definition blank (c : ascii) : bool := is_space c && negb (c =? NL)%char.

Fixpoint blanks (b : string) : bool :=
  match b with String c b' => blank c && blanks b' | EmptyString => true end.

Lemma drop_blanks_app b c s :
  blanks b = true -> is_space c = false -> drop_blanks (b +:+ String c s) = String c s.
Proof.
  intros Hb Hc. induction b as [|a b IH]; cbn [String.append drop_blanks]; [by rewrite Hc|].
  cbn [blanks] in Hb. apply andb_true_iff in Hb as [Ha Hb]. unfold blank in Ha. rewrite Ha. by apply IH.
Qed.

Lemma scan_blanks a b c s items vals :
  blanks (String a b) = true -> is_space c = false ->
  scan (Spaces 0 true :: items) (String a b +:+ String c s) vals = scan items (String c s) vals.
Proof.
  intros Hb Hc. pose proof (drop_blanks_app _ c s Hb Hc) as Hd.
  cbn [blanks] in Hb. apply andb_true_iff in Hb as [Ha Hb].
  unfold blank in Ha. apply andb_true_iff in Ha as [Ha Hn]. apply negb_true_iff in Hn.
  cbn [scan]. unfold match_spaces, match_trailing. cbn [match_newlines String.append Nat.eqb] in *.
  rewrite Ha, Hn. cbn [negb andb]. by rewrite Hd.
Qed.

Lemma scan_space c s items vals :
  is_space c = false -> scan (Spaces 0 true :: items) (String " " (String c s)) vals = scan items (String c s) vals.
Proof. intros Hc. by apply (scan_blanks " " ""). Qed.

(** A word without white space. *)
Fixpoint word (w : string) : bool :=
  match w with String c w' => negb (is_space c) && word w' | EmptyString => true end.

Lemma take_word_all w : word w = true -> take_word w = (w, "").
Proof.
  induction w as [|c w IH]; [done|]. cbn [word take_word]. intros [Hc Hw]%andb_true_iff.
  apply negb_true_iff in Hc. by rewrite Hc, IH.
Qed.

Lemma scan_word_end c w items vals :
  word (String c w) = true ->
  scan (VerbS :: items) (String c w) vals = scan items "" (vals ++ [SStr (String c w)]).
Proof.
  intros Hw. pose proof Hw as Hc. cbn [word] in Hc. apply andb_true_iff in Hc as [Hc _]. apply negb_true_iff in Hc.
  cbn [scan]. unfold SkipSpace. cbn [drop_blanks]. rewrite Hc. cbn [andb].
  assert ((c =? NL)%char = false) as ->.
  { apply Ascii.eqb_neq. intros ->. vm_compute in Hc. discriminate. }
  unfold scan_word. by rewrite take_word_all.
Qed.

(** A word followed by more words on the same line does not match a newline
    of the format. *)
Lemma take_word_space w s : word w = true -> take_word (w +:+ String " " s) = (w, String " " s).
Proof.
  induction w as [|c w IH]; [done|]. cbn [word take_word String.append]. intros [Hc Hw]%andb_true_iff.
  apply negb_true_iff in Hc. by rewrite Hc, IH.
Qed.

Definition printable (z : Z) : Prop := 0 <= z < 2 ^ 63.

(** Steps a scan through the literal bytes and printed numbers of a line. *)
Ltac scan_step :=
  first [rewrite scan_lit | rewrite scan_blank_itoa by done | rewrite scan_itoa by done | rewrite scan_itoa_end by done
        | rewrite scan_space by done].
Ltac scan_line :=
  unfold Sscanf; match goal with |- context [parse_format ?f] =>
    let l := eval vm_compute in (parse_format f) in change (parse_format f) with l end;
  cbn [String.append]; repeat scan_step.

Example scan_dcu_line :
  Sscanf ("DCU[3] 		: vram Total Memory (B): 17163091968")
         ("DCU[%d] 		: vram Total Memory (B): %d" +:+ String NL "") = ([SInt 3; SInt 17163091968], None).
Proof. reflexivity. Qed.
