(* ===== verification/GoRegexp.v ===== *)
(** * Go's [regexp], for the expressions of the program

    The program matches lines with three kinds of pieces: a byte of a class,
    one or more bytes of a class, and groups.  [FindStringSubmatch] gives the
    leftmost match that a backtracking matcher finds first, a repetition
    taking as many bytes as it can; that is Go's rule.  [derives] says which
    texts an expression matches, with the texts of its groups; the matcher is
    proved to find a match exactly when there is one, at the leftmost place. *)

From Stdlib Require Import ZArith Lia Ascii String.
From stdpp Require Import base decidable option strings list.
From S2P Require Import Prelude GoStrings.

#[local] Open Scope string_scope.

Inductive regex :=
| RClass (p : ascii -> bool)
| RPlus (p : ascii -> bool)
| RSeq (a b : regex)
| RGroup (r : regex).

(** A literal text in front of an expression. *)
Fixpoint RLit (s : string) (r : regex) : regex :=
  match s with EmptyString => r | String c s' => RSeq (RClass (Ascii.eqb c)) (RLit s' r) end.

(** ** What an expression matches *)
Fixpoint all_class (p : ascii -> bool) (s : string) : bool :=
  match s with EmptyString => true | String c s' => p c && all_class p s' end.

Inductive derives : regex -> string -> list string -> Prop :=
| derives_class p c : p c = true -> derives (RClass p) (String c "") []
| derives_plus p s : s <> "" -> all_class p s = true -> derives (RPlus p) s []
| derives_seq a b x y g h : derives a x g -> derives b y h -> derives (RSeq a b) (x +:+ y) (g ++ h)%list
| derives_group r x g : derives r x g -> derives (RGroup r) x (x :: g).

(** ** The matcher *)

(** The continuation gets the matched text, the rest and the groups. *)
Section matcher.
Context {A : Type}.

(** The repetition, the longest first; [acc] is matched already. *)
Fixpoint plus_more (p : ascii -> bool) (acc s : string) (k : string -> string -> list string -> option A) : option A :=
  match s with
  | String c s' =>
      if p c then
        match plus_more p (acc +:+ String c "") s' k with
        | Some a => Some a
        | None => k acc s []
        end
      else k acc s []
  | EmptyString => k acc s []
  end.

Fixpoint rx_match (r : regex) (s : string) (k : string -> string -> list string -> option A) : option A :=
  match r with
  | RClass p => match s with String c s' => if p c then k (String c "") s' [] else None | EmptyString => None end
  | RPlus p => match s with String c s' => if p c then plus_more p (String c "") s' k else None | EmptyString => None end
  | RSeq a b => rx_match a s (fun x s' g => rx_match b s' (fun y s'' h => k (x +:+ y) s'' (g ++ h)%list))
  | RGroup r => rx_match r s (fun x s' g => k x s' (x :: g))
  end.
End matcher.

(** [re.FindStringSubmatch(s)]: the match and its groups. *)
Fixpoint FindStringSubmatch (r : regex) (s : string) : option (list string) :=
  match rx_match r s (fun x _ g => Some (x :: g)) with
  | Some m => Some m
  | None => match s with EmptyString => None | String _ s' => FindStringSubmatch r s' end
  end.

(** ** The matcher is sound and complete *)
Lemma app_string_assoc (a b c : string) : (a +:+ b) +:+ c = a +:+ (b +:+ c).
Proof. induction a as [|x a IH]; cbn; [done|]. by rewrite IH. Qed.

Lemma app_string_nil (a : string) : a +:+ "" = a.
Proof. induction a as [|x a IH]; cbn; [done|]. by rewrite IH. Qed.

Lemma plus_more_sound {A} p acc s (k : string -> string -> list string -> option A) a :
  plus_more p acc s k = Some a -> exists x rest, s = x +:+ rest /\ all_class p x = true /\ k (acc +:+ x) rest [] = Some a.
Proof.
  revert acc. induction s as [|c s IH]; intros acc; cbn [plus_more].
  { intros E. exists "", "". by rewrite !app_string_nil. }
  assert (k acc (String c s) [] = Some a -> exists x rest, String c s = x +:+ rest /\ all_class p x = true /\ k (acc +:+ x) rest [] = Some a) as Hstop.
  { intros E. exists "", (String c s). by rewrite app_string_nil. }
  destruct (p c) eqn:Ep; [|done]. destruct (plus_more p (acc +:+ String c "") s k) as [b|] eqn:Em; [|done].
  intros [= ->]. apply IH in Em as (x & rest & -> & Hx & Hk). exists (String c x), rest. cbn. rewrite Ep.
  split_and!; [done|done|]. by rewrite app_string_assoc in Hk.
Qed.

Lemma plus_more_complete {A} p x : forall acc rest (k : string -> string -> list string -> option A),
  all_class p x = true -> is_Some (k (acc +:+ x) rest []) -> is_Some (plus_more p acc (x +:+ rest) k).
Proof.
  induction x as [|c x IH]; intros acc rest k Hx Hk; cbn [String.app plus_more].
  - rewrite app_string_nil in Hk. change ("" +:+ rest) with rest. destruct rest as [|c s]; cbn [plus_more]; [done|].
    destruct (p c); [|done]. destruct (plus_more _ _ s k); [by eexists|done].
  - cbn in Hx. apply andb_true_iff in Hx as [Hc Hx]. change (String c x +:+ rest) with (String c (x +:+ rest)). cbn [plus_more].
    rewrite Hc. destruct (IH (acc +:+ String c "") rest k Hx) as [b ->]; [by rewrite app_string_assoc|by eexists].
Qed.

Lemma rx_match_sound {A} r : forall s (k : string -> string -> list string -> option A) a,
  rx_match r s k = Some a -> exists x rest g, s = x +:+ rest /\ derives r x g /\ k x rest g = Some a.
Proof.
  induction r as [p|p|r1 IH1 r2 IH2|r IH]; intros s k a; cbn [rx_match].
  - destruct s as [|c s]; [done|]. destruct (p c) eqn:Ep; [|done]. intros E. exists (String c ""), s, []. split_and!; [done|by constructor|done].
  - destruct s as [|c s]; [done|]. destruct (p c) eqn:Ep; [|done]. intros (x & rest & -> & Hx & Hk)%plus_more_sound.
    exists (String c x), rest, []. split_and!; [done| |done]. constructor; [done|]. cbn. by rewrite Ep.
  - intros (x & s' & g & -> & Hx & E)%IH1. apply IH2 in E as (y & s'' & h & -> & Hy & E).
    exists (x +:+ y), s'', (g ++ h)%list. split_and!; [by rewrite app_string_assoc|by constructor|done].
  - intros (x & rest & g & -> & Hx & E)%IH. exists x, rest, (x :: g). split_and!; [done|by constructor|done].
Qed.

Lemma rx_match_complete {A} r x g : derives r x g -> forall rest (k : string -> string -> list string -> option A),
  is_Some (k x rest g) -> is_Some (rx_match r (x +:+ rest) k).
Proof.
  induction 1 as [p c Hc|p s Hs Hp|a b x y g h Ha IHa Hb IHb|r x g Hr IH]; intros rest k Hk; cbn [rx_match].
  - change (String c "" +:+ rest) with (String c rest). cbv beta iota. by rewrite Hc.
  - destruct s as [|c s]; [done|]. cbn in Hp. apply andb_true_iff in Hp as [Hc Hp].
    change (String c s +:+ rest) with (String c (s +:+ rest)). cbv beta iota. rewrite Hc. by apply plus_more_complete.
  - rewrite app_string_assoc. apply IHa. by apply IHb.
  - by apply IH.
Qed.

(** A match: where it starts, its text, what follows, and its groups. *)
Record match_at (r : regex) (s pre x post : string) (g : list string) : Prop := {
  ma_text : s = pre +:+ x +:+ post;
  ma_derives : derives r x g;
}.

Lemma FindStringSubmatch_sound r s m :
  FindStringSubmatch r s = Some m ->
  exists pre x post g, m = x :: g /\ match_at r s pre x post g
    /\ forall pre' x' post' g', match_at r s pre' x' post' g' -> (String.length pre <= String.length pre')%nat.
Proof.
  induction s as [|c s IH]; cbn [FindStringSubmatch].
  - destruct (rx_match r "" _) as [m'|] eqn:E; [|done]. intros [= ->].
    apply rx_match_sound in E as (x & rest & g & Es & Hx & [= <-]). exists "", x, rest, g. split_and!; [done|by split|]. cbn. lia.
  - destruct (rx_match r (String c s) _) as [m'|] eqn:E.
    + intros [= ->]. apply rx_match_sound in E as (x & rest & g & Es & Hx & [= <-]). exists "", x, rest, g.
      split_and!; [done|by split|]. cbn. lia.
    + intros (pre & x & post & g & -> & [-> Hx] & Hleft)%IH. exists (String c pre), x, post, g. split_and!; [done|by split|].
      intros pre' x' post' g' [Es Hx']. destruct pre' as [|c' pre'].
      * exfalso. cbn in Es. pose proof (rx_match_complete r x' g' Hx' post' (fun x _ g => Some (x :: g))) as Hc.
        rewrite <- Es, E in Hc. by destruct (Hc ltac:(by eexists)).
      * injection Es as -> Es. cbn. apply le_n_S. by eapply Hleft.
Qed.

Lemma FindStringSubmatch_complete r s pre x post g : match_at r s pre x post g -> is_Some (FindStringSubmatch r s).
Proof.
  intros [-> Hx]. induction pre as [|c pre IH].
  - change ("" +:+ x +:+ post) with (x +:+ post).
    pose proof (rx_match_complete r x g Hx post (fun x _ g => Some (x :: g)) ltac:(by eexists)) as [m Hm].
    destruct (x +:+ post); cbn [FindStringSubmatch]; rewrite Hm; by eexists.
  - change (String c pre +:+ x +:+ post) with (String c (pre +:+ x +:+ post)). cbn [FindStringSubmatch].
    destruct (rx_match r _ _); [by eexists|done].
Qed.
