(* ===== verification/GoTime.v ===== *)
(** * Go's [time], as the program uses it

    An instant is a number of nanoseconds since the Unix epoch.  A time is
    printed in the local zone, an offset from UTC in seconds.  The program
    prints and parses two layouts: RFC 3339, which carries the zone, and
    [2006.01.02 15:04:05], which does not and is read back as UTC. *)

From Stdlib Require Import ZArith Lia Ascii String.
From stdpp Require Import base decidable option gmap strings numbers sorting list.
From S2P Require Import Prelude GoStrings.

#[local] Open Scope Z_scope.

Definition Second : Z := 1000000000.
Definition Minute : Z := 60 * Second.

(** ** Calendar *)

(** The day of a proleptic Gregorian date, counted from 1970-01-01: years
    start in March and repeat after 400 years. *)
Definition days_from_civil (y m d : Z) : Z :=
  let y := if m <=? 2 then y - 1 else y in
  let yoe := y mod 400 in
  let doy := (153 * (if 2 <? m then m - 3 else m + 9) + 2) / 5 + d - 1 in
  y / 400 * 146097 + (365 * yoe + yoe / 4 - yoe / 100 + doy) - 719468.

Definition year_of_era (doe : Z) : Z :=
  (doe - doe / 1460 + doe / 36524 - doe / 146096) / 365.

Definition civil_from_days (z : Z) : Z * Z * Z :=
  let z := z + 719468 in
  let doe := z mod 146097 in
  let yoe := year_of_era doe in
  let doy := doe - (365 * yoe + yoe / 4 - yoe / 100) in
  let mp := (5 * doy + 2) / 153 in
  let m := if mp <? 10 then mp + 3 else mp - 9 in
  (yoe + z / 146097 * 400 + (if m <=? 2 then 1 else 0), m, doy - (153 * mp + 2) / 5 + 1).

Definition is_leap (y : Z) : bool := (y mod 4 =? 0) && (negb (y mod 100 =? 0) || (y mod 400 =? 0)).

Definition days_in (m y : Z) : Z :=
  if m =? 2 then if is_leap y then 29 else 28
  else if (m =? 4) || (m =? 6) || (m =? 9) || (m =? 11) then 30 else 31.

(** ** Printing *)
Definition pad2 (n : Z) (s : string) : string :=
  String (digit_char (n / 10)) (String (digit_char (n mod 10)) s).

(** A year of at most four digits. *)
Definition pad4 (n : Z) (s : string) : string := pad2 (n / 100) (pad2 (n mod 100) s).

Definition pad_year (y : Z) (s : string) : string :=
  if y <? 0 then String "-" (pad4 (- y) s) else if y <? 10000 then pad4 y s else itoa y +:+ s.

Definition format_datetime (dsep : ascii) (mid : ascii) (secs : Z) (s : string) : string :=
  let '(y, m, d) := civil_from_days (secs / 86400) in
  let r := secs mod 86400 in
  pad_year y (String dsep (pad2 m (String dsep (pad2 d (String mid
    (pad2 (r / 3600) (String ":" (pad2 (r / 60 mod 60) (String ":" (pad2 (r mod 60) s)))))))))).

Definition format_zone (zone : Z) : string :=
  if zone =? 0 then "Z"
  else String (if (zone <? 0)%Z then "-" else "+")%char
         (pad2 (Z.abs zone / 3600) (String ":" (pad2 (Z.abs zone / 60 mod 60) ""))).

(** [t.Format(time.RFC3339)] *)
Definition format_rfc3339 (zone t : Z) : string :=
  format_datetime "-" "T" (t / Second + zone) (format_zone zone).

(** [t.Format("2006.01.02 15:04:05")] *)
Definition format_plain (zone t : Z) : string :=
  format_datetime "." " " (t / Second + zone) "".

(** ** Parsing *)
Definition dec_digit (c : ascii) : option Z :=
  let b := byte_val c in if (48 <=? b) && (b <=? 57) then Some (b - 48) else None.

(** [getnum(s, fixed)]: two digits, or one when not [fixed]. *)
Definition getnum (fixed : bool) (s : string) : option (Z * string) :=
  match s with
  | EmptyString => None
  | String c s' =>
      a ← dec_digit c;
      match s' with
      | EmptyString => if fixed then None else Some (a, s')
      | String c' s'' =>
          match dec_digit c' with
          | Some b => Some (a * 10 + b, s'')
          | None => if fixed then None else Some (a, s')
          end
      end
  end.

(** A number in a range. *)
Definition getnum_in (fixed : bool) (lo hi : Z) (s : string) : option (Z * string) :=
  '(n, s) ← getnum fixed s;
  if (lo <=? n) && (n <=? hi) then Some (n, s) else None.

Definition getyear (s : string) : option (Z * string) :=
  '(a, s) ← getnum true s; '(b, s) ← getnum true s; Some (a * 100 + b, s).

Definition expect (c : ascii) (s : string) : option string :=
  match s with
  | String a s' => if (a =? c)%char then Some s' else None
  | EmptyString => None
  end.

Fixpoint cutspace (s : string) : string :=
  match s with
  | String a s' => if (a =? " ")%char then cutspace s' else s
  | EmptyString => s
  end.

(** A space of the layout: the value is at its end or has spaces. *)
Definition expect_space (s : string) : option string :=
  match s with
  | EmptyString => Some s
  | String a _ => if (a =? " ")%char then Some (cutspace s) else None
  end.

(** The digits of a fraction; nine of them count. *)
Fixpoint fraction (scale acc : Z) (s : string) : Z * string :=
  match s with
  | String c s' =>
      match dec_digit c with
      | Some d => fraction (scale / 10) (acc + d * scale) s'
      | None => (acc, s)
      end
  | EmptyString => (acc, s)
  end.

(** A fraction of a second is accepted after the seconds. *)
Definition getfraction (s : string) : Z * string :=
  match s with
  | String c (String c' s') =>
      if ((c =? ".")%char || (c =? ",")%char) && bool_decide (is_Some (dec_digit c'))
      then fraction (Second / 10) 0 (String c' s')
      else (0, s)
  | _ => (0, s)
  end.

Definition parse_datetime (dsep : ascii) (mid : string -> option string) (s : string)
    : option (Z * string) :=
  '(y, s) ← getyear s;
  s ← expect dsep s;
  '(m, s) ← getnum_in true 1 12 s;
  s ← expect dsep s;
  '(d, s) ← getnum true s;
  s ← mid s;
  '(hh, s) ← getnum_in false 0 23 s;
  s ← expect ":" s;
  '(mm, s) ← getnum_in true 0 59 s;
  s ← expect ":" s;
  '(ss, s) ← getnum_in true 0 59 s;
  let '(ns, s) := getfraction s in
  if (d <? 1) || (days_in m y <? d) then None
  else Some ((days_from_civil y m d * 86400 + hh * 3600 + mm * 60 + ss) * Second + ns, s).

Definition parse_zone (s : string) : option (Z * string) :=
  match s with
  | EmptyString => None
  | String c s' =>
      if (c =? "Z")%char then Some (0, s')
      else
        '(hr, s) ← getnum_in true 0 24 s';
        s ← expect ":" s;
        '(mm, s) ← getnum_in true 0 60 s;
        let off := (hr * 60 + mm) * 60 in
        if (c =? "+")%char then Some (off, s)
        else if (c =? "-")%char then Some (- off, s) else None
  end.

(** [time.Parse(time.RFC3339, s)] *)
Definition parse_rfc3339 (s : string) : option Z :=
  '(t, s) ← parse_datetime "-" (expect "T") s;
  '(off, s) ← parse_zone s;
  if decide (s = "") then Some (t - off * Second) else None.

(** [time.Parse("2006.01.02 15:04:05", s)] *)
Definition parse_plain (s : string) : option Z :=
  '(t, s) ← parse_datetime "." expect_space s;
  if decide (s = "") then Some t else None.

(** [time.Time{}], the first instant of year 1 *)
Definition zeroTime : Z := days_from_civil 1 1 1 * 86400 * Second.

(** ** The calendar is a bijection *)
Definition year_start (yoe : Z) : Z := 365 * yoe + yoe / 4 - yoe / 100.

Lemma year_of_era_mono a b : 0 <= a <= b -> b < 146097 -> year_of_era a <= year_of_era b.
Proof.
  intros H1 H2. unfold year_of_era. apply Z.div_le_mono; [lia|].
  Z.to_euclidean_division_equations. lia.
Qed.

Lemma year_of_era_ends :
  forallb (fun n => let y := Z.of_nat n in
    (year_of_era (year_start y) =? y) &&
    (year_of_era (if y =? 399 then 146096 else year_start (y + 1) - 1) =? y)) (seq 0 400) = true.
Proof. vm_compute. reflexivity. Qed.

(** The year a day belongs to. *)
Fixpoint find_year (n : nat) (doe : Z) : Z :=
  match n with
  | O => 0
  | S n' => if year_start (Z.of_nat n) <=? doe then Z.of_nat n else find_year n' doe
  end.

Lemma find_year_spec n doe :
  0 <= doe -> doe < year_start (Z.of_nat n + 1) ->
  let y := find_year n doe in
  0 <= y <= Z.of_nat n /\ year_start y <= doe < year_start (y + 1).
Proof.
  intros H0. induction n as [|n IH]; intros Hn; cbn [find_year].
  - change (year_start (Z.of_nat 0 + 1)) with 365 in Hn. change (year_start (0 + 1)) with 365.
    change (year_start 0) with 0. lia.
  - destruct (Z.leb_spec (year_start (Z.of_nat (S n))) doe).
    + split; [lia|]. done.
    + cbv zeta in IH. destruct IH as [? ?]; [|lia].
      replace (Z.of_nat n + 1) with (Z.of_nat (S n)) by lia. done.
Qed.

Lemma year_of_era_spec doe :
  0 <= doe < 146097 ->
  0 <= year_of_era doe < 400
  /\ year_start (year_of_era doe) <= doe < year_start (year_of_era doe) + 366
  /\ (doe < year_start (year_of_era doe + 1) \/ year_of_era doe = 399).
Proof.
  intros Hd.
  assert (exists y, 0 <= y < 400 /\ year_start y <= doe /\
    doe <= (if y =? 399 then 146096 else year_start (y + 1) - 1)) as (y & Hy & Hlo & Hhi).
  { destruct (Z.ltb_spec doe (year_start 400)) as [Hlt|Hge].
    - destruct (find_year_spec 399 doe) as [? ?]; [lia|done|]. exists (find_year 399 doe).
      split; [lia|]. split; [lia|]. destruct (Z.eqb_spec (find_year 399 doe) 399); lia.
    - exists 399. change (year_start 400) with 146096 in Hge. change (year_start 399) with 145731.
      cbn. lia. }
  pose proof year_of_era_ends as He. rewrite forallb_forall in He.
  specialize (He (Z.to_nat y)). rewrite in_seq, Z2Nat.id in He by lia. specialize (He ltac:(lia)).
  cbv zeta in He. bool_to_prop.
  assert (0 <= year_start y) by (unfold year_start; Z.to_euclidean_division_equations; lia).
  assert ((if y =? 399 then 146096 else year_start (y + 1) - 1) < 146097).
  { destruct (Z.eqb_spec y 399); [lia|]. unfold year_start. Z.to_euclidean_division_equations. lia. }
  pose proof (year_of_era_mono (year_start y) doe ltac:(lia) ltac:(lia)).
  assert (year_of_era doe <= y).
  { etransitivity; [apply year_of_era_mono; [split; [lia|exact Hhi]|lia]|]. lia. }
  assert (year_of_era doe = y) as -> by lia. split; [lia|].
  destruct (Z.eqb_spec y 399) as [->|]; [change (year_start 399) with 145731 in *; cbn [Z.eqb Pos.eqb] in *; lia|].
  split; [|left; lia]. unfold year_start in *. Z.to_euclidean_division_equations. lia.
Qed.


Lemma days_civil_round z : let '(y, m, d) := civil_from_days z in days_from_civil y m d = z.
Proof.
  unfold civil_from_days, days_from_civil. set (z' := z + 719468).
  pose proof (Z.mod_pos_bound z' 146097 ltac:(lia)) as Hdoe.
  pose proof (Z.div_mod z' 146097 ltac:(lia)) as Hz. set (doe := z' mod 146097) in *.
  destruct (year_of_era_spec doe Hdoe) as (Hy & Hys & _). set (yoe := year_of_era doe) in *.
  change (365 * yoe + yoe / 4 - yoe / 100) with (year_start yoe).
  set (doy := doe - year_start yoe) in *.
  assert (0 <= doy < 366) as Hdoy by lia. set (mp := (5 * doy + 2) / 153).
  assert (0 <= mp <= 11) as Hmp by (unfold mp; Z.to_euclidean_division_equations; lia).
  set (m := if mp <? 10 then mp + 3 else mp - 9).
  assert ((if 2 <? m then m - 3 else m + 9) = mp) as ->.
  { unfold m. destruct (Z.ltb_spec mp 10).
    - destruct (Z.ltb_spec 2 (mp + 3)); lia.
    - destruct (Z.ltb_spec 2 (mp - 9)); lia. }
  set (era := z' / 146097) in *.
  replace (if m <=? 2 then _ else _) with (yoe + era * 400) by (destruct (m <=? 2); lia).
  rewrite Z_mod_plus_full, Z.mod_small, Z.div_add, Z.div_small by lia. fold (year_start yoe).
  unfold doy, z' in *. lia.
Qed.

Lemma year_start_leap yoe :
  0 <= yoe < 400 ->
  year_start (yoe + 1) = year_start yoe + (if is_leap (yoe + 1) && negb (yoe =? 399) then 366 else 365).
Proof.
  intros Hy. unfold year_start, is_leap.
  destruct (Z.eqb_spec ((yoe + 1) mod 4) 0), (Z.eqb_spec ((yoe + 1) mod 100) 0),
    (Z.eqb_spec ((yoe + 1) mod 400) 0), (Z.eqb_spec yoe 399); cbn;
    Z.to_euclidean_division_equations; lia.
Qed.

Lemma is_leap_era y era : is_leap (y + era * 400) = is_leap y.
Proof.
  unfold is_leap. replace (era * 400) with (era * 100 * 4) at 1 by lia. rewrite Z_mod_plus_full.
  replace (era * 400) with (era * 4 * 100) at 1 by lia. by rewrite !Z_mod_plus_full.
Qed.

Lemma civil_valid z :
  let '(y, m, d) := civil_from_days z in 1 <= m <= 12 /\ 1 <= d <= days_in m y.
Proof.
  unfold civil_from_days. set (z' := z + 719468).
  pose proof (Z.mod_pos_bound z' 146097 ltac:(lia)) as Hdoe. set (doe := z' mod 146097) in *.
  destruct (year_of_era_spec doe Hdoe) as (Hy & Hys & Hend). set (yoe := year_of_era doe) in *.
  change (365 * yoe + yoe / 4 - yoe / 100) with (year_start yoe).
  set (doy := doe - year_start yoe) in *.
  assert (0 <= doy < 366) as Hdoy by lia.
  assert (doy < 365 \/ is_leap (yoe + 1) = true) as Hleap.
  { destruct Hend as [Hend| ->]; [|by right]. rewrite year_start_leap in Hend by done.
    destruct (is_leap (yoe + 1)); [by right|left]. cbn in Hend. lia. }
  clearbody doy. set (era := z' / 146097). clearbody era.
  assert (exists mp, (5 * doy + 2) / 153 = mp /\ 0 <= mp <= 11 /\ 153 * mp <= 5 * doy + 2 < 153 * mp + 153)
    as (mp & -> & Hmp & Hb)
    by (eexists; split; [done|]; Z.to_euclidean_division_equations; lia).
  assert (mp < 10 \/ mp = 10 \/ mp = 11) as [Hlt|[->| ->]] by lia.
  - destruct (Z.ltb_spec mp 10); [|lia]. destruct (Z.leb_spec (mp + 3) 2); [lia|].
    assert (1 <= doy - (153 * mp + 2) / 5 + 1 <= days_in (mp + 3) (yoe + era * 400 + 0)); [|lia].
    unfold days_in. destruct (Z.eqb_spec (mp + 3) 2); [lia|].
    destruct (Z.eqb_spec (mp + 3) 4), (Z.eqb_spec (mp + 3) 6), (Z.eqb_spec (mp + 3) 9),
      (Z.eqb_spec (mp + 3) 11); cbn [orb]; Z.to_euclidean_division_equations; lia.
  - change (days_in _ _) with 31. change ((153 * 10 + 2) / 5) with 306. cbn [Z.ltb Z.compare Pos.compare Pos.compare_cont]. lia.
  - change ((153 * 11 + 2) / 5) with 337. change (if 11 <? 10 then 11 + 3 else 11 - 9) with 2.
    change (if 2 <=? 2 then 1 else 0) with 1. change (days_in _ ?y) with (if is_leap y then 29 else 28).
    replace (yoe + era * 400 + 1) with (yoe + 1 + era * 400) by lia.
    rewrite is_leap_era.
    destruct Hleap as [?| ->]; [destruct (is_leap _)|]; lia.
Qed.

(** ** Printing and parsing back *)
Lemma dec_digit_char d : 0 <= d < 10 -> dec_digit (digit_char d) = Some d.
Proof.
  intros Hd. assert (d = 0 \/ d = 1 \/ d = 2 \/ d = 3 \/ d = 4 \/ d = 5 \/ d = 6 \/ d = 7
    \/ d = 8 \/ d = 9) as Hc by lia.
  repeat destruct Hc as [->|Hc]; [..|subst d]; reflexivity.
Qed.

Lemma getnum_pad2 fixed n s : 0 <= n < 100 -> getnum fixed (pad2 n s) = Some (n, s).
Proof.
  intros Hn. unfold pad2, getnum.
  rewrite !dec_digit_char by (Z.to_euclidean_division_equations; lia). cbn.
  do 2 f_equal. Z.to_euclidean_division_equations. lia.
Qed.

Lemma getnum_in_pad2 fixed lo hi n s :
  0 <= lo -> hi < 100 -> lo <= n <= hi -> getnum_in fixed lo hi (pad2 n s) = Some (n, s).
Proof.
  intros Hlo Hhi Hn. unfold getnum_in. rewrite getnum_pad2 by lia. cbn.
  destruct (Z.leb_spec lo n), (Z.leb_spec n hi); (done || lia).
Qed.

Lemma getyear_pad n s : 0 <= n < 10000 -> getyear (pad_year n s) = Some (n, s).
Proof.
  intros Hn. unfold pad_year. destruct (Z.ltb_spec n 0); [lia|]. destruct (Z.ltb_spec n 10000); [|lia].
  unfold pad4, getyear.
  do 2 (rewrite getnum_pad2 by (Z.to_euclidean_division_equations; lia); cbn [mbind option_bind]).
  do 2 f_equal. Z.to_euclidean_division_equations. lia.
Qed.

Lemma expect_cons c s : expect c (String c s) = Some s.
Proof. cbn. by rewrite Ascii.eqb_refl. Qed.

(** Nothing that can be read as a fraction of a second. *)
Definition no_fraction (s : string) : Prop := getfraction s = (0, s).

Lemma parse_format_datetime dsep mid_c mid secs s :
  (forall n s, 0 <= n < 100 -> mid (String mid_c (pad2 n s)) = Some (pad2 n s)) -> no_fraction s ->
  0 <= (civil_from_days (secs / 86400)).1.1 < 10000 ->
  parse_datetime dsep mid (format_datetime dsep mid_c secs s) = Some (secs * Second, s).
Proof.
  intros Hmid Hs Hy. unfold format_datetime, parse_datetime.
  pose proof (days_civil_round (secs / 86400)) as Hr. pose proof (civil_valid (secs / 86400)) as Hv.
  destruct (civil_from_days (secs / 86400)) as [[y m] d]. cbn [fst snd] in *. destruct Hv as [Hm Hd].
  assert (days_in m y <= 31) by (unfold days_in; repeat case_match; lia).
  pose proof (Z.mod_pos_bound secs 86400 ltac:(lia)) as Hb. set (r := secs mod 86400) in *.
  rewrite getyear_pad by done. cbn [mbind option_bind]. rewrite expect_cons. cbn [mbind option_bind].
  rewrite getnum_in_pad2 by lia. cbn [mbind option_bind]. rewrite expect_cons. cbn [mbind option_bind].
  rewrite getnum_pad2 by lia. cbn [mbind option_bind]. rewrite Hmid by (Z.to_euclidean_division_equations; lia). cbn [mbind option_bind].
  rewrite getnum_in_pad2 by (Z.to_euclidean_division_equations; lia). cbn [mbind option_bind].
  rewrite expect_cons. cbn [mbind option_bind].
  rewrite getnum_in_pad2 by (Z.to_euclidean_division_equations; lia). cbn [mbind option_bind].
  rewrite expect_cons. cbn [mbind option_bind].
  rewrite getnum_in_pad2 by (Z.to_euclidean_division_equations; lia). cbn [mbind option_bind].
  rewrite Hs. destruct (Z.ltb_spec d 1), (Z.ltb_spec (days_in m y) d); try lia. cbn [orb].
  do 2 f_equal. rewrite Hr, Z.add_0_r. f_equal. unfold r. Z.to_euclidean_division_equations. lia.
Qed.

(** The years 1970 to 9999. *)
Lemma civil_year_range z : 0 <= z < 2932897 -> 0 <= (civil_from_days z).1.1 < 10000.
Proof.
  intros Hz. unfold civil_from_days. cbn [fst snd]. set (z' := z + 719468).
  pose proof (Z.mod_pos_bound z' 146097 ltac:(lia)) as Hdoe. pose proof (Z.div_mod z' 146097 ltac:(lia)).
  set (doe := z' mod 146097) in *. destruct (year_of_era_spec doe Hdoe) as (Hy & Hys & _).
  set (yoe := year_of_era doe) in *. change (365 * yoe + yoe / 4 - yoe / 100) with (year_start yoe).
  set (mp := (5 * (doe - year_start yoe) + 2) / 153).
  set (m := if mp <? 10 then mp + 3 else mp - 9). set (era := z' / 146097) in *.
  assert (0 <= era <= 24) by lia. split; [destruct (m <=? 2); lia|].
  destruct (decide (era = 24 /\ yoe = 399)) as [[E1 E2]|]; [|destruct (m <=? 2); lia].
  assert (year_start yoe = 145731) as Es by (by rewrite E2).
  assert (0 <= mp <= 9) by (unfold mp; rewrite Es in *; unfold z' in *; Z.to_euclidean_division_equations; lia).
  unfold m. destruct (Z.ltb_spec mp 10); [|lia]. destruct (Z.leb_spec (mp + 3) 2); lia.
Qed.

(** An instant of the years 1971 to 9998, so that it is in the range in
    every zone. *)
Definition plain_time (t : Z) : Prop := 31536000 <= t / Second < 253370764800.

(** A zone of whole minutes. *)
Definition plain_zone (zone : Z) : Prop := - 86400 < zone < 86400 /\ zone mod 60 = 0.

Lemma plain_year zone t :
  plain_time t -> plain_zone zone -> 0 <= (civil_from_days ((t / Second + zone) / 86400)).1.1 < 10000.
Proof.
  intros Ht [Hz _]. apply civil_year_range. unfold plain_time in Ht.
  Z.to_euclidean_division_equations. lia.
Qed.


Lemma parse_format_zone zone : plain_zone zone -> parse_zone (format_zone zone) = Some (zone, ""%string).
Proof.
  intros [Hz Hm]. unfold format_zone. destruct (Z.eqb_spec zone 0) as [->|Hne]; [done|].
  assert (0 <= Z.abs zone / 3600 <= 24 /\ 0 <= Z.abs zone / 60 mod 60 <= 60 /\
    (Z.abs zone / 3600 * 60 + Z.abs zone / 60 mod 60) * 60 = Z.abs zone) as (H1 & H2 & H3)
    by (Z.to_euclidean_division_equations; lia).
  destruct (Z.ltb_spec zone 0); unfold parse_zone; simpl Ascii.eqb; cbv iota;
    (rewrite getnum_in_pad2 by lia); cbn [mbind option_bind]; rewrite expect_cons;
    cbn [mbind option_bind]; (rewrite getnum_in_pad2 by lia); cbn [mbind option_bind];
    rewrite H3; do 2 f_equal; lia.
Qed.

(** RFC 3339 is read back as the instant that was printed, cut to seconds,
    in every zone. *)
Lemma rfc3339_round zone t :
  plain_time t -> plain_zone zone ->
  parse_rfc3339 (format_rfc3339 zone t) = Some (t / Second * Second).
Proof.
  intros Ht Hz. unfold parse_rfc3339, format_rfc3339. rewrite parse_format_datetime.
  - cbn [mbind option_bind]. rewrite parse_format_zone by done. cbn [mbind option_bind].
    rewrite decide_True by done. f_equal. lia.
  - intros. by rewrite expect_cons.
  - unfold no_fraction, format_zone. destruct (zone =? 0); [done|]. by destruct (zone <? 0).
  - by apply plain_year.
Qed.

(** The other layout is read back as if the local clock were UTC. *)
Lemma plain_round zone t :
  plain_time t -> plain_zone zone ->
  parse_plain (format_plain zone t) = Some ((t / Second + zone) * Second).
Proof.
  intros Ht Hz. unfold parse_plain, format_plain. rewrite parse_format_datetime.
  - cbn [mbind option_bind]. by rewrite decide_True.
  - intros n s Hn. cbn [expect_space]. rewrite Ascii.eqb_refl. f_equal. unfold pad2. cbn [cutspace].
    rewrite Ascii.eqb_refl. cbn [cutspace].
    destruct (Ascii.eqb_spec (digit_char (n / 10)) " ") as [E|]; [|done].
    pose proof (dec_digit_char (n / 10)) as Hd. rewrite E in Hd.
    by discriminate Hd; Z.to_euclidean_division_equations; lia.
  - done.
  - by apply plain_year.
Qed.
