(* ===== verification/GoRuntime.v ===== *)
(** * What the Go language leaves open, as an interface

    The order in which [for k, v := range m] visits a map is unspecified, and
    [sort.Sort] may put equal elements in any order.  Both are fields of the
    class [GoRuntime], with the guarantees the language gives as its laws:
    the code that ranges over a map or sorts a slice is defined, and its
    theorems are proved, against this interface, so they hold for every
    order.  [go_reference] is one implementation (the key order of the map,
    and the insertion sort that [sort.Sort] runs on slices of at most 12
    elements); examples and witnesses evaluate with it.

    [float32] arithmetic is IEEE binary32 ([SpecFloat] at precision 24). *)

From Stdlib Require Import ZArith Lia SpecFloat Sorted.
From stdpp Require Import base decidable option gmap strings numbers sorting list.
From S2P Require Import Prelude.

#[local] Open Scope Z_scope.

(** ** Map ranges and sorting *)

(** The execution of a [range] statement: the source loop and, inside an
    outer loop, the iteration it belongs to. *)
Definition loop_id : Type := string * nat.

(** [less] is a strict weak order on the elements that satisfy [P]. *)
Record strict_weak_on {A} (P : A -> Prop) (less : A -> A -> bool) : Prop := {
  sw_asym a b : P a -> P b -> less a b = true -> less b a = false;
  sw_negtrans a b c :
    P a -> P b -> P c -> less b a = false -> less c b = false -> less c a = false;
}.

Class GoRuntime := {
  range {A : Type} : loop_id -> gmap string A -> list (string * A);
  range_perm {A : Type} (t : loop_id) (m : gmap string A) : range t m ≡ₚ map_to_list m;
  (** the keys of a map with integer keys *)
  range_ints : loop_id -> gset Z -> list Z;
  range_ints_perm (t : loop_id) (s : gset Z) : range_ints t s ≡ₚ elements s;
  sort_by {A : Type} : (A -> A -> bool) -> list A -> list A;
  sort_perm {A : Type} (less : A -> A -> bool) l : sort_by less l ≡ₚ l;
  sort_sorted {A : Type} (P : A -> Prop) (less : A -> A -> bool) l :
    strict_weak_on P less -> Forall P l ->
    StronglySorted (fun a b => less b a = false) (sort_by less l);
}.

(** ** A reference implementation *)

(** One outer iteration of Go's [insertionSort]: the new element moves left
    past the sorted prefix while it is less than its neighbour; the prefix is
    kept reversed, so its head is the neighbour. *)
Fixpoint insert_left {A} (less : A -> A -> bool) (x : A) (rl : list A) : list A :=
  match rl with
  | [] => [x]
  | y :: rl' => if less x y then y :: insert_left less x rl' else x :: y :: rl'
  end.

Definition insertion_sort {A} (less : A -> A -> bool) (l : list A) : list A :=
  reverse (foldl (fun rl x => insert_left less x rl) [] l).

(** ** float32 *)
Definition float32 : Type := spec_float.
Definition f32_of_Z (z : Z) : float32 := binary_normalize 24 128 z 0 false.
Definition f32_add : float32 -> float32 -> float32 := SFadd 24 128.
Definition f32_div : float32 -> float32 -> float32 := SFdiv 24 128.
Definition f32_ltb : float32 -> float32 -> bool := SFltb.
Definition f32_zero : float32 := S754_zero false.
Definition f32_is_nan (f : float32) : bool :=
  match f with S754_nan => true | _ => false end.

(** ** float64 *)
Definition float64 : Type := spec_float.
Definition f64_of_Z (z : Z) : float64 := binary_normalize 53 1024 z 0 false.
Definition f64_mul : float64 -> float64 -> float64 := SFmul 53 1024.
Definition f64_div : float64 -> float64 -> float64 := SFdiv 53 1024.
Definition f64_ltb : float64 -> float64 -> bool := SFltb.
Definition f64_eqb : float64 -> float64 -> bool := SFeqb.
Definition f64_zero : float64 := S754_zero false.
Definition f64_one : float64 := f64_of_Z 1.

(** The integer part, towards zero; [None] for infinities and NaN. *)
Definition f64_trunc (f : float64) : option Z :=
  match f with
  | S754_zero _ => Some 0
  | S754_finite s m e =>
      let z := if 0 <=? e then Zpos m * 2 ^ e else Zpos m / 2 ^ (- e) in Some (if s : bool then - z else z)
  | _ => None
  end.

(** [int32(f)]: the language fixes the result only when the integer part fits;
    here, as on amd64, the conversion goes through 64 bits. *)
Definition int32_of_f64 (f : float64) : Z :=
  match f64_trunc f with
  | Some z => if (min_i64 <=? z) && (z <=? max_i64) then i32 z else 0
  | None => 0
  end.

(** ** Insertion sort sorts *)
Section insertion.
Context {A : Type} (P : A -> Prop) (less : A -> A -> bool).

Lemma insert_left_perm x rl : insert_left less x rl ≡ₚ x :: rl.
Proof.
  induction rl as [|y rl IH]; simpl; [done|].
  destruct (less x y); [|done]. rewrite IH. apply perm_swap.
Qed.

Lemma insertion_sort_perm l : insertion_sort less l ≡ₚ l.
Proof.
  unfold insertion_sort. rewrite reverse_Permutation.
  assert (forall rl, foldl (fun rl x => insert_left less x rl) rl l ≡ₚ rl ++ l) as H.
  { induction l as [|x l IH]; intros rl; simpl; [by rewrite app_nil_r|].
    rewrite IH, insert_left_perm. simpl. by rewrite Permutation_middle. }
  by rewrite H.
Qed.

Context (Hsw : strict_weak_on P less).

Lemma insert_left_sorted x rl :
  P x -> Forall P rl ->
  StronglySorted (fun a b => less a b = false) rl ->
  StronglySorted (fun a b => less a b = false) (insert_left less x rl).
Proof.
  intros Hx HP Hs. induction Hs as [|y rl Hs IH Hy]; simpl; [repeat constructor|].
  apply Forall_cons in HP as [HPy HP].
  destruct (less x y) eqn:E.
  - constructor; [by apply IH|]. rewrite insert_left_perm. constructor; [|done].
    by apply (sw_asym _ _ Hsw).
  - constructor; [by constructor|]. constructor; [done|].
    rewrite Forall_forall in HP, Hy |- *. intros z Hz.
    apply (sw_negtrans _ _ Hsw z y x); auto.
Qed.

Lemma StronglySorted_reverse (R : A -> A -> Prop) l :
  StronglySorted R l -> StronglySorted (fun a b => R b a) (reverse l).
Proof.
  induction 1 as [|x l Hs IH Hx]; [constructor|].
  rewrite reverse_cons. apply StronglySorted_app_2; [|done|repeat constructor].
  intros a b Ha Hb. apply list_elem_of_singleton in Hb as ->.
  rewrite elem_of_reverse in Ha. by rewrite Forall_forall in Hx; apply Hx.
Qed.

Lemma insertion_sort_sorted l :
  Forall P l -> StronglySorted (fun a b => less b a = false) (insertion_sort less l).
Proof.
  intros HP. unfold insertion_sort.
  apply (StronglySorted_reverse (fun a b => less a b = false)).
  assert (forall rl, Forall P rl -> StronglySorted (fun a b => less a b = false) rl ->
    StronglySorted (fun a b => less a b = false)
      (foldl (fun rl x => insert_left less x rl) rl l)) as H; [|apply H; constructor].
  induction HP as [|x l Hx HP IH]; intros rl Hrl Hs; simpl; [done|].
  apply IH; [|by apply insert_left_sorted].
  rewrite insert_left_perm. by constructor.
Qed.
End insertion.

Definition go_reference : GoRuntime := {|
  range A t m := map_to_list m;
  range_perm A t m := reflexivity (map_to_list m);
  range_ints t s := elements s;
  range_ints_perm t s := reflexivity (elements s);
  sort_by A := insertion_sort;
  sort_perm A := insertion_sort_perm;
  sort_sorted A P less l Hsw HP := insertion_sort_sorted P less Hsw l HP;
|}.

(** ** Ranges *)
Section ranges.
Context `{GoRuntime} {A : Type}.
Implicit Types m : gmap string A.

Lemma elem_of_range t m k a : (k, a) ∈ range t m <-> m !! k = Some a.
Proof. rewrite range_perm. apply elem_of_map_to_list. Qed.

Lemma range_NoDup t m : NoDup (range t m).*1.
Proof. rewrite range_perm. apply NoDup_fst_map_to_list. Qed.

Lemma range_list_to_map t m : list_to_map (range t m) = m.
Proof.
  rewrite <- (list_to_map_to_list m) at 2.
  apply list_to_map_proper; [apply range_NoDup|apply range_perm].
Qed.

Lemma range_empty t : range t (∅ : gmap string A) = [].
Proof. apply Permutation_nil_r. by rewrite range_perm, map_to_list_empty. Qed.

Lemma length_range t m : length (range t m) = size m.
Proof. rewrite range_perm. apply length_map_to_list. Qed.

Lemma range_nil t m : range t m = [] -> m = ∅.
Proof.
  intros E. apply map_size_empty_inv. by rewrite <- (length_range t), E.
Qed.

Lemma range_singleton t k a : range t ({[k := a]} : gmap string A) = [(k, a)].
Proof.
  apply Permutation_singleton_r. by rewrite range_perm, map_to_list_singleton.
Qed.
End ranges.

(** ** Comparison of float32 values that are not NaN is a strict weak order *)

(** The place of a value in the order: class, then exponent, then mantissa;
    negative values in reverse. *)
Definition f32_key (f : float32) : Z * Z * Z :=
  match f with
  | S754_infinity true => (-2, 0, 0)
  | S754_finite true m e => (-1, - e, - Z.pos m)
  | S754_zero _ => (0, 0, 0)
  | S754_finite false m e => (1, e, Z.pos m)
  | S754_infinity false => (2, 0, 0)
  | S754_nan => (3, 0, 0)
  end.

Definition lex_lt (x y : Z * Z * Z) : Prop :=
  x.1.1 < y.1.1 \/ x.1.1 = y.1.1 /\ (x.1.2 < y.1.2 \/ x.1.2 = y.1.2 /\ x.2 < y.2).

Lemma f32_ltb_key a b :
  f32_is_nan a = false -> f32_is_nan b = false ->
  f32_ltb a b = true <-> lex_lt (f32_key a) (f32_key b).
Proof.
  unfold f32_ltb, SFltb, lex_lt.
  destruct a as [sa|[]| |[] ma ea], b as [sb|[]| |[] mb eb]; simpl; intros Ha Hb;
    try done; try (split; intros; (done || lia)); try (destruct sa; split; intros; (done || lia)).
  - destruct (Z.compare_spec ea eb) as [->|?|?]; simpl; [|split; (done || lia)..].
    change (Pos.compare_cont Eq ma mb) with (ma ?= mb)%positive.
    destruct (Pos.compare_spec ma mb) as [->|?|?]; simpl; split; (done || lia).
  - destruct (Z.compare_spec ea eb) as [->|?|?]; simpl; [|split; (done || lia)..].
    change (Pos.compare_cont Eq ma mb) with (ma ?= mb)%positive.
    destruct (Pos.compare_spec ma mb) as [->|?|?]; simpl; split; (done || lia).
Qed.

Lemma f32_strict_weak : strict_weak_on (fun f => f32_is_nan f = false) f32_ltb.
Proof.
  split.
  - intros a b Ha Hb H. apply not_true_iff_false. intros H'.
    apply f32_ltb_key in H, H'; [|done..]. unfold lex_lt in *. lia.
  - intros a b c Ha Hb Hc H1 H2. apply not_true_iff_false. intros H3.
    apply not_true_iff_false in H1, H2.
    rewrite f32_ltb_key in H1, H2, H3 by done. unfold lex_lt in *. lia.
Qed.
