(* ===== verification/Types.v ===== *)
(** * The data the components exchange

    [pkg/util/types.go], [pkg/api], the tables of [pkg/scheduler] and the
    fields of the Kubernetes objects the program reads or writes.  A
    [resource.Quantity] is known by what the program observes of it:
    [AsInt64] and [Value].  A Go map that is only read may be nil or empty
    alike; a node's annotations keep the difference ([None] is nil), because
    [nodelock] writes to them. *)

From Stdlib Require Import ZArith Lia.
From stdpp Require Import base decidable option gmap strings numbers sorting list.
From S2P Require Import Prelude GoRuntime.

#[local] Open Scope Z_scope.

(** ** [pkg/util/types.go] *)
Definition AssignedTimeAnnotations : string := "4pd.io/vgpu-time".
Definition AssignedIDsToAllocateAnnotations : string := "4pd.io/devices-to-allocate".
Definition AssignedNodeAnnotations : string := "4pd.io/vgpu-node".
Definition BindTimeAnnotations : string := "4pd.io/bind-time".
Definition DeviceBindPhase : string := "4pd.io/bind-phase".
Definition DeviceBindAllocating : string := "allocating".
Definition DeviceBindFailed : string := "failed".
Definition DeviceBindSuccess : string := "success".
Definition DeviceLimit : Z := 100.
Definition BestEffort : string := "best-effort".
Definition Restricted : string := "restricted".
Definition Guaranteed : string := "guaranteed".

Record ContainerDevice := mkContainerDevice {
  cd_Idx : Z;
  cd_UUID : string;
  cd_Type : string;
  cd_Usedmem : Z;
  cd_Usedcores : Z;
}.

Record ContainerDeviceRequest := mkRequest {
  req_Nums : Z;
  req_Type : string;
  req_Memreq : Z;
  req_MemPercentagereq : Z;
  req_Coresreq : Z;
}.

Abbreviation ContainerDevices := (list ContainerDevice).
Abbreviation ContainerDeviceRequests := (gmap string ContainerDeviceRequest).
Abbreviation PodSingleDevice := (list ContainerDevices).
Abbreviation PodDeviceRequests := (list ContainerDeviceRequests).
Abbreviation PodDevices := (gmap string PodSingleDevice).

(** [util.ContainerDevice{}] and [util.ContainerDeviceRequest{}] *)
Definition zeroContainerDevice : ContainerDevice := mkContainerDevice 0 "" "" 0 0.
Definition zeroRequest : ContainerDeviceRequest := mkRequest 0 "" 0 0 0.

Record DeviceUsage := mkDeviceUsage {
  du_Id : string;
  du_Index : Z;
  du_Used : Z;
  du_Count : Z;
  du_Usedmem : Z;
  du_Totalmem : Z;
  du_Totalcore : Z;
  du_Usedcores : Z;
  du_Numa : Z;
  du_Type : string;
  du_Health : bool;
}.

(** ** [pkg/api/device_register.go] *)
Module api.
Record DeviceInfo := mkDeviceInfo {
  Index : Z;
  Id : string;
  Count : Z;
  Devmem : Z;
  Devcore : Z;
  Type_ : string;
  Numa : Z;
  Health : bool;
}.
Definition TaskPriority : string := "CUDA_TASK_PRIORITY".
Definition CoreLimitSwitch : string := "GPU_CORE_UTILIZATION_POLICY".
End api.

(** ** [pkg/scheduler/nodes.go] *)
Record DeviceInfo := mkDeviceInfo {
  di_ID : string;
  di_Index : Z;
  di_Count : Z;
  di_Devmem : Z;
  di_Devcore : Z;
  di_Type : string;
  di_Numa : Z;
  di_Health : bool;
}.

Record NodeInfo := mkNodeInfo { ni_ID : string; ni_Devices : list DeviceInfo }.

Abbreviation DeviceUsageList := (list DeviceUsage).
Record NodeUsage := mkNodeUsage { nu_Devices : DeviceUsageList }.

(** ** Kubernetes objects *)
Record Quantity := mkQuantity { q_AsInt64 : option Z; q_Value : Z }.

Abbreviation ResourceList := (gmap string Quantity).

Record Container := mkContainer {
  ctr_Name : string;
  ctr_Limits : ResourceList;
  ctr_Requests : ResourceList;
  ctr_Env : list (string * string);
  ctr_PostStart : option (list string);  (* Lifecycle.PostStart.Exec.Command *)
  ctr_Privileged : option bool;          (* SecurityContext.Privileged *)
}.

(** [v1.Container{}] *)
Definition zeroContainer : Container := mkContainer "" ∅ ∅ [] None None.

Record Pod := mkPod {
  pod_Name : string;
  pod_Namespace : string;
  pod_UID : string;
  pod_Annotations : gmap string string;
  pod_Containers : list Container;
  pod_SchedulerName : string;
  pod_Phase : string;
}.

(** [&v1.Pod{}], what a failed typed Get returns beside its error *)
Definition zeroPod : Pod := mkPod "" "" "" ∅ [] "" "".

Record Node := mkNode {
  node_Name : string;
  node_Annotations : option (gmap string string);
  node_ResourceVersion : Z;
}.

Definition zeroNode : Node := mkNode "" None 0.

(** Reading a possibly nil map. *)
Definition node_annos (n : Node) : gmap string string := default ∅ (node_Annotations n).

(** ** [pkg/scheduler/pods.go] *)
Record podInfo := mkPodInfo {
  pi_Namespace : string;
  pi_Name : string;
  pi_Uid : string;
  pi_NodeID : string;
  pi_Devices : PodDevices;
}.

(** ** The kubelet's device plugin API *)
Module pluginapi.
Record Device := mkDevice { ID : string; Health : string }.
Definition Healthy : string := "Healthy".
Definition Unhealthy : string := "Unhealthy".
End pluginapi.

Record DeviceSpec := mkDeviceSpec { ds_HostPath : string; ds_ContainerPath : string; ds_Permissions : string }.
Record Mount := mkMount { mt_ContainerPath : string; mt_HostPath : string; mt_ReadOnly : bool }.
Record ContainerAllocateResponse := mkCar {
  car_Envs : gmap string string;
  car_Mounts : list Mount;
  car_Devices : list DeviceSpec;
}.

(** ** Decidable equality *)
#[export] Instance ContainerDevice_eq_dec : EqDecision ContainerDevice.
Proof. solve_decision. Defined.
#[export] Instance Request_eq_dec : EqDecision ContainerDeviceRequest.
Proof. solve_decision. Defined.
#[export] Instance DeviceUsage_eq_dec : EqDecision DeviceUsage.
Proof. solve_decision. Defined.
#[export] Instance apiDeviceInfo_eq_dec : EqDecision api.DeviceInfo.
Proof. solve_decision. Defined.
#[export] Instance DeviceInfo_eq_dec : EqDecision DeviceInfo.
Proof. solve_decision. Defined.
#[export] Instance NodeInfo_eq_dec : EqDecision NodeInfo.
Proof. solve_decision. Defined.
#[export] Instance NodeUsage_eq_dec : EqDecision NodeUsage.
Proof. solve_decision. Defined.
#[export] Instance Quantity_eq_dec : EqDecision Quantity.
Proof. solve_decision. Defined.
#[export] Instance Container_eq_dec : EqDecision Container.
Proof. solve_decision. Defined.
#[export] Instance Pod_eq_dec : EqDecision Pod.
Proof. solve_decision. Defined.
#[export] Instance Node_eq_dec : EqDecision Node.
Proof. solve_decision. Defined.
#[export] Instance podInfo_eq_dec : EqDecision podInfo.
Proof. solve_decision. Defined.
