(* ===== verification/Kube.v ===== *)
(** * The Kubernetes API, as an interface

    The program reaches the cluster through client-go, which is not part of
    the repository.  [KubeClient] is the record of the calls it makes, over
    an abstract state of the cluster; [KubeServer] states what the API server
    documents of them: a read returns a version of the object that is current
    at the call, and an update succeeds only on the version it was read from.
    Between two calls other clients may act, so the laws speak of the history
    of a node.  [server] is an implementation in memory whose calls can be
    scripted to fail or to be preceded by another client's write. *)

From Stdlib Require Import ZArith Lia.
From stdpp Require Import base decidable option gmap strings numbers sorting list.
From S2P Require Import Prelude GoRuntime Types.

#[local] Open Scope Z_scope.

(** ** Programs over the cluster *)

(** A Go function that calls the API: it may panic, and returns with the
    cluster as it leaves it. *)
Definition K (W A : Type) : Type := W -> outcome (A * W).

#[export] Instance K_ret W : MRet (K W) := fun A a w => Ret (a, w).
#[export] Instance K_bind W : MBind (K W) :=
  fun A B f m w => match m w with Ret (a, w') => f a w' | Panic p => Panic p end.

(** An API call: it never panics. *)
Definition call {W A} (f : W -> A * W) : K W A := fun w => Ret (f w).
Definition lift {W A} (m : outcome A) : K W A := fun w => a ← m; Ret (a, w).

Lemma K_bind_inv {W A B} (m : K W A) (f : A -> K W B) (w : W) r :
  (a ← m; f a) w = Ret r -> exists a w', m w = Ret (a, w') /\ f a w' = Ret r.
Proof. unfold mbind, K_bind. destruct (m w) as [[a w']|]; [eauto|done]. Qed.

Lemma lift_inv {W A} (m : outcome A) (w : W) r : lift m w = Ret r -> m = Ret r.1 /\ r.2 = w.
Proof. unfold lift. intros (a & Ha & [= <-])%bind_Ret_inv. done. Qed.

Class KubeClient (W : Type) := {
  (** [Nodes().Get]: on error, the node is the zero value *)
  api_GetNode : string -> W -> (Node * option error) * W;
  (** [Nodes().Update] *)
  api_UpdateNode : Node -> W -> option error * W;
  (** [Nodes().Patch] of annotations *)
  api_PatchNode : string -> gmap string string -> W -> option error * W;
  (** [nodeLister.List], [Pods("").List] *)
  api_ListNodes : W -> (list Node * option error) * W;
  api_ListPods : W -> (list Pod * option error) * W;
  (** [Pods(namespace).Get], [Pods(namespace).Patch] of annotations *)
  api_GetPod : string -> string -> W -> (Pod * option error) * W;
  api_PatchPod : string -> string -> gmap string string -> W -> option error * W;
  (** [Pods(namespace).Bind] of a pod by name and UID to a node *)
  api_Bind : string -> string -> string -> string -> W -> option error * W;
  (** [time.Now()], in nanoseconds *)
  api_Now : W -> Z * W;
}.

(** ** What the server promises *)
Class KubeServer (W : Type) `{!KubeClient W} := {
  (** the versions of a node, the newest first *)
  history : W -> string -> list Node;
  pod_view : W -> string -> string -> option Pod;
  history_versions w name : NoDup (node_ResourceVersion <$> history w name);
  history_name w name n : n ∈ history w name -> node_Name n = name;
  get_node_current name w n w' :
    api_GetNode name w = ((n, None), w') -> head (history w' name) = Some n;
  get_node_grows name' name w : history w name `suffix_of` history (api_GetNode name' w).2 name;
  now_grows name w : history (api_Now w).2 name = history w name;
  update_node_grows n name w : history w name `suffix_of` history (api_UpdateNode n w).2 name;
  (** optimistic concurrency *)
  update_node_current n w w' :
    api_UpdateNode n w = (None, w') ->
    exists n' n0 h, history w' (node_Name n) = n' :: n0 :: h
      /\ node_ResourceVersion n0 = node_ResourceVersion n /\ node_annos n' = node_annos n;
  patch_pod_applied ns name annos w w' :
    api_PatchPod ns name annos w = (None, w') ->
    exists p, pod_view w' ns name = Some p /\ annos ⊆ pod_Annotations p;
  patch_node_applied name annos w w' :
    api_PatchNode name annos w = (None, w') ->
    exists n, head (history w' name) = Some n /\ annos ⊆ node_annos n;
}.

(** Two versions of a node with the same number are the same. *)
Lemma history_version_inj `{KubeServer W} (w : W) name n n' :
  n ∈ history w name -> n' ∈ history w name ->
  node_ResourceVersion n = node_ResourceVersion n' -> n = n'.
Proof.
  intros (i & Hi)%list_elem_of_lookup (j & Hj)%list_elem_of_lookup E.
  pose proof (history_versions w name) as Hnd. rewrite NoDup_alt in Hnd.
  assert (i = j) as ->; [|congruence].
  apply (Hnd i j (node_ResourceVersion n)); rewrite list_lookup_fmap; by (rewrite Hi || rewrite Hj, E).
Qed.

(** ** A server in memory *)

(** What happens at a call: nothing special, a failure, or another client's
    write to a node just before it. *)
Inductive event :=
| Quiet
| Fail_ (e : error)
| Interfere (name : string) (annos : gmap string string).

Record Server := mkServer {
  sv_nodes : gmap string (list (option (gmap string string)));  (* versions, newest first *)
  sv_pods : list Pod;
  sv_bound : list (string * string);
  sv_now : Z;
  sv_script : list event;
}.

Definition with_nodes (w : Server) nodes : Server :=
  mkServer nodes (sv_pods w) (sv_bound w) (sv_now w) (sv_script w).
Definition with_pods (w : Server) pods : Server :=
  mkServer (sv_nodes w) pods (sv_bound w) (sv_now w) (sv_script w).

(** Numbers the versions from the oldest. *)
Fixpoint versions (name : string) (h : list (option (gmap string string))) : list Node :=
  match h with
  | [] => []
  | a :: h' => mkNode name a (Z.of_nat (length h')) :: versions name h'
  end.

Definition server_history (w : Server) (name : string) : list Node :=
  versions name (default [] (sv_nodes w !! name)).

Definition write_node (name : string) (annos : option (gmap string string)) (w : Server) : Server :=
  match sv_nodes w !! name with
  | Some h => with_nodes w (<[name := annos :: h]> (sv_nodes w))
  | None => w
  end.

(** Takes the next event of the script. *)
Definition step (w : Server) : option error * Server :=
  match sv_script w with
  | [] => (None, w)
  | e :: script =>
      let w := mkServer (sv_nodes w) (sv_pods w) (sv_bound w) (sv_now w) script in
      match e with
      | Quiet => (None, w)
      | Fail_ e => (Some e, w)
      | Interfere name annos => (None, write_node name (Some annos) w)
      end
  end.

Definition not_found : error := "not found".
Definition conflict : error := "the object has been modified".

Definition server_GetNode (name : string) (w : Server) : (Node * option error) * Server :=
  let '(err, w) := step w in
  match err, head (server_history w name) with
  | None, Some n => ((n, None), w)
  | None, None => ((zeroNode, Some not_found), w)
  | Some e, _ => ((zeroNode, Some e), w)
  end.

Definition server_UpdateNode (n : Node) (w : Server) : option error * Server :=
  let '(err, w) := step w in
  match err, head (server_history w (node_Name n)) with
  | None, Some n0 =>
      if node_ResourceVersion n0 =? node_ResourceVersion n
      then (None, write_node (node_Name n) (node_Annotations n) w) else (Some conflict, w)
  | None, None => (Some not_found, w)
  | Some e, _ => (Some e, w)
  end.

Definition server_PatchNode (name : string) (annos : gmap string string) (w : Server)
    : option error * Server :=
  let '(err, w) := step w in
  match err, head (server_history w name) with
  | None, Some n => (None, write_node name (Some (annos ∪ node_annos n)) w)
  | None, None => (Some not_found, w)
  | Some e, _ => (Some e, w)
  end.

Definition is_pod (ns name : string) (p : Pod) : Prop := pod_Namespace p = ns /\ pod_Name p = name.
#[export] Instance is_pod_dec ns name p : Decision (is_pod ns name p).
Proof. unfold is_pod. apply _. Defined.

Definition find_pod (ns name : string) (pods : list Pod) : option Pod :=
  snd <$> list_find (is_pod ns name) pods.

Definition with_annotations (p : Pod) (annos : gmap string string) : Pod :=
  mkPod (pod_Name p) (pod_Namespace p) (pod_UID p) annos (pod_Containers p)
    (pod_SchedulerName p) (pod_Phase p).

Definition server_PatchPod (ns name : string) (annos : gmap string string) (w : Server)
    : option error * Server :=
  let '(err, w) := step w in
  match err, list_find (is_pod ns name) (sv_pods w) with
  | None, Some (i, p) =>
      (None, with_pods w (<[i := with_annotations p (annos ∪ pod_Annotations p)]> (sv_pods w)))
  | None, None => (Some not_found, w)
  | Some e, _ => (Some e, w)
  end.

Definition server_Bind (ns name uid node : string) (w : Server) : option error * Server :=
  let '(err, w) := step w in
  match err, find_pod ns name (sv_pods w) with
  | None, Some p =>
      (None, mkServer (sv_nodes w) (sv_pods w) ((name, node) :: sv_bound w) (sv_now w) (sv_script w))
  | None, None => (Some not_found, w)
  | Some e, _ => (Some e, w)
  end.

#[export] Instance server : KubeClient Server := {|
  api_GetNode := server_GetNode;
  api_UpdateNode := server_UpdateNode;
  api_PatchNode := server_PatchNode;
  api_ListNodes w :=
    let '(err, w) := step w in
    ((omap (fun name => head (server_history w name)) (map_to_list (sv_nodes w)).*1, err), w);
  api_ListPods w := let '(err, w) := step w in ((sv_pods w, err), w);
  api_GetPod ns name w :=
    let '(err, w) := step w in
    match err, find_pod ns name (sv_pods w) with
    | None, Some p => ((p, None), w)
    | None, None => ((zeroPod, Some not_found), w)
    | Some e, _ => ((zeroPod, Some e), w)
    end;
  api_PatchPod := server_PatchPod;
  api_Bind := server_Bind;
  api_Now w := (sv_now w, w);
|}.

(** ** The server keeps its promises *)
Lemma versions_length name h : Forall (fun n => node_ResourceVersion n < Z.of_nat (length h)) (versions name h).
Proof.
  induction h as [|a h IH]; constructor; cbn; [lia|].
  eapply Forall_impl; [exact IH|]. cbn. lia.
Qed.

Lemma versions_NoDup name h : NoDup (node_ResourceVersion <$> versions name h).
Proof.
  induction h as [|a h IH]; cbn; constructor; [|done].
  intros (n & E & Hn)%list_elem_of_fmap. pose proof (versions_length name h) as Hl.
  rewrite Forall_forall in Hl. apply Hl in Hn. lia.
Qed.

Lemma versions_name name h n : n ∈ versions name h -> node_Name n = name.
Proof.
  induction h as [|a h IH]; cbn; [by intros ?%not_elem_of_nil|].
  intros [->|?]%elem_of_cons; [done|auto].
Qed.

Lemma write_node_history name annos w n h :
  server_history w name = n :: h ->
  exists v, server_history (write_node name annos w) name = mkNode name annos v :: n :: h.
Proof.
  unfold server_history, write_node. destruct (sv_nodes w !! name) as [hs|] eqn:E; cbn; [|done].
  intros Hh. rewrite lookup_insert_eq. cbn. rewrite Hh. by eexists.
Qed.

Lemma write_node_grows name name' annos w :
  server_history w name `suffix_of` server_history (write_node name' annos w) name.
Proof.
  unfold server_history, write_node. destruct (sv_nodes w !! name') as [hs|] eqn:E; [|done]. cbn.
  destruct (decide (name' = name)) as [->|Hne].
  - rewrite lookup_insert_eq, E. cbn. by eexists [_].
  - by rewrite lookup_insert_ne.
Qed.

Lemma step_grows w name : server_history w name `suffix_of` server_history (step w).2 name.
Proof.
  unfold step. destruct (sv_script w) as [|e script]; [done|].
  destruct e; cbn; [done..|]. by apply (write_node_grows name _ (Some annos) (mkServer _ _ _ _ _)).
Qed.

#[export] Program Instance server_laws : KubeServer Server := {|
  history := server_history;
  pod_view w ns name := find_pod ns name (sv_pods w);
|}.
Next Obligation. intros. apply versions_NoDup. Qed.
Next Obligation. intros w name n. apply versions_name. Qed.
Next Obligation.
  intros name w n w' E. cbn in E. unfold server_GetNode in E. destruct (step w) as [[e|] w1]; [done|].
  destruct (head (server_history w1 name)) eqn:Eh; [|done]. by injection E as <- <-.
Qed.
Next Obligation.
  intros name' name w. cbn. unfold server_GetNode. pose proof (step_grows w name) as Hs.
  destruct (step w) as [[e|] w1]; [done|]. by destruct (head (server_history w1 name')).
Qed.
Next Obligation. done. Qed.
Next Obligation.
  intros n name w. cbn. unfold server_UpdateNode. pose proof (step_grows w name) as Hs.
  destruct (step w) as [[e|] w1]; [done|]. destruct (head (server_history w1 _)) as [n0|]; [|done].
  destruct (_ =? _); [|done]. cbn. etransitivity; [exact Hs|apply write_node_grows].
Qed.
Next Obligation.
  intros n w w' E. cbn in E. unfold server_UpdateNode in E. destruct (step w) as [[e|] w1]; [done|].
  destruct (server_history w1 (node_Name n)) as [|n0 h] eqn:Eh; [done|]. cbn in E.
  destruct (Z.eqb_spec (node_ResourceVersion n0) (node_ResourceVersion n)); [|done].
  injection E as <-. destruct (write_node_history _ (node_Annotations n) _ _ _ Eh) as [v Hv].
  by exists (mkNode (node_Name n) (node_Annotations n) v), n0, h.
Qed.
Next Obligation.
  intros ns name annos w w' E. cbn in E. unfold server_PatchPod in E.
  destruct (step w) as [[e|] w1]; [done|].
  destruct (list_find (is_pod ns name) (sv_pods w1)) as [[i p]|] eqn:Ef; [|done].
  injection E as <-. cbn. apply list_find_Some in Ef as (Hi & Hp & Hmin).
  exists (with_annotations p (annos ∪ pod_Annotations p)). split; [|apply map_union_subseteq_l].
  unfold find_pod. rewrite (proj2 (list_find_Some _ _ i (with_annotations p (annos ∪ pod_Annotations p)))); [done|].
  split_and!; [by rewrite list_lookup_insert_eq by (by eapply lookup_lt_Some)|done|].
  intros j q Hj Hlt. rewrite list_lookup_insert_ne in Hj by lia. by eapply Hmin.
Qed.
Next Obligation.
  intros name annos w w' E. cbn in E. unfold server_PatchNode in E.
  destruct (step w) as [[e|] w1]; [done|].
  destruct (server_history w1 name) as [|n0 h] eqn:Eh; [done|]. cbn in E. injection E as <-.
  destruct (write_node_history _ (Some (annos ∪ node_annos n0)) _ _ _ Eh) as [v Hv]. rewrite Hv.
  eexists. split; [done|]. apply map_union_subseteq_l.
Qed.
