(* ===== verification/NodeLock.v ===== *)
(** * The lock of a node ([pkg/util/nodelock/nodelock.go])

    A node is locked by an annotation that holds the time of the lock.  The
    lock is taken with a read and an update of the node, repeated when the
    update is refused; it expires after five minutes. *)

From Stdlib Require Import ZArith Lia Ascii String.
From stdpp Require Import base decidable option gmap strings numbers sorting list.
From S2P Require Import Prelude GoStrings GoTime GoRuntime Types Kube.

#[local] Open Scope Z_scope.

Definition NodeLockTime : string := "4pd.io/mutex.lock".
Definition MaxLockRetry : nat := 5.

Definition is_locked_error (nodeName : string) : error := "node " +:+ nodeName +:+ " is locked".
Definition recently_locked_error (nodeName : string) : error :=
  "node " +:+ nodeName +:+ " has been locked within 5 minutes".
Definition set_retry_error : error := "setNodeLock exceeds retry count 5".
Definition release_retry_error : error := "releaseNodeLock exceeds retry count 5".
Definition parse_time_error : error := "parsing time".

(** [newNode.ObjectMeta.Annotations[NodeLockTime] = ts] on a copy: a write to
    a nil map panics. *)
Definition set_lock (node : Node) (ts : string) : outcome Node :=
  match node_Annotations node with
  | Some annos => Ret (mkNode (node_Name node) (Some (<[NodeLockTime := ts]> annos)) (node_ResourceVersion node))
  | None => Panic NilMapWrite
  end.

(** [delete(newNode.ObjectMeta.Annotations, NodeLockTime)]: a delete from a
    nil map does nothing. *)
Definition del_lock (node : Node) : Node :=
  mkNode (node_Name node) (delete NodeLockTime <$> node_Annotations node) (node_ResourceVersion node).

Section nodelock.
Context {W : Type} `{!KubeClient W} (zone : Z).

(** A read, the change, and an update. *)
Definition set_attempt (nodeName : string) : K W (option error) :=
  '(node, err) ← call (api_GetNode nodeName);
  match err with
  | Some e => mret (Some e)
  | None =>
      t ← call api_Now;
      newNode ← lift (set_lock node (format_rfc3339 zone t));
      call (api_UpdateNode newNode)
  end.

Fixpoint set_retry (i : nat) (nodeName : string) (err : option error) : K W (option error) :=
  match i, err with
  | S i', Some _ => err ← set_attempt nodeName; set_retry i' nodeName err
  | _, _ => mret err
  end.

Definition SetNodeLock (nodeName : string) : K W (option error) :=
  '(node, err) ← call (api_GetNode nodeName);
  match err with
  | Some e => mret (Some e)
  | None =>
      if decide (is_Some (node_annos node !! NodeLockTime)) then mret (Some (is_locked_error nodeName))
      else
        t ← call api_Now;
        newNode ← lift (set_lock node (format_rfc3339 zone t));
        err ← call (api_UpdateNode newNode);
        err ← set_retry MaxLockRetry nodeName err;
        mret (match err with Some _ => Some set_retry_error | None => None end)
  end.

Definition release_attempt (nodeName : string) : K W (option error) :=
  '(node, err) ← call (api_GetNode nodeName);
  match err with
  | Some e => mret (Some e)
  | None => call (api_UpdateNode (del_lock node))
  end.

Fixpoint release_retry (i : nat) (nodeName : string) (err : option error) : K W (option error) :=
  match i, err with
  | S i', Some _ => err ← release_attempt nodeName; release_retry i' nodeName err
  | _, _ => mret err
  end.

Definition ReleaseNodeLock (nodeName : string) : K W (option error) :=
  '(node, err) ← call (api_GetNode nodeName);
  match err with
  | Some e => mret (Some e)
  | None =>
      if decide (is_Some (node_annos node !! NodeLockTime)) then
        err ← call (api_UpdateNode (del_lock node));
        err ← release_retry MaxLockRetry nodeName err;
        mret (match err with Some _ => Some release_retry_error | None => None end)
      else mret None
  end.

Definition LockNode (nodeName : string) : K W (option error) :=
  '(node, err) ← call (api_GetNode nodeName);
  match err with
  | Some e => mret (Some e)
  | None =>
      match node_annos node !! NodeLockTime with
      | None => SetNodeLock nodeName
      | Some ts =>
          match parse_rfc3339 ts with
          | None => mret (Some parse_time_error)
          | Some lockTime =>
              t ← call api_Now;
              if 5 * Minute <? t - lockTime then
                err ← ReleaseNodeLock nodeName;
                match err with
                | Some e => mret (Some e)
                | None => SetNodeLock nodeName
                end
              else mret (Some (recently_locked_error nodeName))
          end
      end
  end.
End nodelock.

(** ** What an attempt writes *)
Section facts.
Context {W : Type} `{!KubeClient W, !KubeServer W} (zone : Z).

(** The newest version of the node was written on top of the one before it,
    with the lock added. *)
Definition lock_written (w : W) (name : string) : Prop :=
  exists n' n0 h t, history w name = n' :: n0 :: h
    /\ node_annos n' = <[NodeLockTime := format_rfc3339 zone t]> (node_annos n0).

Lemma set_lock_inv node ts n :
  set_lock node ts = Ret n ->
  node_Name n = node_Name node /\ node_ResourceVersion n = node_ResourceVersion node
  /\ node_annos n = <[NodeLockTime := ts]> (node_annos node).
Proof. unfold set_lock, node_annos. destruct (node_Annotations node); [|done]. by intros [= <-]. Qed.

(** An update that is accepted applies to the very version that was read. *)
Lemma update_read name (node : Node) w w1 w2 n w3 :
  api_GetNode name w = ((node, None), w1) ->
  (forall name, history w1 name `suffix_of` history w2 name) ->
  node_ResourceVersion n = node_ResourceVersion node -> node_Name n = name ->
  api_UpdateNode n w2 = (None, w3) ->
  exists n' h, history w3 name = n' :: node :: h /\ node_annos n' = node_annos n.
Proof.
  intros Hg Hs Hv Hn Hu. apply get_node_current in Hg.
  pose proof (update_node_grows n name w2) as Hgr. rewrite Hu in Hgr. cbn in Hgr.
  apply update_node_current in Hu as (n' & n0 & h & Hh & Hv0 & Ha). rewrite Hn in Hh.
  assert (n0 = node) as ->; [|by exists n', h].
  apply (history_version_inj w3 name).
  - rewrite Hh. right. left.
  - apply head_Some in Hg as [h1 Hg]. destruct (Hs name) as [k1 E1]. destruct Hgr as [k2 E2].
    rewrite E2, E1, Hg, !elem_of_app. right. right. left.
  - congruence.
Qed.

Lemma set_attempt_written name w w' :
  set_attempt zone name w = Ret (None, w') -> lock_written w' name.
Proof.
  unfold set_attempt, call, lift, mbind, K_bind. destruct (api_GetNode name w) as [[node err] w1] eqn:Eg.
  destruct err as [e|]; [done|]. destruct (api_Now w1) as [t w2] eqn:En.
  destruct (set_lock node (format_rfc3339 zone t)) as [n|p] eqn:Es; cbn; [|done].
  destruct (api_UpdateNode n w2) as [err w3] eqn:Eu. intros [= -> ->].
  apply set_lock_inv in Es as (Hname & Hver & Hann).
  pose proof (get_node_current _ _ _ _ Eg) as Hh. apply head_Some_elem_of in Hh.
  apply history_name in Hh.
  destruct (update_read name node w w1 w2 n w' Eg) as (n' & h & E & Ha); [|congruence..|].
  { intros nm. pose proof (now_grows nm w1) as Hg. rewrite En in Hg. cbn in Hg. by rewrite Hg. }
  exists n', node, h, t. split; [done|congruence].
Qed.

Lemma set_retry_written i name err w w' :
  (err = None -> lock_written w name) ->
  set_retry zone i name err w = Ret (None, w') -> lock_written w' name.
Proof.
  revert err w. induction i as [|i IH]; intros err w Hw; cbn [set_retry].
  { intros [= -> ->]. by apply Hw. }
  destruct err as [e|]; [|intros [= ->]; by apply Hw].
  unfold mbind, K_bind. destruct (set_attempt zone name w) as [[err w1]|p] eqn:E; [|done].
  apply IH. intros ->. by eapply set_attempt_written.
Qed.
End facts.

(** ** A cluster of one node *)
Definition epoch : Z := 1700000000 * Second.
Definition lock_text (t : Z) : string := format_rfc3339 0 t.

Definition one_node (annos : gmap string string) (script : list event) : Server :=
  mkServer {["n1" := [Some annos]]} [] [] epoch script.

Definition free_node : gmap string string := {["region" := "a"]}.
Definition locked_node (t : Z) : gmap string string := <[NodeLockTime := lock_text t]> free_node.

(** The annotations of the newest version. *)
Definition current_annos (w : Server) (name : string) : option (gmap string string) :=
  node_annos <$> head (server_history w name).

(** The calls on a node nobody else writes to. *)
Definition quiet (name : string) (h : list (option (gmap string string))) (t : Z) : Server :=
  mkServer {[name := h]} [] [] t [].

Lemma quiet_history name h t : server_history (quiet name h t) name = versions name h.
Proof. unfold server_history, quiet. cbn. by rewrite lookup_singleton_eq. Qed.

Lemma quiet_get name a h t :
  api_GetNode name (quiet name (a :: h) t)
  = ((mkNode name a (Z.of_nat (length h)), None), quiet name (a :: h) t).
Proof.
  change (api_GetNode name) with (server_GetNode name). unfold server_GetNode.
  change (step (quiet name (a :: h) t)) with (None : option error, quiet name (a :: h) t).
  cbv iota beta. by rewrite quiet_history.
Qed.

Lemma quiet_update name a a' h t :
  api_UpdateNode (mkNode name a' (Z.of_nat (length h))) (quiet name (a :: h) t)
  = (None, quiet name (a' :: a :: h) t).
Proof.
  change (api_UpdateNode (W := Server)) with server_UpdateNode. unfold server_UpdateNode.
  change (step (quiet name (a :: h) t)) with (None : option error, quiet name (a :: h) t).
  cbv iota beta. cbn [node_Name node_ResourceVersion node_Annotations]. rewrite quiet_history. cbn [versions head].
  cbn [node_ResourceVersion]. rewrite Z.eqb_refl. unfold write_node, quiet, with_nodes. cbn.
  by rewrite lookup_singleton_eq, insert_singleton_eq.
Qed.

Lemma quiet_release name old h t :
  is_Some (old !! NodeLockTime) ->
  ReleaseNodeLock name (quiet name (Some old :: h) t)
  = Ret (None, quiet name (Some (delete NodeLockTime old) :: Some old :: h) t).
Proof.
  intros Hl. unfold ReleaseNodeLock, call, mbind, K_bind. rewrite quiet_get. cbv beta iota.
  rewrite decide_True by done. unfold del_lock. cbn [node_Name node_Annotations node_ResourceVersion].
  change (delete NodeLockTime <$> Some old) with (Some (delete NodeLockTime old)).
  by rewrite quiet_update.
Qed.

Lemma quiet_set zone name annos h t :
  annos !! NodeLockTime = None ->
  SetNodeLock zone name (quiet name (Some annos :: h) t)
  = Ret (None, quiet name (Some (<[NodeLockTime := format_rfc3339 zone t]> annos) :: Some annos :: h) t).
Proof.
  intros Hl. unfold SetNodeLock, call, lift, mbind, K_bind, outcome_bind. rewrite quiet_get. cbv beta iota.
  rewrite decide_False by (cbn; rewrite Hl; by intros [? ?]).
  change (api_Now (quiet name (Some annos :: h) t)) with (t, quiet name (Some annos :: h) t).
  unfold set_lock. cbn [node_Name node_Annotations node_ResourceVersion]. by rewrite quiet_update.
Qed.

Module NodeLockProps.

(** When [SetNodeLock] reports success, the newest version of the node
    carries the lock, and it was written on top of the version just before
    it without touching any other annotation; whatever failed on the way
    and whatever other clients did between the calls. *)
Theorem SetNodeLock_sound {W : Type} `{!KubeClient W, !KubeServer W} zone name (w w' : W) :
  SetNodeLock zone name w = Ret (None, w') -> lock_written zone w' name.
Proof.
  intros E. pose proof (set_attempt_written zone name w) as Ha.
  unfold SetNodeLock, set_attempt, call, lift, mbind, K_bind, outcome_bind in *.
  destruct (api_GetNode name w) as [[node err] w1]. destruct err as [e|]; [done|].
  case_decide; [done|]. destruct (api_Now w1) as [t w2].
  destruct (set_lock node (format_rfc3339 zone t)) as [n|p]; cbv beta iota in *; [|done].
  destruct (api_UpdateNode n w2) as [err w3].
  destruct (set_retry zone MaxLockRetry name err w3) as [[err' w4]|p] eqn:Er; [|done].
  destruct err' as [e|]; [done|]. injection E as ->.
  eapply set_retry_written; [|exact Er]. intros ->. by apply Ha.
Qed.

Lemma SetNodeLock_sound_witness :
  exists w', SetNodeLock 0 "n1" (one_node free_node [Quiet; Fail_ "timeout"]) = Ret (None, w')
  /\ lock_written 0 w' "n1" /\ current_annos w' "n1" = Some (locked_node epoch).
Proof.
  eexists. split; [vm_compute; reflexivity|]. split; [|vm_compute; reflexivity].
  apply (SetNodeLock_sound 0 "n1" (one_node free_node [Quiet; Fail_ "timeout"])). vm_compute; reflexivity.
Defined.

(** C12. The lock is exclusive: when [SetNodeLock] succeeds and its first update
    is accepted, the version of the node just before the update is the one
    that was read, it carried no lock, and the new version differs in its
    annotations by the lock alone. *)
Theorem SetNodeLock_exclusive {W : Type} `{!KubeClient W, !KubeServer W} zone name
    (node : Node) (w w1 w2 w3 : W) t n w' :
  api_GetNode name w = ((node, None), w1) -> api_Now w1 = (t, w2) ->
  set_lock node (format_rfc3339 zone t) = Ret n -> api_UpdateNode n w2 = (None, w3) ->
  SetNodeLock zone name w = Ret (None, w') ->
  exists n' h, history w' name = n' :: node :: h
    /\ node_annos node !! NodeLockTime = None
    /\ node_annos n' = <[NodeLockTime := format_rfc3339 zone t]> (node_annos node).
Proof.
  intros Eg En Es Eu. unfold SetNodeLock, call, lift, mbind, K_bind, outcome_bind. rewrite Eg.
  case_decide as Hl; [done|]. rewrite En, Es. cbv beta iota. rewrite Eu. intros [= ->].
  apply set_lock_inv in Es as (Hname & Hver & Hann).
  pose proof (get_node_current _ _ _ _ Eg) as Hh. apply head_Some_elem_of in Hh. apply history_name in Hh.
  destruct (update_read name node w w1 w2 n w' Eg) as (n' & h & E & Ha); [|congruence..|].
  { intros nm. pose proof (now_grows nm w1) as Hg. rewrite En in Hg. cbn in Hg. by rewrite Hg. }
  exists n', h. split_and!; [done|by apply eq_None_not_Some|congruence].
Qed.

Lemma SetNodeLock_exclusive_witness :
  exists w' n' node h, SetNodeLock 0 "n1" (one_node free_node []) = Ret (None, w')
  /\ history w' "n1" = n' :: node :: h /\ node_annos node !! NodeLockTime = None.
Proof.
  pose (w := one_node free_node []). pose (n := mkNode "n1" (Some (locked_node epoch)) 0).
  destruct (SetNodeLock_exclusive 0 "n1" (mkNode "n1" (Some free_node) 0) w w w
    (server_UpdateNode n w).2 epoch n (server_UpdateNode n w).2) as (n' & h & E & Hl & _);
    [vm_compute; reflexivity..|].
  exists (server_UpdateNode n w).2, n', (mkNode "n1" (Some free_node) 0), h.
  split; [vm_compute; reflexivity|]. split; [exact E|exact Hl].
Defined.

(** The retry does not look at the lock again: when another client locks
    the node between the read and the update, the update is refused, and the
    retry overwrites that client's lock and reports success. *)
Theorem SetNodeLock_steals_after_conflict :
  let other := locked_node (epoch - Minute) in
  match SetNodeLock 0 "n1" (one_node free_node [Quiet; Interfere "n1" other]) with
  | Ret (err, w') =>
      err = None /\ current_annos w' "n1" = Some (locked_node epoch)
      /\ node_annos <$> server_history w' "n1" = [locked_node epoch; other; free_node]
  | Panic _ => False
  end.
Proof. vm_compute. repeat split; reflexivity. Qed.

(** C21. [LockNode] honours a lock of at most five minutes, whatever the local
    zone of the client that set it and its own: it reports an error, and
    makes no other call than reading the node and the clock. *)
Theorem LockNode_honours_lock {W : Type} `{!KubeClient W} zone zone' name (node : Node) (w w1 : W) t w2 t0 :
  api_GetNode name w = ((node, None), w1) -> api_Now w1 = (t, w2) ->
  node_annos node !! NodeLockTime = Some (format_rfc3339 zone' t0) ->
  plain_time t0 -> plain_zone zone' -> t - t0 / Second * Second <= 5 * Minute ->
  LockNode zone name w = Ret (Some (recently_locked_error name), w2).
Proof.
  intros Eg En El Ht Hz Hle. unfold LockNode, call, mbind, K_bind. rewrite Eg. cbn [fst snd]. rewrite El.
  rewrite rfc3339_round by done. rewrite En.
  destruct (Z.ltb_spec (5 * Minute) (t - t0 / Second * Second)); [lia|done].
Qed.

Lemma LockNode_honours_lock_witness :
  LockNode 0 "n1" (one_node (<[NodeLockTime := format_rfc3339 28800 (epoch - Minute)]> free_node) [])
  = Ret (Some (recently_locked_error "n1"),
         one_node (<[NodeLockTime := format_rfc3339 28800 (epoch - Minute)]> free_node) []).
Proof.
  eapply (@LockNode_honours_lock Server server 0 28800 "n1" _ _ _ _ _ (epoch - Minute));
    [vm_compute; reflexivity|vm_compute; reflexivity|vm_compute; reflexivity|..];
    vm_compute; repeat split; congruence.
Defined.

(** An expired lock is replaced: with no other client and no failure, the
    node ends with the new lock and its other annotations, through a version
    without any lock. *)
Theorem LockNode_replaces_expired zone zone' name annos t0 t h :
  plain_time t0 -> plain_zone zone' -> annos !! NodeLockTime = None ->
  5 * Minute < t - t0 / Second * Second ->
  let old := <[NodeLockTime := format_rfc3339 zone' t0]> annos in
  LockNode zone name (quiet name (Some old :: h) t)
  = Ret (None, quiet name (Some (<[NodeLockTime := format_rfc3339 zone t]> annos)
                             :: Some annos :: Some old :: h) t).
Proof.
  intros Ht Hz Ha Hgt old. unfold LockNode, call. unfold mbind at 1, K_bind at 1. rewrite quiet_get.
  cbv beta iota. change (node_annos _) with old. unfold old at 1. rewrite lookup_insert_eq.
  rewrite rfc3339_round by done. unfold mbind, K_bind.
  change (api_Now (quiet name (Some old :: h) t)) with (t, quiet name (Some old :: h) t).
  cbv beta iota. rewrite (proj2 (Z.ltb_lt _ _) Hgt).
  rewrite quiet_release by (unfold old; by rewrite lookup_insert_eq).
  unfold old at 1. rewrite delete_insert_id by done. by rewrite quiet_set.
Qed.

Lemma LockNode_replaces_expired_witness :
  LockNode 0 "n1" (quiet "n1" [Some (locked_node epoch)] (epoch + 301 * Second))
  = Ret (None, quiet "n1" [Some (locked_node (epoch + 301 * Second)); Some free_node;
                           Some (locked_node epoch)] (epoch + 301 * Second)).
Proof.
  apply (LockNode_replaces_expired 0 0 "n1" free_node epoch (epoch + 301 * Second) []);
    vm_compute; repeat split; congruence.
Defined.

(** Setting and releasing the lock restores the annotations of the node. *)
Theorem lock_release_roundtrip zone name annos h t :
  annos !! NodeLockTime = None ->
  exists w1 w2, SetNodeLock zone name (quiet name (Some annos :: h) t) = Ret (None, w1)
    /\ ReleaseNodeLock name w1 = Ret (None, w2)
    /\ current_annos w1 name = Some (<[NodeLockTime := format_rfc3339 zone t]> annos)
    /\ current_annos w2 name = Some annos.
Proof.
  intros Ha. do 2 eexists. split; [by apply quiet_set|].
  split; [apply quiet_release; by rewrite lookup_insert_eq|].
  unfold current_annos. rewrite !quiet_history. cbn. by rewrite delete_insert_id.
Qed.

Lemma lock_release_roundtrip_witness :
  exists w1 w2, SetNodeLock 0 "n1" (quiet "n1" [Some free_node] epoch) = Ret (None, w1)
    /\ ReleaseNodeLock "n1" w1 = Ret (None, w2) /\ current_annos w2 "n1" = Some free_node.
Proof.
  destruct (lock_release_roundtrip 0 "n1" free_node [] epoch eq_refl) as (w1 & w2 & H1 & H2 & _ & H3).
  exists w1, w2. split; [exact H1|]. split; [exact H2|exact H3].
Defined.

(** A node without any annotation makes [SetNodeLock] panic: the copy's
    map is nil and the lock is written to it. *)
Theorem SetNodeLock_nil_annotations zone name h t :
  SetNodeLock zone name (quiet name (None :: h) t) = Panic NilMapWrite.
Proof.
  unfold SetNodeLock, call, lift, mbind, K_bind, outcome_bind. rewrite quiet_get. cbv beta iota.
  rewrite decide_False by (cbn; by intros [? ?]). reflexivity.
Qed.
End NodeLockProps.
