(* ===== verification/Codec.v ===== *)
(** * The annotation codec ([pkg/util/util.go])

    The scheduler and the device plugins talk through Kubernetes annotations:
    a node's devices, and the devices chosen for each container of a pod, are
    encoded into strings.  This file has the encoders and decoders and what a
    round trip gives back. *)

From Stdlib Require Import ZArith Lia Ascii String.
From stdpp Require Import base decidable option gmap strings numbers sorting list.
From S2P Require Import Prelude GoStrings GoRuntime Types.

#[local] Open Scope Z_scope.

(** ** Node devices *)
Definition node_decode_error : error := "node annotations not decode successfully".

Fixpoint decode_node_loop (tmp : list string) (retval : list api.DeviceInfo)
    : list api.DeviceInfo * option error :=
  match tmp with
  | [] => (retval, None)
  | val :: tmp' =>
      if contains val "," then
        match split "," val with
        | [i0; i1; i2; i3; i4; i5; i6] =>
            let count := (atoi i1).1 in
            let devmem := (atoi i2).1 in
            let devcore := (atoi i3).1 in
            let health := default false (parse_bool i6) in
            let numa := (atoi i5).1 in
            decode_node_loop tmp' (retval ++
              [api.mkDeviceInfo 0 i0 (i32 count) (i32 devmem) (i32 devcore) i4 numa health])
        | _ => ([], Some node_decode_error)
        end
      else decode_node_loop tmp' retval
  end.

Definition DecodeNodeDevices (str : string) : list api.DeviceInfo * option error :=
  if negb (contains str ":") then ([], Some node_decode_error)
  else decode_node_loop (split ":" str) [].

Definition EncodeNodeDevices (dlist : list api.DeviceInfo) : string :=
  foldl (fun tmp val =>
    tmp +:+ (api.Id val +:+ "," +:+ itoa (api.Count val) +:+ "," +:+ itoa (api.Devmem val) +:+ ","
      +:+ itoa (api.Devcore val) +:+ "," +:+ api.Type_ val +:+ "," +:+ itoa (api.Numa val) +:+ ","
      +:+ format_bool (api.Health val) +:+ ":")) "" dlist.

(** ** Container and pod devices *)
Definition EncodeContainerDevices (cd : ContainerDevices) : string :=
  foldl (fun tmp val =>
    tmp +:+ (cd_UUID val +:+ "," +:+ cd_Type val +:+ "," +:+ itoa (cd_Usedmem val) +:+ ","
      +:+ itoa (cd_Usedcores val) +:+ ":")) "" cd.

Definition EncodeContainerDeviceType (cd : ContainerDevices) (t : string) : string :=
  foldl (fun tmp val =>
    (if decide (cd_Type val = t) then
       tmp +:+ (cd_UUID val +:+ "," +:+ cd_Type val +:+ "," +:+ itoa (cd_Usedmem val) +:+ ","
         +:+ itoa (cd_Usedcores val))
     else tmp) +:+ ":") "" cd.

Definition EncodePodSingleDevice (pd : PodSingleDevice) : string :=
  foldl (fun res ctrdevs => res +:+ EncodeContainerDevices ctrdevs) "" pd +:+ ";".

(** [checklist[devType]]: a missing key reads as the empty string. *)
Definition str_lookup (m : gmap string string) (k : string) : string := default "" (m !! k).

Definition pod_format_error : error :=
  "pod annotation format error; information missing, please do not use nodeName field in task".

Fixpoint decode_ctr_loop (cd : list string) (contdev : ContainerDevices)
    : ContainerDevices * option error :=
  match cd with
  | [] => (contdev, None)
  | val :: cd' =>
      if contains val "," then
        match split "," val with
        | t0 :: t1 :: t2 :: t3 :: _ =>
            let devmem := (parse_int 10 32 t2).1 in
            let devcores := (parse_int 10 32 t3).1 in
            decode_ctr_loop cd' (contdev ++
              [mkContainerDevice 0 t0 t1 (i32 devmem) (i32 devcores)])
        | _ => ([], Some pod_format_error)
        end
      else decode_ctr_loop cd' contdev
  end.

Definition DecodeContainerDevices (str : string) : ContainerDevices * option error :=
  match str with
  | EmptyString => ([], None)
  | _ => decode_ctr_loop (split ":" str) []
  end.

(** The inner loop of [DecodePodDevices]; [None] is its early return. *)
Fixpoint decode_pieces (l : list string) (acc : PodSingleDevice) : option PodSingleDevice :=
  match l with
  | [] => Some acc
  | s :: l' =>
      match DecodeContainerDevices s with
      | (cd, None) => decode_pieces l' (acc ++ [cd])
      | (_, Some _) => None
      end
  end.

Fixpoint decode_pod_loop (checklist : list (string * string)) (annos : gmap string string)
    (pd : PodDevices) : PodDevices * option error :=
  match checklist with
  | [] => (pd, None)
  | (devID, devs) :: l =>
      match annos !! devs with
      | None => decode_pod_loop l annos pd
      | Some str =>
          match decode_pieces (split ";" str) [] with
          | None => (∅, None)
          | Some psd => decode_pod_loop l annos (<[devID := psd]> pd)
          end
      end
  end.

Definition GetContainerDeviceStrArray (c : ContainerDevices) : list string :=
  foldl (fun tmp val => tmp ++ [cd_UUID val]) [] c.

Section ranges.
Context `{GoRuntime}.

Definition EncodePodDevices (checklist : gmap string string) (pd : PodDevices)
    : gmap string string :=
  foldl (fun res '(devType, cd) => <[str_lookup checklist devType := EncodePodSingleDevice cd]> res)
    ∅ (range ("EncodePodDevices", 0%nat) pd).

Definition DecodePodDevices (checklist annos : gmap string string) : PodDevices * option error :=
  if decide (size annos = 0%nat) then (∅, None)
  else decode_pod_loop (range ("DecodePodDevices", 0%nat) checklist) annos ∅.
End ranges.

(** The tables [InitNvidiaDevice] fills; the other vendors register no
    entry. *)
Definition InRequestDevices : gmap string string :=
  {["NVIDIA" := "hami.sh/vgpu-devices-to-allocate"]}.
Definition SupportDevices : gmap string string :=
  {["NVIDIA" := "hami.sh/vgpu-devices-allocated"]}.

(** ** What survives the wire *)

(** A string that holds none of the separators. *)
Definition wire_safe (s : string) : Prop :=
  has_char ":" s = false /\ has_char "," s = false /\ has_char ";" s = false.

#[export] Instance wire_safe_dec s : Decision (wire_safe s).
Proof. unfold wire_safe. apply _. Defined.

Definition wire_device (d : ContainerDevice) : Prop :=
  wire_safe (cd_UUID d) /\ wire_safe (cd_Type d) /\ in_i32 (cd_Usedmem d) /\ in_i32 (cd_Usedcores d).

#[export] Instance wire_device_dec d : Decision (wire_device d).
Proof. unfold wire_device. apply _. Defined.

Definition wire_node_device (d : api.DeviceInfo) : Prop :=
  wire_safe (api.Id d) /\ wire_safe (api.Type_ d) /\ in_i32 (api.Count d)
  /\ in_i32 (api.Devmem d) /\ in_i32 (api.Devcore d) /\ in_i64 (api.Numa d).

(** The [Idx] of a container device and the [Index] of a node device are not
    encoded. *)
Definition drop_idx (d : ContainerDevice) : ContainerDevice :=
  mkContainerDevice 0 (cd_UUID d) (cd_Type d) (cd_Usedmem d) (cd_Usedcores d).

Definition drop_index (d : api.DeviceInfo) : api.DeviceInfo :=
  api.mkDeviceInfo 0 (api.Id d) (api.Count d) (api.Devmem d) (api.Devcore d) (api.Type_ d)
    (api.Numa d) (api.Health d).

(** The text of one device, without the closing colon. *)
Definition ctr_text (d : ContainerDevice) : string :=
  cd_UUID d +:+ "," +:+ cd_Type d +:+ "," +:+ itoa (cd_Usedmem d) +:+ "," +:+ itoa (cd_Usedcores d).

Definition node_text (d : api.DeviceInfo) : string :=
  api.Id d +:+ "," +:+ itoa (api.Count d) +:+ "," +:+ itoa (api.Devmem d) +:+ ","
  +:+ itoa (api.Devcore d) +:+ "," +:+ api.Type_ d +:+ "," +:+ itoa (api.Numa d) +:+ ","
  +:+ format_bool (api.Health d).

(** ** Lemmas: texts made of records, each closed by a separator *)
Section records.
Context {A : Type} (text : A -> string) (sep : ascii).

Definition records (l : list A) : string := foldr (fun v s => text v +:+ String sep s) "" l.

Lemma foldl_records l acc :
  foldl (fun tmp v => tmp +:+ text v +:+ String sep "") acc l = acc +:+ records l.
Proof.
  revert acc. induction l as [|v l IH]; intros acc; simpl; [by rewrite str_app_nil_r|].
  rewrite IH, !str_app_assoc. done.
Qed.

Lemma records_app l k : records (l ++ k) = records l +:+ records k.
Proof. induction l as [|v l IH]; simpl; [done|]. by rewrite IH, str_app_assoc. Qed.

Lemma split_records l :
  Forall (fun v => has_char sep (text v) = false) l ->
  split sep (records l) = (text <$> l) ++ [""].
Proof.
  induction 1 as [|v l Hv _ IH]; simpl; [done|]. by rewrite split_app, IH.
Qed.

Lemma has_char_records c l :
  (sep =? c)%char = false -> Forall (fun v => has_char c (text v) = false) l ->
  has_char c (records l) = false.
Proof.
  intros Hc. induction 1 as [|v l Hv _ IH]; simpl; [done|].
  rewrite has_char_app. simpl. by rewrite Hv, Hc, IH.
Qed.
End records.

Lemma has_char_ctr_text c d :
  has_char c (cd_UUID d) = false -> has_char c (cd_Type d) = false ->
  digit_val c = None -> (c =? "-")%char = false -> ("," =? c)%char = false ->
  has_char c (ctr_text d) = false.
Proof.
  intros. unfold ctr_text. rewrite !has_char_app. cbn [has_char].
  rewrite !itoa_has_char by done. by repeat match goal with E : _ = false |- _ => rewrite E; clear E end.
Qed.

Lemma has_char_node_text c d :
  has_char c (api.Id d) = false -> has_char c (api.Type_ d) = false ->
  digit_val c = None -> (c =? "-")%char = false -> ("," =? c)%char = false ->
  has_char c (node_text d) = false.
Proof.
  intros HI HT Hd Hm Hc. unfold node_text. rewrite !has_char_app. cbn [has_char].
  rewrite !itoa_has_char by done. rewrite HI, HT, Hc.
  assert (forall x, is_Some (digit_val x) -> (x =? c)%char = false) as Hl.
  { intros x [v Hv]. apply Ascii.eqb_neq. intros ->. congruence. }
  destruct (api.Health d); cbn [has_char format_bool orb];
    rewrite !Hl by (eexists; reflexivity); done.
Qed.

Lemma split_ctr_text d :
  has_char "," (cd_UUID d) = false -> has_char "," (cd_Type d) = false ->
  split "," (ctr_text d) = [cd_UUID d; cd_Type d; itoa (cd_Usedmem d); itoa (cd_Usedcores d)].
Proof.
  intros HU HT. unfold ctr_text.
  cbn [String.append]. rewrite !split_app by auto using itoa_has_char.
  by rewrite split_no_sep by auto using itoa_has_char.
Qed.

Lemma split_node_text d :
  has_char "," (api.Id d) = false -> has_char "," (api.Type_ d) = false ->
  split "," (node_text d) = [api.Id d; itoa (api.Count d); itoa (api.Devmem d);
    itoa (api.Devcore d); api.Type_ d; itoa (api.Numa d); format_bool (api.Health d)].
Proof.
  intros HI HT. unfold node_text.
  cbn [String.append]. rewrite !split_app by auto using itoa_has_char.
  rewrite split_no_sep by (by destruct (api.Health d)). done.
Qed.

Lemma contains_comma_ctr d : contains (ctr_text d) "," = true.
Proof.
  rewrite contains_char. unfold ctr_text. rewrite has_char_app. cbn [String.append has_char].
  change ((","%char =? ","%char)%char) with true. by rewrite orb_true_r.
Qed.

Lemma contains_comma_node d : contains (node_text d) "," = true.
Proof.
  rewrite contains_char. unfold node_text. rewrite has_char_app. cbn [String.append has_char].
  change ((","%char =? ","%char)%char) with true. by rewrite orb_true_r.
Qed.

(** ** Decoding what was encoded *)
Lemma decode_ctr_loop_texts l acc :
  Forall wire_device l ->
  decode_ctr_loop ((ctr_text <$> l) ++ [""]) acc = (acc ++ (drop_idx <$> l), None).
Proof.
  intros Hl. revert acc. induction Hl as [|d l Hd _ IH]; intros acc; [by rewrite app_nil_r|].
  destruct Hd as ((_ & HU & _) & (_ & HT & _) & Hm & Hc).
  cbn [fmap list_fmap app decode_ctr_loop].
  rewrite contains_comma_ctr, split_ctr_text by done. cbv zeta.
  unfold in_i32, min_i32, max_i32 in Hm, Hc.
  rewrite !parse_int_itoa by lia. cbn [fst].
  rewrite !wrap32_id by (unfold in_i32, min_i32, max_i32; lia).
  rewrite IH, <- app_assoc. done.
Qed.

Lemma decode_node_loop_texts l acc :
  Forall wire_node_device l ->
  decode_node_loop ((node_text <$> l) ++ [""]) acc = (acc ++ (drop_index <$> l), None).
Proof.
  intros Hl. revert acc. induction Hl as [|d l Hd _ IH]; intros acc; [by rewrite app_nil_r|].
  destruct Hd as ((_ & HI & _) & (_ & HT & _) & Hc & Hm & Hcore & Hn).
  cbn [fmap list_fmap app decode_node_loop].
  rewrite contains_comma_node, split_node_text by done. cbv zeta.
  unfold in_i32, in_i64, min_i32, max_i32, min_i64, max_i64 in Hc, Hm, Hcore, Hn. unfold atoi.
  rewrite !parse_int_itoa, parse_format_bool by lia. cbn [fst default].
  rewrite !wrap32_id by (unfold in_i32, min_i32, max_i32; lia).
  rewrite IH, <- app_assoc. done.
Qed.

Lemma EncodeContainerDevices_records cd : EncodeContainerDevices cd = records ctr_text ":" cd.
Proof.
  unfold EncodeContainerDevices.
  etransitivity; [|apply (foldl_records ctr_text ":" cd "")]. apply foldl_ext.
  intros tmp d _. unfold ctr_text. by rewrite !str_app_assoc.
Qed.

Lemma EncodeNodeDevices_records dl : EncodeNodeDevices dl = records node_text ":" dl.
Proof.
  unfold EncodeNodeDevices.
  etransitivity; [|apply (foldl_records node_text ":" dl "")]. apply foldl_ext.
  intros tmp d _. unfold node_text. by rewrite !str_app_assoc.
Qed.

Lemma wire_device_no_colon cd :
  Forall wire_device cd -> Forall (fun d => has_char ":" (ctr_text d) = false) cd.
Proof.
  intros Hcd. eapply Forall_impl; [exact Hcd|].
  intros d ((HU & _) & (HT & _) & _). by apply has_char_ctr_text.
Qed.

Lemma EncodePodSingleDevice_concat pd :
  EncodePodSingleDevice pd = EncodeContainerDevices (concat pd) +:+ ";".
Proof.
  unfold EncodePodSingleDevice. f_equal.
  assert (forall acc, foldl (fun res ctrdevs => res +:+ EncodeContainerDevices ctrdevs) acc pd
    = acc +:+ EncodeContainerDevices (concat pd)) as Hacc; [|by rewrite Hacc].
  induction pd as [|c pd IH]; intros acc; simpl; [by rewrite str_app_nil_r|].
  rewrite IH, !EncodeContainerDevices_records, records_app. by rewrite str_app_assoc.
Qed.

Lemma decode_encode_container cd :
  Forall wire_device cd ->
  DecodeContainerDevices (EncodeContainerDevices cd) = (drop_idx <$> cd, None).
Proof.
  intros Hcd. rewrite EncodeContainerDevices_records. unfold DecodeContainerDevices.
  destruct (records ctr_text ":" cd) eqn:E.
  - destruct cd as [|d cd]; [done|]. simpl in E. unfold ctr_text in E.
    by destruct (cd_UUID d).
  - rewrite <- E, split_records by by apply wire_device_no_colon.
    by rewrite decode_ctr_loop_texts.
Qed.

Lemma decode_encode_pod_single pd :
  Forall (Forall wire_device) pd ->
  decode_pieces (split ";" (EncodePodSingleDevice pd)) [] = Some [drop_idx <$> concat pd; []].
Proof.
  intros Hpd. apply Forall_concat in Hpd. rewrite EncodePodSingleDevice_concat.
  rewrite split_app.
  - cbn [split decode_pieces]. by rewrite decode_encode_container.
  - rewrite EncodeContainerDevices_records. apply has_char_records; [done|].
    eapply Forall_impl; [exact Hpd|].
    intros d ((_ & _ & HU) & (_ & _ & HT) & _). by apply has_char_ctr_text.
Qed.

(** ** The pod codec over every range order *)
Section pod_codec.
Context `{GoRuntime}.
Implicit Types (checklist annos : gmap string string) (pd : PodDevices).

(** The annotation names of the device types of [pd] are known and
    distinct. *)
Definition checklist_covers checklist pd : Prop :=
  forall t, is_Some (pd !! t) ->
    is_Some (checklist !! t)
    /\ forall t', is_Some (pd !! t') -> checklist !! t = checklist !! t' -> t = t'.

Lemma checklist_covers_inj checklist pd t t' :
  checklist_covers checklist pd -> is_Some (pd !! t) -> is_Some (pd !! t') ->
  str_lookup checklist t = str_lookup checklist t' -> t = t'.
Proof.
  intros Hc Ht Ht' E. destruct (Hc t Ht) as [[a Ha] Hinj], (Hc t' Ht') as [[a' Ha'] _].
  unfold str_lookup in E. rewrite Ha, Ha' in E. simpl in E. subst a'.
  apply Hinj; [done|]. by rewrite Ha, Ha'.
Qed.

Lemma EncodePodDevices_lookup checklist pd t a :
  checklist_covers checklist pd -> checklist !! t = Some a ->
  (forall t', is_Some (pd !! t') -> checklist !! t' = Some a -> t' = t) ->
  EncodePodDevices checklist pd !! a = EncodePodSingleDevice <$> (pd !! t).
Proof.
  intros Hc Ht Hu. unfold EncodePodDevices.
  set (l := range _ pd).
  assert (forall x, x ∈ l -> is_Some (pd !! x.1)) as Hl.
  { intros [x y] Hx%elem_of_range. by exists y. }
  assert (NoDup ((fun x => str_lookup checklist x.1) <$> l)) as Hnd.
  { pose proof (range_NoDup ("EncodePodDevices", 0%nat) pd) as Hnd. fold l in Hnd.
    change (NoDup (str_lookup checklist ∘ fst <$> l)). rewrite list_fmap_compose.
    apply NoDup_fmap_2_strong; [|done].
    intros x y (p & -> & Hp)%list_elem_of_fmap (q & -> & Hq)%list_elem_of_fmap.
    apply (checklist_covers_inj _ pd); auto. }
  rewrite (foldl_ext _ (fun m x => <[str_lookup checklist x.1 := EncodePodSingleDevice x.2]> m))
    by by intros ? [].
  rewrite foldl_insert_list_to_map by done.
  set (l' := (fun x => (str_lookup checklist x.1, EncodePodSingleDevice x.2)) <$> l).
  assert (NoDup l'.*1) as Hnd' by (unfold l'; by rewrite <- list_fmap_compose).
  destruct (pd !! t) as [ps|] eqn:E; simpl.
  - apply elem_of_list_to_map_1; [done|]. unfold l'. apply list_elem_of_fmap.
    exists (t, ps). split; [|by apply elem_of_range]. simpl. unfold str_lookup. by rewrite Ht.
  - apply not_elem_of_list_to_map_1. unfold l'. rewrite <- list_fmap_compose.
    intros ([t' ps] & Ea & Hin)%list_elem_of_fmap. simpl in Ea.
    apply elem_of_range in Hin. destruct (Hc t') as [[a' Ha'] _]; [by exists ps|].
    unfold str_lookup in Ea. rewrite Ha' in Ea. simpl in Ea. subst a'.
    rewrite (Hu t') in Hin; [congruence|by exists ps|done].
Qed.

(** A decoding loop with no malformed entry writes the decoded value of
    each annotation present, and nothing else. *)
Lemma decode_pod_loop_spec l annos pd0 pd :
  NoDup l.*1 ->
  (forall t a s, (t, a) ∈ l -> annos !! a = Some s -> is_Some (decode_pieces (split ";" s) [])) ->
  decode_pod_loop l annos pd0 = (pd, None) ->
  forall t, pd !! t =
    match list_to_map (M := gmap string string) l !! t with
    | Some a => match annos !! a with
                | Some s => decode_pieces (split ";" s) []
                | None => pd0 !! t
                end
    | None => pd0 !! t
    end.
Proof.
  revert pd0. induction l as [|[t0 a0] l IH]; intros pd0 Hnd Hok E t.
  { simpl in E. injection E as <-. by rewrite list_to_map_nil, lookup_empty. }
  apply NoDup_cons in Hnd as [Hni Hnd]. rewrite list_to_map_cons. simpl in E, Hni.
  assert (list_to_map (M := gmap string string) l !! t0 = None) as Hnone
    by by apply not_elem_of_list_to_map_1.
  destruct (annos !! a0) as [s0|] eqn:Ea.
  - destruct (Hok t0 a0 s0) as [ps Hps]; [by left|done|]. rewrite Hps in E.
    pose proof (IH _ Hnd ltac:(intros; eapply Hok; [by right|done]) E t) as ->.
    rewrite lookup_insert. case_decide as Hd; [subst t|].
    + rewrite Hnone, lookup_insert_eq. by rewrite Ea.
    + by rewrite !lookup_insert_ne by done.
  - pose proof (IH _ Hnd ltac:(intros; eapply Hok; [by right|done]) E t) as ->.
    rewrite lookup_insert. case_decide as Hd; [subst t|done].
    by rewrite Hnone, Ea.
Qed.

Lemma decode_pod_loop_total l annos pd0 :
  exists pd, decode_pod_loop l annos pd0 = (pd, None).
Proof.
  revert pd0. induction l as [|[t a] l IH]; intros pd0; simpl; [by eexists|].
  destruct (annos !! a); [|apply IH]. destruct (decode_pieces _ _); [apply IH|by eexists].
Qed.

(** What the decoder makes of one encoded entry: one container with every
    device, then an empty one. *)
Definition merged (ps : PodSingleDevice) : PodSingleDevice := [drop_idx <$> concat ps; []].

Lemma DecodePodDevices_spec checklist annos pd :
  (forall t a s, checklist !! t = Some a -> annos !! a = Some s ->
     is_Some (decode_pieces (split ";" s) [])) ->
  (forall t, pd !! t = checklist !! t ≫= fun a => annos !! a ≫= fun s => decode_pieces (split ";" s) []) ->
  DecodePodDevices checklist annos = (pd, None).
Proof.
  intros Hok Hpd. unfold DecodePodDevices. case_decide as Hsz.
  { apply map_size_empty_inv in Hsz. subst annos. f_equal. apply map_eq. intros t.
    rewrite Hpd, lookup_empty. destruct (checklist !! t); simpl; by rewrite ?lookup_empty. }
  set (l := range _ checklist).
  destruct (decode_pod_loop_total l annos ∅) as [pd' E]. rewrite E. f_equal.
  apply map_eq. intros t.
  rewrite (decode_pod_loop_spec l annos ∅ pd') with (t := t); [|apply range_NoDup| |done].
  2:{ intros t' a s Hin Hs. apply elem_of_range in Hin. by apply (Hok t' a s). }
  assert (list_to_map l = checklist) as Hl by apply range_list_to_map.
  rewrite Hl, Hpd, lookup_empty. destruct (checklist !! t) as [a|]; [|done]. simpl.
  by destruct (annos !! a).
Qed.

Section roundtrip.
Context (checklist : gmap string string) (pd : PodDevices).
Hypothesis Hinj : forall t t' a, checklist !! t = Some a -> checklist !! t' = Some a -> t = t'.
Hypothesis Hdom : dom pd ⊆ dom checklist.

Lemma covers_of_inj : checklist_covers checklist pd.
Proof.
  intros t Ht%elem_of_dom. apply Hdom, elem_of_dom in Ht as [a Ha].
  split; [by exists a|]. intros t' Ht' E. apply (Hinj t t' a); congruence.
Qed.

Lemma decode_encode_pod :
  map_Forall (fun _ ps => Forall (Forall wire_device) ps) pd ->
  DecodePodDevices checklist (EncodePodDevices checklist pd) = (merged <$> pd, None).
Proof.
  intros Hw. pose proof covers_of_inj as Hc.
  assert (forall t a, checklist !! t = Some a ->
    EncodePodDevices checklist pd !! a = EncodePodSingleDevice <$> (pd !! t)) as Henc.
  { intros t a Ha. apply EncodePodDevices_lookup; [done..|]. intros t' _ Ht'. by apply (Hinj _ _ a). }
  apply DecodePodDevices_spec.
  - intros t a s Ha Hs. rewrite (Henc t a Ha) in Hs. destruct (pd !! t) as [ps|] eqn:E; [|done].
    injection Hs as <-. rewrite decode_encode_pod_single by by apply (Hw t). by eexists.
  - intros t. rewrite lookup_fmap. destruct (checklist !! t) as [a|] eqn:Ha; simpl.
    + rewrite (Henc t a Ha). destruct (pd !! t) as [ps|] eqn:E; simpl; [|done].
      by rewrite decode_encode_pod_single by by apply (Hw t).
    + destruct (pd !! t) eqn:E; [|done]. destruct (Hc t) as [[? ?] _]; [by eexists|congruence].
Qed.
End roundtrip.
End pod_codec.

Lemma decode_encode_node (dl : list api.DeviceInfo) :
  dl <> [] -> Forall wire_node_device dl ->
  DecodeNodeDevices (EncodeNodeDevices dl) = (drop_index <$> dl, None).
Proof.
  intros Hne Hdl. unfold DecodeNodeDevices. rewrite contains_char, EncodeNodeDevices_records.
  destruct dl as [|d dl']; [done|].
  assert (has_char ":" (records node_text ":" (d :: dl')) = true) as Hc.
  { simpl. rewrite has_char_app. simpl. by rewrite orb_true_r. }
  rewrite Hc. simpl negb. cbv iota. rewrite split_records; [by rewrite decode_node_loop_texts|].
  eapply Forall_impl; [exact Hdl|].
  intros x ((HI & _) & (HT & _) & _). by apply has_char_node_text.
Qed.

(** ** Properties *)
Module CodecProps.

(** C13. Decoding an encoded table of pod devices: every device comes back
    with its UUID, type, memory and cores (its index is not encoded), for
    every order in which the maps are ranged over, but the boundaries
    between the containers are lost, because the encoder writes one
    semicolon after the last container: all devices of a type come back in
    one container, followed by an empty one. *)
Theorem pod_devices_roundtrip `{GoRuntime} (checklist : gmap string string) (pd : PodDevices) :
  (forall t t' a, checklist !! t = Some a -> checklist !! t' = Some a -> t = t') ->
  dom pd ⊆ dom checklist ->
  map_Forall (fun _ ps => Forall (Forall wire_device) ps) pd ->
  DecodePodDevices checklist (EncodePodDevices checklist pd) = (merged <$> pd, None).
Proof. apply decode_encode_pod. Qed.

(** The pod of the repository's own test [TestPodDevicesCoding]. *)
Definition test_pod : PodDevices :=
  {["NVIDIA" := [[mkContainerDevice 0 "UUID1" "Type1" 1000 30];
                 [mkContainerDevice 0 "UUID1" "Type1" 1000 30]]]}.

Lemma pod_devices_roundtrip_witness :
  let _ := go_reference in
  DecodePodDevices InRequestDevices (EncodePodDevices InRequestDevices test_pod)
  = (merged <$> test_pod, None)
  /\ merged <$> test_pod <> test_pod.
Proof.
  split; [|intros E; apply (f_equal (lookup "NVIDIA")) in E; vm_compute in E; discriminate].
  apply (@pod_devices_roundtrip go_reference).
  - unfold InRequestDevices.
    by intros t t' a [<- _]%lookup_singleton_Some [<- _]%lookup_singleton_Some.
  - unfold test_pod, InRequestDevices. by rewrite !dom_singleton_L.
  - unfold test_pod. apply map_Forall_singleton.
    repeat constructor; vm_compute; intuition congruence.
Defined.

(** A node's device list survives its annotation: a non-empty list of
    devices decodes to itself (the index is not encoded), with no error. *)
Theorem node_devices_roundtrip (dl : list api.DeviceInfo) :
  dl <> [] -> Forall wire_node_device dl ->
  DecodeNodeDevices (EncodeNodeDevices dl) = (drop_index <$> dl, None).
Proof. apply decode_encode_node. Qed.

Definition test_node_devices : list api.DeviceInfo :=
  [api.mkDeviceInfo 3 "GPU-ebe7c3f7" 10 32768 100 "NVIDIA-Tesla V100" 0 true;
   api.mkDeviceInfo 4 "GPU-0fc3eda5" 10 32768 100 "NVIDIA-Tesla V100" (-1) false].

Lemma node_devices_roundtrip_witness :
  DecodeNodeDevices (EncodeNodeDevices test_node_devices) = (drop_index <$> test_node_devices, None).
Proof.
  apply node_devices_roundtrip; [done|].
  repeat constructor; vm_compute; intuition congruence.
Defined.
End CodecProps.
