(* ===== verification/Devices.v ===== *)
(** * Vendor devices ([pkg/device])

    Each vendor implements the interface [device.Devices]; the scheduler and
    the webhook work against the interface.  The resource names and defaults
    that the command line sets are a record [Config].  [DeviceContract] is
    what the scheduler relies on: a vendor answers for its own device type
    and for no other registered type, and its requests carry that type. *)

From Stdlib Require Import ZArith Lia Ascii String.
From stdpp Require Import base decidable option gmap strings numbers sorting list.
From S2P Require Import Prelude GoStrings GoRuntime Types.

#[local] Open Scope Z_scope.

(** ** Configuration: the flags of the four [ParseConfig] methods and
    [pkg/scheduler/config] *)
Record Config := mkConfig {
  ResourceName : string;
  ResourceMem : string;
  ResourceMemPercentage : string;
  ResourceCores : string;
  ResourcePriority : string;
  MLUResourceCount : string;
  MLUResourceMemory : string;
  HygonResourceCount : string;
  HygonResourceMemory : string;
  HygonResourceCores : string;
  IluvatarResourceCount : string;
  IluvatarResourceMemory : string;
  IluvatarResourceCores : string;
  DefaultMem : Z;
  DefaultCores : Z;
  SchedulerName : string;
}.

(** The values of the flags when the command line sets none; the Iluvatar
    names are those its [ParseConfig] would declare ([VendorFlags]). *)
Definition default_config : Config := {|
  ResourceName := "nvidia.com/gpu";
  ResourceMem := "nvidia.com/gpumem";
  ResourceMemPercentage := "nvidia.com/gpumem-percentage";
  ResourceCores := "nvidia.com/gpucores";
  ResourcePriority := "vgputaskpriority";
  MLUResourceCount := "cambricon.com/mlunum";
  MLUResourceMemory := "cambricon.com/mlumem";
  HygonResourceCount := "hygon.com/dcunum";
  HygonResourceMemory := "hygon.com/dcumem";
  HygonResourceCores := "hygon.com/dcucores";
  IluvatarResourceCount := "iluvatar.ai/gpu";
  IluvatarResourceMemory := "iluvatar.ai/vcuda-memory";
  IluvatarResourceCores := "iluvatar.ai/vcuda-core";
  DefaultMem := 0;
  DefaultCores := 0;
  SchedulerName := "";
|}.

(** ** The interface [device.Devices] *)
Record Devices := mkDevices {
  MutateAdmission : Container -> Container * bool;
  CheckType : gmap string string -> DeviceUsage -> ContainerDeviceRequest -> bool * bool * bool;
  GenerateResourceRequests : Container -> ContainerDeviceRequest;
}.

(** ** Shared steps of the vendors *)

(** [v, ok := Limits[name]; if !ok { v, ok = Requests[name] }] *)
Definition limit_or_request (ctr : Container) (name : string) : option Quantity :=
  match ctr_Limits ctr !! name with
  | Some v => Some v
  | None => ctr_Requests ctr !! name
  end.

(** The integer under a resource name, when it is there and is an integer. *)
Definition resource_int (ctr : Container) (name : string) : option Z :=
  limit_or_request ctr name ≫= q_AsInt64.

(** One list of card types of an annotation against a card. *)
Definition matches_type_list (types cardtype : string) : bool :=
  if negb (contains types ",") then contains (to_upper cardtype) (to_upper types)
  else existsb (fun val => contains (to_upper cardtype) (to_upper val)) (split "," types).

(** The body the three [check*type] functions share, by the names of their
    two annotations. *)
Definition check_card_type (inuse_key nouse_key : string)
    (annos : gmap string string) (cardtype : string) : bool :=
  match annos !! inuse_key with
  | Some inuse => matches_type_list inuse cardtype
  | None =>
      match annos !! nouse_key with
      | Some nouse => negb (matches_type_list nouse cardtype)
      | None => true
      end
  end.

(** ** [pkg/device/nvidia] *)
Module nvidia.
Definition HandshakeAnnos : string := "4pd.io/node-handshake".
Definition RegisterAnnos : string := "4pd.io/node-nvidia-register".
Definition NvidiaGPUDevice : string := "NVIDIA".
Definition NvidiaGPUCommonWord : string := "GPU".
Definition GPUInUse : string := "nvidia.com/use-gputype".
Definition GPUNoUse : string := "nvidia.com/nouse-gputype".
Definition NumaBind : string := "nvidia.com/numa-bind".

Definition checkGPUtype (annos : gmap string string) (cardtype : string) (numa : Z) : bool :=
  check_card_type GPUInUse GPUNoUse annos cardtype.

Definition assertNuma (annos : gmap string string) : bool :=
  match annos !! NumaBind with
  | Some numabind => default false (parse_bool numabind)
  | None => false
  end.

Definition nvidia_CheckType (annos : gmap string string) (d : DeviceUsage)
    (n : ContainerDeviceRequest) : bool * bool * bool :=
  if decide (req_Type n = NvidiaGPUDevice) then
    (true, checkGPUtype annos (du_Type d) (du_Numa d), assertNuma annos)
  else (false, false, false).

Definition nvidia_MutateAdmission (cfg : Config) (ctr : Container) : Container * bool :=
  let ctr' :=
    match ctr_Limits ctr !! ResourcePriority cfg with
    | Some priority =>
        mkContainer (ctr_Name ctr) (ctr_Limits ctr) (ctr_Requests ctr)
          (ctr_Env ctr ++ [(api.TaskPriority, itoa (q_Value priority))])
          (ctr_PostStart ctr) (ctr_Privileged ctr)
    | None => ctr
    end in
  (ctr', bool_decide (is_Some (ctr_Limits ctr !! ResourceName cfg))).

Definition nvidia_GenerateResourceRequests (cfg : Config) (ctr : Container)
    : ContainerDeviceRequest :=
  match resource_int ctr (ResourceName cfg) with
  | None => zeroRequest
  | Some n =>
      let memnum := default 0 (resource_int ctr (ResourceMem cfg)) in
      let mempnum :=
        match resource_int ctr (ResourceMemPercentage cfg) with
        | Some mempnums => i32 mempnums
        | None => 101
        end in
      let '(memnum, mempnum) :=
        if (mempnum =? 101) && (memnum =? 0) then
          if negb (DefaultMem cfg =? 0) then (DefaultMem cfg, mempnum) else (memnum, 100)
        else (memnum, mempnum) in
      let corenum :=
        match resource_int ctr (ResourceCores cfg) with
        | Some corenums => i32 corenums
        | None => DefaultCores cfg
        end in
      mkRequest (i32 n) NvidiaGPUDevice (i32 memnum) (i32 mempnum) (i32 corenum)
  end.

Definition InitNvidiaDevice (cfg : Config) : Devices :=
  mkDevices (nvidia_MutateAdmission cfg) nvidia_CheckType (nvidia_GenerateResourceRequests cfg).
End nvidia.

(** ** [pkg/device/cambricon] *)
Module cambricon.
Definition HandshakeAnnos : string := "4pd.io/node-handshake-mlu".
Definition RegisterAnnos : string := "4pd.io/node-mlu-register".
Definition CambriconMLUDevice : string := "MLU".
Definition CambriconMLUCommonWord : string := "MLU".
Definition MLUInUse : string := "cambricon.com/use-mlutype".
Definition MLUNoUse : string := "cambricon.com/nouse-mlutype".

Definition checkMLUtype (annos : gmap string string) (cardtype : string) : bool :=
  check_card_type MLUInUse MLUNoUse annos cardtype.

Definition cambricon_CheckType (annos : gmap string string) (d : DeviceUsage)
    (n : ContainerDeviceRequest) : bool * bool * bool :=
  if contains (req_Type n) CambriconMLUDevice then
    if negb (contains (du_Type d) "370") && negb (req_Memreq n =? 0) then (true, false, false)
    else if contains (du_Type d) "370" && (req_Memreq n =? 0) && (0 <? du_Used d) then
      (true, false, false)
    else (true, checkMLUtype annos (du_Type d), false)
  else (false, false, false).

Definition cambricon_MutateAdmission (cfg : Config) (ctr : Container) : Container * bool :=
  if decide (is_Some (ctr_Limits ctr !! MLUResourceMemory cfg)) then
    (mkContainer (ctr_Name ctr) (ctr_Limits ctr) (ctr_Requests ctr) (ctr_Env ctr)
       (Some ["/usr/bin/smlu-containerd"]) (ctr_Privileged ctr), true)
  else (ctr, bool_decide (is_Some (ctr_Limits ctr !! MLUResourceCount cfg))).

Definition cambricon_GenerateResourceRequests (cfg : Config) (ctr : Container)
    : ContainerDeviceRequest :=
  match resource_int ctr (MLUResourceCount cfg) with
  | None => zeroRequest
  | Some n =>
      let memnum := default 0 (resource_int ctr (MLUResourceMemory cfg)) in
      mkRequest (i32 n) CambriconMLUDevice (i32 memnum) 0 0
  end.

Definition InitMLUDevice (cfg : Config) : Devices :=
  mkDevices (cambricon_MutateAdmission cfg) cambricon_CheckType
    (cambricon_GenerateResourceRequests cfg).
End cambricon.

(** ** [pkg/device/hygon] *)
Module hygon.
Definition HandshakeAnnos : string := "4pd.io/node-handshake-dcu".
Definition RegisterAnnos : string := "4pd.io/node-dcu-register".
Definition HygonDCUDevice : string := "DCU".
Definition HygonDCUCommonWord : string := "DCU".
Definition DCUInUse : string := "hygon.com/use-dcutype".
Definition DCUNoUse : string := "hygon.com/nouse-dcutype".

Definition checkDCUtype (annos : gmap string string) (cardtype : string) : bool :=
  check_card_type DCUInUse DCUNoUse annos cardtype.

Definition hygon_CheckType (annos : gmap string string) (d : DeviceUsage)
    (n : ContainerDeviceRequest) : bool * bool * bool :=
  if decide (req_Type n = HygonDCUDevice) then (true, checkDCUtype annos (du_Type d), false)
  else (false, false, false).

Definition hygon_MutateAdmission (cfg : Config) (ctr : Container) : Container * bool :=
  (ctr, bool_decide (is_Some (ctr_Limits ctr !! HygonResourceCount cfg))).

(** The body of [GenerateResourceRequests] that hygon and iluvatar share. *)
Definition count_mem_cores_request (count mem cores type : string) (ctr : Container)
    : ContainerDeviceRequest :=
  match resource_int ctr count with
  | None => zeroRequest
  | Some n =>
      let memnum := default 0 (resource_int ctr mem) in
      let corenum :=
        match resource_int ctr cores with Some corenums => i32 corenums | None => 0 end in
      let mempnum := if memnum =? 0 then 100 else 0 in
      mkRequest (i32 n) type (i32 memnum) (i32 mempnum) corenum
  end.

Definition hygon_GenerateResourceRequests (cfg : Config) (ctr : Container)
    : ContainerDeviceRequest :=
  count_mem_cores_request (HygonResourceCount cfg) (HygonResourceMemory cfg)
    (HygonResourceCores cfg) HygonDCUDevice ctr.

Definition InitDCUDevice (cfg : Config) : Devices :=
  mkDevices (hygon_MutateAdmission cfg) hygon_CheckType (hygon_GenerateResourceRequests cfg).
End hygon.

(** ** [pkg/device/iluvatar]: written, not registered in [GetDevices] *)
Module iluvatar.
Definition IluvatarGPUDevice : string := "Iluvatar".

Definition iluvatar_CheckType (annos : gmap string string) (d : DeviceUsage)
    (n : ContainerDeviceRequest) : bool * bool * bool := (false, false, false).

Definition iluvatar_MutateAdmission (cfg : Config) (ctr : Container) : Container * bool :=
  (ctr, bool_decide (is_Some (ctr_Limits ctr !! IluvatarResourceCount cfg))).

Definition iluvatar_GenerateResourceRequests (cfg : Config) (ctr : Container)
    : ContainerDeviceRequest :=
  hygon.count_mem_cores_request (IluvatarResourceCount cfg) (IluvatarResourceMemory cfg)
    (IluvatarResourceCores cfg) IluvatarGPUDevice ctr.
End iluvatar.

(** ** [pkg/device/devices.go] *)
Definition KnownDevice : gmap string string :=
  {[nvidia.HandshakeAnnos := nvidia.RegisterAnnos;
    cambricon.HandshakeAnnos := cambricon.RegisterAnnos;
    hygon.HandshakeAnnos := hygon.RegisterAnnos]}.

Definition GetDevices (cfg : Config) : gmap string Devices :=
  {["Cambricon" := cambricon.InitMLUDevice cfg;
    "NVIDIA" := nvidia.InitNvidiaDevice cfg;
    "Hygon" := hygon.InitDCUDevice cfg]}.

Definition DevicesToHandle : list string :=
  [nvidia.NvidiaGPUCommonWord; cambricon.CambriconMLUCommonWord; hygon.HygonDCUCommonWord].

(** ** [pkg/k8sutil/pod.go] *)
Section k8sutil.
Context `{GoRuntime}.

(** The inner loop of [Resourcereqs]: the requests of one container. *)
Definition container_reqs (cfg : Config) (ctr : Container) (i : nat) : ContainerDeviceRequests :=
  foldl (fun counts '(idx, val) =>
      let request := GenerateResourceRequests val ctr in
      if 0 <? req_Nums request then <[idx := GenerateResourceRequests val ctr]> counts
      else counts)
    ∅ (range ("Resourcereqs", i) (GetDevices cfg)).

Definition Resourcereqs (cfg : Config) (pod : Pod) : PodDeviceRequests :=
  imap (fun i ctr => container_reqs cfg ctr i) (pod_Containers pod).
End k8sutil.

Definition IsPodInTerminatedState (pod : Pod) : bool :=
  bool_decide (pod_Phase pod = "Failed") || bool_decide (pod_Phase pod = "Succeeded").

(** ** The contract of a vendor *)

(** The device types of the registered vendors. *)
Definition known_types : list string :=
  [nvidia.NvidiaGPUDevice; cambricon.CambriconMLUDevice; hygon.HygonDCUDevice].

Definition request_width (r : ContainerDeviceRequest) : Prop :=
  in_i32 (req_Nums r) /\ in_i32 (req_Memreq r) /\ in_i32 (req_MemPercentagereq r)
  /\ in_i32 (req_Coresreq r).

Class DeviceContract (t : string) (d : Devices) : Prop := {
  dc_found annos du n : req_Type n = t -> (CheckType d annos du n).1.1 = true;
  dc_other annos du n :
    req_Type n ∈ known_types -> req_Type n <> t -> CheckType d annos du n = (false, false, false);
  dc_request_type ctr :
    0 < req_Nums (GenerateResourceRequests d ctr) -> req_Type (GenerateResourceRequests d ctr) = t;
  dc_request_width ctr : request_width (GenerateResourceRequests d ctr);
}.

Ltac known_type_cases H :=
  repeat (apply elem_of_cons in H as [H|H]; [|]); [..|by apply not_elem_of_nil in H].

Lemma zeroRequest_width : request_width zeroRequest.
Proof. repeat split; done. Qed.

Lemma count_mem_cores_request_spec count mem cores type ctr :
  let r := hygon.count_mem_cores_request count mem cores type ctr in
  (0 < req_Nums r -> req_Type r = type) /\ request_width r.
Proof.
  unfold hygon.count_mem_cores_request. destruct (resource_int ctr count); cbn.
  - split; [done|]. repeat split; try apply wrap32_in;
      destruct (resource_int ctr cores); try apply wrap32_in; done.
  - split; [done|apply zeroRequest_width].
Qed.

#[export] Instance nvidia_contract cfg :
  DeviceContract nvidia.NvidiaGPUDevice (nvidia.InitNvidiaDevice cfg).
Proof.
  split; cbn.
  - intros annos du n Hn. unfold nvidia.nvidia_CheckType. by rewrite decide_True.
  - intros annos du n _ Hn. unfold nvidia.nvidia_CheckType. by rewrite decide_False.
  - intros ctr. unfold nvidia.nvidia_GenerateResourceRequests.
    destruct (resource_int ctr (ResourceName cfg)); [|done]. cbv zeta. case_match. done.
  - intros ctr. unfold nvidia.nvidia_GenerateResourceRequests.
    destruct (resource_int ctr (ResourceName cfg)); [|apply zeroRequest_width].
    cbv zeta. case_match. repeat split; apply wrap32_in.
Qed.

#[export] Instance cambricon_contract cfg :
  DeviceContract cambricon.CambriconMLUDevice (cambricon.InitMLUDevice cfg).
Proof.
  split; cbn.
  - intros annos du n Hn. unfold cambricon.cambricon_CheckType. rewrite Hn. cbn.
    by repeat case_match.
  - intros annos du n Hn Hne. unfold cambricon.cambricon_CheckType.
    known_type_cases Hn; rewrite Hn in *; done.
  - intros ctr. unfold cambricon.cambricon_GenerateResourceRequests. by destruct (resource_int _ _).
  - intros ctr. unfold cambricon.cambricon_GenerateResourceRequests.
    destruct (resource_int _ _); [|apply zeroRequest_width].
    repeat split; try apply wrap32_in; done.
Qed.

#[export] Instance hygon_contract cfg :
  DeviceContract hygon.HygonDCUDevice (hygon.InitDCUDevice cfg).
Proof.
  split; cbn.
  - intros annos du n Hn. unfold hygon.hygon_CheckType. by rewrite decide_True.
  - intros annos du n _ Hn. unfold hygon.hygon_CheckType. by rewrite decide_False.
  - intros ctr. apply count_mem_cores_request_spec.
  - intros ctr. apply count_mem_cores_request_spec.
Qed.

(** The type the vendor under a key of [GetDevices] answers for. *)
Definition vendor_type (key : string) : string :=
  if decide (key = "Cambricon") then cambricon.CambriconMLUDevice
  else if decide (key = "Hygon") then hygon.HygonDCUDevice
  else nvidia.NvidiaGPUDevice.

Lemma GetDevices_cases cfg k d :
  GetDevices cfg !! k = Some d ->
  k = "Cambricon" /\ d = cambricon.InitMLUDevice cfg
  \/ k = "NVIDIA" /\ d = nvidia.InitNvidiaDevice cfg
  \/ k = "Hygon" /\ d = hygon.InitDCUDevice cfg.
Proof.
  unfold GetDevices. rewrite !lookup_insert_Some, lookup_singleton_Some. naive_solver.
Qed.

Lemma GetDevices_contract cfg k d :
  GetDevices cfg !! k = Some d -> DeviceContract (vendor_type k) d /\ vendor_type k ∈ known_types.
Proof.
  intros [(-> & ->)|[(-> & ->)|(-> & ->)]]%GetDevices_cases;
    (split; [apply _|repeat constructor]).
Qed.

Lemma vendor_type_inj cfg k k' d d' :
  GetDevices cfg !! k = Some d -> GetDevices cfg !! k' = Some d' ->
  vendor_type k = vendor_type k' -> k = k'.
Proof.
  intros [(-> & _)|[(-> & _)|(-> & _)]]%GetDevices_cases
    [(-> & _)|[(-> & _)|(-> & _)]]%GetDevices_cases; done.
Qed.

Lemma vendor_of_type cfg t :
  t ∈ known_types -> exists k d, GetDevices cfg !! k = Some d /\ vendor_type k = t.
Proof.
  intros Ht. known_type_cases Ht; subst t.
  - by exists "NVIDIA", (nvidia.InitNvidiaDevice cfg).
  - by exists "Cambricon", (cambricon.InitMLUDevice cfg).
  - by exists "Hygon", (hygon.InitDCUDevice cfg).
Qed.

(** ** Requests of a pod *)
Section requests.
Context `{GoRuntime}.

Lemma container_reqs_lookup cfg ctr i k r :
  container_reqs cfg ctr i !! k = Some r <->
  exists d, GetDevices cfg !! k = Some d /\ r = GenerateResourceRequests d ctr /\ 0 < req_Nums r.
Proof.
  unfold container_reqs. set (l := range _ _).
  pose (g := fun d => let r := GenerateResourceRequests d ctr in
                      if 0 <? req_Nums r then Some r else None).
  rewrite (foldl_ext _ (fun m '(k, d) => match g d with Some r => <[k := r]> m | None => m end)).
  2:{ intros m [k0 d] _. unfold g. by case_match. }
  rewrite foldl_insert_opt by apply range_NoDup. unfold l.
  rewrite range_list_to_map, lookup_empty. unfold g.
  destruct (GetDevices cfg !! k) as [d|]; simpl; [|naive_solver].
  destruct (Z.ltb_spec 0 (req_Nums (GenerateResourceRequests d ctr))); naive_solver lia.
Qed.
End requests.

Lemma existsb_singleton {A} (f : A -> bool) a : existsb f [a] = f a.
Proof. simpl. apply orb_false_r. Qed.

(** With or without a comma, a list of types is matched entry by entry. *)
Lemma matches_type_list_split types cardtype :
  matches_type_list types cardtype
  = existsb (fun val => contains (to_upper cardtype) (to_upper val)) (split "," types).
Proof.
  unfold matches_type_list. rewrite contains_char.
  destruct (has_char "," types) eqn:E; [done|].
  by rewrite split_no_sep, existsb_singleton.
Qed.

Lemma matches_type_list_true types cardtype :
  matches_type_list types cardtype = true <->
  exists val, val ∈ split "," types /\ contains (to_upper cardtype) (to_upper val) = true.
Proof.
  rewrite matches_type_list_split, existsb_exists. by setoid_rewrite list_elem_of_In.
Qed.

(** ** Properties *)
Module DeviceProps.

(** The card-type annotations: the use-type annotation, when present,
    admits exactly the cards whose type contains one of its comma-separated
    entries, ignoring case, and the no-use annotation is then not looked at;
    the no-use annotation admits the cards that contain none of its entries;
    with neither, every card is admitted.  The three vendors share the rule. *)
Theorem card_type_filter inuse_key nouse_key (annos : gmap string string) cardtype :
  check_card_type inuse_key nouse_key annos cardtype = true <->
  match annos !! inuse_key, annos !! nouse_key with
  | Some inuse, _ =>
      exists val, val ∈ split "," inuse /\ contains (to_upper cardtype) (to_upper val) = true
  | None, Some nouse =>
      forall val, val ∈ split "," nouse -> contains (to_upper cardtype) (to_upper val) = false
  | None, None => True
  end.
Proof.
  unfold check_card_type. destruct (annos !! inuse_key); [apply matches_type_list_true|].
  destruct (annos !! nouse_key) as [nouse|]; [|done].
  rewrite negb_true_iff, <- not_true_iff_false, matches_type_list_true.
  setoid_rewrite <- not_true_iff_false. naive_solver.
Qed.

(** C23. [Resourcereqs] collects, for each container and whatever the order in
    which the vendors are visited, exactly the requests of the vendors that
    ask for at least one device, each with the device type of its vendor and
    every field of the width of an int32. *)
Theorem Resourcereqs_spec `{GoRuntime} cfg pod i reqs ctr :
  Resourcereqs cfg pod !! i = Some reqs -> pod_Containers pod !! i = Some ctr ->
  (forall k r, reqs !! k = Some r <->
     exists d, GetDevices cfg !! k = Some d /\ r = GenerateResourceRequests d ctr /\ 0 < req_Nums r)
  /\ (forall k r, reqs !! k = Some r -> req_Type r = vendor_type k /\ request_width r).
Proof.
  unfold Resourcereqs. rewrite list_lookup_imap. intros Hr Hc. rewrite Hc in Hr.
  injection Hr as <-. split; [apply container_reqs_lookup|].
  intros k r (d & Hd & -> & Hn)%container_reqs_lookup.
  destruct (GetDevices_contract _ _ _ Hd) as [Hdc _]. split; [by apply dc_request_type|].
  apply (dc_request_width (t := vendor_type k)).
Qed.

Definition gpu_container (gpus mem : Z) : Container :=
  mkContainer "ctr"
    {["nvidia.com/gpu" := mkQuantity (Some gpus) gpus; "nvidia.com/gpumem" := mkQuantity (Some mem) mem]}
    ∅ [] None None.

Definition gpu_pod : Pod :=
  mkPod "pod" "default" "uid" ∅ [gpu_container 1 3000; zeroContainer] "" "Pending".

Lemma Resourcereqs_spec_witness :
  let _ := go_reference in
  exists reqs, Resourcereqs default_config gpu_pod !! 0%nat = Some reqs
  /\ (forall k r, reqs !! k = Some r -> req_Type r = vendor_type k /\ request_width r)
  /\ reqs = {["NVIDIA" := mkRequest 1 "NVIDIA" 3000 101 0]}.
Proof.
  eexists. split; [reflexivity|]. split; [|vm_compute; reflexivity].
  eapply (@Resourcereqs_spec go_reference default_config gpu_pod 0); reflexivity.
Defined.

(** The amount of memory is cut to 32 bits, so a request of
    4294967296 becomes a request for no memory at all. *)
Theorem nvidia_request_memory_wraps :
  nvidia.nvidia_GenerateResourceRequests default_config (gpu_container 1 4294967296)
  = mkRequest 1 "NVIDIA" 0 101 0.
Proof. reflexivity. Qed.
End DeviceProps.
