(* ===== verification/VendorFlags.v ===== *)
(** * The flags of the vendors ([pkg/device/devices.go], [ParseConfig] of the vendors)

    [GlobalFlagSet] lets every registered vendor declare its flags in one
    [flag.FlagSet] of the Go library, in the order of a range over the map of
    vendors.  The vendors' variables ([ResourceName] and so on, the fields of
    [Config]) are bound to the flags: a variable has the value of its flag,
    and is empty while no flag is bound to it. *)

From Stdlib Require Import ZArith Lia Ascii String.
From stdpp Require Import base decidable option gmap strings numbers sorting list.
From S2P Require Import Prelude GoStrings GoRuntime Types Devices.

#[local] Open Scope Z_scope.

(** ** [flag.FlagSet] *)

(** The value of every declared flag. *)
Abbreviation FlagSet := (gmap string string) (only parsing).

(** [StringVar] and [BoolVar] panic when the flag is there already. *)
Definition declare (fs : FlagSet) (name value : string) : outcome FlagSet :=
  match fs !! name with
  | Some _ => Panic Explicit
  | None => Ret (<[name := value]> fs)
  end.

Fixpoint declare_all (fs : FlagSet) (l : list (string * string)) : outcome FlagSet :=
  match l with
  | [] => Ret fs
  | (name, value) :: l' => fs ← declare fs name value; declare_all fs l'
  end.

(** [FlagSet.Set]: the flag is known, or it is an error. *)
Definition fs_Set (fs : FlagSet) (name value : string) : FlagSet * option error :=
  match fs !! name with
  | None => (fs, Some ("no such flag -" +:+ name)%string)
  | Some _ => (<[name := value]> fs, None)
  end.

(** ** [ParseConfig] of the vendors *)
Definition nvidia_ParseConfig : list (string * string) :=
  [("resource-name", "nvidia.com/gpu"); ("resource-mem", "nvidia.com/gpumem");
   ("resource-mem-percentage", "nvidia.com/gpumem-percentage"); ("resource-cores", "nvidia.com/gpucores");
   ("resource-priority", "vgputaskpriority")]%string.

Definition cambricon_ParseConfig : list (string * string) :=
  [("mlu-name", "cambricon.com/mlunum"); ("mlu-memory", "cambricon.com/mlumem")]%string.

Definition hygon_ParseConfig : list (string * string) :=
  [("dcu-name", "hygon.com/dcunum"); ("dcu-memory", "hygon.com/dcumem"); ("dcu-cores", "hygon.com/dcucores")]%string.

Definition iluvatar_ParseConfig : list (string * string) :=
  [("iluvatar-name", "iluvatar.ai/gpu"); ("iluvatar-memory", "iluvatar.ai/vcuda-memory");
   ("iluvatar-cores", "iluvatar.ai/vcuda-core")]%string.

(** The vendors of [init], as in [GetDevices]. *)
Definition vendor_flags : gmap string (list (string * string)) :=
  {["Cambricon" := cambricon_ParseConfig; "NVIDIA" := nvidia_ParseConfig; "Hygon" := hygon_ParseConfig]}%string.

(** The variables the flags are bound to. *)
Definition config_of (fs : FlagSet) (mem cores : Z) (schedulerName : string) : Config :=
  let var name := default "" (fs !! name) in {|
  ResourceName := var "resource-name";
  ResourceMem := var "resource-mem";
  ResourceMemPercentage := var "resource-mem-percentage";
  ResourceCores := var "resource-cores";
  ResourcePriority := var "resource-priority";
  MLUResourceCount := var "mlu-name";
  MLUResourceMemory := var "mlu-memory";
  HygonResourceCount := var "dcu-name";
  HygonResourceMemory := var "dcu-memory";
  HygonResourceCores := var "dcu-cores";
  IluvatarResourceCount := var "iluvatar-name";
  IluvatarResourceMemory := var "iluvatar-memory";
  IluvatarResourceCores := var "iluvatar-cores";
  DefaultMem := mem;
  DefaultCores := cores;
  SchedulerName := schedulerName;
|}%string.

Section flags.
Context `{GoRuntime}.

(** [klog_flags]: what [klog.InitFlags] declares. *)
Definition GlobalFlagSet (klog_flags : list (string * string)) : outcome FlagSet :=
  fs ← declare_all ∅ (concat ((range ("GlobalFlagSet"%string, 0%nat) vendor_flags).*2));
  fs ← declare fs "debug" "false";
  declare_all fs klog_flags.
End flags.

(** ** Declaring *)
Lemma declare_all_app fs l k : declare_all fs (l ++ k) = (fs ← declare_all fs l; declare_all fs k).
Proof. revert fs. induction l as [|[n v] l IH]; intros fs; cbn; [done|]. unfold declare. by destruct (fs !! n); [|apply IH]. Qed.

Lemma declare_all_fresh fs l :
  NoDup l.*1 -> Forall (fun n => fs !! n = None) l.*1 -> declare_all fs l = Ret (list_to_map l ∪ fs).
Proof.
  revert fs. induction l as [|[n v] l IH]; intros fs Hnd Hf; cbn [declare_all].
  { cbn. by rewrite (left_id_L ∅ (∪)). }
  cbn [fmap list_fmap] in Hnd, Hf. apply NoDup_cons in Hnd as [Hn Hnd]. apply Forall_cons in Hf as [Hfn Hf]. unfold declare. cbn [fst] in Hfn. rewrite Hfn.
  change (declare_all (<[n := v]> fs) l = Ret (list_to_map ((n, v) :: l) ∪ fs)). rewrite IH; [|done|].
  - apply (f_equal Ret). rewrite list_to_map_cons, <- insert_union_r by (by apply not_elem_of_list_to_map). by rewrite insert_union_l.
  - apply Forall_forall. intros m Hm. rewrite lookup_insert_ne; [by rewrite Forall_forall in Hf; apply Hf|].
    intros ->. by apply Hn.
Qed.

(** The flags of [GlobalFlagSet], in one of the orders. *)
Definition all_flags (klog_flags : list (string * string)) : list (string * string) :=
  cambricon_ParseConfig ++ nvidia_ParseConfig ++ hygon_ParseConfig ++ ("debug", "false")%string :: klog_flags.

Section global.
Context `{GoRuntime} (klog_flags : list (string * string)).

Lemma vendor_flags_perm t :
  concat ((range t vendor_flags).*2) ≡ₚ cambricon_ParseConfig ++ nvidia_ParseConfig ++ hygon_ParseConfig.
Proof.
  rewrite range_perm. unfold vendor_flags. vm_compute (map_to_list _). cbn.
  apply (bool_decide_unpack (_ ≡ₚ _)). vm_compute. exact I.
Qed.

Lemma GlobalFlagSet_declares :
  NoDup (all_flags klog_flags).*1 -> GlobalFlagSet klog_flags = Ret (list_to_map (all_flags klog_flags)).
Proof.
  intros Hnd. set (ours := concat ((range ("GlobalFlagSet"%string, 0%nat) vendor_flags).*2)).
  assert (GlobalFlagSet klog_flags = declare_all ∅ (ours ++ ("debug", "false")%string :: klog_flags)) as -> by (by rewrite declare_all_app).
  assert (ours ++ ("debug", "false")%string :: klog_flags ≡ₚ all_flags klog_flags) as Hp.
  { unfold ours. rewrite vendor_flags_perm. unfold all_flags. by rewrite <- !(assoc_L (++)). }
  rewrite declare_all_fresh; [|by rewrite Hp|by apply Forall_forall].
  rewrite (right_id_L ∅ (∪)). f_equal. apply list_to_map_proper; [by rewrite Hp|done].
Qed.

(** The flags of the vendor that is not registered are unknown. *)
Lemma iluvatar_unknown n :
  (forall x, x ∈ klog_flags.*1 -> x ∉ iluvatar_ParseConfig.*1) -> n ∈ iluvatar_ParseConfig.*1 ->
  (list_to_map (all_flags klog_flags) : gmap string string) !! n = None.
Proof.
  intros Hil Hn. apply not_elem_of_list_to_map. unfold all_flags. rewrite !fmap_app, fmap_cons, !elem_of_app, elem_of_cons.
  assert (n ∉ (cambricon_ParseConfig ++ nvidia_ParseConfig ++ hygon_ParseConfig ++ [("debug", "false")%string]).*1) as Hno.
  { revert n Hn. apply Forall_forall, (bool_decide_unpack (Forall _ _)). vm_compute. exact I. }
  rewrite !fmap_app, !elem_of_app in Hno. cbn [fmap list_fmap] in Hno. rewrite list_elem_of_singleton in Hno.
  intros [?|[?|[?|[?|Hk]]]]; try tauto. by apply (Hil n).
Qed.
End global.

Module VendorFlagsProps.

(** The flags of the vendors: provided the logging library declares none of
    them again, declaring them never panics, in whatever order the vendors
    come; the variables then have the documented defaults, and setting a flag
    of a vendor changes exactly what is bound to that flag, so that two
    different flags may be set in either order.  The variables of the
    Iluvatar vendor, which is not registered, stay empty and its flags are
    refused. *)
Theorem vendor_flags_set_config `{GoRuntime} klog_flags :
  NoDup (all_flags klog_flags).*1 -> (forall x, x ∈ klog_flags.*1 -> x ∉ iluvatar_ParseConfig.*1) ->
  exists fs, GlobalFlagSet klog_flags = Ret fs /\
    (forall mem cores name, config_of fs mem cores name =
       mkConfig "nvidia.com/gpu" "nvidia.com/gpumem" "nvidia.com/gpumem-percentage" "nvidia.com/gpucores" "vgputaskpriority"
         "cambricon.com/mlunum" "cambricon.com/mlumem" "hygon.com/dcunum" "hygon.com/dcumem" "hygon.com/dcucores" "" "" "" mem cores name) /\
    (forall n v, n ∈ iluvatar_ParseConfig.*1 -> (fs_Set fs n v).2 = Some ("no such flag -" +:+ n)%string) /\
    (forall n v, n ∈ (all_flags klog_flags).*1 -> (fs_Set fs n v).2 = None) /\
    forall n v n' v', n <> n' -> (fs_Set (fs_Set fs n v).1 n' v').1 = (fs_Set (fs_Set fs n' v').1 n v).1.
Proof.
  intros Hnd Hil. exists (list_to_map (all_flags klog_flags)). split; [by apply GlobalFlagSet_declares|].
  set (fs := list_to_map (all_flags klog_flags) : gmap string string).
  assert (forall n v, (n, v) ∈ all_flags klog_flags -> fs !! n = Some v) as Hin
    by (intros n v Hn; by apply elem_of_list_to_map).
  assert (forall n, n ∈ iluvatar_ParseConfig.*1 -> fs !! n = None) as Hout by (intros n Hn; by apply iluvatar_unknown).
  clearbody fs. split_and!.
  - intros mem cores name. unfold config_of. cbv zeta.
    assert (Forall (fun p => fs !! p.1 = Some p.2) (cambricon_ParseConfig ++ nvidia_ParseConfig ++ hygon_ParseConfig)) as Hd.
    { apply Forall_forall. intros [n v] Hn. apply Hin. unfold all_flags. rewrite !elem_of_app in *. tauto. }
    apply Forall_forall in Hout. cbn in Hd, Hout.
    repeat (apply Forall_cons in Hd as [?E Hd]). repeat (apply Forall_cons in Hout as [?E Hout]). cbn [fst snd] in *.
    repeat match goal with E : fs !! _ = _ |- _ => rewrite E; clear E end. reflexivity.
  - intros n v Hn. unfold fs_Set. by rewrite Hout.
  - intros n v ([n' v'] & -> & Hn)%list_elem_of_fmap. unfold fs_Set. cbn [fst]. by rewrite (Hin n' v').
  - intros n v n' v' Hne. unfold fs_Set.
    destruct (fs !! n) eqn:E1, (fs !! n') eqn:E2; cbn [fst];
      repeat first [rewrite lookup_insert_ne by done | rewrite E1 | rewrite E2]; cbn [fst]; try done.
    by rewrite insert_insert_ne.
Qed.

Lemma vendor_flags_set_config_witness :
  let klog_flags := [("v", "0"); ("logtostderr", "true")]%string in
  exists fs, @GlobalFlagSet go_reference klog_flags = Ret fs /\ ResourceName (config_of fs 0 0 "") = "nvidia.com/gpu"%string.
Proof.
  intros klog_flags. destruct (@vendor_flags_set_config go_reference klog_flags) as (fs & E & Hc & _).
  - apply (bool_decide_unpack (NoDup _)). vm_compute. exact I.
  - apply Forall_forall, (bool_decide_unpack (Forall _ _)). vm_compute. exact I.
  - exists fs. split; [exact E|]. rewrite Hc. reflexivity.
Defined.
End VendorFlagsProps.
