(* ===== verification/Score.v ===== *)
(** * Fitting and scoring ([pkg/scheduler/score.go])

    [fitInCertainDevice] walks the devices of a node from the last to the
    first and collects the ones that satisfy a request; [fitInDevices] runs
    it for each device type a container asks for, after sorting the devices,
    and books the devices found on the node in place; [calcScore] does this
    for every candidate node and every container.

    A node's devices are updated through pointers, so the functions return
    the devices as they leave them, also on failure.  Slice accesses go
    through [slice_get] and [slice_set], which panic out of range. *)

From Stdlib Require Import ZArith Lia Ascii String Sorted.
From stdpp Require Import base decidable option gmap strings numbers sorting list.
From S2P Require Import Prelude GoStrings GoRuntime Types Devices.

#[local] Open Scope Z_scope.

Record NodeScore := mkNodeScore {
  ns_nodeID : string;
  ns_devices : PodDevices;
  ns_score : float32;
}.

Abbreviation NodeScoreList := (list NodeScore).

(** [DeviceUsageList.Less] *)
Definition DeviceUsage_Less (a b : DeviceUsage) : bool :=
  if du_Numa a =? du_Numa b then i32 (du_Count a - du_Used a) <? i32 (du_Count b - du_Used b)
  else du_Numa a <? du_Numa b.

(** [NodeScoreList.Less] *)
Definition NodeScore_Less (a b : NodeScore) : bool := f32_ltb (ns_score a) (ns_score b).

(** [k.Nums = nums] on the local copy of the request *)
Definition with_nums (k : ContainerDeviceRequest) (nums : Z) : ContainerDeviceRequest :=
  mkRequest nums (req_Type k) (req_Memreq k) (req_MemPercentagereq k) (req_Coresreq k).

(** The memory asked of a device: the amount of the request, or its
    percentage of the device; int32 arithmetic, division towards zero. *)
Definition memreq_on (k : ContainerDeviceRequest) (d : DeviceUsage) : Z :=
  let memreq := if 0 <? req_Memreq k then req_Memreq k else 0 in
  if negb (req_MemPercentagereq k =? 101) && (req_Memreq k =? 0)
  then Z.quot (i32 (du_Totalmem d * req_MemPercentagereq k)) 100
  else memreq.

(** [node.Devices[val.Idx].Used++] and the two additions beside it *)
Definition book (d : DeviceUsage) (val : ContainerDevice) : DeviceUsage :=
  mkDeviceUsage (du_Id d) (du_Index d) (i32 (du_Used d + 1)) (du_Count d)
    (i32 (du_Usedmem d + cd_Usedmem val)) (du_Totalmem d) (du_Totalcore d)
    (i32 (du_Usedcores d + cd_Usedcores val)) (du_Numa d) (du_Type d) (du_Health d).

Section score.
Context `{GoRuntime} (cfg : Config).

Fixpoint checkType_loop (devs : list (string * Devices)) (annos : gmap string string)
    (d : DeviceUsage) (n : ContainerDeviceRequest) : bool * bool :=
  match devs with
  | [] => (false, false)
  | (_, val) :: devs' =>
      let '(found, pass, numaAssert) := CheckType val annos d n in
      if found : bool then (pass, numaAssert) else checkType_loop devs' annos d n
  end.

Definition checkType (annos : gmap string string) (d : DeviceUsage) (n : ContainerDeviceRequest)
    : bool * bool :=
  if negb (contains (du_Type d) (req_Type n)) then (false, false)
  else checkType_loop (range ("checkType", 0%nat) (GetDevices cfg)) annos d n.

(** The loop of [fitInCertainDevice] over the devices still to visit, with
    their indices; [k] is the local copy of the request. *)
Fixpoint fit_loop (annos : gmap string string) (originReq : Z) (l : list (nat * DeviceUsage))
    (k : ContainerDeviceRequest) (prevnuma : Z) (tmpDevs : gmap string ContainerDevices)
    : bool * gmap string ContainerDevices :=
  match l with
  | [] => (false, tmpDevs)
  | (i, d) :: l' =>
      let '(found, numa) := checkType annos d k in
      if negb found then fit_loop annos originReq l' k prevnuma tmpDevs
      else
        let '(k, prevnuma, tmpDevs) :=
          if numa && negb (prevnuma =? du_Numa d) then (with_nums k originReq, du_Numa d, ∅)
          else (k, prevnuma, tmpDevs) in
        if du_Count d <=? du_Used d then fit_loop annos originReq l' k prevnuma tmpDevs
        else if 100 <? req_Coresreq k then (false, tmpDevs)
        else
          let memreq := memreq_on k d in
          if i32 (du_Totalmem d - du_Usedmem d) <? memreq
          then fit_loop annos originReq l' k prevnuma tmpDevs
          else if i32 (du_Totalcore d - du_Usedcores d) <? req_Coresreq k
          then fit_loop annos originReq l' k prevnuma tmpDevs
          else if (du_Totalcore d =? 100) && (req_Coresreq k =? 100) && (0 <? du_Used d)
          then fit_loop annos originReq l' k prevnuma tmpDevs
          else if negb (du_Totalcore d =? 0) && (du_Usedcores d =? du_Totalcore d)
                  && (req_Coresreq k =? 0)
          then fit_loop annos originReq l' k prevnuma tmpDevs
          else
            let '(k, tmpDevs) :=
              if 0 <? req_Nums k then
                (with_nums k (req_Nums k - 1),
                 <[req_Type k := default [] (tmpDevs !! req_Type k) ++
                    [mkContainerDevice (Z.of_nat i) (du_Id d) (req_Type k) memreq (req_Coresreq k)]]>
                   tmpDevs)
              else (k, tmpDevs) in
            if req_Nums k =? 0 then (true, tmpDevs)
            else fit_loop annos originReq l' k prevnuma tmpDevs
  end.

(** The indices run from [len(node.Devices) - 1] down to 0. *)
Definition fitInCertainDevice (node : NodeUsage) (request : ContainerDeviceRequest)
    (annos : gmap string string) : bool * gmap string ContainerDevices :=
  fit_loop annos (req_Nums request) (reverse (imap pair (nu_Devices node))) request (-1) ∅.

(** The loop of [fitInDevices] over the devices found: books each on the
    node; [total] and [free] are int32. *)
Fixpoint book_loop (vals : ContainerDevices) (devices : DeviceUsageList) (total free : Z)
    : outcome (DeviceUsageList * Z * Z) :=
  match vals with
  | [] => Ret (devices, total, free)
  | val :: vals' =>
      d ← slice_get devices (Z.to_nat (cd_Idx val));
      devices ← slice_set devices (Z.to_nat (cd_Idx val)) (book d val);
      book_loop vals' devices (i32 (total + du_Count d))
        (i32 (free + i32 (du_Count d - du_Used d)))
  end.

Fixpoint fit_requests (requests : list (string * ContainerDeviceRequest)) (devices : DeviceUsageList)
    (annos : gmap string string) (devinput : PodDevices) (devs : ContainerDevices)
    (total free sums : Z) : outcome (bool * float32 * DeviceUsageList * PodDevices) :=
  match requests with
  | [] =>
      Ret (true, f32_add (f32_div (f32_of_Z total) (f32_of_Z free))
                   (f32_of_Z (Z.of_nat (length devices) - sums)), devices, devinput)
  | (_, k) :: requests' =>
      let sums := sums + req_Nums k in
      if Z.of_nat (length devices) <? req_Nums k then Ret (false, f32_zero, devices, devinput)
      else
        let devices := sort_by DeviceUsage_Less devices in
        let '(fit, tmpDevs) := fitInCertainDevice (mkNodeUsage devices) k annos in
        if fit : bool then
          let found := default [] (tmpDevs !! req_Type k) in
          '(devices, total, free) ← book_loop found devices total free;
          let devs := devs ++ found in
          let devinput :=
            <[req_Type k := default [] (devinput !! req_Type k) ++ [devs]]> devinput in
          fit_requests requests' devices annos devinput devs total free sums
        else Ret (false, f32_zero, devices, devinput)
  end.

Definition fitInDevices (t : loop_id) (node : NodeUsage) (requests : ContainerDeviceRequests)
    (annos : gmap string string) (devinput : PodDevices)
    : outcome (bool * float32 * NodeUsage * PodDevices) :=
  '(fit, score, devices, devinput) ←
    fit_requests (range t requests) (nu_Devices node) annos devinput [] 0 0 0;
  Ret (fit, score, mkNodeUsage devices, devinput).

Definition sum_nums (n : list (string * ContainerDeviceRequest)) : Z :=
  foldl (fun sums '(_, k) => sums + req_Nums k) 0 n.

(** The loop of [calcScore] for a container that asks for no device:
    [score.devices[idx][ctrid] = append(score.devices[idx][ctrid], ContainerDevice{})] *)
Fixpoint pad_loop (ctrid : nat) (idxs : list (string * PodSingleDevice)) (devices : PodDevices)
    : outcome PodDevices :=
  match idxs with
  | [] => Ret devices
  | (idx, _) :: idxs' =>
      let psd := default [] (devices !! idx) in
      c ← slice_get psd ctrid;
      psd ← slice_set psd ctrid (c ++ [zeroContainerDevice]);
      pad_loop ctrid idxs' (<[idx := psd]> devices)
  end.

(** The containers of the pod against one node. *)
Fixpoint score_node (nodeID : string) (ctrid : nat) (nums : PodDeviceRequests)
    (annos : gmap string string) (node : NodeUsage) (score : NodeScore)
    : outcome (NodeUsage * NodeScore) :=
  match nums with
  | [] => Ret (node, score)
  | n :: nums' =>
      let t := ("fitInDevices " +:+ nodeID, ctrid)%string in
      if sum_nums (range t n) =? 0 then
        devices ← pad_loop ctrid (range ("calcScore.pad " +:+ nodeID, ctrid)%string (ns_devices score))
                    (ns_devices score);
        score_node nodeID (S ctrid) nums' annos node
          (mkNodeScore (ns_nodeID score) devices (ns_score score))
      else
        '(fit, nodescore, node, devices) ← fitInDevices t node n annos (ns_devices score);
        if fit : bool then
          score_node nodeID (S ctrid) nums' annos node
            (mkNodeScore (ns_nodeID score) devices (f32_add (ns_score score) nodescore))
        else Ret (node, mkNodeScore (ns_nodeID score) devices (ns_score score))
  end.

(** The loop of [calcScore] over the nodes: the usages as the loop leaves
    them, and the scores in the order of the visit. *)
Fixpoint calc_loop (visit : list (string * NodeUsage)) (nums : PodDeviceRequests)
    (annos : gmap string string) (nodes : gmap string NodeUsage) (res : NodeScoreList)
    : outcome (gmap string NodeUsage * NodeScoreList) :=
  match visit with
  | [] => Ret (nodes, res)
  | (nodeID, node) :: visit' =>
      '(node, score) ← score_node nodeID 0 nums annos node (mkNodeScore nodeID ∅ f32_zero);
      calc_loop visit' nums annos (<[nodeID := node]> nodes)
        (if decide (size (ns_devices score) = length nums) then res ++ [score] else res)
  end.

Definition calcScore (nodes : gmap string NodeUsage) (nums : PodDeviceRequests)
    (annos : gmap string string) : outcome (gmap string NodeUsage * NodeScoreList) :=
  calc_loop (range ("calcScore", 0%nat) nodes) nums annos nodes [].
End score.
