(* ===== verification/FitFacts.v ===== *)
(** * What [fitInCertainDevice] finds

    The type check does not depend on the order in which the vendors are
    visited.  The loop over the devices finds the requested number of
    eligible devices exactly when the node has that many (on one NUMA node,
    when the pod is bound to one), and what it returns are eligible devices
    of distinct indices. *)

From Stdlib Require Import ZArith Lia Ascii String Sorted.
From stdpp Require Import base decidable option gmap strings numbers sorting list.
From S2P Require Import Prelude GoStrings GoRuntime Types Devices Score.

#[local] Open Scope Z_scope.

(** ** The type check without a loop *)
Definition type_pass (annos : gmap string string) (d : DeviceUsage) (k : ContainerDeviceRequest)
    : bool :=
  contains (du_Type d) (req_Type k) &&
  if decide (req_Type k = nvidia.NvidiaGPUDevice)
  then nvidia.checkGPUtype annos (du_Type d) (du_Numa d)
  else if decide (req_Type k = cambricon.CambriconMLUDevice)
  then (cambricon.cambricon_CheckType annos d k).1.2
  else hygon.checkDCUtype annos (du_Type d).

Definition numa_bound (annos : gmap string string) (k : ContainerDeviceRequest) : bool :=
  bool_decide (req_Type k = nvidia.NvidiaGPUDevice) && nvidia.assertNuma annos.

(** A device that satisfies every test of the loop. *)
Definition eligible (annos : gmap string string) (k : ContainerDeviceRequest) (d : DeviceUsage)
    : bool :=
  type_pass annos d k
  && negb (du_Count d <=? du_Used d)
  && negb (i32 (du_Totalmem d - du_Usedmem d) <? memreq_on k d)
  && negb (i32 (du_Totalcore d - du_Usedcores d) <? req_Coresreq k)
  && negb ((du_Totalcore d =? 100) && (req_Coresreq k =? 100) && (0 <? du_Used d))
  && negb (negb (du_Totalcore d =? 0) && (du_Usedcores d =? du_Totalcore d) && (req_Coresreq k =? 0)).

(** The device the loop appends for an eligible device. *)
Definition alloc (k : ContainerDeviceRequest) (x : nat * DeviceUsage) : ContainerDevice :=
  mkContainerDevice (Z.of_nat x.1) (du_Id x.2) (req_Type k) (memreq_on k x.2) (req_Coresreq k).

(** The devices with their indices, in the order of the visit. *)
Definition visit (devices : DeviceUsageList) : list (nat * DeviceUsage) :=
  reverse (imap pair devices).

Section fit.
Context `{GoRuntime} (cfg : Config) (annos : gmap string string).

Lemma checkType_loop_vendor l d n k v :
  (forall k' v', (k', v') ∈ l -> GetDevices cfg !! k' = Some v') ->
  (k, v) ∈ l -> vendor_type k = req_Type n -> req_Type n ∈ known_types ->
  checkType_loop l annos d n = ((CheckType v annos d n).1.2, (CheckType v annos d n).2).
Proof.
  intros Hl Hin Hk Hn. induction l as [|[k' v'] l IH]; [by apply not_elem_of_nil in Hin|].
  pose proof (Hl k' v' ltac:(left)) as Hv'. pose proof (Hl k v Hin) as Hv.
  destruct (GetDevices_contract _ _ _ Hv') as [Hc _]. simpl.
  destruct (decide (vendor_type k' = req_Type n)) as [E|E].
  - assert (k' = k) as -> by (eapply vendor_type_inj; [done|done|congruence]).
    assert (v' = v) as -> by congruence.
    pose proof (dc_found annos d n (eq_sym E)) as Hf.
    destruct (CheckType v annos d n) as [[found pass] numa]. simpl in Hf. by rewrite Hf.
  - rewrite (dc_other annos d n) by done. apply IH.
    + intros k1 v1 H1. apply Hl. by right.
    + apply elem_of_cons in Hin as [[= -> ->]|?]; done.
Qed.

Lemma checkType_eq d n :
  req_Type n ∈ known_types ->
  checkType cfg annos d n
  = (type_pass annos d n, contains (du_Type d) (req_Type n) && numa_bound annos n).
Proof.
  intros Hn. unfold checkType, type_pass, numa_bound.
  destruct (contains (du_Type d) (req_Type n)); [|done]. simpl negb. cbv iota. simpl andb.
  destruct (vendor_of_type cfg _ Hn) as (k & v & Hv & Hk).
  rewrite (checkType_loop_vendor _ _ _ k v); [|by intros; eapply elem_of_range|by apply elem_of_range|done..].
  apply GetDevices_cases in Hv as [(-> & ->)|[(-> & ->)|(-> & ->)]];
    change (vendor_type _) with cambricon.CambriconMLUDevice in Hk
    || change (vendor_type _) with nvidia.NvidiaGPUDevice in Hk
    || change (vendor_type _) with hygon.HygonDCUDevice in Hk; rewrite <- Hk; cbn.
  - unfold cambricon.cambricon_CheckType. by repeat case_match.
  - unfold nvidia.nvidia_CheckType. by rewrite <- Hk.
  - unfold hygon.hygon_CheckType. by rewrite <- Hk.
Qed.

(** ** One iteration of the loop *)
Context (k : ContainerDeviceRequest) (o : Z).
Hypothesis Hknown : req_Type k ∈ known_types.
Hypothesis Hcores : req_Coresreq k <= 100.

Abbreviation loop l nums p tmp := (fit_loop cfg annos o l (with_nums k nums) p tmp).
Abbreviation add tmp x :=
  (<[req_Type k := default [] (tmp !! req_Type k) ++ [alloc k x]]> tmp).

Lemma fit_loop_step x l nums p tmp :
  0 < nums -> 0 < o ->
  loop (x :: l) nums p tmp =
  if type_pass annos x.2 k then
    let '(nums, p, tmp) :=
      if numa_bound annos k && negb (p =? du_Numa x.2) then (o, du_Numa x.2, ∅)
      else (nums, p, tmp) in
    if eligible annos k x.2 then
      if nums =? 1 then (true, add tmp x) else loop l (nums - 1) p (add tmp x)
    else loop l nums p tmp
  else loop l nums p tmp.
Proof.
  intros Hnums Ho. destruct x as [i d]. cbn [fit_loop fst snd].
  rewrite checkType_eq by done.
  change (type_pass annos d (with_nums k nums)) with (type_pass annos d k).
  change (req_Type (with_nums k nums)) with (req_Type k).
  change (numa_bound annos (with_nums k nums)) with (numa_bound annos k).
  unfold eligible. destruct (type_pass annos d k) eqn:Ht; [|done].
  assert (contains (du_Type d) (req_Type k) = true) as -> by (by apply andb_true_iff in Ht as [? _]).
  simpl negb. cbv iota. simpl andb.
  assert (exists nums' p' tmp', 0 < nums' /\
    (if numa_bound annos k && negb (p =? du_Numa d)
     then (with_nums (with_nums k nums) o, du_Numa d, ∅) else (with_nums k nums, p, tmp))
    = (with_nums k nums', p', tmp')
    /\ (if numa_bound annos k && negb (p =? du_Numa d) then (o, du_Numa d, ∅) else (nums, p, tmp))
    = (nums', p', tmp')) as (nums' & p' & tmp' & Hn' & -> & ->).
  { destruct (numa_bound annos k && negb (p =? du_Numa d)); eauto 8. }
  change (memreq_on (with_nums k nums') d) with (memreq_on k d).
  cbn [req_Coresreq req_Nums req_Type with_nums].
  destruct (du_Count d <=? du_Used d); [done|].
  destruct (Z.ltb_spec 100 (req_Coresreq k)); [lia|].
  destruct (i32 (du_Totalmem d - du_Usedmem d) <? memreq_on k d); [done|].
  destruct (i32 (du_Totalcore d - du_Usedcores d) <? req_Coresreq k); [done|].
  destruct ((du_Totalcore d =? 100) && (req_Coresreq k =? 100) && (0 <? du_Used d)); [done|].
  destruct (negb (du_Totalcore d =? 0) && (du_Usedcores d =? du_Totalcore d) && (req_Coresreq k =? 0));
    [done|].
  destruct (Z.ltb_spec 0 nums'); [|lia]. cbn [negb andb req_Nums with_nums].
  destruct (Z.eqb_spec nums' 1), (Z.eqb_spec (nums' - 1) 0); (lia || done).
Qed.

(** ** Soundness: what a successful run returns *)
Definition one_numa (v : Z) (sel : list (nat * DeviceUsage)) : Prop :=
  Forall (fun x => du_Numa x.2 = v) sel.

(** Either the run never restarted, and completes what it was given, or it
    restarted on a NUMA node and found everything there. *)
Definition fit_result (l : list (nat * DeviceUsage)) (nums p : Z)
    (tmp tmp' : gmap string ContainerDevices) : Prop :=
  exists sel, sel `sublist_of` l /\ Forall (fun x => eligible annos k x.2 = true) sel /\
  ((Z.of_nat (length sel) = nums
    /\ tmp' !! req_Type k = Some (default [] (tmp !! req_Type k) ++ (alloc k <$> sel))
    /\ (numa_bound annos k = true -> one_numa p sel))
   \/ (Z.of_nat (length sel) = o
      /\ tmp' !! req_Type k = Some (alloc k <$> sel)
      /\ exists v, one_numa v sel)).

Lemma fit_result_skip x l nums p tmp tmp' :
  fit_result l nums p tmp tmp' -> fit_result (x :: l) nums p tmp tmp'.
Proof. intros (sel & Hs & Hr). exists sel. split; [by apply sublist_cons|done]. Qed.

Lemma fit_result_take x l nums p tmp tmp' :
  eligible annos k x.2 = true -> (numa_bound annos k = true -> du_Numa x.2 = p) ->
  fit_result l (nums - 1) p (add tmp x) tmp' -> fit_result (x :: l) nums p tmp tmp'.
Proof.
  intros Hx Hp (sel & Hs & He & [(Hl & Ht & Hn)|Hr]).
  - exists (x :: sel). split; [by apply sublist_skip|]. split; [by constructor|]. left.
    rewrite lookup_insert_eq in Ht. simpl in Ht |- *. split_and!; [lia| |].
    + by rewrite Ht, <- app_assoc.
    + intros Hb. apply Forall_cons. split; [auto|by apply Hn].
  - exists sel. split; [by apply sublist_cons|]. split; [done|]. by right.
Qed.

Lemma fit_result_last x l p tmp :
  eligible annos k x.2 = true -> (numa_bound annos k = true -> du_Numa x.2 = p) ->
  fit_result (x :: l) 1 p tmp (add tmp x).
Proof.
  intros Hx Hp. exists [x]. split; [apply sublist_skip, sublist_nil_l|]. split; [by constructor|].
  left. rewrite lookup_insert_eq. split_and!; [done..|]. intros Hb. constructor; [auto|constructor].
Qed.

(** A run from a fresh start on one NUMA node is a restart. *)
Lemma fit_result_restart l nums p v tmp tmp' :
  numa_bound annos k = true -> fit_result l o v ∅ tmp' -> fit_result l nums p tmp tmp'.
Proof.
  intros Hb (sel & Hs & He & [(Hl & Ht & Hn)|Hr]); exists sel; (split; [done|split; [done|right]]); [|done].
  rewrite lookup_empty in Ht. eauto.
Qed.

Lemma fit_loop_sound l nums p tmp tmp' :
  0 < nums -> 0 < o -> loop l nums p tmp = (true, tmp') -> fit_result l nums p tmp tmp'.
Proof.
  intros Hn Ho. revert nums p tmp Hn. induction l as [|x l IH]; intros nums p tmp Hn; [done|].
  rewrite fit_loop_step by done. destruct (type_pass annos x.2 k); [|eauto using fit_result_skip].
  destruct (numa_bound annos k && negb (p =? du_Numa x.2)) eqn:Er.
  - apply andb_true_iff in Er as [Hb _]. intros E.
    apply (fit_result_restart _ _ _ (du_Numa x.2)); [done|]. revert E.
    destruct (eligible annos k x.2) eqn:He; [|eauto using fit_result_skip].
    destruct (Z.eqb_spec o 1) as [->|].
    + intros [= <-]. by apply fit_result_last.
    + intros E. apply fit_result_take; [done..|]. apply IH; [lia|done].
  - assert (numa_bound annos k = true -> du_Numa x.2 = p) as Hp.
    { intros Hb. rewrite Hb in Er. bool_to_prop. destruct Er; [done|]. bool_to_prop. done. }
    destruct (eligible annos k x.2) eqn:He; [|eauto using fit_result_skip].
    destruct (Z.eqb_spec nums 1) as [->|].
    + intros [= <-]. by apply fit_result_last.
    + intros E. apply fit_result_take; [done..|]. apply IH; [lia|done].
Qed.

(** ** Completeness: when a run succeeds *)
Definition elig_count (l : list (nat * DeviceUsage)) : Z :=
  Z.of_nat (length (filter (fun x => eligible annos k x.2 = true) l)).

Definition elig_count_on (v : Z) (l : list (nat * DeviceUsage)) : Z :=
  Z.of_nat (length (filter (fun x => eligible annos k x.2 = true /\ du_Numa x.2 = v) l)).

Lemma eligible_type_pass d : eligible annos k d = true -> type_pass annos d k = true.
Proof. unfold eligible. intros H0. by bool_to_prop. Qed.

Lemma elig_count_cons x l :
  elig_count (x :: l) = (if eligible annos k x.2 then 1 else 0) + elig_count l.
Proof.
  unfold elig_count. rewrite filter_cons. case_decide as E.
  - rewrite E. simpl. lia.
  - apply not_true_iff_false in E. rewrite E. lia.
Qed.

Lemma elig_count_on_cons v x l :
  elig_count_on v (x :: l)
  = (if eligible annos k x.2 && (du_Numa x.2 =? v) then 1 else 0) + elig_count_on v l.
Proof.
  unfold elig_count_on. rewrite filter_cons.
  case_decide as Hd; destruct (eligible annos k x.2), (Z.eqb_spec (du_Numa x.2) v); simpl;
    first [lia|exfalso; naive_solver].
Qed.

Lemma elig_count_nonneg l : 0 <= elig_count l.
Proof. unfold elig_count. lia. Qed.

Lemma elig_count_on_nonneg v l : 0 <= elig_count_on v l.
Proof. unfold elig_count_on. lia. Qed.

Lemma fit_loop_complete_free l nums p tmp :
  0 < nums -> 0 < o -> numa_bound annos k = false ->
  (loop l nums p tmp).1 = true <-> nums <= elig_count l.
Proof.
  intros Hn Ho Hb. revert nums p tmp Hn. induction l as [|x l IH]; intros nums p tmp Hn.
  { split; [done|]. unfold elig_count. simpl. lia. }
  rewrite fit_loop_step, Hb, elig_count_cons by done. simpl andb. cbv iota.
  destruct (eligible annos k x.2) eqn:He.
  - rewrite (eligible_type_pass _ He). pose proof (elig_count_nonneg l).
    destruct (Z.eqb_spec nums 1); [split; [lia|done]|]. rewrite IH by lia. lia.
  - destruct (type_pass annos x.2 k); rewrite IH by done; lia.
Qed.

Lemma elig_count_on_lt v l :
  Forall (fun x => du_Numa x.2 < v) l -> elig_count_on v l = 0.
Proof.
  induction 1 as [|x l Hx _ IH]; [done|]. rewrite elig_count_on_cons, IH.
  destruct (Z.eqb_spec (du_Numa x.2) v); [lia|]. by rewrite andb_false_r.
Qed.

(** On devices sorted by descending NUMA node, a bound run succeeds exactly
    when some NUMA node has enough eligible devices, counting for the
    current one what was already found. *)
Lemma fit_loop_complete_bound l nums p tmp :
  0 < nums <= o -> numa_bound annos k = true ->
  StronglySorted (fun x y : nat * DeviceUsage => du_Numa y.2 <= du_Numa x.2) l ->
  nums = o \/ Forall (fun x => du_Numa x.2 <= p) l ->
  (loop l nums p tmp).1 = true <->
  exists v, (if v =? p then nums else o) <= elig_count_on v l.
Proof.
  intros Hn Hb Hs. revert nums p tmp Hn. induction Hs as [|x l Hs IH Hx]; intros nums p tmp Hn Hp.
  { cbn. split; [done|]. intros [v Hv]. unfold elig_count_on in Hv. simpl in Hv.
    destruct (v =? p); lia. }
  rewrite fit_loop_step, Hb by lia. simpl andb.
  setoid_rewrite elig_count_on_cons.
  assert (nums = o \/ Forall (fun x => du_Numa x.2 <= p) l) as Hp'.
  { destruct Hp as [?|Hp]; [by left|]. right. by apply Forall_cons in Hp as [_ ?]. }
  destruct (type_pass annos x.2 k) eqn:Ht.
  2:{ destruct (eligible annos k x.2) eqn:He; [apply eligible_type_pass in He; congruence|].
      rewrite IH by done. done. }
  destruct (Z.eqb_spec p (du_Numa x.2)) as [->|Hne]; simpl negb; cbv iota.
  - destruct (eligible annos k x.2) eqn:He; simpl andb; [|by rewrite IH].
    destruct (Z.eqb_spec nums 1) as [->|].
    + split; [|done]. intros _. exists (du_Numa x.2). rewrite Z.eqb_refl.
      pose proof (elig_count_on_nonneg (du_Numa x.2) l). lia.
    + rewrite IH; [|lia|by right]. apply base.exist_proper. intros v.
      rewrite (Z.eqb_sym (du_Numa x.2) v). destruct (v =? du_Numa x.2); lia.
  - assert (forall v, (if v =? p then nums else o) <=
        (if eligible annos k x.2 && (du_Numa x.2 =? v) then 1 else 0) + elig_count_on v l <->
        o <= (if eligible annos k x.2 && (du_Numa x.2 =? v) then 1 else 0) + elig_count_on v l) as Ho.
    { intros v. destruct (Z.eqb_spec v p) as [->|]; [|done].
      destruct Hp as [->|Hp]; [done|]. apply Forall_cons in Hp as [Hxp _].
      rewrite elig_count_on_lt.
      - destruct (Z.eqb_spec (du_Numa x.2) p); [lia|]. rewrite andb_false_r. lia.
      - eapply Forall_impl; [exact Hx|]. intros y Hy. simpl in *. lia. }
    setoid_rewrite Ho. clear Ho.
    destruct (eligible annos k x.2) eqn:He; simpl andb.
    + destruct (Z.eqb_spec o 1) as [->|].
      * split; [|done]. intros _. exists (du_Numa x.2). rewrite Z.eqb_refl.
        pose proof (elig_count_on_nonneg (du_Numa x.2) l). lia.
      * rewrite IH; [|lia|by right]. apply base.exist_proper. intros v.
        rewrite (Z.eqb_sym (du_Numa x.2) v). destruct (v =? du_Numa x.2); lia.
    + rewrite IH; [|lia|by right]. apply base.exist_proper. intros v.
      destruct (v =? du_Numa x.2); lia.
Qed.
End fit.

(** ** The devices in the order of the visit *)
Lemma elem_of_visit i d devices : (i, d) ∈ visit devices <-> devices !! i = Some d.
Proof.
  unfold visit. rewrite elem_of_reverse, list_elem_of_lookup. split.
  - intros [j Hj]. rewrite list_lookup_imap in Hj.
    destruct (devices !! j) as [d'|] eqn:E; [|done]. simpl in Hj. injection Hj as -> ->. done.
  - intros Hi. exists i. by rewrite list_lookup_imap, Hi.
Qed.

Lemma imap_pair_fst {A} (l : list A) : (imap pair l).*1 = seq 0 (length l).
Proof.
  assert (forall n, (imap (fun i a => (n + i, a)%nat) l).*1 = seq n (length l)) as Hn.
  { induction l as [|a l IH]; intros n; [done|]. simpl. f_equal; [lia|].
    rewrite <- IH. f_equal. apply imap_ext. intros. simpl. f_equal. lia. }
  apply (Hn 0%nat).
Qed.

Lemma imap_pair_snd {A} (l : list A) : (imap pair l).*2 = l.
Proof.
  apply list_eq. intros i. rewrite list_lookup_fmap, list_lookup_imap. by destruct (l !! i).
Qed.

Lemma visit_snd_perm devices : (visit devices).*2 ≡ₚ devices.
Proof. unfold visit. rewrite reverse_Permutation. by rewrite imap_pair_snd. Qed.

Lemma visit_NoDup devices : NoDup (visit devices).*1.
Proof. unfold visit. rewrite reverse_Permutation, imap_pair_fst. apply NoDup_seq. Qed.

Lemma StronglySorted_of_fmap {A B} (f : A -> B) (R : B -> B -> Prop) l :
  StronglySorted R (f <$> l) -> StronglySorted (fun x y => R (f x) (f y)) l.
Proof.
  induction l as [|a l IH]; intros Hs; [constructor|].
  rewrite fmap_cons in Hs. apply StronglySorted_inv in Hs as [Hs Ha].
  constructor; [by apply IH|].
  by rewrite Forall_fmap in Ha.
Qed.

Lemma DeviceUsage_Less_sw : strict_weak_on (fun _ => True) DeviceUsage_Less.
Proof.
  split.
  - intros a b _ _. unfold DeviceUsage_Less.
    destruct (Z.eqb_spec (du_Numa a) (du_Numa b)), (Z.eqb_spec (du_Numa b) (du_Numa a)); intros;
      bool_to_prop; (congruence || (apply Z.ltb_ge; lia)).
  - intros a b c _ _ _. unfold DeviceUsage_Less.
    destruct (Z.eqb_spec (du_Numa b) (du_Numa a)), (Z.eqb_spec (du_Numa c) (du_Numa b)),
      (Z.eqb_spec (du_Numa c) (du_Numa a)); intros; bool_to_prop; (congruence || (apply Z.ltb_ge; lia)).
Qed.

Section sorted_visit.
Context `{GoRuntime}.

Definition sorted_devices (devices : DeviceUsageList) : Prop :=
  StronglySorted (fun a b => DeviceUsage_Less b a = false) devices.

Lemma sort_by_sorted devices : sorted_devices (sort_by DeviceUsage_Less devices).
Proof.
  apply (sort_sorted (fun _ => True)); [apply DeviceUsage_Less_sw|]. by apply Forall_true.
Qed.

Lemma visit_numa devices :
  sorted_devices devices ->
  StronglySorted (fun x y : nat * DeviceUsage => du_Numa y.2 <= du_Numa x.2) (visit devices).
Proof.
  intros Hs. unfold visit.
  apply (StronglySorted_reverse (fun x y : nat * DeviceUsage => du_Numa x.2 <= du_Numa y.2)).
  apply (StronglySorted_of_fmap snd (fun a b => du_Numa a <= du_Numa b)).
  rewrite imap_pair_snd. induction Hs as [|a l Hs IH Ha]; constructor; [done|].
  eapply Forall_impl; [exact Ha|]. intros b. unfold DeviceUsage_Less.
  destruct (Z.eqb_spec (du_Numa b) (du_Numa a)); intros; bool_to_prop; lia.
Qed.
End sorted_visit.

(** Eligible devices of a node, on every NUMA node or on one. *)
Definition eligible_on (annos : gmap string string) (k : ContainerDeviceRequest) (numa : option Z)
    (devices : DeviceUsageList) : DeviceUsageList :=
  filter (fun d => eligible annos k d = true /\ default (du_Numa d) numa = du_Numa d) devices.

Lemma filter_snd_length {A B} (P : B -> Prop) `{forall b, Decision (P b)} (l : list (A * B)) :
  length (filter (fun x => P x.2) l) = length (filter P l.*2).
Proof.
  induction l as [|[a b] l IH]; [done|]. simpl. rewrite !filter_cons. simpl.
  case_decide; simpl; by rewrite IH.
Qed.

Lemma elig_count_visit annos k devices :
  elig_count annos k (visit devices) = Z.of_nat (length (eligible_on annos k None devices)).
Proof.
  unfold elig_count, eligible_on. f_equal.
  etransitivity; [exact (filter_snd_length (fun d => eligible annos k d = true) (visit devices))|].
  rewrite visit_snd_perm.
  f_equal. apply list_filter_iff. intros d. simpl. naive_solver.
Qed.

Lemma elig_count_on_visit annos k v devices :
  elig_count_on annos k v (visit devices)
  = Z.of_nat (length (eligible_on annos k (Some v) devices)).
Proof.
  unfold elig_count_on, eligible_on. f_equal.
  etransitivity;
    [exact (filter_snd_length (fun d => eligible annos k d = true /\ du_Numa d = v) (visit devices))|].
  rewrite visit_snd_perm.
  f_equal. apply list_filter_iff. intros d. simpl. naive_solver.
Qed.

(** A request for more than 100 percent of a card's cores is never met. *)
Lemma fit_loop_cores `{GoRuntime} cfg annos o l k p tmp :
  100 < req_Coresreq k -> (fit_loop cfg annos o l k p tmp).1 = false.
Proof.
  revert k p tmp. induction l as [|[i d] l IH]; intros k p tmp Hc; [done|]. cbn [fit_loop].
  destruct (checkType cfg annos d k) as [found numa]. destruct found; simpl negb; cbv iota; [|by apply IH].
  destruct (numa && negb (p =? du_Numa d)); cbn [req_Coresreq with_nums];
    (destruct (du_Count d <=? du_Used d); [by apply IH|]);
    by destruct (Z.ltb_spec 100 (req_Coresreq k)); [|lia].
Qed.

(** ** The whole function *)
Section whole.
Context `{GoRuntime} (cfg : Config) (annos : gmap string string) (k : ContainerDeviceRequest).
Hypothesis Hknown : req_Type k ∈ known_types.
Hypothesis Hnums : 0 < req_Nums k.

Lemma with_nums_id : with_nums k (req_Nums k) = k.
Proof. by destruct k. Qed.

(** The devices a successful run selects, by index. *)
Definition selection (devices : DeviceUsageList) (sel : list (nat * DeviceUsage)) : Prop :=
  NoDup sel.*1
  /\ (forall i d, (i, d) ∈ sel -> devices !! i = Some d /\ eligible annos k d = true)
  /\ Z.of_nat (length sel) = req_Nums k
  /\ (numa_bound annos k = true -> exists v, one_numa v sel).

Lemma fit_selection devices tmp :
  fitInCertainDevice cfg (mkNodeUsage devices) k annos = (true, tmp) ->
  exists sel, selection devices sel /\ tmp !! req_Type k = Some (alloc k <$> sel)
    /\ req_Coresreq k <= 100.
Proof.
  unfold fitInCertainDevice. cbn [nu_Devices]. fold (visit devices). intros E.
  destruct (Z.leb_spec (req_Coresreq k) 100) as [Hc|Hc].
  2:{ pose proof (fit_loop_cores cfg annos (req_Nums k) (visit devices) k (-1) ∅ Hc) as Hf.
      by rewrite E in Hf. }
  rewrite <- with_nums_id in E at 2.
  apply fit_loop_sound in E as (sel & Hs & He & Hr); [|done..].
  exists sel. rewrite lookup_empty in Hr. split_and!; [|by destruct Hr as [(_ & ? & _)|(_ & ? & _)]|done].
  split_and!.
  - eapply sublist_NoDup; [apply (visit_NoDup devices)|]. by apply fmap_sublist.
  - intros i d Hin. split.
    + apply elem_of_visit. by eapply elem_of_sublist.
    + rewrite Forall_forall in He. apply (He (i, d) Hin).
  - by destruct Hr as [(? & _)|(? & _)].
  - intros Hb. destruct Hr as [(_ & _ & Hn)|(_ & _ & Hn)]; eauto.
Qed.

Lemma fit_iff devices :
  sorted_devices devices -> req_Coresreq k <= 100 ->
  (fitInCertainDevice cfg (mkNodeUsage devices) k annos).1 = true <->
  if numa_bound annos k
  then exists v, req_Nums k <= Z.of_nat (length (eligible_on annos k (Some v) devices))
  else req_Nums k <= Z.of_nat (length (eligible_on annos k None devices)).
Proof.
  intros Hs Hc. unfold fitInCertainDevice. cbn [nu_Devices]. fold (visit devices).
  rewrite <- with_nums_id at 2. destruct (numa_bound annos k) eqn:Hb.
  - rewrite fit_loop_complete_bound; [|done..|lia|done|by apply visit_numa|by left].
    apply base.exist_proper. intros v. rewrite elig_count_on_visit. by destruct (v =? -1).
  - rewrite fit_loop_complete_free by done. by rewrite elig_count_visit.
Qed.
End whole.
