(* ===== verification/BookFacts.v ===== *)
(** * Booking devices keeps a node within its capacity

    A node is accounted device by device: how many containers use it, and
    how much memory and how many cores they hold ([usage_sum]).  Booking what
    [fitInCertainDevice] found adds exactly what was found ([amount]) and
    leaves every device within its limits ([usage_ok]). *)

From Stdlib Require Import ZArith Lia Ascii String Sorted.
From stdpp Require Import base decidable option gmap strings numbers sorting list.
From S2P Require Import Prelude GoStrings GoRuntime Types Devices Score FitFacts.

#[local] Open Scope Z_scope.

(** ** Accounts *)

(** What a list of allocated devices holds of the device [id]; [f] is the
    quantity counted. *)
Definition amount (f : ContainerDevice -> Z) (id : string) (vals : ContainerDevices) : Z :=
  zsum (f <$> filter (fun v => cd_UUID v = id) vals).

Definition one (v : ContainerDevice) : Z := 1.

(** What a node's table says of the device [id]. *)
Definition usage_sum (g : DeviceUsage -> Z) (id : string) (devices : DeviceUsageList) : Z :=
  zsum (g <$> filter (fun d => du_Id d = id) devices).

(** The three quantities the scheduler tracks, on both sides. *)
Inductive tracked : (ContainerDevice -> Z) -> (DeviceUsage -> Z) -> Prop :=
| tracked_count : tracked one du_Used
| tracked_mem : tracked cd_Usedmem du_Usedmem
| tracked_cores : tracked cd_Usedcores du_Usedcores.

(** ** Limits *)
Record usage_ok (d : DeviceUsage) : Prop := {
  uo_count : 0 <= du_Used d <= du_Count d /\ du_Count d <= max_i32;
  uo_mem : 0 <= du_Usedmem d <= du_Totalmem d /\ du_Totalmem d * 101 <= max_i32;
  uo_cores : 0 <= du_Usedcores d <= du_Totalcore d /\ du_Totalcore d <= max_i32;
}.

(** A request as the vendors generate it from sensible resource amounts. *)
Record request_ok (k : ContainerDeviceRequest) : Prop := {
  ro_type : req_Type k ∈ known_types;
  ro_nums : 0 < req_Nums k;
  ro_mem : 0 <= req_Memreq k <= max_i32;
  ro_pct : 0 <= req_MemPercentagereq k <= 101;
  ro_cores : 0 <= req_Coresreq k;
}.

(** The fields of a device that booking does not touch. *)
Definition static (d : DeviceUsage) : string * Z * Z * Z * Z * Z * string * bool :=
  (du_Id d, du_Index d, du_Count d, du_Totalmem d, du_Totalcore d, du_Numa d, du_Type d, du_Health d).

(** ** Sums *)
Lemma amount_nil f id : amount f id [] = 0.
Proof. done. Qed.

Lemma amount_cons f id v vals :
  amount f id (v :: vals) = (if decide (cd_UUID v = id) then f v else 0) + amount f id vals.
Proof. unfold amount. rewrite filter_cons. by case_decide. Qed.

Lemma amount_app f id l k : amount f id (l ++ k) = amount f id l + amount f id k.
Proof. unfold amount. by rewrite filter_app, fmap_app, zsum_app. Qed.

Lemma amount_nonneg f id vals : Forall (fun v => 0 <= f v) vals -> 0 <= amount f id vals.
Proof.
  induction 1 as [|v vals Hv _ IH]; [done|]. rewrite amount_cons. case_decide; lia.
Qed.

Lemma usage_sum_cons g id d l :
  usage_sum g id (d :: l) = (if decide (du_Id d = id) then g d else 0) + usage_sum g id l.
Proof. unfold usage_sum. rewrite filter_cons. by case_decide. Qed.

#[export] Instance usage_sum_perm g id : Proper ((≡ₚ) ==> eq) (usage_sum g id).
Proof. intros l k Hp. unfold usage_sum. by rewrite Hp. Qed.

Lemma usage_sum_insert g id l i d d' :
  l !! i = Some d -> du_Id d' = du_Id d ->
  usage_sum g id (<[i := d']> l)
  = usage_sum g id l + (if decide (du_Id d = id) then g d' - g d else 0).
Proof.
  revert i. induction l as [|a l IH]; intros i Hi Hid; [done|].
  destruct i as [|i]; simpl in Hi |- *; rewrite !usage_sum_cons.
  - injection Hi as ->. rewrite Hid. case_decide; lia.
  - rewrite (IH i) by done. lia.
Qed.

(** With distinct identifiers, the account of an identifier is the entry of
    its device. *)
Lemma usage_sum_lookup g l d :
  NoDup (du_Id <$> l) -> d ∈ l -> usage_sum g (du_Id d) l = g d.
Proof.
  intros Hnd Hd. induction l as [|a l IH]; [by apply not_elem_of_nil in Hd|].
  rewrite fmap_cons, NoDup_cons in Hnd. destruct Hnd as [Hni Hnd].
  rewrite usage_sum_cons. apply elem_of_cons in Hd as [->|Hd].
  - rewrite decide_True by done. rewrite <- (Z.add_0_r (g a)) at 2. f_equal.
    clear IH Hnd. induction l as [|b l IHl]; [done|].
    rewrite fmap_cons, not_elem_of_cons in Hni. destruct Hni as [Hb Hni].
    rewrite usage_sum_cons, decide_False by congruence. by rewrite IHl.
  - rewrite decide_False; [by rewrite IH|]. intros E. apply Hni. rewrite E.
    by apply list_elem_of_fmap_2.
Qed.

(** ** One booking *)
Section booking.
Context (annos : gmap string string) (k : ContainerDeviceRequest).
Hypothesis Hk : request_ok k.

Lemma memreq_on_nonneg d : usage_ok d -> 0 <= memreq_on k d.
Proof.
  intros [_ [Hm Hm'] _]. destruct Hk as [_ _ Hmem Hpct _]. unfold memreq_on.
  destruct (negb (req_MemPercentagereq k =? 101) && (req_Memreq k =? 0)).
  - rewrite wrap32_id; [apply Z.quot_pos; nia|]. unfold in_i32, min_i32, max_i32 in *. nia.
  - destruct (Z.ltb_spec 0 (req_Memreq k)); lia.
Qed.

Lemma eligible_limits d :
  usage_ok d -> eligible annos k d = true ->
  du_Used d < du_Count d
  /\ du_Usedmem d + memreq_on k d <= du_Totalmem d
  /\ du_Usedcores d + req_Coresreq k <= du_Totalcore d.
Proof.
  intros [[Hc Hc'] [Hm Hm'] [Hco Hco']] He. unfold eligible in He. bool_to_prop.
  unfold max_i32 in *. rewrite wrap32_id in * by (unfold in_i32, min_i32, max_i32; lia). lia.
Qed.

Lemma book_limits i d :
  usage_ok d -> eligible annos k d = true ->
  du_Used (book d (alloc k (i, d))) = du_Used d + 1
  /\ du_Usedmem (book d (alloc k (i, d))) = du_Usedmem d + memreq_on k d
  /\ du_Usedcores (book d (alloc k (i, d))) = du_Usedcores d + req_Coresreq k.
Proof.
  intros Hok He. pose proof (memreq_on_nonneg d Hok) as Hp.
  destruct (eligible_limits d Hok He) as (H1 & H2 & H3).
  destruct Hok as [[Hc Hc'] [Hm Hm'] [Hco Hco']]. destruct Hk as [_ _ _ _ Hcores].
  unfold book. cbn. unfold max_i32 in *.
  rewrite !wrap32_id by (unfold in_i32, min_i32, max_i32; lia). done.
Qed.

Lemma book_ok i d :
  usage_ok d -> eligible annos k d = true -> usage_ok (book d (alloc k (i, d))).
Proof.
  intros Hok He. pose proof (memreq_on_nonneg d Hok) as Hp.
  destruct (book_limits i d Hok He) as (E1 & E2 & E3).
  destruct (eligible_limits d Hok He) as (H1 & H2 & H3).
  destruct Hok as [[Hc Hc'] [Hm Hm'] [Hco Hco']]. destruct Hk as [_ _ _ _ Hcores].
  split; rewrite ?E1, ?E2, ?E3; cbn; lia.
Qed.

(** The tracked quantity of a booked device grows by that of the
    allocation. *)
Lemma book_tracked f g i d :
  tracked f g -> usage_ok d -> eligible annos k d = true ->
  g (book d (alloc k (i, d))) = g d + f (alloc k (i, d)).
Proof.
  intros Ht Hok He. destruct (book_limits i d Hok He) as (E1 & E2 & E3).
  by destruct Ht; [rewrite E1|rewrite E2|rewrite E3].
Qed.

(** ** Booking a selection *)
Definition picks (devices : DeviceUsageList) (sel : list (nat * DeviceUsage)) : Prop :=
  NoDup sel.*1
  /\ forall i d, (i, d) ∈ sel -> devices !! i = Some d /\ eligible annos k d = true.

Lemma picks_tail devices i d sel d' :
  picks devices ((i, d) :: sel) -> picks (<[i := d']> devices) sel.
Proof.
  intros [Hnd Hin]. rewrite fmap_cons, NoDup_cons in Hnd. destruct Hnd as [Hni Hnd].
  split; [done|]. intros j e He. destruct (Hin j e) as [Hj Hel]; [by right|].
  split; [|done]. rewrite list_lookup_insert_ne; [done|]. intros ->.
  apply Hni. by apply (list_elem_of_fmap_2 fst) in He.
Qed.

Lemma book_loop_spec sel devices total free :
  picks devices sel -> Forall usage_ok devices ->
  exists devices' total' free',
    book_loop (alloc k <$> sel) devices total free = Ret (devices', total', free')
    /\ Forall usage_ok devices'
    /\ static <$> devices' = static <$> devices
    /\ forall f g id, tracked f g ->
         usage_sum g id devices' = usage_sum g id devices + amount f id (alloc k <$> sel).
Proof.
  revert devices total free. induction sel as [|[i d] sel IH]; intros devices total free Hp Hok.
  { exists devices, total, free. split_and!; [done..|]. intros. unfold amount. simpl. lia. }
  pose proof Hp as [_ Hin]. destruct (Hin i d) as [Hi He]; [by left|].
  assert (usage_ok d) as Hd by (by eapply Forall_lookup_1).
  set (d' := book d (alloc k (i, d))).
  destruct (IH (<[i := d']> devices) (i32 (total + du_Count d))
    (i32 (free + i32 (du_Count d - du_Used d)))) as (devices' & total' & free' & E & Hok' & Hst & Hsum).
  { by eapply picks_tail. }
  { apply Forall_insert; [done|]. by apply book_ok. }
  exists devices', total', free'. split_and!; [|done| |].
  - rewrite fmap_cons. cbn [book_loop]. cbn [cd_Idx alloc fst]. rewrite Nat2Z.id.
    unfold slice_get. rewrite Hi. cbn [mbind outcome_bind].
    unfold slice_set. rewrite decide_True by (by eapply lookup_lt_Some). exact E.
  - rewrite Hst, list_fmap_insert. apply list_insert_id. by rewrite list_lookup_fmap, Hi.
  - intros f g id Ht. rewrite (Hsum f g id Ht), fmap_cons, amount_cons.
    rewrite (usage_sum_insert g id devices i d d') by done.
    unfold d'. rewrite (book_tracked f g i d Ht Hd He). cbn [cd_UUID alloc snd].
    case_decide; lia.
Qed.
End booking.
