(* ===== verification/ScoreFacts.v ===== *)
(** * What a pod gets on a node

    [fitInDevices] never panics on requests the vendors generate, keeps every
    device of the node within its limits, and books exactly the devices it
    grants.  The walk of [calcScore] over the containers inherits this; the
    way it records the grants decides which pods it accepts. *)

From Stdlib Require Import ZArith Lia Ascii String Sorted.
From stdpp Require Import base decidable option gmap strings numbers sorting list.
From S2P Require Import Prelude GoStrings GoRuntime Types Devices Score FitFacts BookFacts.

#[local] Open Scope Z_scope.

(** ** Granting the requests of a container *)

(** A grant answers a request with the devices of a selection, made while
    the node had the same devices in some order and in some state within the
    limits. *)
Definition grant (annos : gmap string string) (devices : DeviceUsageList)
    (k : ContainerDeviceRequest) (x : string * ContainerDevices) : Prop :=
  exists devs sel, static <$> devs ≡ₚ static <$> devices /\ Forall usage_ok devs
    /\ selection annos k devs sel /\ x = (req_Type k, alloc k <$> sel).

(** How [fitInDevices] records grants: the list [devs] is shared by the
    requests of the container and never reset. *)
Fixpoint accumulate (devinput : PodDevices) (devs : ContainerDevices)
    (grants : list (string * ContainerDevices)) : PodDevices :=
  match grants with
  | [] => devinput
  | (t, found) :: grants' =>
      accumulate (<[t := default [] (devinput !! t) ++ [devs ++ found]]> devinput)
        (devs ++ found) grants'
  end.

(** The node after the grants. *)
Record booked (devices devices' : DeviceUsageList) (vals : ContainerDevices) : Prop := {
  bk_ok : Forall usage_ok devices';
  bk_static : static <$> devices' ≡ₚ static <$> devices;
  bk_sum f g id : tracked f g ->
    usage_sum g id devices' = usage_sum g id devices + amount f id vals;
}.

Lemma booked_refl devices : Forall usage_ok devices -> booked devices devices [].
Proof. intros Hok. split; [done..|]. intros. unfold amount. simpl. lia. Qed.

Lemma booked_trans devices1 devices2 devices3 vals vals' :
  booked devices1 devices2 vals -> booked devices2 devices3 vals' ->
  booked devices1 devices3 (vals ++ vals').
Proof.
  intros [_ Hst1 Hs1] [Hok Hst2 Hs2]. split; [done|by etransitivity|].
  intros f g id Ht. rewrite (Hs2 f g id Ht), (Hs1 f g id Ht), amount_app. lia.
Qed.

Lemma grant_static annos devices devices' k x :
  static <$> devices' ≡ₚ static <$> devices -> grant annos devices' k x -> grant annos devices k x.
Proof.
  intros Hst (devs & sel & Hd & Hr). exists devs, sel. split; [by etransitivity|done].
Qed.

Section granting.
Context `{GoRuntime} (cfg : Config) (annos : gmap string string).

(** One request. *)
Lemma fit_one devices k tmp total free :
  request_ok k -> Forall usage_ok devices ->
  fitInCertainDevice cfg (mkNodeUsage devices) k annos = (true, tmp) ->
  exists devices' total' free' found,
    default [] (tmp !! req_Type k) = found
    /\ book_loop found devices total free = Ret (devices', total', free')
    /\ grant annos devices k (req_Type k, found) /\ booked devices devices' found.
Proof.
  intros Hk Hok E. apply fit_selection in E as (sel & Hsel & Ht & _); [|apply Hk..].
  destruct (book_loop_spec annos k Hk sel devices total free)
    as (devices' & total' & free' & Eb & Hok' & Hst & Hsum); [|done|].
  { by destruct Hsel as (? & ? & _). }
  exists devices', total', free', (alloc k <$> sel). rewrite Ht. split_and!; [done|done| |].
  - by exists devices, sel.
  - split; [done|by rewrite Hst|]. done.
Qed.

Lemma sort_booked devices :
  Forall usage_ok devices -> booked devices (sort_by DeviceUsage_Less devices) [].
Proof.
  intros Hok. pose proof (sort_perm DeviceUsage_Less devices) as Hp. split.
  - by rewrite Hp.
  - by rewrite Hp.
  - intros f g id _. rewrite Hp. unfold amount. simpl. lia.
Qed.

Lemma fit_requests_spec requests devices devinput devs total free sums :
  Forall (fun kv => request_ok kv.2) requests -> Forall usage_ok devices ->
  exists fit score devices' grants,
    fit_requests cfg requests devices annos devinput devs total free sums
      = Ret (fit, score, devices', accumulate devinput devs grants)
    /\ booked devices devices' (concat grants.*2)
    /\ exists granted rest, requests = granted ++ rest
       /\ Forall2 (grant annos devices) granted.*2 grants
       /\ (fit = true <-> rest = []).
Proof.
  intros Hks. revert devices devinput devs total free sums.
  induction Hks as [|[key k] requests Hk Hks IH]; intros devices devinput devs total free sums Hok.
  { eexists true, _, devices, []. split; [done|]. split; [by apply booked_refl|]. by exists [], []. }
  cbn [fit_requests]. destruct (Z.of_nat (length devices) <? req_Nums k).
  { eexists false, _, devices, []. split; [done|]. split; [by apply booked_refl|].
    by exists [], ((key, k) :: requests). }
  pose proof (sort_booked devices Hok) as Hsort.
  set (devices1 := sort_by DeviceUsage_Less devices) in *.
  destruct (fitInCertainDevice cfg (mkNodeUsage devices1) k annos) as [[] tmp] eqn:Ef.
  2:{ eexists false, _, devices1, []. split; [done|]. split; [done|].
      by exists [], ((key, k) :: requests). }
  destruct (fit_one devices1 k tmp total free Hk (bk_ok _ _ _ Hsort) Ef)
    as (devices2 & total2 & free2 & found & -> & -> & Hg & Hb).
  cbn [mbind outcome_bind].
  destruct (IH devices2 (<[req_Type k := default [] (devinput !! req_Type k) ++ [devs ++ found]]> devinput)
    (devs ++ found) total2 free2 (sums + req_Nums k) (bk_ok _ _ _ Hb))
    as (fit & score & devices' & grants & -> & Hb' & granted & rest & -> & Hgs & Hfit).
  pose proof (booked_trans _ _ _ _ _ Hsort Hb) as Hb2. simpl in Hb2.
  exists fit, score, devices', ((req_Type k, found) :: grants). split; [done|]. split.
  { by apply (booked_trans _ _ _ _ _ Hb2). }
  exists ((key, k) :: granted), rest. split; [done|]. split; [|done].
  apply Forall2_cons. split.
  - by apply (grant_static _ _ devices1); [apply Hsort|].
  - eapply Forall2_impl; [exact Hgs|]. intros k' x Hx. eapply grant_static; [|exact Hx]. apply Hb2.
Qed.

(** The requests of a container, as [Resourcereqs] builds them. *)
Definition requests_ok (requests : ContainerDeviceRequests) : Prop :=
  map_Forall (fun key k => request_ok k /\ req_Type k = vendor_type key
                /\ is_Some (GetDevices cfg !! key)) requests.

Lemma range_requests_ok t requests :
  requests_ok requests -> Forall (fun kv => request_ok kv.2) (range t requests).
Proof.
  intros Hr. apply Forall_forall. intros [key k] Hk. apply elem_of_range in Hk.
  by destruct (Hr _ _ Hk).
Qed.

Lemma range_types_NoDup t requests :
  requests_ok requests -> NoDup (req_Type <$> (range t requests).*2).
Proof.
  intros Hr. assert (forall key k, (key, k) ∈ range t requests ->
    req_Type k = vendor_type key /\ is_Some (GetDevices cfg !! key)) as Hl.
  { intros key k Hk%elem_of_range. by destruct (Hr _ _ Hk). }
  pose proof (range_NoDup t requests) as Hnd. revert Hnd Hl. generalize (range t requests).
  intros l. induction l as [|[key k] l IH]; intros Hnd Hl; [constructor|].
  apply NoDup_cons in Hnd as [Hni Hnd]. cbn. apply NoDup_cons. split.
  2:{ apply IH; [done|]. intros. apply Hl. by right. }
  intros Hin. apply list_elem_of_fmap in Hin as (k' & Ek & Hin).
  apply list_elem_of_fmap in Hin as ([key' k''] & -> & Hin).
  destruct (Hl key k) as [E1 [d1 H1]]; [by left|]. destruct (Hl key' k'') as [E2 [d2 H2]]; [by right|].
  simpl in Ek. apply Hni. replace key with key'; [by apply (list_elem_of_fmap_2 fst) in Hin|].
  eapply vendor_type_inj; [exact H2|exact H1|congruence].
Qed.

Lemma fitInDevices_spec t node requests devinput :
  requests_ok requests -> Forall usage_ok (nu_Devices node) ->
  exists fit score devices' grants,
    fitInDevices cfg t node requests annos devinput
      = Ret (fit, score, mkNodeUsage devices', accumulate devinput [] grants)
    /\ booked (nu_Devices node) devices' (concat grants.*2)
    /\ exists granted rest, range t requests = granted ++ rest
       /\ Forall2 (grant annos (nu_Devices node)) granted.*2 grants
       /\ (fit = true <-> rest = []).
Proof.
  intros Hr Hok. unfold fitInDevices.
  destruct (fit_requests_spec (range t requests) (nu_Devices node) devinput [] 0 0 0)
    as (fit & score & devices' & grants & -> & Hb & Hg); [by apply range_requests_ok|done|].
  by exists fit, score, devices', grants.
Qed.
End granting.

(** ** Recording the grants *)

(** At most [c] entries for each type: what [c] containers leave. *)
Definition recorded (c : nat) (pd : PodDevices) : Prop :=
  map_Forall (fun _ psd => (length psd <= c)%nat) pd.

Lemma accumulate_dom pd devs grants :
  dom (accumulate pd devs grants) = dom pd ∪ list_to_set grants.*1.
Proof.
  revert pd devs. induction grants as [|[t found] grants IH]; intros pd devs; simpl; [set_solver|].
  rewrite IH, dom_insert_L. set_solver.
Qed.

Lemma accumulate_recorded c pd devs grants :
  NoDup grants.*1 -> recorded c pd -> recorded (S c) (accumulate pd devs grants).
Proof.
  intros Hnd Hc. assert (forall t psd, pd !! t = Some psd ->
    (length psd <= S c /\ (t ∈ grants.*1 -> length psd <= c))%nat) as Hpd.
  { intros t psd Ht. specialize (Hc t psd Ht). simpl in Hc. lia. }
  clear Hc. revert pd devs Hpd. induction grants as [|[t found] grants IH]; intros pd devs Hpd; simpl.
  { intros t psd Ht. apply (Hpd t psd Ht). }
  apply NoDup_cons in Hnd as [Hni Hnd]. apply IH; [done|]. intros t' psd Ht'.
  apply lookup_insert_Some in Ht' as [[<- <-]|[Hne Ht']].
  - rewrite length_app. simpl. split; [|done]. destruct (pd !! t) as [psd|] eqn:E; simpl; [|lia].
    apply Hpd in E as [_ E]. assert (length psd <= c)%nat by (apply E; rewrite fmap_cons; by left). lia.
  - apply Hpd in Ht' as [? Ht']. split; [done|]. intros Hin. apply Ht'. rewrite fmap_cons. by right.
Qed.

Lemma grants_types annos devices granted grants :
  Forall2 (grant annos devices) granted grants -> grants.*1 = req_Type <$> granted.
Proof.
  induction 1 as [|k x granted grants Hg _ IH]; [done|]. cbn. rewrite IH.
  by destruct Hg as (? & ? & _ & _ & _ & ->).
Qed.

(** What a pod holds of a device. *)
Definition pod_amount (f : ContainerDevice -> Z) (id : string) (pd : PodDevices) : Z :=
  zsum ((fun kv : string * PodSingleDevice => amount f id (concat kv.2)) <$> map_to_list pd).

Lemma pod_amount_insert_new f id t psd (pd : PodDevices) :
  pd !! t = None ->
  pod_amount f id (<[t := psd]> pd) = amount f id (concat psd) + pod_amount f id pd.
Proof. intros Ht. unfold pod_amount. by rewrite map_to_list_insert. Qed.

Lemma pod_amount_record f id t c (pd : PodDevices) :
  pod_amount f id (<[t := default [] (pd !! t) ++ [c]]> pd) = pod_amount f id pd + amount f id c.
Proof.
  destruct (pd !! t) as [psd|] eqn:E; simpl.
  - rewrite <- (insert_delete_id pd t psd E) at 2. rewrite <- insert_delete_eq.
    rewrite !pod_amount_insert_new by apply lookup_delete_eq.
    rewrite concat_app, amount_app. simpl. rewrite app_nil_r. lia.
  - rewrite pod_amount_insert_new by done. simpl. rewrite app_nil_r. lia.
Qed.

Lemma pod_amount_empty f id : pod_amount f id ∅ = 0.
Proof. done. Qed.

(** With at most one kind of device per container, the record holds exactly
    the grants. *)
Lemma accumulate_amount f id pd grants :
  (length grants <= 1)%nat ->
  pod_amount f id (accumulate pd [] grants) = pod_amount f id pd + amount f id (concat grants.*2).
Proof.
  destruct grants as [|[t found] [|]]; simpl; intros Hl; [unfold amount; simpl; lia| |lia].
  by rewrite pod_amount_record, app_nil_r.
Qed.

(** ** Recorded amounts are not negative *)
Definition nonneg (v : ContainerDevice) : Prop := 0 <= cd_Usedmem v /\ 0 <= cd_Usedcores v.
Definition pod_nonneg (pd : PodDevices) : Prop := map_Forall (fun _ psd => Forall (Forall nonneg) psd) pd.

Lemma tracked_nonneg f g v : tracked f g -> nonneg v -> 0 <= f v.
Proof. intros [] [? ?]; unfold one; lia. Qed.

Lemma pod_amount_nonneg f g id pd : tracked f g -> pod_nonneg pd -> 0 <= pod_amount f id pd.
Proof.
  intros Ht Hp. unfold pod_amount. apply zsum_nonneg. rewrite Forall_fmap. apply Forall_forall.
  intros [t psd] Hin. apply elem_of_map_to_list in Hin. cbn. apply amount_nonneg.
  apply Forall_concat. eapply Forall_impl; [exact (Hp t psd Hin)|]. intros c Hc.
  eapply Forall_impl; [exact Hc|]. intros v Hv. by eapply tracked_nonneg.
Qed.

Lemma grant_nonneg annos devices k x : request_ok k -> grant annos devices k x -> Forall nonneg x.2.
Proof.
  intros Hk (devs & sel & _ & Hok & Hsel & ->). destruct Hsel as (_ & Hin & _). cbn [snd].
  rewrite Forall_fmap. apply Forall_forall. intros [i d] Hd. destruct (Hin i d Hd) as [Hi _].
  split; cbn; [|apply Hk]. apply memreq_on_nonneg; [done|]. by eapply Forall_lookup_1.
Qed.

Lemma grants_nonneg annos devices granted grants :
  Forall request_ok granted -> Forall2 (grant annos devices) granted grants ->
  Forall (fun x => Forall nonneg x.2) grants.
Proof.
  intros Hk Hg. induction Hg as [|k x granted grants Hx Hg IH]; [constructor|].
  apply Forall_cons in Hk as [Hk Hks]. constructor; [by eapply grant_nonneg|auto].
Qed.

Lemma accumulate_nonneg pd devs grants :
  pod_nonneg pd -> Forall nonneg devs -> Forall (fun x => Forall nonneg x.2) grants ->
  pod_nonneg (accumulate pd devs grants).
Proof.
  intros Hp Hd Hg. revert pd devs Hp Hd. induction Hg as [|[t found] grants Hx _ IH]; intros pd devs Hp Hd;
    cbn [accumulate]; [done|]. cbn in Hx.
  assert (Forall nonneg (devs ++ found)) by (by apply Forall_app). apply IH; [|done].
  apply map_Forall_insert_2; [|done]. apply Forall_app. split; [|by constructor].
  destruct (pd !! t) as [psd|] eqn:E; [by apply (Hp t)|constructor].
Qed.
