(* ===== verification/CalcFacts.v ===== *)
(** * The candidates [calcScore] accepts

    [score_node] runs the containers of a pod against one node, [calcScore]
    runs it for every node; what it returns does not depend on the order in
    which the nodes are visited. *)

From Stdlib Require Import ZArith Lia Ascii String Sorted.
From stdpp Require Import base decidable option gmap strings numbers sorting list.
From S2P Require Import Prelude GoStrings GoRuntime Types Devices Score FitFacts BookFacts ScoreFacts.

#[local] Open Scope Z_scope.

Definition node_ok (node : NodeUsage) : Prop := Forall usage_ok (nu_Devices node).

(** The types a pod asks for. *)
Definition asked_types (nums : PodDeviceRequests) : gset string :=
  ⋃ ((fun n : ContainerDeviceRequests => set_map vendor_type (dom n)) <$> nums).

(** Every container asks for at most one kind of device. *)
Definition single_kind (nums : PodDeviceRequests) : Prop :=
  Forall (fun n : ContainerDeviceRequests => (size n <= 1)%nat) nums.

Section containers.
Context `{GoRuntime} (cfg : Config) (annos : gmap string string).

(** ** Containers without devices *)
Lemma pad_empty c t : pad_loop c (range t (∅ : PodDevices)) ∅ = Ret ∅.
Proof. by rewrite range_empty. Qed.

Lemma pad_panics c t (pd : PodDevices) :
  recorded c pd -> pd <> ∅ -> pad_loop c (range t pd) pd = Panic IndexOutOfRange.
Proof.
  intros Hc Hne. destruct (range t pd) as [|[idx psd] l] eqn:E.
  { by apply range_nil in E. }
  assert (pd !! idx = Some psd) as Hi by (rewrite <- (elem_of_range t), E; left).
  cbn [pad_loop]. rewrite Hi. simpl. rewrite slice_get_Panic; [done|]. by apply (Hc idx).
Qed.

Lemma sum_nums_acc (l : list (string * ContainerDeviceRequest)) z :
  foldl (fun sums '(_, k) => sums + req_Nums k) z l = z + zsum (req_Nums <$> l.*2).
Proof.
  revert z. induction l as [|[key k] l IH]; intros z; [cbn; lia|]. rewrite !fmap_cons, zsum_cons.
  cbn [foldl fst snd]. rewrite IH. lia.
Qed.

Lemma sum_nums_zero t n :
  requests_ok cfg n -> (sum_nums (range t n) =? 0) = bool_decide (n = ∅).
Proof.
  intros Hn. unfold sum_nums. rewrite sum_nums_acc.
  pose proof (range_requests_ok cfg t n Hn) as Hl. case_bool_decide as E.
  - subst n. by rewrite range_empty.
  - apply Z.eqb_neq. destruct (range t n) as [|[key k] l] eqn:El.
    { by apply range_nil in El. }
    apply Forall_cons in Hl as [Hk Hl]. rewrite !fmap_cons, zsum_cons. pose proof (ro_nums _ Hk). simpl in *.
    assert (0 <= zsum (req_Nums <$> l.*2)); [|lia]. apply zsum_nonneg.
    rewrite !Forall_fmap. eapply Forall_impl; [exact Hl|]. intros [key' k'] Hk'.
    pose proof (ro_nums _ Hk'). simpl in *. lia.
Qed.

(** ** The containers of a pod against one node *)
Lemma fitInDevices_recorded c t node n pd fit score node' pd' :
  requests_ok cfg n -> node_ok node -> recorded c pd ->
  fitInDevices cfg t node n annos pd = Ret (fit, score, node', pd') -> recorded (S c) pd'.
Proof.
  intros Hn Hok Hc E. destruct (fitInDevices_spec cfg annos t node n pd Hn Hok)
    as (fit1 & score1 & devices' & grants & E' & _ & granted & rest & El & Hg & _).
  rewrite E' in E. injection E as <- <- <- <-. apply accumulate_recorded; [|done].
  rewrite (grants_types _ _ _ _ Hg).
  pose proof (range_types_NoDup cfg t n Hn) as Hnd. rewrite El, !fmap_app in Hnd.
  by apply NoDup_app in Hnd as (? & _).
Qed.

Lemma granted_dom t n granted rest (grants : list (string * ContainerDevices)) devices :
  requests_ok cfg n -> range t n = granted ++ rest ->
  Forall2 (grant annos devices) granted.*2 grants ->
  list_to_set grants.*1 ⊆@{gset string} set_map vendor_type (dom n).
Proof.
  intros Hn El Hg x. rewrite elem_of_list_to_set, (grants_types _ _ _ _ Hg).
  intros (k & -> & Hk)%list_elem_of_fmap. apply list_elem_of_fmap in Hk as ([key k'] & -> & Hk).
  assert (n !! key = Some k') as Hl by (rewrite <- (elem_of_range t), El, elem_of_app; by left).
  apply elem_of_map. exists key. simpl. split; [by apply (Hn _ _ Hl)|]. by apply elem_of_dom.
Qed.

(** The outcome on one node: a panic of the padding, or a node whose devices
    are booked within their limits, and a record of at most the types asked. *)
Record node_result (nums : PodDeviceRequests) (node node' : NodeUsage) (score score' : NodeScore)
    : Prop := {
  nr_id : ns_nodeID score' = ns_nodeID score;
  nr_dom : dom (ns_devices score') ⊆ dom (ns_devices score) ∪ asked_types nums;
  nr_nonneg : pod_nonneg (ns_devices score) -> pod_nonneg (ns_devices score');
  nr_booked : exists vals, booked (nu_Devices node) (nu_Devices node') vals
    /\ (single_kind nums -> forall f id,
          pod_amount f id (ns_devices score')
          = pod_amount f id (ns_devices score) + amount f id vals);
}.

Lemma node_result_refl nums node score : node_ok node -> node_result nums node node score score.
Proof.
  intros Hok. split; [done|set_solver|done|]. exists []. split; [by apply booked_refl|].
  intros _ f id. unfold amount. simpl. lia.
Qed.

Lemma node_result_step n nums node node1 node2 score score1 score2 t fit s pd' :
  requests_ok cfg n -> node_ok node ->
  fitInDevices cfg t node n annos (ns_devices score) = Ret (fit, s, node1, pd') ->
  ns_nodeID score1 = ns_nodeID score -> ns_devices score1 = pd' ->
  (node_ok node1 -> node_result nums node1 node2 score1 score2) ->
  node_result (n :: nums) node node2 score score2.
Proof.
  intros Hn Hok E Hid Hdev Hr. destruct (fitInDevices_spec cfg annos t node n (ns_devices score) Hn Hok)
    as (fit1 & s1 & devices' & grants & E' & Hb & granted & rest & El & Hg & _).
  rewrite E' in E. injection E as <- <- <- <-.
  destruct (Hr (bk_ok _ _ _ Hb)) as [Hid2 Hdom Hnn (vals & Hb2 & Ham)]. rewrite Hdev in *. split.
  - congruence.
  - rewrite accumulate_dom in Hdom. pose proof (granted_dom t n granted rest grants _ Hn El Hg).
    unfold asked_types in *. simpl. set_solver.
  - intros Hp. apply Hnn. apply accumulate_nonneg; [done|constructor|].
    eapply grants_nonneg; [|exact Hg]. pose proof (range_requests_ok cfg t n Hn) as Hks.
    rewrite El, Forall_app in Hks. destruct Hks as [Hks _]. by rewrite Forall_fmap.
  - exists (concat grants.*2 ++ vals). split; [by eapply booked_trans|].
    intros [Hs1 Hs2]%Forall_cons f id. rewrite (Ham Hs2), accumulate_amount, amount_app; [lia|].
    rewrite <- (Forall2_length _ _ _ Hg), length_fmap.
    apply (f_equal length) in El. rewrite length_range, length_app in El. lia.
Qed.

Lemma score_node_spec nodeID c nums node score :
  Forall (requests_ok cfg) nums -> node_ok node -> recorded c (ns_devices score) ->
  score_node cfg nodeID c nums annos node score = Panic IndexOutOfRange
  \/ exists node' score', score_node cfg nodeID c nums annos node score = Ret (node', score')
     /\ node_result nums node node' score score'.
Proof.
  intros Hns. revert c node score. induction Hns as [|n nums Hn Hns IH]; intros c node score Hok Hc.
  { right. exists node, score. split; [done|]. by apply node_result_refl. }
  cbn [score_node]. rewrite sum_nums_zero by done. case_bool_decide as En.
  - destruct (decide (ns_devices score = ∅)) as [E|E].
    2:{ left. by rewrite pad_panics. }
    rewrite E, pad_empty. cbn [mbind outcome_bind].
    replace (mkNodeScore (ns_nodeID score) ∅ (ns_score score)) with score
      by (destruct score; simpl in *; congruence).
    destruct (IH (S c) node score) as [->|(node' & score' & -> & Hr)]; [done| |by left|].
    { rewrite E. apply map_Forall_empty. }
    right. exists node', score'. split; [done|]. destruct Hr as [? Hdom ? (vals & Hb & Ham)].
    split; [done| |done|].
    + unfold asked_types in *. simpl. set_solver.
    + exists vals. split; [done|]. intros [_ Hs]%Forall_cons. by apply Ham.
  - set (t := _ : loop_id).
    destruct (fitInDevices_spec cfg annos t node n (ns_devices score) Hn Hok)
      as (fit & s & devices' & grants & E & Hb & _).
    pose proof (fitInDevices_recorded c _ _ _ _ _ _ _ _ Hn Hok Hc E) as Hc'.
    rewrite E. cbn [mbind outcome_bind]. destruct fit.
    + destruct (IH (S c) (mkNodeUsage devices')
        (mkNodeScore (ns_nodeID score) (accumulate (ns_devices score) [] grants) (f32_add (ns_score score) s)))
        as [->|(node' & score' & -> & Hr)]; [apply Hb|done|by left|].
      right. exists node', score'. split; [done|].
      by eapply node_result_step; [..|intros _; exact Hr].
    + right. do 2 eexists. split; [done|].
      eapply (node_result_step n nums _ _ _ score _ _ _ _ _ _ Hn Hok E);
        [..|intros ?; by apply node_result_refl]; done.
Qed.
End containers.

(** ** The loop over the nodes *)
Section nodes.
Context `{GoRuntime} (cfg : Config) (annos : gmap string string) (nums : PodDeviceRequests).

(** A node on its own. *)
Definition on_node (x : string * NodeUsage) : outcome (NodeUsage * NodeScore) :=
  score_node cfg x.1 0 nums annos x.2 (mkNodeScore x.1 ∅ f32_zero).

Definition accepted (s : NodeScore) : Prop := size (ns_devices s) = length nums.

Lemma calc_loop_Panic l nodes res p :
  (forall x, x ∈ l -> returns (on_node x) \/ on_node x = Panic p) ->
  (exists x, x ∈ l /\ on_node x = Panic p) ->
  calc_loop cfg l nums annos nodes res = Panic p.
Proof.
  revert nodes res. induction l as [|[nodeID node] l IH]; intros nodes res Hall (x & Hx & Hp).
  { by apply not_elem_of_nil in Hx. }
  cbn [calc_loop]. change (score_node _ _ _ _ _ _ _) with (on_node (nodeID, node)).
  destruct (Hall (nodeID, node)) as [[[node' s] E]|E]; [by left| |by rewrite E].
  rewrite E. cbn [mbind outcome_bind]. apply IH.
  - intros y Hy. apply Hall. by right.
  - exists x. split; [|done]. apply elem_of_cons in Hx as [->|?]; [congruence|done].
Qed.

Lemma calc_loop_Ret l nodes res :
  NoDup l.*1 -> (forall x, x ∈ l -> returns (on_node x)) ->
  exists nodes' res', calc_loop cfg l nums annos nodes res = Ret (nodes', res ++ res')
    /\ (forall id, id ∉ l.*1 -> nodes' !! id = nodes !! id)
    /\ (forall id node node' s, (id, node) ∈ l -> on_node (id, node) = Ret (node', s) ->
          nodes' !! id = Some node')
    /\ (forall s, s ∈ res' <-> exists id node node', (id, node) ∈ l
          /\ on_node (id, node) = Ret (node', s) /\ accepted s).
Proof.
  revert nodes res. induction l as [|[nodeID node] l IH]; intros nodes res Hnd Hall.
  { exists nodes, []. rewrite app_nil_r. split_and!; [done|done|..].
    - intros ???? Hin. by apply not_elem_of_nil in Hin.
    - intros s. split; [intros Hs; by apply not_elem_of_nil in Hs|].
      intros (? & ? & ? & Hin & _). by apply not_elem_of_nil in Hin. }
  rewrite fmap_cons, NoDup_cons in Hnd. destruct Hnd as [Hni Hnd].
  cbn [calc_loop]. change (score_node _ _ _ _ _ _ _) with (on_node (nodeID, node)).
  destruct (Hall (nodeID, node)) as [[node1 s1] E]; [by left|]. rewrite E. cbn [mbind outcome_bind].
  pose (res1 := if decide (size (ns_devices s1) = length nums) then [s1] else []).
  replace (if decide (size (ns_devices s1) = length nums) then res ++ [s1] else res) with (res ++ res1)
    by (unfold res1; case_decide; by rewrite ?app_nil_r).
  destruct (IH (<[nodeID := node1]> nodes) (res ++ res1) Hnd) as (nodes' & res' & -> & Hout & Hin & Hres).
  { intros x Hx. apply Hall. by right. }
  exists nodes', (res1 ++ res'). split_and!.
  - by rewrite app_assoc.
  - intros id [Hne Hid]%not_elem_of_cons. rewrite Hout by done. by rewrite lookup_insert_ne.
  - intros id node0 node' s [[= -> ->]|Hl]%elem_of_cons Ex; [|by eapply Hin].
    rewrite E in Ex. injection Ex as <- <-. rewrite Hout by done. by rewrite lookup_insert_eq.
  - intros s. rewrite elem_of_app, Hres. split.
    + intros [Hs|(id & node0 & node' & Hl & Hr)].
      * unfold res1 in Hs. case_decide as Ha; [|by apply not_elem_of_nil in Hs].
        apply list_elem_of_singleton in Hs as ->. exists nodeID, node, node1. split; [left|done].
      * exists id, node0, node'. split; [by right|done].
    + intros (id & node0 & node' & [[= -> ->]|Hl]%elem_of_cons & Hr & Ha); [|right; eauto 8].
      left. rewrite E in Hr. injection Hr as <- <-. unfold res1. rewrite decide_True by done. left.
Qed.

(** [calcScore] returns when it returns on each node, and then leaves each
    node, and accepts each node, as if it had been visited alone. *)
Lemma calcScore_Ret nodes :
  map_Forall (fun id node => returns (on_node (id, node))) nodes ->
  exists nodes' res, calcScore cfg nodes nums annos = Ret (nodes', res)
    /\ dom nodes' = dom nodes
    /\ (forall id node node' s, nodes !! id = Some node -> on_node (id, node) = Ret (node', s) ->
          nodes' !! id = Some node')
    /\ (forall s, s ∈ res <-> exists id node node', nodes !! id = Some node
          /\ on_node (id, node) = Ret (node', s) /\ accepted s).
Proof.
  intros Hall. unfold calcScore. set (l := range _ nodes).
  assert (forall id node, (id, node) ∈ l <-> nodes !! id = Some node) as Hl
    by (intros; apply elem_of_range).
  destruct (calc_loop_Ret l nodes []) as (nodes' & res & E & Hout & Hin & Hres);
    [apply range_NoDup|intros [id node] Hx; by apply Hall, Hl|].
  setoid_rewrite Hl in Hin. setoid_rewrite Hl in Hres.
  exists nodes', res. split_and!; [done| |done|done].
  apply set_eq. intros id. rewrite !elem_of_dom. destruct (nodes !! id) as [node|] eqn:En.
  - destruct (Hall id node En) as [[node' s] Es]. rewrite (Hin id node node' s En Es). done.
  - rewrite Hout, En; [done|]. intros ([id' node] & -> & Hx)%list_elem_of_fmap. apply Hl in Hx.
    simpl in *. congruence.
Qed.

Lemma calcScore_Panic nodes p :
  map_Forall (fun id node => returns (on_node (id, node)) \/ on_node (id, node) = Panic p) nodes ->
  (exists id node, nodes !! id = Some node /\ on_node (id, node) = Panic p) ->
  calcScore cfg nodes nums annos = Panic p.
Proof.
  intros Hall (id & node & Hn & Hp). apply calc_loop_Panic.
  - intros [id' node'] Hx%elem_of_range. by apply Hall.
  - exists (id, node). split; [by apply elem_of_range|done].
Qed.

Lemma calcScore_Ret_inv nodes nodes' res :
  calcScore cfg nodes nums annos = Ret (nodes', res) ->
  map_Forall (fun id node => returns (on_node (id, node)) \/ on_node (id, node) = Panic IndexOutOfRange) nodes ->
  map_Forall (fun id node => returns (on_node (id, node))) nodes.
Proof.
  intros E Hall id node Hn. destruct (Hall id node Hn) as [?|Hp]; [done|].
  rewrite (calcScore_Panic nodes IndexOutOfRange) in E; [done|done|eauto].
Qed.

Lemma on_node_spec x :
  Forall (requests_ok cfg) nums -> node_ok x.2 ->
  on_node x = Panic IndexOutOfRange
  \/ exists node' s', on_node x = Ret (node', s')
     /\ node_result nums x.2 node' (mkNodeScore x.1 ∅ f32_zero) s'.
Proof. intros Hn Hok. apply score_node_spec; [done..|]. apply map_Forall_empty. Qed.

Lemma on_node_returns (nodes : gmap string NodeUsage) :
  Forall (requests_ok cfg) nums -> map_Forall (fun _ => node_ok) nodes ->
  map_Forall (fun id node => returns (on_node (id, node)) \/ on_node (id, node) = Panic IndexOutOfRange) nodes.
Proof.
  intros Hn Hok id node Hl. destruct (on_node_spec (id, node) Hn (Hok _ _ Hl)) as [?|(? & ? & ? & _)].
  - by right.
  - left. by eexists.
Qed.

(** The accounts of a run that returns. *)
Lemma calcScore_booked nodes nodes' res :
  Forall (requests_ok cfg) nums -> map_Forall (fun _ => node_ok) nodes ->
  calcScore cfg nodes nums annos = Ret (nodes', res) ->
  dom nodes' = dom nodes
  /\ (forall id node', nodes' !! id = Some node' -> exists node vals, nodes !! id = Some node
        /\ booked (nu_Devices node) (nu_Devices node') vals)
  /\ (forall s, s ∈ res -> exists node node',
        nodes !! ns_nodeID s = Some node /\ nodes' !! ns_nodeID s = Some node' /\ accepted s
        /\ dom (ns_devices s) ⊆ asked_types nums /\ pod_nonneg (ns_devices s)
        /\ (single_kind nums -> exists vals, booked (nu_Devices node) (nu_Devices node') vals
             /\ forall f id, pod_amount f id (ns_devices s) = amount f id vals)).
Proof.
  intros Hn Hok E.
  pose proof (calcScore_Ret_inv _ _ _ E (on_node_returns nodes Hn Hok)) as Hret.
  destruct (calcScore_Ret nodes Hret) as (nodes1 & res1 & E' & Hdom & Hnode & Hres).
  rewrite E' in E. injection E as -> ->.
  assert (forall id node node' s, nodes !! id = Some node -> on_node (id, node) = Ret (node', s) ->
    node_result nums node node' (mkNodeScore id ∅ f32_zero) s) as Hspec.
  { intros id node node' s Hl Es.
    destruct (on_node_spec (id, node) Hn (Hok _ _ Hl)) as [Hp|(? & ? & Es' & Hr)];
      rewrite Es in *; [done|]. by injection Es' as <- <-. }
  split_and!; [done|..].
  - intros id node' Hl. assert (is_Some (nodes !! id)) as [node Hi]
      by (rewrite <- elem_of_dom, <- Hdom; by apply elem_of_dom; eexists).
    destruct (Hret id node Hi) as [[node1 s] Es].
    rewrite (Hnode id node node1 s Hi Es) in Hl. injection Hl as ->.
    destruct (nr_booked _ _ _ _ _ (Hspec _ _ _ _ Hi Es)) as (vals & Hb & _). eauto.
  - intros s (id & node & node' & Hi & Es & Ha)%Hres.
    destruct (Hspec _ _ _ _ Hi Es) as [Hid Hd Hnn (vals & Hb & Ham)]. simpl in Hid, Hd, Hnn, Ham.
    rewrite Hid. exists node, node'. split_and!; [done|by eapply Hnode|done|set_solver| |].
    + apply Hnn, map_Forall_empty.
    + intros Hsk. exists vals. split; [done|]. intros f i. rewrite (Ham Hsk), pod_amount_empty. lia.
Qed.
End nodes.

(** ** One container that asks for one kind of device *)
Section one_request.
Context `{GoRuntime} (cfg : Config) (annos : gmap string string).

(** The node has the devices: enough eligible ones, on one NUMA node when
    the pod is bound to one. *)
Definition has_devices (k : ContainerDeviceRequest) (node : NodeUsage) : Prop :=
  if numa_bound annos k
  then exists v, req_Nums k <= Z.of_nat (length (eligible_on annos k (Some v) (nu_Devices node)))
  else req_Nums k <= Z.of_nat (length (eligible_on annos k None (nu_Devices node))).

Lemma eligible_on_perm k numa l l' :
  l ≡ₚ l' -> length (eligible_on annos k numa l) = length (eligible_on annos k numa l').
Proof. intros Hp. unfold eligible_on. by rewrite Hp. Qed.

Lemma eligible_on_length k numa l : (length (eligible_on annos k numa l) <= length l)%nat.
Proof. unfold eligible_on. apply length_filter. Qed.

Lemma has_devices_length k node :
  has_devices k node -> req_Nums k <= Z.of_nat (length (nu_Devices node)).
Proof.
  unfold has_devices. destruct (numa_bound annos k).
  - intros [v Hv]. pose proof (eligible_on_length k (Some v) (nu_Devices node)). lia.
  - pose proof (eligible_on_length k None (nu_Devices node)). lia.
Qed.

(** The node is accepted exactly when it has the devices. *)
Lemma on_node_one key k id node :
  requests_ok cfg {[key := k]} -> req_Coresreq k <= 100 -> node_ok node ->
  exists node' s, on_node cfg annos [{[key := k]}] (id, node) = Ret (node', s)
    /\ ns_nodeID s = id /\ (accepted [{[key := k]}] s <-> has_devices k node).
Proof.
  intros Hr Hc Hok. pose proof (Hr key k (lookup_singleton_eq _ _)) as (Hk & _).
  unfold on_node. cbn [score_node fst snd]. rewrite (sum_nums_zero cfg) by done.
  rewrite bool_decide_false by (intros E; by apply (f_equal (lookup key)) in E; rewrite lookup_singleton_eq in E).
  unfold fitInDevices. rewrite range_singleton. cbn [fit_requests ns_devices ns_nodeID ns_score].
  destruct (Z.ltb_spec (Z.of_nat (length (nu_Devices node))) (req_Nums k)) as [Hlt|Hlt].
  { do 2 eexists. split; [done|]. split; [done|]. split; [done|].
    intros Hh%has_devices_length. lia. }
  set (devices := sort_by DeviceUsage_Less (nu_Devices node)).
  assert ((fitInCertainDevice cfg (mkNodeUsage devices) k annos).1 = true <-> has_devices k node) as Hiff.
  { rewrite fit_iff; [|apply Hk..|apply sort_by_sorted|done]. unfold has_devices.
    pose proof (sort_perm DeviceUsage_Less (nu_Devices node)) as Hp.
    destruct (numa_bound annos k).
    - apply base.exist_proper. intros v. by rewrite (eligible_on_perm k (Some v) devices _ Hp).
    - by rewrite (eligible_on_perm k None devices _ Hp). }
  destruct (fitInCertainDevice cfg (mkNodeUsage devices) k annos) as [[] tmp] eqn:E.
  - assert (Forall usage_ok devices) as Hok'.
    { unfold devices. by rewrite sort_perm. }
    destruct (fit_one cfg annos devices k tmp 0 0 Hk Hok' E)
      as (devices' & total & free & found & -> & -> & _).
    cbn [mbind outcome_bind]. do 2 eexists. split; [done|]. split; [done|].
    rewrite <- Hiff. split; [done|]. intros _. unfold accepted. cbn [ns_devices].
    rewrite lookup_empty, insert_empty, map_size_singleton. done.
  - do 2 eexists. split; [done|]. split; [done|]. rewrite <- Hiff. split; done.
Qed.
End one_request.

(** ** How many kinds a pod asks for *)
Lemma asked_types_one_kind (nums : PodDeviceRequests) key :
  Forall (fun n : ContainerDeviceRequests => dom n ⊆ {[key]}) nums ->
  asked_types nums ⊆ {[vendor_type key]}.
Proof.
  induction 1 as [|n nums Hn _ IH]; unfold asked_types in *; simpl; [set_solver|].
  apply union_subseteq. split; [|done]. intros t (k & -> & Hk)%elem_of_map. set_solver.
Qed.
