(* ===== verification/ScoreProps.v ===== *)
(** * Properties of fitting and scoring

    The theorems about [fitInCertainDevice], [fitInDevices] and [calcScore],
    with a small cluster to instantiate them. *)

From Stdlib Require Import ZArith Lia Ascii String Sorted.
From stdpp Require Import base decidable option gmap strings numbers sorting list.
From S2P Require Import Prelude GoStrings GoRuntime Types Devices Score FitFacts BookFacts ScoreFacts CalcFacts.

#[local] Open Scope Z_scope.

(** ** A small cluster *)
Definition gpu (id : string) (numa used usedmem : Z) : DeviceUsage :=
  mkDeviceUsage id 0 used 4 usedmem 16000 100 0 numa "NVIDIA-Tesla V100" true.
Definition dcu (id : string) : DeviceUsage :=
  mkDeviceUsage id 0 0 4 0 16000 100 0 0 "DCU" true.

Definition node1 : NodeUsage := mkNodeUsage [gpu "g0" 0 1 4000; gpu "g1" 1 0 0; gpu "g2" 1 0 0].
Definition node_mixed : NodeUsage := mkNodeUsage [gpu "g0" 0 0 0; dcu "d0"].
Definition ask (nums mem : Z) : ContainerDeviceRequest := mkRequest nums "NVIDIA" mem 101 25.
Definition ask_dcu : ContainerDeviceRequest := mkRequest 1 "DCU" 1000 101 25.
Definition numa_annos : gmap string string := {["nvidia.com/numa-bind" := "true"]}.

Lemma gpu_ok id numa used usedmem :
  0 <= used <= 4 -> 0 <= usedmem <= 16000 -> usage_ok (gpu id numa used usedmem).
Proof. intros Hu Hm. split; cbn; unfold max_i32; lia. Qed.

Lemma dcu_ok id : usage_ok (dcu id).
Proof. split; cbn; unfold max_i32; lia. Qed.

Lemma node1_ok : node_ok node1.
Proof. unfold node_ok. repeat (apply Forall_cons_2; [apply gpu_ok; lia|]). constructor. Qed.

Lemma node_mixed_ok : node_ok node_mixed.
Proof. apply Forall_cons_2; [apply gpu_ok; lia|]. apply Forall_singleton, dcu_ok. Qed.

Lemma ask_ok nums mem : 0 < nums -> 0 <= mem <= max_i32 -> request_ok (ask nums mem).
Proof. intros Hn Hm. split; cbn; [by repeat constructor|lia..]. Qed.

Lemma ask_dcu_ok : request_ok ask_dcu.
Proof. split; cbn; [by repeat constructor|unfold max_i32; lia..]. Qed.

Lemma one_ask_ok nums mem :
  0 < nums -> 0 <= mem <= max_i32 -> requests_ok default_config {["NVIDIA" := ask nums mem]}.
Proof.
  intros Hn Hm. apply map_Forall_singleton. split; [by apply ask_ok|]. split; [done|]. by eexists.
Qed.

Lemma two_asks_ok :
  requests_ok default_config {["NVIDIA" := ask 1 1000; "Hygon" := ask_dcu]}.
Proof.
  apply map_Forall_insert_2; [|apply map_Forall_singleton].
  - split; [apply ask_ok; unfold max_i32; lia|]. split; [done|]. by eexists.
  - split; [apply ask_dcu_ok|]. split; [done|]. by eexists.
Qed.

(** A percentage that overflows: the product is between 2^31 and 2^32 - 100. *)
Definition wrapping (k : ContainerDeviceRequest) (d : DeviceUsage) : Prop :=
  req_Memreq k = 0 /\ max_i32 < du_Totalmem d * req_MemPercentagereq k <= 4294967196
  /\ req_MemPercentagereq k <> 101.

Lemma wrapping_memreq k d :
  wrapping k d -> memreq_on k d = Z.quot (du_Totalmem d * req_MemPercentagereq k - 4294967296) 100 /\ memreq_on k d < 0.
Proof.
  intros (Hm & Hp & Hne). unfold memreq_on, max_i32 in *. rewrite Hm, Z.eqb_refl, (proj2 (Z.eqb_neq _ _) Hne). cbn [negb andb].
  rewrite wrap32_unfold. set (p := _ * _) in *.
  replace ((p + 2147483648) mod 4294967296) with (p - 2147483648)
    by (apply (Zmod_unique _ _ 1); lia).
  replace (p - 2147483648 - 2147483648) with (p - 4294967296) by lia. split; [done|].
  Z.to_euclidean_division_equations. lia.
Qed.

(** The request without its percentage. *)
Definition without_memory (k : ContainerDeviceRequest) : ContainerDeviceRequest :=
  mkRequest (req_Nums k) (req_Type k) (req_Memreq k) 101 (req_Coresreq k).

Lemma eligible_less_memory annos k d :
  req_Memreq k = 0 -> eligible annos (without_memory k) d = true -> memreq_on k d <= 0 -> eligible annos k d = true.
Proof.
  unfold eligible. rewrite !andb_true_iff. intros H0 (((((Ht & Hc) & Hm) & H1) & H2) & H3) Hle.
  assert (memreq_on (without_memory k) d = 0) as E0 by (unfold memreq_on, without_memory; cbn; by rewrite H0). rewrite E0 in Hm.
  split_and!; [exact Ht|done| |done..]. apply negb_true_iff, Z.ltb_ge in Hm. apply negb_true_iff, Z.ltb_ge. lia.
Qed.

Lemma fit_only_device `{GoRuntime} cfg annos k d :
  req_Type k ∈ known_types -> req_Nums k = 1 -> req_Coresreq k <= 100 -> eligible annos k d = true ->
  fitInCertainDevice cfg (mkNodeUsage [d]) k annos = (true, {[req_Type k := [alloc k (0%nat, d)]]}).
Proof.
  intros Ht Hn Hc He. unfold fitInCertainDevice. cbn [nu_Devices imap reverse]. rewrite Hn.
  pose proof (fit_loop_step cfg annos k 1 Ht Hc (0%nat, d) [] 1 (-1) ∅ ltac:(lia) ltac:(lia)) as E.
  replace (with_nums k 1) with k in E by (rewrite <- Hn; by destruct k).
  etransitivity; [exact E|]. cbn [snd]. rewrite (eligible_type_pass _ _ _ He), He.
  by destruct (_ && _).
Qed.

(** The memory a container asks of a card of [total] MB: its amount, or else
    its percentage of the card, or else the configured default, or else the
    whole card; a percentage of 101 counts as none. *)
Definition asked_memory (cfg : Config) (ctr : Container) (total : Z) : Z :=
  let memory := default 0 (resource_int ctr (ResourceMem cfg)) in
  let otherwise := if decide (DefaultMem cfg = 0) then total else DefaultMem cfg in
  if decide (0 < memory) then memory
  else match resource_int ctr (ResourceMemPercentage cfg) with
       | Some p => if decide (p = 101) then otherwise else total * p / 100
       | None => otherwise
       end.

(** The memory of a container and of a card within what int32 can hold. *)
Record memory_in_range (cfg : Config) (ctr : Container) (d : DeviceUsage) : Prop := {
  mr_amount : 0 <= default 0 (resource_int ctr (ResourceMem cfg)) <= max_i32;
  mr_percentage p : resource_int ctr (ResourceMemPercentage cfg) = Some p -> 0 <= p <= 101;
  mr_default : 0 <= DefaultMem cfg <= max_i32;
  mr_card : 0 <= du_Totalmem d /\ du_Totalmem d * 101 <= max_i32;
}.

(** The percentage of a card, computed in int32. *)
Lemma percentage_of k d :
  req_Memreq k = 0 -> 0 <= req_MemPercentagereq k < 101 -> 0 <= du_Totalmem d -> du_Totalmem d * 101 <= max_i32 ->
  memreq_on k d = du_Totalmem d * req_MemPercentagereq k / 100.
Proof.
  intros Hm Hp H0 H1. unfold memreq_on. rewrite Hm, Z.eqb_refl, (proj2 (Z.eqb_neq _ 101)) by lia. cbn [negb andb].
  rewrite wrap32_id by (unfold in_i32, min_i32, max_i32 in *; nia). apply Z.quot_div_nonneg; nia.
Qed.

Lemma amount_of k d : 0 < req_Memreq k -> memreq_on k d = req_Memreq k.
Proof.
  intros Hm. unfold memreq_on. rewrite (proj2 (Z.eqb_neq (req_Memreq k) 0)) by lia. rewrite andb_false_r.
  by rewrite (proj2 (Z.ltb_lt 0 _)).
Qed.

(** A large card that nobody uses, and the whole of it 500 times. *)
Definition a100 : DeviceUsage := mkDeviceUsage "a0" 0 0 4 0 81920 100 0 0 "NVIDIA-A100" true.
Definition ask_percentage (p : Z) : ContainerDeviceRequest := mkRequest 1 "NVIDIA" 0 p 25.

Module ScoreProps.

(** C2. Soundness of [fitInCertainDevice]: a successful run returns, under the
    type of the request, as many devices as were asked for, at distinct
    indices of the node; each passes every test of the loop (type, free
    slots, free memory and cores, exclusive use), and when the pod is bound
    to a NUMA node they all are on one. *)
Theorem fit_sound `{GoRuntime} cfg annos k devices tmp :
  req_Type k ∈ known_types -> 0 < req_Nums k ->
  fitInCertainDevice cfg (mkNodeUsage devices) k annos = (true, tmp) ->
  exists sel, NoDup sel.*1
    /\ (forall i d, (i, d) ∈ sel -> devices !! i = Some d /\ eligible annos k d = true)
    /\ Z.of_nat (length sel) = req_Nums k
    /\ (numa_bound annos k = true -> exists v, Forall (fun x => du_Numa x.2 = v) sel)
    /\ tmp !! req_Type k = Some (alloc k <$> sel).
Proof.
  intros Ht Hn E. apply fit_selection in E as (sel & (? & ? & ? & ?) & ? & _); [|done..].
  by exists sel.
Qed.

Lemma fit_sound_witness :
  let _ := go_reference in
  exists tmp sel,
    fitInCertainDevice default_config node1 (ask 2 1000) numa_annos = (true, tmp)
    /\ tmp !! "NVIDIA" = Some (alloc (ask 2 1000) <$> sel).
Proof.
  eexists. edestruct (@fit_sound go_reference default_config numa_annos (ask 2 1000)
    (nu_Devices node1)) as (sel & _ & _ & _ & _ & Hs); [by repeat constructor|done|reflexivity|].
  exists sel. split; [reflexivity|exact Hs].
Defined.

(** C5. Completeness: on sorted devices, as [fitInDevices] passes them, the run
    succeeds exactly when the node has enough devices that pass the tests,
    on one NUMA node when the pod is bound to one.  The greedy walk with its
    restart at each NUMA node misses nothing. *)
Theorem fit_complete `{GoRuntime} cfg annos k devices :
  req_Type k ∈ known_types -> 0 < req_Nums k -> req_Coresreq k <= 100 ->
  sorted_devices devices ->
  (fitInCertainDevice cfg (mkNodeUsage devices) k annos).1 = true <->
  if numa_bound annos k
  then exists v, req_Nums k <= Z.of_nat (length (eligible_on annos k (Some v) devices))
  else req_Nums k <= Z.of_nat (length (eligible_on annos k None devices)).
Proof. intros. by apply fit_iff. Qed.

Lemma fit_complete_witness :
  let _ := go_reference in
  exists v, 2 <= Z.of_nat (length (eligible_on numa_annos (ask 2 1000) (Some v) (nu_Devices node1))).
Proof.
  apply (proj1 (@fit_complete go_reference default_config numa_annos (ask 2 1000) (nu_Devices node1)
    ltac:(by repeat constructor) ltac:(done) ltac:(done)
    ltac:(repeat constructor; vm_compute; reflexivity))).
  reflexivity.
Defined.

(** [fitInDevices] on a node within its limits never panics; it leaves the
    node within its limits, with the same devices, and the use of every
    device grown by exactly what was granted; it succeeds exactly when every
    request was granted, and each grant is a selection of eligible devices. *)
Theorem fitInDevices_keeps_limits `{GoRuntime} cfg annos t node requests devinput :
  requests_ok cfg requests -> node_ok node ->
  exists fit score node' grants,
    fitInDevices cfg t node requests annos devinput
      = Ret (fit, score, node', accumulate devinput [] grants)
    /\ node_ok node'
    /\ static <$> nu_Devices node' ≡ₚ static <$> nu_Devices node
    /\ (forall f g id, tracked f g ->
          usage_sum g id (nu_Devices node')
          = usage_sum g id (nu_Devices node) + amount f id (concat grants.*2))
    /\ exists granted rest, range t requests = granted ++ rest
       /\ Forall2 (grant annos (nu_Devices node)) granted.*2 grants
       /\ (fit = true <-> rest = []).
Proof.
  intros Hr Hok. destruct (fitInDevices_spec cfg annos t node requests devinput Hr Hok)
    as (fit & score & devices' & grants & E & [Hok' Hst Hs] & Hg).
  by exists fit, score, (mkNodeUsage devices'), grants.
Qed.

Lemma fitInDevices_keeps_limits_witness :
  let _ := go_reference in
  exists fit score node' devinput,
    fitInDevices default_config ("t", 0%nat) node1 {["NVIDIA" := ask 2 1000]} ∅ ∅
      = Ret (fit, score, node', devinput) /\ node_ok node'.
Proof.
  destruct (@fitInDevices_keeps_limits go_reference default_config ∅ ("t", 0%nat) node1
    {["NVIDIA" := ask 2 1000]} ∅ ltac:(apply one_ask_ok; unfold max_i32; lia) node1_ok)
    as (fit & score & node' & grants & E & Hok & _).
  exists fit, score, node', (accumulate ∅ [] grants). split; [exact E|exact Hok].
Defined.

(** C6. The accounts of [calcScore], for requests and nodes within these bounds:
    each container asks for at most one kind of device, of a type of its
    vendor, for at least one device, with memory and cores that are not
    negative and a percentage between 0 and 101; every device given is within
    its count, memory and cores, and its memory times 101 fits an int32.  When
    [calcScore] returns, every node it was given is still within its limits,
    and the node of every accepted score has the use of each of its devices
    grown by exactly what the score records for the pod, so recording the pod
    afterwards accounts for all of it.  Beyond the bounds it is false: a large
    percentage wraps around and takes memory off the accounts
    ([percentage_wraps]). *)
Theorem calcScore_accounts `{GoRuntime} cfg annos nums nodes nodes' res :
  Forall (requests_ok cfg) nums -> single_kind nums -> map_Forall (fun _ => node_ok) nodes ->
  calcScore cfg nodes nums annos = Ret (nodes', res) ->
  dom nodes' = dom nodes /\ map_Forall (fun _ => node_ok) nodes'
  /\ forall s, s ∈ res -> exists node node',
       nodes !! ns_nodeID s = Some node /\ nodes' !! ns_nodeID s = Some node'
       /\ size (ns_devices s) = length nums
       /\ forall f g id, tracked f g ->
            usage_sum g id (nu_Devices node')
            = usage_sum g id (nu_Devices node) + pod_amount f id (ns_devices s).
Proof.
  intros Hn Hsk Hok E. destruct (calcScore_booked cfg annos nums nodes nodes' res Hn Hok E)
    as (Hdom & Hnodes & Hres). split_and!; [done|..].
  - intros id node' Hl. destruct (Hnodes _ _ Hl) as (node & vals & _ & Hb). apply Hb.
  - intros s (node & node' & Hi & Hi' & Ha & _ & _ & Hb)%Hres. destruct (Hb Hsk) as (vals & Hbk & Ham).
    exists node, node'. split_and!; [done..|]. intros f g id Ht.
    by rewrite (bk_sum _ _ _ Hbk f g id Ht), Ham.
Qed.

Lemma calcScore_accounts_witness :
  let _ := go_reference in
  exists nodes' res,
    calcScore default_config {["n1" := node1]} [{["NVIDIA" := ask 2 1000]}] ∅ = Ret (nodes', res)
    /\ map_Forall (fun _ => node_ok) nodes' /\ length res = 1%nat.
Proof.
  do 2 eexists. split; [vm_compute; reflexivity|]. split; [|reflexivity].
  eapply (@calcScore_accounts go_reference default_config ∅ [{["NVIDIA" := ask 2 1000]}]
    {["n1" := node1]}).
  - apply Forall_singleton, one_ask_ok; unfold max_i32; lia.
  - apply Forall_singleton. vm_compute. lia.
  - apply map_Forall_singleton, node1_ok.
  - vm_compute; reflexivity.
Defined.

(** C17. What is accepted: for a pod of one container that asks for one kind of
    device, [calcScore] returns, and the nodes it accepts are exactly the
    ones that have the devices, whatever the order of the visit. *)
Theorem calcScore_accepts `{GoRuntime} cfg annos key k nodes :
  requests_ok cfg {[key := k]} -> req_Coresreq k <= 100 -> map_Forall (fun _ => node_ok) nodes ->
  exists nodes' res, calcScore cfg nodes [{[key := k]}] annos = Ret (nodes', res)
    /\ forall id, (exists s, s ∈ res /\ ns_nodeID s = id) <->
         exists node, nodes !! id = Some node /\ has_devices annos k node.
Proof.
  intros Hr Hc Hok. destruct (calcScore_Ret cfg annos [{[key := k]}] nodes)
    as (nodes' & res & E & _ & _ & Hres).
  { intros id node Hi. destruct (on_node_one cfg annos key k id node Hr Hc (Hok _ _ Hi))
      as (node' & s & E & _). by eexists. }
  exists nodes', res. split; [done|]. intros id. setoid_rewrite Hres. split.
  - intros (s & (id' & node & node' & Hi & Es & Ha) & <-). exists node.
    destruct (on_node_one cfg annos key k id' node Hr Hc (Hok _ _ Hi)) as (node1 & s1 & E1 & Hid & Hiff).
    rewrite E1 in Es. injection Es as -> ->. rewrite Hid. by rewrite <- Hiff.
  - intros (node & Hi & Hh).
    destruct (on_node_one cfg annos key k id node Hr Hc (Hok _ _ Hi)) as (node1 & s1 & E1 & Hid & Hiff).
    exists s1. split; [|done]. exists id, node, node1. by rewrite Hiff.
Qed.

Lemma calcScore_accepts_witness :
  let _ := go_reference in
  exists nodes' res,
    calcScore default_config {["n1" := node1]} [{["NVIDIA" := ask 2 1000]}] numa_annos = Ret (nodes', res)
    /\ exists s, s ∈ res /\ ns_nodeID s = "n1".
Proof.
  destruct (@calcScore_accepts go_reference default_config numa_annos "NVIDIA" (ask 2 1000)
    {["n1" := node1]} ltac:(apply one_ask_ok; unfold max_i32; lia) ltac:(done)
    ltac:(apply map_Forall_singleton, node1_ok)) as (nodes' & res & E & Hiff).
  exists nodes', res. split; [exact E|]. apply Hiff. exists node1. split; [reflexivity|].
  exists 1. vm_compute. discriminate.
Defined.

(** [calcScore] compares the number of kinds of device recorded with the
    number of containers, so it only accepts pods that ask for at least as
    many kinds as they have containers.  In particular a pod with two
    containers that both ask for NVIDIA cards, or one that has a container
    without devices beside one with a card, is accepted on no node. *)
Theorem calcScore_needs_a_kind_per_container `{GoRuntime} cfg annos nums nodes nodes' res :
  Forall (requests_ok cfg) nums -> map_Forall (fun _ => node_ok) nodes ->
  calcScore cfg nodes nums annos = Ret (nodes', res) ->
  (size (asked_types nums) < length nums)%nat -> res = [].
Proof.
  intros Hn Hok E Hlt. destruct (calcScore_booked cfg annos nums nodes nodes' res Hn Hok E)
    as (_ & _ & Hres). destruct res as [|s res]; [done|].
  destruct (Hres s ltac:(left)) as (_ & _ & _ & _ & Ha & Hdom & _).
  apply subseteq_size in Hdom. rewrite size_dom in Hdom. unfold accepted in Ha. lia.
Qed.

Lemma calcScore_needs_a_kind_per_container_witness :
  let _ := go_reference in
  exists nodes' res,
    calcScore default_config {["n1" := node1]} [{["NVIDIA" := ask 1 1000]}; {["NVIDIA" := ask 1 1000]}] ∅
      = Ret (nodes', res) /\ res = [].
Proof.
  do 2 eexists. split; [vm_compute; reflexivity|].
  eapply (@calcScore_needs_a_kind_per_container go_reference default_config ∅
    [{["NVIDIA" := ask 1 1000]}; {["NVIDIA" := ask 1 1000]}] {["n1" := node1]}).
  - repeat (apply Forall_cons_2; [apply one_ask_ok; unfold max_i32; lia|]). constructor.
  - apply map_Forall_singleton, node1_ok.
  - vm_compute; reflexivity.
  - vm_compute. lia.
Defined.

(** A container without devices after one with devices makes [calcScore]
    panic as soon as one candidate node fits the first: the padding writes
    to the entry of the container, which is one past the end. *)
Theorem calcScore_pad_panics `{GoRuntime} cfg annos n nums nodes id node s node' pd :
  requests_ok cfg n -> Forall (requests_ok cfg) nums -> map_Forall (fun _ => node_ok) nodes ->
  n <> ∅ -> nodes !! id = Some node ->
  fitInDevices cfg ("fitInDevices " +:+ id, 0%nat)%string node n annos ∅ = Ret (true, s, node', pd) ->
  calcScore cfg nodes (n :: ∅ :: nums) annos = Panic IndexOutOfRange.
Proof.
  intros Hn Hns Hok Hne Hi E. assert (Forall (requests_ok cfg) (n :: ∅ :: nums)) as Hall.
  { repeat (apply Forall_cons_2; [done || apply map_Forall_empty|]). done. }
  apply calcScore_Panic; [by apply on_node_returns|]. exists id, node. split; [done|].
  unfold on_node. cbn [score_node fst snd]. rewrite (sum_nums_zero cfg) by done.
  rewrite bool_decide_false by done. cbn [ns_devices]. rewrite E. cbn [mbind outcome_bind].
  rewrite (sum_nums_zero cfg) by apply map_Forall_empty. rewrite bool_decide_true by done.
  cbn [ns_devices]. rewrite pad_panics; [done| |].
  - by eapply (fitInDevices_recorded cfg annos 0); [exact Hn|by eapply Hok|apply map_Forall_empty|exact E].
  - destruct (fitInDevices_spec cfg annos ("fitInDevices " +:+ id, 0%nat)%string node n ∅ Hn (Hok _ _ Hi))
      as (fit & s1 & devices' & grants & E' & _ & granted & rest & El & Hg & Hfit).
    rewrite E' in E. injection E as -> -> <- <-. destruct Hfit as [Hfit _]. rewrite (Hfit eq_refl) in El.
    intros Hpd. apply (f_equal dom) in Hpd. rewrite accumulate_dom, (grants_types _ _ _ _ Hg) in Hpd.
    destruct granted as [|x granted]; [by apply range_nil in El|]. simpl in Hpd. set_solver.
Qed.

Lemma calcScore_pad_panics_witness :
  let _ := go_reference in
  calcScore default_config {["n1" := node1]} [{["NVIDIA" := ask 1 1000]}; ∅] ∅ = Panic IndexOutOfRange.
Proof.
  cbv zeta. eapply (@calcScore_pad_panics go_reference default_config ∅ {["NVIDIA" := ask 1 1000]} []
    {["n1" := node1]} "n1" node1).
  - apply one_ask_ok; unfold max_i32; lia.
  - constructor.
  - apply map_Forall_singleton, node1_ok.
  - intros E. by apply (f_equal (lookup "NVIDIA")) in E.
  - reflexivity.
  - vm_compute; reflexivity.
Defined.



(** C37. The memory a container gets of a card: from the limits (or requests) of
    an NVIDIA container to the amount [fitInCertainDevice] asks of a device,
    it is the amount given; without one the percentage of the card; without
    either the configured default; and without a default the whole card.  The
    amounts are not negative and fit an int32, the percentage is at most 101
    (which counts as none), and 101 times the memory of the card fits an
    int32; beyond these the conversions wrap around ([percentage_wraps]). *)
Theorem memory_as_asked cfg ctr n d :
  resource_int ctr (ResourceName cfg) = Some n -> memory_in_range cfg ctr d ->
  memreq_on (nvidia.nvidia_GenerateResourceRequests cfg ctr) d = asked_memory cfg ctr (du_Totalmem d).
Proof.
  intros Hn [Ha Hp Hd [Hc0 Hc1]]. unfold nvidia.nvidia_GenerateResourceRequests, asked_memory. rewrite Hn. cbv zeta.
  set (memory := default 0 _) in *. assert (in_i32 memory) by (unfold in_i32, min_i32, max_i32 in *; lia).
  assert (in_i32 (DefaultMem cfg)) by (unfold in_i32, min_i32, max_i32 in *; lia).
  assert (in_i32 101 /\ in_i32 100) as [? ?] by (unfold in_i32, min_i32, max_i32; lia).
  assert (forall p, 0 <= p <= 101 -> in_i32 p) as Hpi by (unfold in_i32, min_i32, max_i32; lia).
  case_decide as Hm.
  { rewrite (proj2 (Z.eqb_neq memory 0)) by lia. rewrite andb_false_r. rewrite amount_of; cbn [req_Memreq]; by rewrite wrap32_id. }
  assert (memory = 0) as -> by lia. rewrite Z.eqb_refl, andb_true_r.
  assert (forall mempnum, mempnum = 101 ->
    let '(m, p) := if mempnum =? 101 then if negb (DefaultMem cfg =? 0) then (DefaultMem cfg, mempnum) else (0, 100) else (0, mempnum) in
    forall c, memreq_on (mkRequest (i32 n) nvidia.NvidiaGPUDevice (i32 m) (i32 p) c) d
      = if decide (DefaultMem cfg = 0) then du_Totalmem d else DefaultMem cfg) as Hother.
  { intros ? ->. rewrite Z.eqb_refl. destruct (Z.eqb_spec (DefaultMem cfg) 0) as [E|E]; cbn [negb]; intros c.
    - rewrite decide_True by done. rewrite percentage_of; cbn [req_Memreq req_MemPercentagereq]; rewrite ?wrap32_id by done; try lia.
      apply Z.div_mul. lia.
    - rewrite decide_False by done. rewrite amount_of; cbn [req_Memreq]; rewrite wrap32_id by done; lia. }
  destruct (resource_int ctr (ResourceMemPercentage cfg)) as [p|].
  - specialize (Hp p eq_refl). rewrite (wrap32_id p) by auto. destruct (decide (p = 101)) as [E|E].
    + specialize (Hother p E). destruct (if p =? 101 then _ else _) as [m q]. apply Hother.
    + rewrite (proj2 (Z.eqb_neq p 101)) by done.
      rewrite percentage_of; cbn [req_Memreq req_MemPercentagereq]; rewrite ?wrap32_id by auto; try lia; done.
  - specialize (Hother 101 eq_refl). destruct (if 101 =? 101 then _ else _) as [m q]. apply Hother.
Qed.

Lemma memory_as_asked_witness :
  memreq_on (nvidia.nvidia_GenerateResourceRequests default_config (DeviceProps.gpu_container 1 0)) a100 = 81920
  /\ asked_memory default_config (DeviceProps.gpu_container 1 0) 81920 = 81920.
Proof.
  split; [|reflexivity].
  rewrite (memory_as_asked default_config (DeviceProps.gpu_container 1 0) 1 a100); [reflexivity|reflexivity|].
  split; [split; vm_compute; discriminate|intros p E; vm_compute in E; discriminate E|split; vm_compute; discriminate..].
Defined.

(** C39. A container that asks for two kinds of device: the devices granted
    first are recorded a second time under the second kind, so the pod's
    record accounts for them twice while the node was booked once. *)
Theorem two_kinds_counted_twice `{GoRuntime} cfg annos t node requests s node' pd f g id :
  requests_ok cfg requests -> node_ok node -> size requests = 2%nat -> tracked f g ->
  fitInDevices cfg t node requests annos ∅ = Ret (true, s, node', pd) ->
  exists k1 k2 first second, (req_Type <$> (range t requests).*2) = [k1; k2]
    /\ pd = {[k2 := [first ++ second]; k1 := [first]]}
    /\ usage_sum g id (nu_Devices node')
       = usage_sum g id (nu_Devices node) + amount f id first + amount f id second
    /\ pod_amount f id pd = 2 * amount f id first + amount f id second.
Proof.
  intros Hr Hok Hsz Ht E. destruct (fitInDevices_spec cfg annos t node requests ∅ Hr Hok)
    as (fit & s1 & devices' & grants & E' & Hb & granted & rest & El & Hg & Hfit).
  rewrite E' in E. injection E as -> -> <- <-. destruct Hfit as [Hfit _].
  rewrite (Hfit eq_refl), app_nil_r in El. subst granted.
  pose proof (grants_types _ _ _ _ Hg) as Hty. pose proof (range_types_NoDup cfg t requests Hr) as Hnd.
  rewrite <- Hty in *. pose proof (Forall2_length _ _ _ Hg) as Hlen.
  rewrite length_fmap, length_range, Hsz in Hlen.
  destruct grants as [|[k1 first] [|[k2 second] [|]]]; try done.
  exists k1, k2, first, second. cbn in Hnd. apply NoDup_cons in Hnd as [Hne _].
  rewrite list_elem_of_singleton in Hne. split_and!; [done| | |].
  - cbn. by rewrite lookup_empty, insert_empty, lookup_singleton_ne.
  - cbn [nu_Devices]. rewrite (bk_sum _ _ _ Hb f g id Ht). simpl. rewrite app_nil_r, amount_app. lia.
  - cbn [accumulate]. rewrite !pod_amount_record, pod_amount_empty. simpl. rewrite amount_app. lia.
Qed.

Lemma two_kinds_counted_twice_witness :
  let _ := go_reference in
  exists s node' pd,
    fitInDevices default_config ("t", 0%nat) node_mixed {["NVIDIA" := ask 1 1000; "Hygon" := ask_dcu]} ∅ ∅
      = Ret (true, s, node', pd)
    /\ exists first second, pod_amount one "d0" pd = 2 * amount one "d0" first + amount one "d0" second.
Proof.
  intros rt. assert (exists s node' pd, fitInDevices default_config ("t", 0%nat) node_mixed
    {["NVIDIA" := ask 1 1000; "Hygon" := ask_dcu]} ∅ ∅ = Ret (true, s, node', pd))
    as (s & node' & pd & E) by (do 3 eexists; vm_compute; reflexivity).
  exists s, node', pd. split; [exact E|].
  destruct (@two_kinds_counted_twice go_reference default_config ∅ ("t", 0%nat) node_mixed
    {["NVIDIA" := ask 1 1000; "Hygon" := ask_dcu]} s node' pd one du_Used "d0"
    two_asks_ok node_mixed_ok eq_refl tracked_count E) as (_ & _ & first & second & _ & _ & _ & Ham).
  exists first, second. exact Ham.
Defined.

(** A node that cannot hold the whole pod may be accepted: here the second
    container asks for more memory than any card has, the run stops there,
    and the node is accepted because the first container recorded two kinds
    of device. *)
Theorem partial_fit_accepted :
  let _ := go_reference in
  match calcScore default_config {["n1" := node_mixed]}
          [{["NVIDIA" := ask 1 1000; "Hygon" := ask_dcu]}; {["NVIDIA" := ask 1 20000]}] ∅ with
  | Ret (_, res) => ns_nodeID <$> res = ["n1"]
  | Panic _ => False
  end.
Proof. vm_compute. reflexivity. Qed.
End ScoreProps.
