(* ===== verification/Scheduler.v ===== *)
(** * The scheduler extender ([pkg/scheduler/nodes.go], [pods.go], [scheduler.go])

    The scheduler keeps the registered nodes and the pods it has placed.
    [nodes] maps names to pointers: the same [NodeInfo] may also be held by
    the table of the registration loop, and is written through either, so
    the objects live in a heap.  [overviewstatus] and [cachedstatus] share
    their [NodeUsage] objects, and [calcScore] writes to them: the cache is
    the set of names it shares with the overview.

    Each handler runs under the scheduler's locks or alone in its loop, and
    is modelled as one step.  Handlers that call the API are programs over
    the cluster ([K W]); a panic ends them. *)

From Stdlib Require Import ZArith Lia Ascii String Sorted.
From stdpp Require Import base decidable option gmap strings numbers sorting list.
From S2P Require Import Prelude GoStrings GoTime GoRuntime Types Kube NodeLock Codec Devices Score.

#[local] Open Scope Z_scope.

Definition loc : Type := nat.

Record Scheduler := mkScheduler {
  s_heap : list NodeInfo;
  s_nodes : gmap string loc;
  s_pods : gmap string podInfo;
  s_overviewstatus : gmap string NodeUsage;
  s_cachedstatus : list string;
}.

Definition NewScheduler : Scheduler := mkScheduler [] ∅ ∅ ∅ [].

Definition with_node_table (s : Scheduler) heap nodes : Scheduler :=
  mkScheduler heap nodes (s_pods s) (s_overviewstatus s) (s_cachedstatus s).
Definition with_pod_table (s : Scheduler) pods : Scheduler :=
  mkScheduler (s_heap s) (s_nodes s) pods (s_overviewstatus s) (s_cachedstatus s).
Definition with_overview (s : Scheduler) overview : Scheduler :=
  mkScheduler (s_heap s) (s_nodes s) (s_pods s) overview (s_cachedstatus s).
Definition with_status (s : Scheduler) overview cached : Scheduler :=
  mkScheduler (s_heap s) (s_nodes s) (s_pods s) overview cached.

(** ** [nodes.go] *)

(** The object a pointer of the table points to; the tables hold no dangling
    pointers, since objects are only added to the heap. *)
Definition deref (s : Scheduler) (l : loc) : NodeInfo := default (mkNodeInfo "" []) (s_heap s !! l).

(** [m.nodes[nodeID].Devices = devices] *)
Definition set_Devices (s : Scheduler) (l : loc) (devices : list DeviceInfo) : Scheduler :=
  with_node_table s (<[l := mkNodeInfo (ni_ID (deref s l)) devices]> (s_heap s)) (s_nodes s).

(** [&NodeInfo{...}] *)
Definition new_NodeInfo (s : Scheduler) (n : NodeInfo) : loc * Scheduler :=
  (length (s_heap s), with_node_table s (s_heap s ++ [n]) (s_nodes s)).

Definition addNode (s : Scheduler) (nodeID : string) (nodeInfo : loc) : Scheduler :=
  let devices := ni_Devices (deref s nodeInfo) in
  if decide (devices = []) then s
  else
    match s_nodes s !! nodeID with
    | Some l => set_Devices s l (ni_Devices (deref s l) ++ devices)
    | None => with_node_table s (s_heap s) (<[nodeID := nodeInfo]> (s_nodes s))
    end.

Definition rm_loop (rm : list DeviceInfo) (devices : list DeviceInfo) : list DeviceInfo :=
  foldl (fun tmp val =>
      let found := existsb (fun rmval => bool_decide (di_ID val = di_ID rmval)) rm in
      if negb found && negb (bool_decide (di_ID val = "")) then tmp ++ [val] else tmp)
    [] devices.

(** The capacity of the new slice is the difference of the lengths; [make]
    panics when it is negative. *)
Definition rmNodeDevice (s : Scheduler) (nodeID : string) (nodeInfo : loc) : outcome Scheduler :=
  match s_nodes s !! nodeID with
  | Some l =>
      let devices := ni_Devices (deref s l) in
      let rm := ni_Devices (deref s nodeInfo) in
      if decide (devices = []) then Ret s
      else if (length devices <? length rm)%nat then Panic MakeNegativeCap
      else Ret (set_Devices s l (rm_loop rm devices))
  | None => Ret s
  end.

Definition node_not_found (nodeID : string) : error := "node " +:+ nodeID +:+ " not found".

Definition GetNode (s : Scheduler) (nodeID : string) : NodeInfo * option error :=
  match s_nodes s !! nodeID with
  | Some l => (deref s l, None)
  | None => (mkNodeInfo "" [], Some (node_not_found nodeID))
  end.

Definition ListNodes (s : Scheduler) : gmap string NodeInfo := deref s <$> s_nodes s.

(** ** [pods.go] *)
Definition addPod (s : Scheduler) (pod : Pod) (nodeID : string) (devices : PodDevices) : Scheduler :=
  match s_pods s !! pod_UID pod with
  | None => with_pod_table s
      (<[pod_UID pod := mkPodInfo (pod_Namespace pod) (pod_Name pod) (pod_UID pod) nodeID devices]> (s_pods s))
  | Some _ => s
  end.

Definition delPod (s : Scheduler) (pod : Pod) : Scheduler :=
  with_pod_table s (delete (pod_UID pod) (s_pods s)).

Definition GetScheduledPods (s : Scheduler) : gmap string podInfo := s_pods s.

(** ** [scheduler.go]: the node usages *)

(** The fresh usage of a registered device. *)
Definition fresh_usage (d : DeviceInfo) : DeviceUsage :=
  mkDeviceUsage (di_ID d) (di_Index d) 0 (di_Count d) 0 (di_Devmem d) (di_Devcore d) 0 (di_Numa d)
    (di_Type d) (di_Health d).

Definition use_device (udevice : ContainerDevice) (d : DeviceUsage) : DeviceUsage :=
  if decide (du_Id d = cd_UUID udevice) then
    mkDeviceUsage (du_Id d) (du_Index d) (i32 (du_Used d + 1)) (du_Count d)
      (i32 (du_Usedmem d + cd_Usedmem udevice)) (du_Totalmem d) (du_Totalcore d)
      (i32 (du_Usedcores d + cd_Usedcores udevice)) (du_Numa d) (du_Type d) (du_Health d)
  else d.

Definition use_devices (ctrdevs : ContainerDevices) (node : DeviceUsageList) : DeviceUsageList :=
  foldl (fun node udevice => use_device udevice <$> node) node ctrdevs.

Section usage.
Context `{GoRuntime}.

Definition use_pod (p : podInfo) (node : DeviceUsageList) : DeviceUsageList :=
  foldl (fun node '(_, podsingleds) => foldl (fun node ctrdevs => use_devices ctrdevs node) node podsingleds)
    node (range ("getNodesUsage " +:+ pi_Uid p, 0%nat)%string (pi_Devices p)).

Definition fresh_overview (s : Scheduler) : gmap string NodeUsage :=
  foldl (fun overall '(_, node) =>
      <[ni_ID node := mkNodeUsage (fresh_usage <$> ni_Devices node)]> overall)
    ∅ (range ("getNodesUsage", 0%nat) (ListNodes s)).

(** The loop over the pods. *)
Definition pods_usage (overall : gmap string NodeUsage) (pods : gmap string podInfo) : gmap string NodeUsage :=
  foldl (fun overall '(_, p) =>
      match overall !! pi_NodeID p with
      | None => overall
      | Some node => <[pi_NodeID p := mkNodeUsage (use_pod p (nu_Devices node))]> overall
      end)
    overall (range ("getNodesUsage", 1%nat) pods).

Definition overview (s : Scheduler) : gmap string NodeUsage := pods_usage (fresh_overview s) (s_pods s).

(** The last loop: the names found, in order, and the others. *)
Definition cache_step (s : Scheduler) (acc : list string * gmap string string) (nodeID : string)
    : list string * gmap string string :=
  let '(cached, failedNodes) := acc in
  let '(node, err) := GetNode s nodeID in
  match err with
  | Some _ => (cached, <[nodeID := "node unregisterd"]> failedNodes)
  | None => (cached ++ [ni_ID node], failedNodes)
  end.

Definition cache_nodes (s : Scheduler) (nodes : list string) : list string * gmap string string :=
  foldl (cache_step s) ([], ∅) nodes.

(** The entries of the overview the cache shares. *)
Definition cached_usage (overall : gmap string NodeUsage) (cached : list string) : gmap string NodeUsage :=
  foldl (fun cache id =>
      match overall !! id with Some node => <[id := node]> cache | None => cache end) ∅ cached.

Definition getNodesUsage (s : Scheduler) (nodes : list string)
    : Scheduler * gmap string NodeUsage * gmap string string :=
  let overall := overview s in
  let '(cached, failed) := cache_nodes s nodes in
  (with_status s overall cached, cached_usage overall cached, failed).

Definition InspectAllNodesUsage (s : Scheduler) : gmap string NodeUsage := s_overviewstatus s.
End usage.

(** ** [scheduler.go]: the pod events *)
Section events.
Context `{GoRuntime}.

Definition onAddPod (s : Scheduler) (pod : Pod) : Scheduler :=
  match pod_Annotations pod !! AssignedNodeAnnotations with
  | None => s
  | Some nodeID =>
      if IsPodInTerminatedState pod then delPod s pod
      else addPod s pod nodeID (DecodePodDevices SupportDevices (pod_Annotations pod)).1
  end.

Definition onUpdatePod (s : Scheduler) (oldPod newPod : Pod) : Scheduler := onAddPod s newPod.

Definition onDelPod (s : Scheduler) (pod : Pod) : Scheduler :=
  match pod_Annotations pod !! AssignedNodeAnnotations with
  | None => s
  | Some _ => delPod s pod
  end.
End events.

(** ** [scheduler.go]: the extender's calls *)
Record ExtenderFilterResult := mkFilterResult {
  fr_NodeNames : option (list string);
  fr_FailedNodes : gmap string string;
  fr_Error : string;
}.

Section extender.
Context `{GoRuntime} {W : Type} `{!KubeClient W} (cfg : Config) (zone : Z).

(** [util.PatchPodAnnotations] and [util.PatchNodeAnnotations]: the JSON of a
    map of strings never fails to encode. *)
Definition PatchPodAnnotations (pod : Pod) (annotations : gmap string string) : K W (option error) :=
  call (api_PatchPod (pod_Namespace pod) (pod_Name pod) annotations).

Definition PatchNodeAnnotations (node : Node) (annotations : gmap string string) : K W (option error) :=
  call (api_PatchNode (node_Name node) annotations).

(** The annotations [Filter] writes for the chosen node. *)
Definition filter_annotations (t : Z) (m : NodeScore) : gmap string string :=
  EncodePodDevices SupportDevices (ns_devices m)
  ∪ (EncodePodDevices InRequestDevices (ns_devices m)
     ∪ {[AssignedTimeAnnotations := itoa (t / Second); AssignedNodeAnnotations := ns_nodeID m]}).

Definition total_nums (nums : PodDeviceRequests) : Z :=
  foldl (fun total '(i, n) =>
      foldl (fun total '(_, k) => total + req_Nums k) total (range ("Filter", i) n))
    0 (imap pair nums).

Definition Filter (s : Scheduler) (pod : Pod) (nodeNames : list string)
    : K W (Scheduler * option ExtenderFilterResult * option error) :=
  let nums := Resourcereqs cfg pod in
  if total_nums nums =? 0 then mret (s, Some (mkFilterResult (Some nodeNames) ∅ ""), None)
  else
    let annos := pod_Annotations pod in
    let s := delPod s pod in
    let '(s, nodeUsage, failedNodes) := getNodesUsage s nodeNames in
    '(nodeUsage, nodeScores) ← lift (calcScore cfg nodeUsage nums annos);
    let s := with_overview s (nodeUsage ∪ s_overviewstatus s) in
    if decide (nodeScores = []) then mret (s, Some (mkFilterResult None failedNodes ""), None)
    else
      let nodeScores := sort_by NodeScore_Less nodeScores in
      m ← lift (slice_get nodeScores (length nodeScores - 1));
      t ← call api_Now;
      let s := addPod s pod (ns_nodeID m) (ns_devices m) in
      err ← PatchPodAnnotations pod (filter_annotations t m);
      match err with
      | Some e => mret (delPod s pod, None, Some e)
      | None => mret (s, Some (mkFilterResult (Some [ns_nodeID m]) ∅ ""), None)
      end.

(** [Bind]: the result's error field. *)
Definition Bind (podName podNamespace podUID node : string) : K W string :=
  '(current, err) ← call (api_GetPod podNamespace podName);
  err ← LockNode zone node;
  t ← call api_Now;
  err ← PatchPodAnnotations current
          {[DeviceBindPhase := "allocating"; BindTimeAnnotations := itoa (t / Second)]};
  err ← call (api_Bind podNamespace podName podUID node);
  mret (default "" err).
End extender.
