(* ===== verification/Register.v ===== *)
(** * Node registration ([RegisterFromNodeAnnotatons] of [pkg/scheduler/scheduler.go])

    The device plugins write a node's devices to an annotation and a state to
    a handshake annotation; a loop of the scheduler reads them every 15
    seconds.  One round of the loop is [register_round].  [nodeInfoCopy]
    holds the pointer last registered for each kind of device. *)

From Stdlib Require Import ZArith Lia Ascii String Sorted.
From stdpp Require Import base decidable option gmap strings numbers sorting list.
From S2P Require Import Prelude GoStrings GoTime GoRuntime Types Kube NodeLock Codec Devices Score Scheduler.

#[local] Open Scope Z_scope.

(** The search for a registered device with its update in place. *)
Fixpoint update_device (dev : api.DeviceInfo) (devices : list DeviceInfo) : option (list DeviceInfo) :=
  match devices with
  | [] => None
  | d :: devices' =>
      if decide (di_ID d = api.Id dev) then
        Some (mkDeviceInfo (di_ID d) (di_Index d) (di_Count d) (api.Devmem dev) (api.Devcore dev)
                (di_Type d) (di_Numa d) (di_Health d) :: devices')
      else cons d <$> update_device dev devices'
  end.

Definition new_device (index : nat) (dev : api.DeviceInfo) : DeviceInfo :=
  mkDeviceInfo (api.Id dev) (Z.of_nat index) (api.Count dev) (api.Devmem dev) (api.Devcore dev)
    (api.Type_ dev) (api.Numa dev) (api.Health dev).

(** The loop over the decoded devices: known ones are updated, the others
    are collected. *)
Definition register_one (name : string) (acc : Scheduler * list DeviceInfo) (x : nat * api.DeviceInfo)
    : Scheduler * list DeviceInfo :=
  let '(s, devices) := acc in
  let '(index, dev) := x in
  match s_nodes s !! name with
  | Some l =>
      match update_device dev (ni_Devices (deref s l)) with
      | Some updated => (set_Devices s l updated, devices)
      | None => (s, devices ++ [new_device index dev])
      end
  | None => (s, devices ++ [new_device index dev])
  end.

Definition register_devices (name : string) (nodedevices : list api.DeviceInfo) (s : Scheduler)
    : Scheduler * list DeviceInfo :=
  foldl (register_one name) (s, []) (imap pair nodedevices).

(** Registering what a node reports: the node table and the new object. *)
Definition register_report (s : Scheduler) (name : string) (nodedevices : list api.DeviceInfo)
    : Scheduler * loc :=
  let '(s, devices) := register_devices name nodedevices s in
  let '(l, s) := new_NodeInfo s (mkNodeInfo name devices) in
  (addNode s name l, l).

Section register.
Context `{GoRuntime} {W : Type} `{!KubeClient W} (zone : Z).

Abbreviation RegState := (Scheduler * gmap string loc)%type.

(** [n, err := util.GetNode(name)], then the patch of the handshake. *)
Definition patch_handshake (name devhandsk text : string) : K W bool :=
  '(n, err) ← call (api_GetNode name);
  match err with
  | Some _ => mret false
  | None => _ ← PatchNodeAnnotations n {[devhandsk := text]}; mret true
  end.

Definition register_device (val : Node) (devhandsk devreg : string) (st : RegState) : K W RegState :=
  let '(s, nodeInfoCopy) := st in
  let name := node_Name val in
  match node_annos val !! devreg with
  | None => mret st
  | Some str =>
      let '(nodedevices, err) := DecodeNodeDevices str in
      if bool_decide (is_Some err) || bool_decide (nodedevices = []) then mret st
      else
        let handshake := str_lookup (node_annos val) devhandsk in
        if contains handshake "Requesting" then
          text ← lift (slice_get (split "_" handshake) 1);
          let formertime := default zeroTime (parse_plain text) in
          t ← call api_Now;
          if formertime + 60 * Second <? t then
            match s_nodes s !! name, nodeInfoCopy !! devhandsk with
            | Some _, Some l =>
                s ← lift (rmNodeDevice s name l);
                t ← call api_Now;
                _ ← patch_handshake name devhandsk ("Deleted_" +:+ format_plain zone t);
                mret (s, nodeInfoCopy)
            | _, _ => mret st
            end
          else mret st
        else if contains handshake "Deleted" then mret st
        else
          t ← call api_Now;
          ok ← patch_handshake name devhandsk ("Requesting_" +:+ format_plain zone t);
          if negb ok then mret st
          else
            let '(s, nodeInfo) := register_report s name nodedevices in
            mret (s, <[devhandsk := nodeInfo]> nodeInfoCopy)
  end.

Fixpoint register_kinds (val : Node) (kinds : list (string * string)) (st : RegState) : K W RegState :=
  match kinds with
  | [] => mret st
  | (devhandsk, devreg) :: kinds' =>
      st ← register_device val devhandsk devreg st; register_kinds val kinds' st
  end.

Fixpoint register_nodes (i : nat) (nodes : list Node) (st : RegState) : K W RegState :=
  match nodes with
  | [] => mret st
  | val :: nodes' =>
      st ← register_kinds val (range ("RegisterFromNodeAnnotatons", i) KnownDevice) st;
      register_nodes (S i) nodes' st
  end.

(** One round: the error ends the loop. *)
Definition register_round (st : RegState) : K W (RegState * option error) :=
  '(nodes, err) ← call api_ListNodes;
  match err with
  | Some e => mret (st, Some e)
  | None =>
      st ← register_nodes 0 nodes st;
      let '(s, _, _) := getNodesUsage st.1 (node_Name <$> nodes) in
      mret ((s, st.2), None)
  end.
End register.
