(* ===== verification/UsageFacts.v ===== *)
(** * The node usages are the accounts of the recorded pods

    [getNodesUsage] recomputes, on every call, the use of every registered
    device from the recorded pods, through four nested loops over maps and
    slices.  Its specification is one sum: [account].  The computed table is
    that sum for every order of the maps, int32 wrap-around included. *)

From Stdlib Require Import ZArith Lia Ascii String Sorted.
From stdpp Require Import base decidable option gmap strings numbers sorting list.
From S2P Require Import Prelude GoStrings GoTime GoRuntime Types Kube NodeLock Codec Devices Score FitFacts BookFacts ScoreFacts CalcFacts Scheduler.

#[local] Open Scope Z_scope.

(** ** The specification *)

(** What the recorded pods of a node hold of a device. *)
Definition account (f : ContainerDevice -> Z) (name id : string) (pods : gmap string podInfo) : Z :=
  zsum ((fun kv : string * podInfo =>
      if decide (pi_NodeID kv.2 = name) then pod_amount f id (pi_Devices kv.2) else 0)
    <$> map_to_list pods).

(** A registered device with given accounts. *)
Definition usage_of (d : DeviceInfo) (A : (ContainerDevice -> Z) -> Z) : DeviceUsage :=
  mkDeviceUsage (di_ID d) (di_Index d) (i32 (A one)) (di_Count d) (i32 (A cd_Usedmem)) (di_Devmem d)
    (di_Devcore d) (i32 (A cd_Usedcores)) (di_Numa d) (di_Type d) (di_Health d).

Definition usage_table (nodes : gmap string NodeInfo)
    (A : string -> string -> (ContainerDevice -> Z) -> Z) : gmap string NodeUsage :=
  map_imap (fun name n => Some (mkNodeUsage ((fun d => usage_of d (A name (di_ID d))) <$> ni_Devices n)))
    nodes.

(** The table of the accounts. *)
Definition spec_usage (s : Scheduler) : gmap string NodeUsage :=
  usage_table (ListNodes s) (fun name id f => account f name id (s_pods s)).

(** The node table is consistent: no dangling pointer, and every node is
    registered under its name. *)
Definition nodes_ok (s : Scheduler) : Prop :=
  map_Forall (fun name l => exists n, s_heap s !! l = Some n /\ ni_ID n = name) (s_nodes s).

(** ** Devices *)
Lemma usage_of_ext d A B : (forall f g, tracked f g -> A f = B f) -> usage_of d A = usage_of d B.
Proof.
  intros E. unfold usage_of. by rewrite (E _ _ tracked_count), (E _ _ tracked_mem), (E _ _ tracked_cores).
Qed.

Lemma use_device_of u d A :
  use_device u (usage_of d A) = usage_of d (fun f => A f + amount f (di_ID d) [u]).
Proof.
  unfold use_device. cbn [du_Id usage_of].
  assert (forall f, amount f (di_ID d) [u] = if decide (di_ID d = cd_UUID u) then f u else 0) as Ha.
  { intros f. rewrite amount_cons. do 2 case_decide; unfold amount; cbn; congruence || lia. }
  unfold usage_of. rewrite !Ha. case_decide as E.
  - cbn [du_Used du_Usedmem du_Usedcores du_Id du_Index du_Count du_Totalmem du_Totalcore du_Numa du_Type du_Health].
    by rewrite !wrap32_add_l.
  - by rewrite !Z.add_0_r.
Qed.

Lemma foldl_fmap_each {A B} (f : B -> A -> A) (l : list B) (node : list A) :
  foldl (fun node b => f b <$> node) node l = (fun a => foldl (fun a b => f b a) a l) <$> node.
Proof.
  revert node. induction l as [|b l IH]; intros node; cbn; [by rewrite list_fmap_id|].
  rewrite IH, <- list_fmap_compose. done.
Qed.

Lemma use_devices_of l ds (A : string -> (ContainerDevice -> Z) -> Z) :
  use_devices l ((fun d => usage_of d (A (di_ID d))) <$> ds)
  = (fun d => usage_of d (fun f => A (di_ID d) f + amount f (di_ID d) l)) <$> ds.
Proof.
  unfold use_devices. rewrite foldl_fmap_each, <- list_fmap_compose.
  apply list_fmap_ext. intros _ d _. unfold compose. generalize (A (di_ID d)). clear A.
  induction l as [|u l IH]; intros B; cbn [foldl].
  - apply usage_of_ext. intros f g _. unfold amount. cbn. lia.
  - rewrite use_device_of, IH. apply usage_of_ext. intros f g _.
    rewrite (amount_cons f (di_ID d) u l), (amount_cons f (di_ID d) u []), amount_nil. lia.
Qed.

Lemma use_ctrs_of psd ds (A : string -> (ContainerDevice -> Z) -> Z) :
  foldl (fun node ctrdevs => use_devices ctrdevs node) ((fun d => usage_of d (A (di_ID d))) <$> ds) psd
  = (fun d => usage_of d (fun f => A (di_ID d) f + amount f (di_ID d) (concat psd))) <$> ds.
Proof.
  revert A. induction psd as [|c psd IH]; intros A; cbn [foldl].
  - apply list_fmap_ext. intros _ d _. apply usage_of_ext. intros. unfold amount. cbn. lia.
  - rewrite use_devices_of. rewrite (IH (fun id f => A id f + amount f id c)).
    apply list_fmap_ext. intros _ d _. apply usage_of_ext. intros f g _. cbn [concat]. rewrite amount_app. lia.
Qed.

Section usage.
Context `{GoRuntime}.

Lemma use_pod_of p ds (A : string -> (ContainerDevice -> Z) -> Z) :
  use_pod p ((fun d => usage_of d (A (di_ID d))) <$> ds)
  = (fun d => usage_of d (fun f => A (di_ID d) f + pod_amount f (di_ID d) (pi_Devices p))) <$> ds.
Proof.
  unfold use_pod. set (l := range _ _).
  assert (forall f id, pod_amount f id (pi_Devices p) = zsum ((fun kv => amount f id (concat kv.2)) <$> l)) as E.
  { intros f id. unfold pod_amount, l. by rewrite range_perm. }
  transitivity ((fun d => usage_of d (fun f => A (di_ID d) f
    + zsum ((fun kv => amount f (di_ID d) (concat kv.2)) <$> l))) <$> ds).
  2:{ apply list_fmap_ext. intros _ d _. apply usage_of_ext. intros f g _. by rewrite E. }
  clearbody l. clear E. revert A. induction l as [|[t psd] l IH]; intros A; cbn [foldl].
  - apply list_fmap_ext. intros _ d _. apply usage_of_ext. intros. cbn. lia.
  - rewrite use_ctrs_of. rewrite (IH (fun id f => A id f + amount f id (concat psd))).
    apply list_fmap_ext. intros _ d _. apply usage_of_ext. intros f g _.
    rewrite fmap_cons, zsum_cons. cbn [snd]. lia.
Qed.

Lemma usage_table_ext nodes A B :
  (forall name id f g, tracked f g -> A name id f = B name id f) -> usage_table nodes A = usage_table nodes B.
Proof.
  intros E. apply map_eq. intros name. unfold usage_table. rewrite !map_lookup_imap.
  destruct (nodes !! name) as [n|]; cbn; [|done]. do 2 f_equal. apply list_fmap_ext.
  intros _ d _. apply usage_of_ext. eauto.
Qed.

(** ** Pods *)
Lemma use_pod_table nodes A p :
  match usage_table nodes A !! pi_NodeID p with
  | None => usage_table nodes A
  | Some node => <[pi_NodeID p := mkNodeUsage (use_pod p (nu_Devices node))]> (usage_table nodes A)
  end
  = usage_table nodes (fun name id f => A name id f +
      (if decide (pi_NodeID p = name) then pod_amount f id (pi_Devices p) else 0)).
Proof.
  apply map_eq. intros name. unfold usage_table at 1. rewrite map_lookup_imap.
  destruct (nodes !! pi_NodeID p) as [n|] eqn:En; cbn.
  - destruct (decide (pi_NodeID p = name)) as [<-|Hne].
    + rewrite lookup_insert_eq. unfold usage_table. rewrite map_lookup_imap, En. cbn.
      rewrite use_pod_of. do 2 f_equal. apply list_fmap_ext. intros _ d _. apply usage_of_ext.
      intros f g _. by rewrite decide_True.
    + rewrite lookup_insert_ne by done. unfold usage_table. rewrite !map_lookup_imap.
      destruct (nodes !! name) as [n'|]; cbn; [|done]. do 2 f_equal. apply list_fmap_ext.
      intros _ d _. apply usage_of_ext. intros f g _. rewrite decide_False by done. lia.
  - unfold usage_table. rewrite !map_lookup_imap. destruct (nodes !! name) as [n'|] eqn:En'; cbn; [|done].
    do 2 f_equal. apply list_fmap_ext. intros _ d _. apply usage_of_ext. intros f g _.
    rewrite decide_False by congruence. lia.
Qed.

(** ** Nodes *)
Lemma deref_ok s name l :
  nodes_ok s -> s_nodes s !! name = Some l -> s_heap s !! l = Some (deref s l) /\ ni_ID (deref s l) = name.
Proof. intros Hs Hl. destruct (Hs _ _ Hl) as (n & Hn & Hid). unfold deref. by rewrite Hn. Qed.

Lemma ListNodes_ID s name n : nodes_ok s -> ListNodes s !! name = Some n -> ni_ID n = name.
Proof.
  intros Hs Hn. unfold ListNodes in Hn. apply lookup_fmap_Some in Hn as (l & <- & Hl).
  by apply deref_ok.
Qed.

Lemma fresh_overview_table s :
  nodes_ok s -> fresh_overview s = usage_table (ListNodes s) (fun _ _ _ => 0).
Proof.
  intros Hs. unfold fresh_overview. set (l := range _ _).
  assert (forall name n, (name, n) ∈ l -> ni_ID n = name) as Hid.
  { intros name n Hn. apply elem_of_range in Hn. by eapply ListNodes_ID. }
  rewrite (foldl_ext _ (fun m kv => <[kv.1 := mkNodeUsage (fresh_usage <$> ni_Devices kv.2)]> m)).
  2:{ intros m [name n] Hn. cbn. by rewrite (Hid name n Hn). }
  rewrite (foldl_insert_list_to_map fst (fun kv => mkNodeUsage (fresh_usage <$> ni_Devices kv.2)))
    by apply range_NoDup.
  assert ((fun a : string * NodeInfo => (a.1, mkNodeUsage (fresh_usage <$> ni_Devices a.2))) <$> l
    = prod_map id (fun n => mkNodeUsage (fresh_usage <$> ni_Devices n)) <$> l) as ->
    by (apply list_fmap_ext; by intros _ [? ?] _).
  rewrite list_to_map_fmap. unfold l. rewrite range_list_to_map. apply map_eq. intros name.
  unfold usage_table. rewrite lookup_fmap, map_lookup_imap. by destruct (ListNodes s !! name).
Qed.

Lemma overview_loop nodes A (l : list (string * podInfo)) :
  foldl (fun overall '(_, p) =>
      match overall !! pi_NodeID p with
      | None => overall
      | Some node => <[pi_NodeID p := mkNodeUsage (use_pod p (nu_Devices node))]> overall
      end) (usage_table nodes A) l
  = usage_table nodes (fun name id f => A name id f + zsum
      ((fun kv : string * podInfo =>
          if decide (pi_NodeID kv.2 = name) then pod_amount f id (pi_Devices kv.2) else 0) <$> l)).
Proof.
  revert A. induction l as [|[uid p] l IH]; intros A; cbn [foldl].
  - apply usage_table_ext. intros. cbn. lia.
  - rewrite use_pod_table, IH. apply usage_table_ext. intros name id f g _.
    rewrite fmap_cons, zsum_cons. cbn [snd]. lia.
Qed.

(** The loops compute the specification. *)
Lemma overview_spec s : nodes_ok s -> overview s = spec_usage s.
Proof.
  intros Hs. unfold overview, pods_usage, spec_usage. rewrite fresh_overview_table by done.
  rewrite overview_loop. apply usage_table_ext. intros name id f g _. unfold account.
  by rewrite range_perm.
Qed.
End usage.
