(* ===== verification/FilterFacts.v ===== *)
(** * The state of the scheduler stays within the capacity of the nodes

    [state_ok]: the devices of every registered node hold at most what they
    have, summed over the recorded pods.  Every handler preserves it; for
    [Filter], through the recomputed usages, [calcScore] and the record of
    the chosen score. *)

From Stdlib Require Import ZArith Lia Ascii String Sorted.
From stdpp Require Import base decidable option gmap strings numbers sorting list.
From S2P Require Import Prelude GoStrings GoTime GoRuntime Types Kube NodeLock Codec Devices Score FitFacts BookFacts ScoreFacts CalcFacts Scheduler UsageFacts.

#[local] Open Scope Z_scope.

(** ** The invariant *)
Record device_ok (d : DeviceInfo) : Prop := {
  do_count : 0 <= di_Count d <= max_i32;
  do_mem : 0 <= di_Devmem d /\ di_Devmem d * 101 <= max_i32;
  do_core : 0 <= di_Devcore d <= max_i32;
}.

(** The capacity of a device, for each tracked quantity. *)
Inductive capacity : (ContainerDevice -> Z) -> (DeviceInfo -> Z) -> Prop :=
| capacity_count : capacity one di_Count
| capacity_mem : capacity cd_Usedmem di_Devmem
| capacity_cores : capacity cd_Usedcores di_Devcore.

Record state_ok (s : Scheduler) : Prop := {
  so_nodes : nodes_ok s;
  so_devices name n : ListNodes s !! name = Some n ->
    NoDup (di_ID <$> ni_Devices n) /\ Forall device_ok (ni_Devices n);
  so_pods : map_Forall (fun _ p => pod_nonneg (pi_Devices p)) (s_pods s);
  so_capacity name n d f c : ListNodes s !! name = Some n -> d ∈ ni_Devices n -> capacity f c ->
    account f name (di_ID d) (s_pods s) <= c d;
}.

(** ** Accounts and the pod table *)
Lemma account_insert f name id uid p (pods : gmap string podInfo) :
  pods !! uid = None ->
  account f name id (<[uid := p]> pods)
  = (if decide (pi_NodeID p = name) then pod_amount f id (pi_Devices p) else 0) + account f name id pods.
Proof. intros Hu. unfold account. by rewrite map_to_list_insert. Qed.

Lemma account_delete f name id uid p (pods : gmap string podInfo) :
  pods !! uid = Some p ->
  account f name id pods
  = (if decide (pi_NodeID p = name) then pod_amount f id (pi_Devices p) else 0)
    + account f name id (delete uid pods).
Proof.
  intros Hu. rewrite <- (insert_delete_id pods uid p Hu) at 1. apply account_insert, lookup_delete_eq.
Qed.

Lemma capacity_tracked f c : capacity f c -> exists g, tracked f g.
Proof. intros []; eauto using tracked. Qed.

Lemma account_nonneg f g name id (pods : gmap string podInfo) :
  tracked f g -> map_Forall (fun _ p => pod_nonneg (pi_Devices p)) pods -> 0 <= account f name id pods.
Proof.
  intros Ht Hp. unfold account. apply zsum_nonneg. rewrite Forall_fmap. apply Forall_forall.
  intros [uid p] Hin. apply elem_of_map_to_list in Hin. cbn. case_decide; [|done].
  eapply pod_amount_nonneg; [done|]. by apply (Hp uid).
Qed.

Lemma account_delete_le f g name id uid (pods : gmap string podInfo) :
  tracked f g -> map_Forall (fun _ p => pod_nonneg (pi_Devices p)) pods ->
  account f name id (delete uid pods) <= account f name id pods.
Proof.
  intros Ht Hp. destruct (pods !! uid) as [p|] eqn:E; [|by rewrite delete_id].
  rewrite (account_delete f name id uid p pods E).
  pose proof (pod_amount_nonneg f g id (pi_Devices p) Ht (Hp uid p E)). case_decide; lia.
Qed.

(** ** The handlers of pod events *)
Lemma delPod_ok s pod : state_ok s -> state_ok (delPod s pod).
Proof.
  intros [Hn Hd Hp Hc]. split; [done|done|by apply map_Forall_delete|].
  intros name n d f c Hl Hin Hcap. destruct (capacity_tracked _ _ Hcap) as [g Ht].
  etransitivity; [by apply (account_delete_le f g)|]. by eapply Hc.
Qed.

(** Recording a pod whose amounts fit. *)
Lemma addPod_ok s pod name devices :
  state_ok s -> pod_nonneg devices ->
  (forall n d f c, ListNodes s !! name = Some n -> d ∈ ni_Devices n -> capacity f c ->
     account f name (di_ID d) (s_pods s) + pod_amount f (di_ID d) devices <= c d) ->
  state_ok (addPod s pod name devices).
Proof.
  intros [Hn Hd Hp Hc] Hnn Hfit. unfold addPod. destruct (s_pods s !! pod_UID pod) eqn:E; [done|].
  split; [done|done|by apply map_Forall_insert_2|].
  intros nm n d f c Hl Hin Hcap. cbn [s_pods with_pod_table]. rewrite account_insert by done. cbn [pi_NodeID pi_Devices].
  case_decide as En; [|by rewrite Z.add_0_l; eapply Hc]. subst nm.
  specialize (Hfit n d f c Hl Hin Hcap). lia.
Qed.

(** ** The usages of a good state *)
Lemma usage_of_ok s name n d :
  state_ok s -> ListNodes s !! name = Some n -> d ∈ ni_Devices n ->
  let u := usage_of d (fun f => account f name (di_ID d) (s_pods s)) in
  usage_ok u /\ du_Used u = account one name (di_ID d) (s_pods s)
  /\ du_Usedmem u = account cd_Usedmem name (di_ID d) (s_pods s)
  /\ du_Usedcores u = account cd_Usedcores name (di_ID d) (s_pods s).
Proof.
  intros Hs Hl Hin u. destruct (so_devices s Hs name n Hl) as [_ Hok]. rewrite Forall_forall in Hok.
  destruct (Hok d Hin) as [H1 H2 H3].
  pose proof (so_capacity s Hs name n d _ _ Hl Hin capacity_count).
  pose proof (so_capacity s Hs name n d _ _ Hl Hin capacity_mem).
  pose proof (so_capacity s Hs name n d _ _ Hl Hin capacity_cores).
  pose proof (account_nonneg _ _ name (di_ID d) _ tracked_count (so_pods s Hs)).
  pose proof (account_nonneg _ _ name (di_ID d) _ tracked_mem (so_pods s Hs)).
  pose proof (account_nonneg _ _ name (di_ID d) _ tracked_cores (so_pods s Hs)).
  unfold u, usage_of, max_i32 in *. cbn [du_Used du_Usedmem du_Usedcores].
  rewrite !wrap32_id by (unfold in_i32, min_i32, max_i32; lia).
  split_and!; [|done..]. split; cbn; rewrite ?wrap32_id by (unfold in_i32, min_i32, max_i32; lia);
    unfold max_i32; lia.
Qed.

Lemma spec_usage_lookup s name u :
  spec_usage s !! name = Some u <->
  exists n, ListNodes s !! name = Some n
    /\ u = mkNodeUsage ((fun d => usage_of d (fun f => account f name (di_ID d) (s_pods s))) <$> ni_Devices n).
Proof.
  unfold spec_usage, usage_table. rewrite map_lookup_imap.
  destruct (ListNodes s !! name) as [n|]; cbn; split; naive_solver.
Qed.

Lemma spec_usage_ok s : state_ok s -> map_Forall (fun _ => node_ok) (spec_usage s).
Proof.
  intros Hs name u (n & Hl & ->)%spec_usage_lookup. unfold node_ok. cbn [nu_Devices].
  rewrite Forall_fmap. apply Forall_forall. intros d Hin. by eapply usage_of_ok.
Qed.

(** The entry of a device in the table of its node is its account. *)
Lemma usage_sum_account s name n d f g :
  state_ok s -> ListNodes s !! name = Some n -> d ∈ ni_Devices n -> tracked f g ->
  usage_sum g (di_ID d)
    ((fun d => usage_of d (fun f => account f name (di_ID d) (s_pods s))) <$> ni_Devices n)
  = account f name (di_ID d) (s_pods s).
Proof.
  intros Hs Hl Hin Ht. destruct (so_devices s Hs name n Hl) as [Hnd _].
  set (us := _ <$> ni_Devices n).
  assert (usage_of d (fun f => account f name (di_ID d) (s_pods s)) ∈ us) as Hu
    by (apply list_elem_of_fmap; by exists d).
  assert (du_Id <$> us = di_ID <$> ni_Devices n) as Hids.
  { unfold us. rewrite <- list_fmap_compose. apply list_fmap_ext. done. }
  rewrite <- Hids in Hnd. etransitivity; [exact (usage_sum_lookup g us _ Hnd Hu)|].
  destruct (usage_of_ok s name n d Hs Hl Hin) as (_ & E1 & E2 & E3). by destruct Ht.
Qed.

(** Booked devices hold their accounts within the capacity. *)
Lemma booked_capacity s name n d f c devices' vals :
  state_ok s -> ListNodes s !! name = Some n -> d ∈ ni_Devices n -> capacity f c ->
  booked ((fun d => usage_of d (fun f => account f name (di_ID d) (s_pods s))) <$> ni_Devices n) devices' vals ->
  account f name (di_ID d) (s_pods s) + amount f (di_ID d) vals <= c d.
Proof.
  intros Hs Hl Hin Hcap [Hok Hst Hsum]. destruct (so_devices s Hs name n Hl) as [Hnd _].
  set (A := fun f => account f name (di_ID d) (s_pods s)).
  assert (static (usage_of d A) ∈ static <$> devices') as Hd.
  { rewrite Hst, <- list_fmap_compose. apply list_elem_of_fmap. by exists d. }
  apply list_elem_of_fmap in Hd as (d' & Ed & Hd').
  assert (NoDup (du_Id <$> devices')) as Hnd'.
  { assert (du_Id <$> devices' ≡ₚ di_ID <$> ni_Devices n) as ->; [|done].
    assert (forall l, du_Id <$> l = (fun x => x.1.1.1.1.1.1.1) <$> (static <$> l)) as Hf
      by (intros l; by rewrite <- list_fmap_compose).
    rewrite Hf, Hst, <- Hf, <- list_fmap_compose. done. }
  assert (usage_ok d') as Hok' by (rewrite Forall_forall in Hok; auto).
  injection Ed as E1 E2 E3 E4 E5 E6 E7 E8. destruct Hok' as [Hc Hm Hco].
  assert (forall g, tracked f g -> account f name (di_ID d) (s_pods s) + amount f (di_ID d) vals = g d') as Heq.
  { intros g Ht. rewrite <- (usage_sum_account s name n d f g Hs Hl Hin Ht), <- (Hsum f g _ Ht).
    rewrite E1. by apply usage_sum_lookup. }
  destruct Hcap; [rewrite (Heq _ tracked_count)|rewrite (Heq _ tracked_mem)|rewrite (Heq _ tracked_cores)];
    lia.
Qed.

(** ** The cache *)
Lemma cache_nodes_spec s names :
  nodes_ok s ->
  (cache_nodes s names).1 = filter (fun id => is_Some (s_nodes s !! id)) names
  /\ forall id, (cache_nodes s names).2 !! id
       = if decide (id ∈ names /\ s_nodes s !! id = None) then Some "node unregisterd"%string else None.
Proof.
  intros Hs. unfold cache_nodes.
  assert (forall c f, (foldl (cache_step s) (c, f) names).1
      = c ++ filter (fun id => is_Some (s_nodes s !! id)) names
    /\ forall id, (foldl (cache_step s) (c, f) names).2 !! id
       = if decide (id ∈ names /\ s_nodes s !! id = None) then Some "node unregisterd"%string
         else f !! id) as Hg.
  2:{ destruct (Hg [] ∅) as [H1 H2]. split; [exact H1|]. intros id. by rewrite H2, lookup_empty. }
  induction names as [|x names IH]; intros c f; cbn [foldl].
  { split; [by rewrite filter_nil, app_nil_r|]. intros id. cbn.
    rewrite decide_False; [done|]. intros [Hin _]. by apply not_elem_of_nil in Hin. }
  rewrite filter_cons. unfold cache_step at 2 4, GetNode. destruct (s_nodes s !! x) as [l|] eqn:E.
  - rewrite (proj2 (deref_ok s x l Hs E)). rewrite decide_True by (by eexists).
    destruct (IH (c ++ [x]) f) as [H1 H2]. split; [by rewrite H1, <- app_assoc|].
    intros id. rewrite H2. apply decide_ext. rewrite elem_of_cons. naive_solver congruence.
  - rewrite decide_False by (by intros [? ?]).
    destruct (IH c (<[x := "node unregisterd"%string]> f)) as [H1 H2]. split; [done|].
    intros id. rewrite H2. destruct (decide (id ∈ names /\ s_nodes s !! id = None)) as [[Hin Hn]|Hno].
    + rewrite decide_True; [done|]. split; [by right|done].
    + destruct (decide (x = id)) as [->|Hne].
      * rewrite lookup_insert_eq, decide_True; [done|]. split; [left|done].
      * rewrite lookup_insert_ne, decide_False; [done| |done].
        intros [[->|?]%elem_of_cons ?]; [done|]. by apply Hno.
Qed.

Lemma cached_usage_lookup (overall : gmap string NodeUsage) cached id :
  cached_usage overall cached !! id = if decide (id ∈ cached) then overall !! id else None.
Proof.
  unfold cached_usage.
  assert (forall m : gmap string NodeUsage, (forall id u, m !! id = Some u -> overall !! id = Some u) ->
    foldl (fun cache id => match overall !! id with Some node => <[id := node]> cache | None => cache end)
      m cached !! id = if decide (id ∈ cached) then overall !! id else m !! id) as Hg.
  { induction cached as [|x cached IH]; intros m Hm; cbn [foldl].
    { rewrite decide_False; [done|]. by apply not_elem_of_nil. }
    rewrite IH.
    2:{ intros i u. destruct (overall !! x) eqn:E; [|apply Hm].
        intros [[<- <-]|[_ ?]]%lookup_insert_Some; [done|by apply Hm]. }
    destruct (decide (id ∈ cached)) as [Hin|Hni].
    { rewrite decide_True; [done|by right]. }
    destruct (decide (x = id)) as [->|Hne].
    - rewrite decide_True by left. destruct (overall !! id) as [u|] eqn:E; [by rewrite lookup_insert_eq|].
      destruct (m !! id) eqn:Em; [|done]. by apply Hm in Em; rewrite E in Em.
    - rewrite (decide_False (P := id ∈ x :: cached)) by (rewrite elem_of_cons; naive_solver).
      destruct (overall !! x); [by rewrite lookup_insert_ne|done]. }
  rewrite Hg; [by rewrite lookup_empty|]. intros i u. by rewrite lookup_empty.
Qed.

Section filter.
Context `{GoRuntime}.

Lemma getNodesUsage_lookup s names id u :
  nodes_ok s ->
  (getNodesUsage s names).1.2 !! id = Some u <-> id ∈ names /\ spec_usage s !! id = Some u.
Proof.
  intros Hs. unfold getNodesUsage. destruct (cache_nodes_spec s names Hs) as [Hc _].
  destruct (cache_nodes s names) as [cached failed]. cbn [fst snd] in *. subst cached.
  rewrite overview_spec, cached_usage_lookup by done.
  case_decide as Hin; rewrite list_elem_of_filter in Hin; [naive_solver|].
  split; [done|]. intros [Hi Hu]. exfalso. apply Hin. split; [|done].
  apply spec_usage_lookup in Hu as (n & Hl & _). unfold ListNodes in Hl.
  apply lookup_fmap_Some in Hl as (l & _ & Hl). by exists l.
Qed.

Lemma getNodesUsage_ok s names : state_ok s -> map_Forall (fun _ => node_ok) (getNodesUsage s names).1.2.
Proof.
  intros Hs id u [_ Hu]%getNodesUsage_lookup; [|apply Hs]. by eapply spec_usage_ok.
Qed.

Lemma getNodesUsage_state s names :
  nodes_ok s -> (getNodesUsage s names).1.1
  = with_status s (spec_usage s) (filter (fun id => is_Some (s_nodes s !! id)) names).
Proof.
  intros Hs. unfold getNodesUsage. destruct (cache_nodes_spec s names Hs) as [Hc _].
  destruct (cache_nodes s names) as [cached failed]. cbn [fst snd] in *. subst cached.
  by rewrite overview_spec.
Qed.

Lemma with_status_ok s o c : state_ok s -> state_ok (with_status s o c).
Proof. by intros [? ? ? ?]; split. Qed.

Lemma with_overview_ok s o : state_ok s -> state_ok (with_overview s o).
Proof. by intros [? ? ? ?]; split. Qed.

(** A device that is not in a table is not booked. *)
Lemma booked_elsewhere devices devices' vals f g id :
  booked devices devices' vals -> tracked f g -> id ∉ du_Id <$> devices -> amount f id vals = 0.
Proof.
  intros [_ Hst Hsum] Ht Hid. specialize (Hsum f g id Ht).
  assert (forall l, id ∉ du_Id <$> l -> usage_sum g id l = 0) as Hz.
  { induction l as [|d l IH]; intros Hl; [done|]. rewrite usage_sum_cons. rewrite fmap_cons, not_elem_of_cons in Hl.
    destruct Hl as [Hne Hl]. rewrite decide_False, IH by (congruence || done). done. }
  rewrite !Hz in Hsum; [lia|done|].
  assert (du_Id <$> devices' ≡ₚ du_Id <$> devices) as ->; [|done].
  assert (forall l, du_Id <$> l = (fun x => x.1.1.1.1.1.1.1) <$> (static <$> l)) as Hf
    by (intros l; by rewrite <- list_fmap_compose).
  by rewrite !Hf, Hst.
Qed.

(** What an accepted score records fits on its node, when the candidates are
    entries of the table of accounts, and names no other device. *)
Lemma chosen_fits_on cfg s usage nums annos nodes' res m :
  state_ok s -> Forall (requests_ok cfg) nums -> single_kind nums ->
  (forall id u, usage !! id = Some u -> spec_usage s !! id = Some u) ->
  calcScore cfg usage nums annos = Ret (nodes', res) -> m ∈ res ->
  is_Some (usage !! ns_nodeID m) /\ pod_nonneg (ns_devices m)
  /\ exists n, ListNodes s !! ns_nodeID m = Some n
    /\ (forall d f c, d ∈ ni_Devices n -> capacity f c ->
          account f (ns_nodeID m) (di_ID d) (s_pods s) + pod_amount f (di_ID d) (ns_devices m) <= c d)
    /\ forall f g id, tracked f g -> id ∉ di_ID <$> ni_Devices n -> pod_amount f id (ns_devices m) = 0.
Proof.
  intros Hs Hn Hsk Hu E Hm.
  assert (map_Forall (fun _ => node_ok) usage) as Hok by (intros id u Hi; eapply spec_usage_ok; eauto).
  destruct (calcScore_booked cfg annos nums _ _ _ Hn Hok E) as (_ & _ & Hres).
  destruct (Hres m Hm) as (node & node' & Hi & _ & _ & _ & Hnn & Hb).
  pose proof (Hu _ _ Hi) as Hsp. apply spec_usage_lookup in Hsp as (n & Hl & ->).
  destruct (Hb Hsk) as (vals & Hbk & Ham). split_and!; [by eexists|done|]. exists n. split_and!; [done| |].
  - intros d f c Hd Hcap. rewrite Ham. by eapply booked_capacity.
  - intros f g id Ht Hid. rewrite Ham. eapply booked_elsewhere; [exact Hbk|exact Ht|]. cbn [nu_Devices].
    by rewrite <- list_fmap_compose.
Qed.

Lemma chosen_fits cfg s names nums annos nodes' res m :
  state_ok s -> Forall (requests_ok cfg) nums -> single_kind nums ->
  calcScore cfg (getNodesUsage s names).1.2 nums annos = Ret (nodes', res) -> m ∈ res ->
  ns_nodeID m ∈ names /\ is_Some (ListNodes s !! ns_nodeID m) /\ pod_nonneg (ns_devices m)
  /\ forall n d f c, ListNodes s !! ns_nodeID m = Some n -> d ∈ ni_Devices n -> capacity f c ->
       account f (ns_nodeID m) (di_ID d) (s_pods s) + pod_amount f (di_ID d) (ns_devices m) <= c d.
Proof.
  intros Hs Hn Hsk E Hm.
  destruct (chosen_fits_on cfg s _ nums annos nodes' res m Hs Hn Hsk
    (fun id u Hi => proj2 (proj1 (getNodesUsage_lookup s names id u (so_nodes s Hs)) Hi)) E Hm)
    as ([u Hi] & Hnn & n & Hl & Hfit & _).
  apply getNodesUsage_lookup in Hi as [Hin _]; [|apply Hs].
  split_and!; [done|by eexists|done|]. intros n' d f c Hl' Hd Hcap. rewrite Hl in Hl'. injection Hl' as <-.
  by apply Hfit.
Qed.

Lemma slice_get_last {A} (l : list A) a :
  slice_get l (length l - 1) = Ret a -> last l = Some a.
Proof.
  rewrite slice_get_Ret. intros Ha. rewrite last_lookup. by replace (pred (length l)) with (length l - 1)%nat by lia.
Qed.

(** The state in which [Filter] decides. *)
Definition filter_state (s : Scheduler) (pod : Pod) (names : list string) (nodes' : gmap string NodeUsage)
    : Scheduler :=
  let s1 := (getNodesUsage (delPod s pod) names).1.1 in with_overview s1 (nodes' ∪ s_overviewstatus s1).

Inductive filter_outcome {W} `{!KubeClient W} (cfg : Config) (s : Scheduler) (pod : Pod) (names : list string) (w : W)
    : Scheduler * option ExtenderFilterResult * option error -> W -> Prop :=
| filter_nothing :
    total_nums (Resourcereqs cfg pod) = 0 ->
    filter_outcome cfg s pod names w (s, Some (mkFilterResult (Some names) ∅ ""), None) w
| filter_no_node nodes' :
    total_nums (Resourcereqs cfg pod) <> 0 ->
    calcScore cfg (getNodesUsage (delPod s pod) names).1.2 (Resourcereqs cfg pod) (pod_Annotations pod)
      = Ret (nodes', []) ->
    filter_outcome cfg s pod names w
      (filter_state s pod names nodes', Some (mkFilterResult None (getNodesUsage (delPod s pod) names).2 ""), None) w
| filter_chosen nodes' scores m t w1 err w2 :
    total_nums (Resourcereqs cfg pod) <> 0 ->
    calcScore cfg (getNodesUsage (delPod s pod) names).1.2 (Resourcereqs cfg pod) (pod_Annotations pod)
      = Ret (nodes', scores) ->
    last (sort_by NodeScore_Less scores) = Some m ->
    api_Now w = (t, w1) ->
    api_PatchPod (pod_Namespace pod) (pod_Name pod) (filter_annotations t m) w1 = (err, w2) ->
    filter_outcome cfg s pod names w
      (match err with
       | Some e => (delPod (addPod (filter_state s pod names nodes') pod (ns_nodeID m) (ns_devices m)) pod,
                    None, Some e)
       | None => (addPod (filter_state s pod names nodes') pod (ns_nodeID m) (ns_devices m),
                  Some (mkFilterResult (Some [ns_nodeID m]) ∅ ""), None)
       end) w2.

Lemma Filter_outcome {W} `{!KubeClient W} cfg s pod names (w : W) r w' :
  Filter cfg s pod names w = Ret (r, w') -> filter_outcome cfg s pod names w r w'.
Proof.
  unfold Filter. destruct (Z.eqb_spec (total_nums (Resourcereqs cfg pod)) 0) as [Hz|Hz].
  { intros [= <- <-]. by constructor. }
  destruct (getNodesUsage (delPod s pod) names) as [[s1 usage] failed] eqn:Eg.
  unfold PatchPodAnnotations, lift, call, mbind, K_bind, outcome_bind.
  destruct (calcScore cfg usage (Resourcereqs cfg pod) (pod_Annotations pod)) as [[nodes' scores]|p] eqn:Ec;
    [|done].
  assert (calcScore cfg (getNodesUsage (delPod s pod) names).1.2 (Resourcereqs cfg pod) (pod_Annotations pod)
    = Ret (nodes', scores)) as Ec' by (by rewrite Eg).
  cbv beta iota. case_decide as Hnil.
  { subst scores. intros [= <- <-].
    pose proof (filter_no_node cfg s pod names w nodes' Hz Ec') as Ho.
    unfold filter_state in Ho. by rewrite Eg in Ho. }
  destruct (slice_get _ _) as [m|p] eqn:Em; [|done]. apply slice_get_last in Em.
  destruct (api_Now w) as [t w1] eqn:En. cbv beta iota.
  destruct (api_PatchPod _ _ _ w1) as [err w2] eqn:Ep. intros E.
  pose proof (filter_chosen cfg s pod names w nodes' scores m t w1 err w2 Hz Ec' Em En Ep) as Ho.
  unfold filter_state in Ho. rewrite Eg in Ho. destruct err; injection E as <- <-; exact Ho.
Qed.

Lemma filter_state_ok s pod names nodes' : state_ok s -> state_ok (filter_state s pod names nodes').
Proof.
  intros Hs%(delPod_ok _ pod). unfold filter_state. rewrite getNodesUsage_state by apply Hs.
  by apply with_overview_ok, with_status_ok.
Qed.

Lemma filter_state_pods s pod names nodes' :
  state_ok s -> s_pods (filter_state s pod names nodes') = delete (pod_UID pod) (s_pods s)
  /\ ListNodes (filter_state s pod names nodes') = ListNodes s.
Proof.
  intros Hs%(delPod_ok _ pod). unfold filter_state. by rewrite getNodesUsage_state by apply Hs.
Qed.

Lemma last_elem_of {A} (l : list A) a : last l = Some a -> a ∈ l.
Proof. intros Hl. apply last_Some in Hl as [l' ->]. apply elem_of_app. right. left. Qed.

Lemma filter_keeps {W} `{!KubeClient W} cfg s pod names (w : W) r w' :
  state_ok s -> Forall (requests_ok cfg) (Resourcereqs cfg pod) -> single_kind (Resourcereqs cfg pod) ->
  filter_outcome cfg s pod names w r w' -> state_ok r.1.1.
Proof.
  intros Hs Hn Hsk [Hz|nodes' Hz Ec|nodes' scores m t w1 err w2 Hz Ec Em En Ep]; cbn [fst]; [done|by apply filter_state_ok|].
  assert (state_ok (addPod (filter_state s pod names nodes') pod (ns_nodeID m) (ns_devices m))) as Hadd.
  { assert (m ∈ scores) as Hm by (apply last_elem_of in Em; by rewrite sort_perm in Em).
    destruct (chosen_fits cfg (delPod s pod) names _ _ nodes' scores m (delPod_ok _ _ Hs) Hn Hsk Ec Hm)
      as (_ & _ & Hnn & Hfit).
    apply addPod_ok; [by apply filter_state_ok|done|].
    destruct (filter_state_pods s pod names nodes' Hs) as [-> ->]. exact Hfit. }
  destruct err; cbn [fst]; [by apply delPod_ok|done].
Qed.
End filter.

(** ** The chosen node *)
Section chosen.
Context `{GoRuntime}.

(** The last element of a sorted list is not less than any other. *)
Lemma sorted_last_max {A} (P : A -> Prop) (less : A -> A -> bool) l m x :
  strict_weak_on P less -> Forall P l -> last (sort_by less l) = Some m -> x ∈ l -> less m x = false.
Proof.
  intros Hsw HP Hm Hx. pose proof (sort_sorted P less l Hsw HP) as Hs.
  rewrite <- (sort_perm less l) in Hx. apply last_Some in Hm as [l' E]. rewrite E in *.
  apply elem_of_app in Hx as [Hx|Hx].
  - clear E. induction l' as [|y l' IH]; [by apply not_elem_of_nil in Hx|].
    cbn in Hs. apply StronglySorted_inv in Hs as [Hs Hy]. apply elem_of_cons in Hx as [->|Hx]; [|by apply IH].
    rewrite Forall_forall in Hy. apply Hy, elem_of_app. right. left.
  - apply list_elem_of_singleton in Hx as ->.
    assert (P m) as Pm.
    { rewrite Forall_forall in HP. apply HP. rewrite <- (sort_perm less l), E, elem_of_app. right. left. }
    destruct (less m m) eqn:El; [|done]. by rewrite (sw_asym _ _ Hsw m m Pm Pm El) in El.
Qed.

Lemma NodeScore_Less_sw :
  strict_weak_on (fun s => f32_is_nan (ns_score s) = false) NodeScore_Less.
Proof.
  destruct f32_strict_weak as [Ha Ht]. split; unfold NodeScore_Less; intros *; [apply Ha|apply Ht].
Qed.

(** [EncodePodDevices] writes under the names of its table, and under the
    empty name for the types that are not in it. *)
Lemma EncodePodDevices_keys checklist pd a :
  (forall t, is_Some (pd !! t) -> str_lookup checklist t <> a) -> EncodePodDevices checklist pd !! a = None.
Proof.
  intros Ha. unfold EncodePodDevices. set (l := range _ pd).
  assert (forall t psd, (t, psd) ∈ l -> str_lookup checklist t <> a) as Hl.
  { intros t psd Hin%elem_of_range. apply Ha. by eexists. }
  clearbody l. rewrite <- (lookup_empty (M := gmap string) (A := string) a). generalize (∅ : gmap string string).
  induction l as [|[t psd] l IH]; intros m; cbn [foldl]; [done|]. rewrite IH.
  - apply lookup_insert_ne. apply (Hl t psd). left.
  - intros t' psd' Hin. apply (Hl t' psd'). by right.
Qed.

Lemma str_lookup_single k v t : str_lookup {[k := v]} t = (if decide (k = t) then v else "")%string.
Proof.
  unfold str_lookup. case_decide as E; [subst t; by rewrite lookup_singleton_eq|by rewrite lookup_singleton_ne].
Qed.

Lemma filter_annotations_node t m :
  filter_annotations t m !! AssignedNodeAnnotations = Some (ns_nodeID m).
Proof.
  unfold filter_annotations. rewrite !lookup_union_r; [done|..];
    apply EncodePodDevices_keys; intros ty _; unfold InRequestDevices, SupportDevices;
    rewrite str_lookup_single; by case_decide.
Qed.

Lemma filter_state_added s pod names nodes' m :
  state_ok s ->
  s_pods (addPod (filter_state s pod names nodes') pod (ns_nodeID m) (ns_devices m))
  = <[pod_UID pod := mkPodInfo (pod_Namespace pod) (pod_Name pod) (pod_UID pod) (ns_nodeID m) (ns_devices m)]>
      (s_pods s).
Proof.
  intros Hs. destruct (filter_state_pods s pod names nodes' Hs) as [E _]. unfold addPod.
  rewrite E, lookup_delete_eq. cbn [s_pods with_pod_table]. by rewrite insert_delete_eq.
Qed.
End chosen.

(** ** Reading a record back from the annotations *)
Section recover.
Context `{GoRuntime}.

Lemma tracked_drop_idx f g v : tracked f g -> f (drop_idx v) = f v.
Proof. by intros []. Qed.

Lemma amount_drop_idx f g id l : tracked f g -> amount f id (drop_idx <$> l) = amount f id l.
Proof.
  intros Ht. induction l as [|v l IH]; [done|].
  rewrite fmap_cons, !amount_cons, IH, (tracked_drop_idx f g) by done. done.
Qed.

Lemma pod_amount_merged f g id pd : tracked f g -> pod_amount f id (merged <$> pd) = pod_amount f id pd.
Proof.
  intros Ht. unfold pod_amount. rewrite map_to_list_fmap, <- list_fmap_compose. f_equal.
  apply list_fmap_ext. intros _ [t psd] _. cbn [compose prod_map fst snd]. unfold merged. cbn [concat].
  rewrite !app_nil_r. by apply (amount_drop_idx f g).
Qed.

(** The record of an NVIDIA pod survives its annotations. *)
Lemma decode_filter_annotations t m annos :
  dom (ns_devices m) = {["NVIDIA"%string]} ->
  map_Forall (fun _ ps => Forall (Forall wire_device) ps) (ns_devices m) ->
  filter_annotations t m ⊆ annos ->
  (DecodePodDevices SupportDevices annos).1 = merged <$> ns_devices m.
Proof.
  intros Hdom Hw Hsub.
  assert (exists ps, ns_devices m !! "NVIDIA"%string = Some ps) as [ps Hps]
    by (apply elem_of_dom; rewrite Hdom; set_solver).
  assert (annos !! "hami.sh/vgpu-devices-allocated"%string = Some (EncodePodSingleDevice ps)) as Ha.
  { eapply lookup_weaken; [|exact Hsub]. unfold filter_annotations. apply lookup_union_Some_l.
    rewrite (EncodePodDevices_lookup _ _ "NVIDIA"%string); [by rewrite Hps| |done|].
    - apply covers_of_inj; unfold SupportDevices.
      + by intros ? ? ? [<- _]%lookup_singleton_Some [<- _]%lookup_singleton_Some.
      + by rewrite Hdom, dom_singleton_L.
    - unfold SupportDevices. by intros t' _ [<- _]%lookup_singleton_Some. }
  rewrite (DecodePodDevices_spec SupportDevices annos (merged <$> ns_devices m)); [done|..].
  - intros ty a s Hty Hs. unfold SupportDevices in Hty. apply lookup_singleton_Some in Hty as [<- <-].
    rewrite Ha in Hs. injection Hs as <-. rewrite decode_encode_pod_single; [by eexists|by apply (Hw "NVIDIA"%string)].
  - intros ty. rewrite lookup_fmap. destruct (decide ("NVIDIA"%string = ty)) as [<-|Hne].
    + rewrite Hps. unfold SupportDevices. rewrite lookup_singleton_eq. cbn [mbind option_bind]. rewrite Ha.
      cbn [mbind option_bind fmap option_fmap option_map].
      rewrite decode_encode_pod_single; [done|by apply (Hw "NVIDIA"%string)].
    + unfold SupportDevices. rewrite lookup_singleton_ne by done. cbn [mbind option_bind].
      assert (ns_devices m !! ty = None) as ->; [|done]. apply not_elem_of_dom. rewrite Hdom. set_solver.
Qed.

Lemma onAddPod_records s pod t m :
  dom (ns_devices m) = {["NVIDIA"%string]} ->
  map_Forall (fun _ ps => Forall (Forall wire_device) ps) (ns_devices m) ->
  filter_annotations t m ⊆ pod_Annotations pod -> IsPodInTerminatedState pod = false ->
  s_pods s !! pod_UID pod = None ->
  s_pods (onAddPod s pod) !! pod_UID pod
  = Some (mkPodInfo (pod_Namespace pod) (pod_Name pod) (pod_UID pod) (ns_nodeID m) (merged <$> ns_devices m)).
Proof.
  intros Hdom Hw Hsub Ht Hs. unfold onAddPod.
  rewrite (lookup_weaken _ _ _ _ (filter_annotations_node t m) Hsub), Ht.
  rewrite (decode_filter_annotations t m) by done. unfold addPod. rewrite Hs.
  apply lookup_insert_eq.
Qed.
End recover.

(** ** Types without an annotation name *)
Section unnamed.
Context `{GoRuntime}.

Lemma encode_loop_written checklist (l : list (string * PodSingleDevice)) (m : gmap string string) t :
  t ∈ l.*1 \/ is_Some (m !! str_lookup checklist t) ->
  is_Some (foldl (fun res '(devType, cd) => <[str_lookup checklist devType := EncodePodSingleDevice cd]> res)
    m l !! str_lookup checklist t).
Proof.
  revert m. induction l as [|[t' psd] l IH]; intros m Ht; cbn [foldl].
  { destruct Ht as [Ht|?]; [by apply not_elem_of_nil in Ht|done]. }
  apply IH. rewrite fmap_cons, elem_of_cons in Ht.
  destruct (decide (str_lookup checklist t' = str_lookup checklist t)) as [->|Hne].
  - right. rewrite lookup_insert_eq. by eexists.
  - rewrite lookup_insert_ne by done. destruct Ht as [[->|?]|?]; [done|by left|by right].
Qed.

Lemma EncodePodDevices_written checklist pd t :
  is_Some (pd !! t) -> is_Some (EncodePodDevices checklist pd !! str_lookup checklist t).
Proof.
  intros [psd Ht]. apply encode_loop_written. left. apply list_elem_of_fmap. exists (t, psd).
  split; [done|]. by apply elem_of_range.
Qed.

Lemma decode_pod_loop_dom l annos pd0 t :
  t ∉ l.*1 -> pd0 !! t = None -> (decode_pod_loop l annos pd0).1 !! t = None.
Proof.
  revert pd0. induction l as [|[t' a] l IH]; intros pd0 Ht Hp; cbn [decode_pod_loop]; [done|].
  rewrite fmap_cons, not_elem_of_cons in Ht. destruct Ht as [Hne Ht].
  destruct (annos !! a); [|by apply IH]. destruct (decode_pieces _ _); [|done].
  apply IH; [done|]. by rewrite lookup_insert_ne.
Qed.

Lemma DecodePodDevices_dom checklist annos t :
  checklist !! t = None -> (DecodePodDevices checklist annos).1 !! t = None.
Proof.
  intros Ht. unfold DecodePodDevices. case_decide; [done|]. apply decode_pod_loop_dom; [|done].
  intros ([t' a] & -> & Hin)%list_elem_of_fmap. apply elem_of_range in Hin. cbn in *. congruence.
Qed.
End unnamed.
