(* ===== verification/FilterProps.v ===== *)
(** * Properties of the scheduler extender *)

From Stdlib Require Import ZArith Lia Ascii String Sorted.
From stdpp Require Import base decidable option gmap strings numbers sorting list.
From S2P Require Import Prelude GoStrings GoTime GoRuntime Types Kube NodeLock Codec Devices Score FitFacts BookFacts ScoreFacts CalcFacts Scheduler UsageFacts FilterFacts.

#[local] Open Scope Z_scope.

(** ** Reachable states *)

(** A pod the scheduler is asked to place: requests as the vendors generate
    them from sensible amounts, one kind of device per container. *)
Definition placeable `{GoRuntime} (cfg : Config) (pod : Pod) : Prop :=
  Forall (requests_ok cfg) (Resourcereqs cfg pod) /\ single_kind (Resourcereqs cfg pod).

(** The steps of a running scheduler, against any cluster: a filter call, and
    the informer's events for pods it has placed or that carry no
    assignment. *)
Inductive sched_step `{GoRuntime} {W} `{!KubeClient W} (cfg : Config) : Scheduler -> Scheduler -> Prop :=
| step_filter s pod names (w w' : W) s' res err :
    placeable cfg pod ->
    Filter cfg s pod names w = Ret ((s', res, err), w') -> sched_step cfg s s'
| step_delete s pod : sched_step cfg s (onDelPod s pod)
| step_update s pod :
    is_Some (s_pods s !! pod_UID pod) \/ IsPodInTerminatedState pod = true
      \/ pod_Annotations pod !! AssignedNodeAnnotations = None ->
    sched_step cfg s (onAddPod s pod).

Inductive sched_steps `{GoRuntime} {W} `{!KubeClient W} (cfg : Config) : Scheduler -> Scheduler -> Prop :=
| steps_refl s : sched_steps cfg s s
| steps_trans s1 s2 s3 : sched_step (W := W) cfg s1 s2 -> sched_steps cfg s2 s3 -> sched_steps cfg s1 s3.

Lemma onDelPod_ok s pod : state_ok s -> state_ok (onDelPod s pod).
Proof. intros Hs. unfold onDelPod. destruct (_ !! _); [by apply delPod_ok|done]. Qed.

Lemma addPod_recorded s pod nodeID devices : is_Some (s_pods s !! pod_UID pod) -> addPod s pod nodeID devices = s.
Proof. intros [p Hp]. unfold addPod. by rewrite Hp. Qed.

Lemma onAddPod_known_ok `{GoRuntime} s pod :
  is_Some (s_pods s !! pod_UID pod) \/ IsPodInTerminatedState pod = true
    \/ pod_Annotations pod !! AssignedNodeAnnotations = None ->
  state_ok s -> state_ok (onAddPod s pod).
Proof.
  intros Hp Hs. unfold onAddPod. destruct (pod_Annotations pod !! _) as [nodeID|] eqn:E; [|done].
  destruct (IsPodInTerminatedState pod) eqn:Et; [by apply delPod_ok|].
  destruct Hp as [Hp|[?|?]]; [|done..]. by rewrite addPod_recorded.
Qed.

(** ** A cluster with two nodes *)
Definition reg_gpu (id : string) (numa : Z) : DeviceInfo := mkDeviceInfo id 0 4 16000 100 "NVIDIA-Tesla V100" numa true.
Definition two_nodes : Scheduler :=
  mkScheduler [mkNodeInfo "n1" [reg_gpu "g0" 0; reg_gpu "g1" 1]; mkNodeInfo "n2" [reg_gpu "h0" 0]]
    {["n1" := 0%nat; "n2" := 1%nat]} ∅ ∅ [].

Lemma reg_gpu_ok id numa : device_ok (reg_gpu id numa).
Proof. split; cbn; unfold max_i32; lia. Qed.

Lemma two_nodes_cases name n :
  ListNodes two_nodes !! name = Some n ->
  name = "n1" /\ n = mkNodeInfo "n1" [reg_gpu "g0" 0; reg_gpu "g1" 1]
  \/ name = "n2" /\ n = mkNodeInfo "n2" [reg_gpu "h0" 0].
Proof.
  unfold ListNodes. intros (l & <- & Hl)%lookup_fmap_Some. cbn [s_nodes two_nodes] in Hl.
  apply lookup_insert_Some in Hl as [[<- <-]|[_ Hl]]; [by left|].
  apply lookup_singleton_Some in Hl as [<- <-]. by right.
Qed.

Lemma two_nodes_ok : state_ok two_nodes.
Proof.
  split.
  - intros name l Hl. cbn [s_nodes two_nodes] in Hl.
    apply lookup_insert_Some in Hl as [[<- <-]|[_ Hl]]; [by eexists|].
    apply lookup_singleton_Some in Hl as [<- <-]. by eexists.
  - intros name n [[-> ->]|[-> ->]]%two_nodes_cases; cbn [ni_Devices].
    + split; [apply (bool_decide_unpack (NoDup _)); vm_compute; exact I|]. repeat (apply Forall_cons_2; [apply reg_gpu_ok|]). constructor.
    + split; [apply (bool_decide_unpack (NoDup _)); vm_compute; exact I|]. apply Forall_singleton, reg_gpu_ok.
  - apply map_Forall_empty.
  - intros name n d f c Hn Hd Hc. cbn [s_pods two_nodes]. unfold account. rewrite map_to_list_empty. cbn.
    assert (device_ok d) as [? ? ?].
    { apply two_nodes_cases in Hn as [[_ ->]|[_ ->]]; cbn [ni_Devices] in Hd;
        repeat (apply elem_of_cons in Hd as [->|Hd]; [apply reg_gpu_ok|]); by apply not_elem_of_nil in Hd. }
    destruct Hc; lia.
Qed.

Definition gpu_request (gpus mem : Z) : ResourceList :=
  {["nvidia.com/gpu" := mkQuantity (Some gpus) gpus; "nvidia.com/gpumem" := mkQuantity (Some mem) mem]}.
Definition one_gpu_pod : Pod :=
  mkPod "p" "default" "uid-p" ∅ [mkContainer "c" (gpu_request 1 3000) ∅ [] None None] "" "Pending".
Definition cluster : Server :=
  mkServer {["n1" := [Some ∅]; "n2" := [Some ∅]]} [one_gpu_pod] [] epoch [].

Lemma one_gpu_pod_requests :
  @Resourcereqs go_reference default_config one_gpu_pod = [{["NVIDIA" := mkRequest 1 "NVIDIA" 3000 101 0]}].
Proof. vm_compute. reflexivity. Qed.

Lemma one_gpu_pod_placeable : @placeable go_reference default_config one_gpu_pod.
Proof.
  unfold placeable. rewrite one_gpu_pod_requests. split; apply Forall_singleton.
  - apply map_Forall_singleton. split; [split; cbn; [by repeat constructor|unfold max_i32; lia..]|].
    split; [done|]. by eexists.
  - by rewrite map_size_singleton.
Qed.

(** The outcome of [Filter] on this cluster. *)
Lemma cluster_filter :
  let _ := go_reference in
  exists s' m w', Filter default_config two_nodes one_gpu_pod ["n1"; "n2"; "n3"] cluster
    = Ret ((s', Some (mkFilterResult (Some [m]) ∅ ""), None), w').
Proof. do 3 eexists. vm_compute. reflexivity. Qed.

Module FilterProps.

(** C14. The table [getNodesUsage] computes is the specification: the use of
    every registered device is the sum over the recorded pods of its node,
    for every order of the maps; the candidates it returns are the asked
    nodes that are registered, with their entry of that table, and the other
    ones are reported as failed. *)
Theorem getNodesUsage_refines `{GoRuntime} s names :
  nodes_ok s ->
  let '(s', usage, failed) := getNodesUsage s names in
  InspectAllNodesUsage s' = spec_usage s
  /\ (forall id u, usage !! id = Some u <-> id ∈ names /\ spec_usage s !! id = Some u)
  /\ (forall id, is_Some (failed !! id) <-> id ∈ names /\ ListNodes s !! id = None)
  /\ s_pods s' = s_pods s /\ ListNodes s' = ListNodes s.
Proof.
  intros Hs. pose proof (getNodesUsage_lookup s names) as Hu. pose proof (getNodesUsage_state s names Hs) as Hst.
  pose proof (cache_nodes_spec s names Hs) as [_ Hf]. unfold getNodesUsage in *.
  destruct (cache_nodes s names) as [cached failed]. cbn [fst snd] in *. rewrite Hst.
  split_and!; [done|by intros; apply Hu| |done..].
  intros id. rewrite Hf. unfold ListNodes. rewrite lookup_fmap, fmap_None.
  case_decide; split; (done || by intros [? ?]).
Qed.

Lemma getNodesUsage_refines_witness :
  let _ := go_reference in
  let '(s', usage, failed) := getNodesUsage two_nodes ["n1"; "n3"] in
  InspectAllNodesUsage s' = spec_usage two_nodes /\ is_Some (failed !! "n3").
Proof.
  pose proof (@getNodesUsage_refines go_reference two_nodes ["n1"; "n3"] (so_nodes _ two_nodes_ok)) as Hr.
  cbv zeta. destruct (@getNodesUsage go_reference two_nodes ["n1"; "n3"]) as [[s' usage] failed].
  destruct Hr as (H1 & _ & H3 & _). split; [exact H1|]. apply H3. split; [by right; left|reflexivity].
Defined.

(** [Filter] never over-commits: when every device of every registered
    node holds at most its count, memory and cores, summed over the recorded
    pods, this still holds after [Filter] has returned, with or without a
    node chosen, also when the patch of the pod fails. *)
Theorem Filter_keeps_capacity `{GoRuntime} {W} `{!KubeClient W} cfg s pod names (w : W) s' res err w' :
  state_ok s -> placeable cfg pod ->
  Filter cfg s pod names w = Ret ((s', res, err), w') -> state_ok s'.
Proof.
  intros Hs [Hn Hsk] E. apply Filter_outcome in E. apply (filter_keeps _ _ _ _ _ _ _ Hs Hn Hsk E).
Qed.

Lemma Filter_keeps_capacity_witness :
  let _ := go_reference in
  exists s' res err w',
    Filter default_config two_nodes one_gpu_pod ["n1"; "n2"; "n3"] cluster = Ret ((s', res, err), w')
    /\ state_ok s'.
Proof.
  destruct cluster_filter as (s' & m & w' & E). do 4 eexists. split; [exact E|].
  eapply (@Filter_keeps_capacity go_reference); [exact two_nodes_ok|exact one_gpu_pod_placeable|exact E].
Defined.

(** Every state the scheduler reaches, through any interleaving of filter
    calls, deletions and updates of placed pods, holds no device over its
    capacity. *)
Theorem reachable_capacity `{GoRuntime} {W} `{!KubeClient W} cfg s s' :
  state_ok s -> sched_steps (W := W) cfg s s' -> state_ok s'.
Proof.
  intros Hs Hst. induction Hst as [|s1 s2 s3 Hstep _ IH]; [done|]. apply IH.
  destruct Hstep as [s pod names w w' s' res err [Hn Hsk] E|s pod|s pod Hp].
  - apply Filter_outcome in E. apply (filter_keeps _ _ _ _ _ _ _ Hs Hn Hsk E).
  - by apply onDelPod_ok.
  - by apply onAddPod_known_ok.
Qed.

Lemma reachable_capacity_witness :
  let _ := go_reference in
  exists s', sched_steps (W := Server) default_config two_nodes s' /\ state_ok s'.
Proof.
  destruct cluster_filter as (s' & m & w' & E). exists (onDelPod s' one_gpu_pod).
  assert (@sched_steps go_reference Server _ default_config two_nodes (onDelPod s' one_gpu_pod)) as Hst.
  { eapply steps_trans; [eapply step_filter; [exact one_gpu_pod_placeable|exact E]|].
    eapply steps_trans; [apply step_delete|apply steps_refl]. }
  split; [exact Hst|]. eapply (@reachable_capacity go_reference Server); [exact two_nodes_ok|exact Hst].
Defined.

(** C15. What [Filter] chooses: when it answers with nodes for a pod that asks
    for devices, it answers with one node, which was asked for and is
    registered; the pod is recorded there with the devices of that node's
    score, every other record is untouched, the pod's annotations in the
    cluster name the node, and the score is one of those of [calcScore],
    none of which is greater (as long as none is NaN).  The accounts of the
    registered devices are within their limits before, and each container of
    the pod asks for at most one kind of device, with nonnegative amounts and
    a percentage of at most 101. *)
Theorem Filter_choice `{GoRuntime} {W} `{!KubeClient W, !KubeServer W} cfg s pod names (w : W) s' l failed e w' :
  state_ok s -> placeable cfg pod -> total_nums (Resourcereqs cfg pod) <> 0 ->
  Filter cfg s pod names w = Ret ((s', Some (mkFilterResult (Some l) failed e), None), w') ->
  exists m nodes' scores,
    l = [ns_nodeID m] /\ ns_nodeID m ∈ names /\ is_Some (ListNodes s !! ns_nodeID m)
    /\ s_pods s' = <[pod_UID pod := mkPodInfo (pod_Namespace pod) (pod_Name pod) (pod_UID pod)
                       (ns_nodeID m) (ns_devices m)]> (s_pods s)
    /\ (exists p, pod_view w' (pod_Namespace pod) (pod_Name pod) = Some p
          /\ pod_Annotations p !! AssignedNodeAnnotations = Some (ns_nodeID m))
    /\ calcScore cfg (getNodesUsage (delPod s pod) names).1.2 (Resourcereqs cfg pod) (pod_Annotations pod)
       = Ret (nodes', scores)
    /\ m ∈ scores
    /\ (Forall (fun x => f32_is_nan (ns_score x) = false) scores ->
        forall x, x ∈ scores -> NodeScore_Less m x = false).
Proof.
  intros Hs [Hn Hsk] Hz E. apply Filter_outcome in E.
  remember (s', Some (mkFilterResult (Some l) failed e), None) as r eqn:Er.
  destruct E as [Hz'|nodes' _ Ec|nodes' scores m t w1 err w2 _ Ec Em En Ep]; [done|done|].
  destruct err as [er|]; [done|]. injection Er as <- <- <- <-.
  assert (m ∈ scores) as Hm by (apply last_elem_of in Em; by rewrite sort_perm in Em).
  destruct (chosen_fits cfg (delPod s pod) names _ _ nodes' scores m (delPod_ok _ _ Hs) Hn Hsk Ec Hm)
    as (Hin & Hreg & _). exists m, nodes', scores. split_and!; [done|done|exact Hreg| |..].
  - by apply filter_state_added.
  - apply patch_pod_applied in Ep as (p & Hp & Hsub). exists p. split; [done|].
    eapply lookup_weaken; [apply filter_annotations_node|exact Hsub].
  - done.
  - done.
  - intros Hnan x Hx. by eapply sorted_last_max; [apply NodeScore_Less_sw|..].
Qed.

Lemma Filter_choice_witness :
  let _ := go_reference in
  exists s' m w', Filter default_config two_nodes one_gpu_pod ["n1"; "n2"; "n3"] cluster
    = Ret ((s', Some (mkFilterResult (Some [m]) ∅ ""), None), w') /\ m ∈ ["n1"; "n2"; "n3"].
Proof.
  destruct cluster_filter as (s' & m & w' & E). exists s', m, w'. split; [exact E|].
  destruct (@Filter_choice go_reference Server server server_laws default_config two_nodes one_gpu_pod
    ["n1"; "n2"; "n3"] cluster s' [m] ∅ "" w' two_nodes_ok one_gpu_pod_placeable
    ltac:(rewrite one_gpu_pod_requests; vm_compute; discriminate) E) as (x & _ & _ & Ex & Hin & _).
  injection Ex as ->. exact Hin.
Defined.

(** When the patch of the pod is refused, [Filter] reports the error and
    forgets the pod: no record of it is left, and every other record is
    untouched. *)
Theorem Filter_patch_failure `{GoRuntime} {W} `{!KubeClient W} cfg s pod names (w : W) s' res e w' :
  state_ok s -> Filter cfg s pod names w = Ret ((s', res, Some e), w') ->
  res = None /\ s_pods s' = delete (pod_UID pod) (s_pods s) /\ ListNodes s' = ListNodes s.
Proof.
  intros Hs E. apply Filter_outcome in E. remember (s', res, Some e) as r eqn:Er.
  destruct E as [Hz'|nodes' _ Ec|nodes' scores m t w1 err w2 _ Ec Em En Ep]; [done|done|].
  destruct err as [er|]; [|done]. injection Er as <- <- ->.
  destruct (filter_state_pods s pod names nodes' Hs) as [E1 E2]. split_and!; [done| |].
  - cbn [delPod with_pod_table s_pods]. rewrite filter_state_added by done. by rewrite delete_insert_eq.
  - unfold addPod. rewrite E1, lookup_delete_eq. exact E2.
Qed.

Lemma Filter_patch_failure_witness :
  let _ := go_reference in
  exists s' res w', Filter default_config two_nodes one_gpu_pod ["n1"]
      (mkServer ∅ [] [] epoch [Fail_ "forbidden"]) = Ret ((s', res, Some "forbidden"), w')
    /\ s_pods s' = ∅.
Proof.
  intros rt. assert (exists s' res w', Filter default_config two_nodes one_gpu_pod ["n1"]
      (mkServer ∅ [] [] epoch [Fail_ "forbidden"]) = Ret ((s', res, Some "forbidden"), w'))
    as (s' & res & w' & E) by (do 3 eexists; vm_compute; reflexivity).
  exists s', res, w'. split; [exact E|].
  destruct (@Filter_patch_failure go_reference Server server default_config two_nodes one_gpu_pod ["n1"]
    _ s' res _ w' two_nodes_ok E) as (_ & Hp & _). rewrite Hp. reflexivity.
Defined.

(** C16. A restarted scheduler finds its accounts again: a pod that carries the
    annotations [Filter] wrote for an NVIDIA score is recorded, by the first
    event the informer delivers for it, on the same node and with the same
    amounts on every device. *)
Theorem restart_recovers_accounts `{GoRuntime} s pod t m :
  dom (ns_devices m) = {["NVIDIA"]} ->
  map_Forall (fun _ ps => Forall (Forall wire_device) ps) (ns_devices m) ->
  filter_annotations t m ⊆ pod_Annotations pod -> IsPodInTerminatedState pod = false ->
  s_pods s !! pod_UID pod = None ->
  exists p, s_pods (onAddPod s pod) !! pod_UID pod = Some p /\ pi_NodeID p = ns_nodeID m
    /\ forall f g id, tracked f g -> pod_amount f id (pi_Devices p) = pod_amount f id (ns_devices m).
Proof.
  intros Hdom Hw Hsub Ht Hs. eexists. split; [by apply (onAddPod_records s pod t m)|].
  split; [done|]. intros f g id Htr. by apply (pod_amount_merged f g).
Qed.

Definition placed_score : NodeScore :=
  mkNodeScore "n1" {["NVIDIA" := [[mkContainerDevice 0 "g0" "NVIDIA" 3000 0]]]} f32_zero.
Definition placed_pod : Pod :=
  with_annotations one_gpu_pod (@filter_annotations go_reference epoch placed_score).

Lemma restart_recovers_accounts_witness :
  let _ := go_reference in
  exists p, s_pods (onAddPod NewScheduler placed_pod) !! "uid-p" = Some p
    /\ pod_amount cd_Usedmem "g0" (pi_Devices p) = pod_amount cd_Usedmem "g0" (ns_devices placed_score).
Proof.
  destruct (@restart_recovers_accounts go_reference NewScheduler placed_pod epoch placed_score)
    as (p & Hp & _ & Ham).
  - reflexivity.
  - apply map_Forall_singleton. repeat constructor; vm_compute; intuition congruence.
  - reflexivity.
  - reflexivity.
  - reflexivity.
  - exists p. split; [exact Hp|]. eapply Ham. apply tracked_mem.
Defined.


(** The other vendors have no entry in the tables of annotation names: for
    a score that records any other type, [Filter] writes the devices under
    the empty annotation name, and whatever the pod's annotations are, the
    scheduler reads no device of that type back from them. *)
Theorem other_types_not_recovered `{GoRuntime} t m ty :
  is_Some (ns_devices m !! ty) -> ty <> "NVIDIA" ->
  is_Some (filter_annotations t m !! "")
  /\ forall annos, (DecodePodDevices SupportDevices annos).1 !! ty = None.
Proof.
  intros Hty Hne. split.
  - pose proof (EncodePodDevices_written SupportDevices _ _ Hty) as [s Hs].
    assert (str_lookup SupportDevices ty = "") as Ek
      by (unfold SupportDevices; rewrite str_lookup_single, decide_False; done).
    rewrite Ek in Hs.
    exists s. by apply lookup_union_Some_l.
  - intros annos. apply DecodePodDevices_dom. unfold SupportDevices. by rewrite lookup_singleton_ne.
Qed.

Lemma other_types_not_recovered_witness :
  let _ := go_reference in
  is_Some (filter_annotations epoch (mkNodeScore "n1" {["DCU" := [[mkContainerDevice 0 "d0" "DCU" 3000 0]]]} f32_zero) !! "").
Proof.
  eapply (@other_types_not_recovered go_reference epoch _ "DCU"); [by eexists|done].
Defined.

(** The usage [calcScore] books on its candidates is left in the overview
    the metrics read: after [Filter] has chosen a node, each other accepted
    candidate still shows the pod's devices as used, on top of its account. *)
Theorem Filter_overview_phantom `{GoRuntime} {W} `{!KubeClient W} cfg s pod names (w : W) s' name failed e w'
    nodes' scores x n d f g :
  state_ok s -> placeable cfg pod -> total_nums (Resourcereqs cfg pod) <> 0 ->
  Filter cfg s pod names w = Ret ((s', Some (mkFilterResult (Some [name]) failed e), None), w') ->
  calcScore cfg (getNodesUsage (delPod s pod) names).1.2 (Resourcereqs cfg pod) (pod_Annotations pod)
    = Ret (nodes', scores) ->
  x ∈ scores -> ns_nodeID x <> name ->
  ListNodes s !! ns_nodeID x = Some n -> d ∈ ni_Devices n -> tracked f g ->
  exists u, InspectAllNodesUsage s' !! ns_nodeID x = Some u
    /\ usage_sum g (di_ID d) (nu_Devices u)
       = account f (ns_nodeID x) (di_ID d) (s_pods s') + pod_amount f (di_ID d) (ns_devices x).
Proof.
  intros Hs [Hn Hsk] Hz E Ec Hx Hne Hl Hd Ht. apply Filter_outcome in E.
  remember (s', Some (mkFilterResult (Some [name]) failed e), None) as r eqn:Er.
  destruct E as [Hz'|nodes1 _ Ec1|nodes1 scores1 m t w1 err w2 _ Ec1 Em En Ep]; [done|done|].
  rewrite Ec1 in Ec. injection Ec as -> ->. destruct err as [er|]; [done|]. injection Er as <- <- <- <-.
  pose proof (delPod_ok _ pod Hs) as Hs1.
  destruct (calcScore_booked cfg _ _ _ _ _ Hn (getNodesUsage_ok _ names Hs1) Ec1) as (_ & _ & Hres).
  destruct (Hres x Hx) as (node & node' & Hi & Hi' & _ & _ & _ & Hb). destruct (Hb Hsk) as (vals & Hbk & Ham).
  apply getNodesUsage_lookup in Hi as [_ Hu]; [|apply Hs1].
  apply spec_usage_lookup in Hu as (n1 & Hl1 & ->). change (ListNodes (delPod s pod)) with (ListNodes s) in Hl1.
  rewrite Hl in Hl1. injection Hl1 as <-. exists node'. split.
  - unfold InspectAllNodesUsage, addPod. destruct (s_pods (filter_state _ _ _ _) !! _);
      unfold filter_state; cbn [s_overviewstatus with_pod_table with_overview]; by apply lookup_union_Some_l.
  - rewrite (bk_sum _ _ _ Hbk f g _ Ht), <- Ham. f_equal. cbn [nu_Devices].
    rewrite (usage_sum_account (delPod s pod) (ns_nodeID x) n d f g) by done. rewrite filter_state_added by done.
    rewrite <- insert_delete_eq, account_insert by apply lookup_delete_eq. cbn [pi_NodeID].
    by rewrite decide_False.
Qed.

Lemma Filter_overview_phantom_witness :
  let _ := go_reference in
  exists s' w' x u, Filter default_config two_nodes one_gpu_pod ["n1"; "n2"] cluster
      = Ret ((s', Some (mkFilterResult (Some ["n1"]) ∅ ""), None), w')
    /\ ns_nodeID x = "n2" /\ InspectAllNodesUsage s' !! "n2" = Some u
    /\ usage_sum du_Used "h0" (nu_Devices u)
       = account one "n2" "h0" (s_pods s') + pod_amount one "h0" (ns_devices x).
Proof.
  intros rt. assert (exists s' w', Filter default_config two_nodes one_gpu_pod ["n1"; "n2"] cluster
      = Ret ((s', Some (mkFilterResult (Some ["n1"]) ∅ ""), None), w')) as (s' & w' & E)
    by (do 2 eexists; vm_compute; reflexivity).
  assert (exists nodes' a x, calcScore default_config (getNodesUsage (delPod two_nodes one_gpu_pod) ["n1"; "n2"]).1.2
    (Resourcereqs default_config one_gpu_pod) (pod_Annotations one_gpu_pod) = Ret (nodes', [a; x])
    /\ ns_nodeID x = "n2") as (nodes' & a & x & Ec & Hid)
    by (do 3 eexists; split; vm_compute; reflexivity).
  destruct (@Filter_overview_phantom go_reference Server server default_config two_nodes one_gpu_pod ["n1"; "n2"]
    cluster s' "n1" ∅ "" w' nodes' [a; x] x (mkNodeInfo "n2" [reg_gpu "h0" 0]) (reg_gpu "h0" 0) one du_Used
    two_nodes_ok one_gpu_pod_placeable ltac:(rewrite one_gpu_pod_requests; vm_compute; discriminate) E Ec
    ltac:(right; left) ltac:(rewrite Hid; discriminate) ltac:(rewrite Hid; reflexivity) ltac:(left)
    tracked_count) as (u & Hu & Hs).
  rewrite Hid in Hu, Hs. exists s', w', x, u. split; [exact E|]. split; [exact Hid|]. split; [exact Hu|exact Hs].
Defined.

(** [Bind] ignores the lock: on a node another pod has locked a minute ago,
    it still marks the pod as allocating, binds it and reports success, and
    the lock of the other pod stays in place. *)
Theorem Bind_ignores_lock :
  let nodes := {["n1" := [Some (locked_node (epoch - Minute))]]} in
  let w := mkServer nodes [one_gpu_pod] [] epoch [] in
  let bound := with_annotations one_gpu_pod
    {[DeviceBindPhase := DeviceBindAllocating; BindTimeAnnotations := "1700000000"]} in
  LockNode 0 "n1" w = Ret (Some (recently_locked_error "n1"), w)
  /\ Bind 0 "p" "default" "uid-p" "n1" w = Ret ("", mkServer nodes [bound] [("p", "n1")] epoch []).
Proof. intros nodes w bound. split.
  - vm_cast_no_check (eq_refl (LockNode 0 "n1" w)).
  - vm_cast_no_check (eq_refl (Bind 0 "p" "default" "uid-p" "n1" w)).
 Qed.
End FilterProps.
