(* ===== verification/RegisterProps.v ===== *)
(** * Properties of node registration *)

From Stdlib Require Import ZArith Lia Ascii String Sorted.
From stdpp Require Import base decidable option gmap strings numbers sorting list.
From S2P Require Import Prelude GoStrings GoTime GoRuntime Types Kube NodeLock Codec Devices Score Scheduler UsageFacts Register.

#[local] Open Scope Z_scope.

(** ** Merging the devices of a node *)

(** The identifiers registered for a node. *)
Definition node_ids (s : Scheduler) (name : string) : list string :=
  match ListNodes s !! name with Some n => di_ID <$> ni_Devices n | None => [] end.

Lemma update_device_Some dev devices devices' :
  update_device dev devices = Some devices' ->
  di_ID <$> devices' = di_ID <$> devices /\ api.Id dev ∈ di_ID <$> devices.
Proof.
  revert devices'. induction devices as [|d ds IH]; intros devices'; cbn [update_device]; [done|].
  case_decide as E.
  - intros [= <-]. rewrite !fmap_cons. cbn. split; [done|]. rewrite E. left.
  - destruct (update_device dev ds) as [ds'|]; cbn; [|done]. intros [= <-].
    destruct (IH ds' eq_refl) as [E1 E2]. rewrite !fmap_cons, E1. split; [done|by right].
Qed.

Lemma update_device_None dev devices :
  update_device dev devices = None <-> api.Id dev ∉ di_ID <$> devices.
Proof.
  induction devices as [|d ds IH]; cbn [update_device]; [split; [intros _; apply not_elem_of_nil|done]|].
  rewrite fmap_cons, not_elem_of_cons. case_decide as E; [split; [done|intros [? _]; congruence]|].
  rewrite fmap_None, IH. naive_solver congruence.
Qed.

(** The table after one write through the pointer of a node. *)
Lemma set_Devices_nodes s name l devices :
  nodes_ok s -> s_nodes s !! name = Some l ->
  nodes_ok (set_Devices s l devices)
  /\ forall name', ListNodes (set_Devices s l devices) !! name'
       = if decide (name = name') then Some (mkNodeInfo name devices) else ListNodes s !! name'.
Proof.
  intros Hs Hl. destruct (deref_ok s name l Hs Hl) as [Hh Hid].
  pose proof (lookup_lt_Some _ _ _ Hh) as Hlt. split.
  - intros name' l' Hl'. cbn [s_nodes s_heap set_Devices with_node_table] in *.
    destruct (Hs _ _ Hl') as (n & Hn & Hid'). destruct (decide (l = l')) as [<-|Hne].
    + rewrite list_lookup_insert_eq by done. eexists. split; [done|]. cbn. congruence.
    + rewrite list_lookup_insert_ne by done. by exists n.
  - intros name'. unfold ListNodes. rewrite !lookup_fmap. cbn [s_nodes set_Devices with_node_table].
    destruct (decide (name = name')) as [<-|Hne].
    + rewrite Hl. cbn [fmap option_fmap option_map]. f_equal. unfold deref at 1.
      cbn [s_heap set_Devices with_node_table]. rewrite list_lookup_insert_eq by done. cbn. by rewrite Hid.
    + destruct (s_nodes s !! name') as [l'|] eqn:Hl'; cbn [fmap option_fmap option_map]; [|done]. f_equal.
      assert (l <> l') as Hll.
      { intros <-. destruct (deref_ok s name' l Hs Hl') as [_ ?]. congruence. }
      unfold deref. cbn [s_heap set_Devices with_node_table]. by rewrite list_lookup_insert_ne.
Qed.

(** What the loop over the reported devices keeps. *)
Record merged_into (s s' : Scheduler) (name : string) : Prop := {
  mi_ok : nodes_ok s';
  mi_ids : node_ids s' name = node_ids s name;
  mi_known : is_Some (s_nodes s' !! name) <-> is_Some (s_nodes s !! name);
  mi_others name' : name' <> name -> ListNodes s' !! name' = ListNodes s !! name';
  mi_pods : s_pods s' = s_pods s;
}.

Lemma merged_into_trans s1 s2 s3 name :
  merged_into s1 s2 name -> merged_into s2 s3 name -> merged_into s1 s3 name.
Proof.
  intros [? ? ? H1 ?] [? ? ? H2 ?]. split; [done|congruence|by etransitivity| |congruence].
  intros name' Hne. by rewrite H2, H1.
Qed.

Lemma merged_into_refl s name : nodes_ok s -> merged_into s s name.
Proof. by intros; split. Qed.

Lemma register_one_spec name s devices x :
  nodes_ok s ->
  let '(s', devices') := register_one name (s, devices) x in
  merged_into s s' name
  /\ di_ID <$> devices' = (di_ID <$> devices)
       ++ (if decide (api.Id x.2 ∈ node_ids s name) then [] else [api.Id x.2]).
Proof.
  intros Hs. destruct x as [index dev]. unfold register_one, node_ids, ListNodes. rewrite lookup_fmap.
  destruct (s_nodes s !! name) as [l|] eqn:Hl; cbn [fmap option_fmap option_map snd].
  2:{ split; [by apply merged_into_refl|]. by rewrite decide_False, fmap_app by apply not_elem_of_nil. }
  destruct (update_device dev (ni_Devices (deref s l))) as [ds|] eqn:Eu.
  - apply update_device_Some in Eu as [Eids Hin]. rewrite decide_True, app_nil_r by done.
    destruct (set_Devices_nodes s name l ds Hs Hl) as [Hok Hnodes]. split; [|done]. split; [done|..].
    + unfold node_ids. rewrite Hnodes, decide_True by done. unfold ListNodes. by rewrite lookup_fmap, Hl.
    + cbn. by rewrite Hl.
    + intros name' Hne. by rewrite Hnodes, decide_False.
    + done.
  - apply update_device_None in Eu. rewrite decide_False, fmap_app by done. split; [by apply merged_into_refl|done].
Qed.

Lemma register_loop_spec name l s devices :
  nodes_ok s ->
  let '(s', devices') := foldl (register_one name) (s, devices) l in
  merged_into s s' name
  /\ di_ID <$> devices' = (di_ID <$> devices)
       ++ filter (fun id => id ∉ node_ids s name) (api.Id <$> l.*2).
Proof.
  revert s devices. induction l as [|x l IH]; intros s devices Hs; cbn [foldl].
  { split; [by apply merged_into_refl|]. cbn. by rewrite app_nil_r. }
  pose proof (register_one_spec name s devices x Hs) as H1.
  destruct (register_one name (s, devices) x) as [s1 devices1]. destruct H1 as [M1 E1].
  specialize (IH s1 devices1 (mi_ok _ _ _ M1)).
  destruct (foldl (register_one name) (s1, devices1) l) as [s2 devices2]. destruct IH as [M2 E2].
  split; [by eapply merged_into_trans|]. rewrite E2, E1, (mi_ids _ _ _ M1), <- app_assoc, !fmap_cons, filter_cons.
  f_equal. do 2 case_decide; done || by exfalso.
Qed.

Lemma new_NodeInfo_nodes s n :
  nodes_ok s ->
  nodes_ok (new_NodeInfo s n).2 /\ ListNodes (new_NodeInfo s n).2 = ListNodes s
  /\ deref (new_NodeInfo s n).2 (new_NodeInfo s n).1 = n.
Proof.
  intros Hs. unfold new_NodeInfo. cbn [fst snd]. split_and!.
  - intros name l Hl. destruct (Hs name l Hl) as (m & Hm & Hid). exists m. split; [|done].
    cbn. by apply lookup_app_l_Some.
  - apply map_eq. intros name. unfold ListNodes. rewrite !lookup_fmap. cbn [s_nodes with_node_table].
    destruct (s_nodes s !! name) as [l|] eqn:Hl; cbn [fmap option_fmap option_map]; [|done]. f_equal.
    destruct (deref_ok s name l Hs Hl) as [Hd _]. unfold deref at 1. cbn [s_heap with_node_table].
    by rewrite (lookup_app_l_Some _ _ _ _ Hd).
  - unfold deref. cbn [s_heap with_node_table]. by rewrite lookup_app_r, Nat.sub_diag.
Qed.

Lemma addNode_spec s name l :
  nodes_ok s -> s_heap s !! l = Some (deref s l) -> ni_ID (deref s l) = name ->
  nodes_ok (addNode s name l)
  /\ node_ids (addNode s name l) name = node_ids s name ++ (di_ID <$> ni_Devices (deref s l))
  /\ (forall name', name' <> name -> ListNodes (addNode s name l) !! name' = ListNodes s !! name')
  /\ s_pods (addNode s name l) = s_pods s.
Proof.
  intros Hs Hh Hid. unfold addNode. case_decide as E.
  { rewrite E, fmap_nil, app_nil_r. done. }
  destruct (s_nodes s !! name) as [l0|] eqn:Hl.
  - destruct (set_Devices_nodes s name l0 (ni_Devices (deref s l0) ++ ni_Devices (deref s l)) Hs Hl) as [Hok Hn].
    split_and!; [done| |by intros name' Hne; rewrite Hn, decide_False|done].
    unfold node_ids. rewrite Hn, decide_True by done. unfold ListNodes at 1. rewrite lookup_fmap, Hl.
    cbn. by rewrite fmap_app.
  - split_and!; [| | |done].
    + apply map_Forall_insert_2; [|done]. by exists (deref s l).
    + unfold node_ids, ListNodes. rewrite !lookup_fmap. cbn [s_nodes with_node_table].
      by rewrite lookup_insert_eq, Hl.
    + intros name' Hne. unfold ListNodes. rewrite !lookup_fmap. cbn [s_nodes with_node_table].
      by rewrite lookup_insert_ne.
Qed.

Lemma imap_pair_dev {A} (l : list A) : (imap pair l).*2 = l.
Proof. apply list_eq. intros i. rewrite list_lookup_fmap, list_lookup_imap. by destruct (l !! i). Qed.

Lemma register_report_spec s name nodedevices :
  nodes_ok s ->
  let s' := (register_report s name nodedevices).1 in
  nodes_ok s'
  /\ node_ids s' name = node_ids s name ++ filter (fun id => id ∉ node_ids s name) (api.Id <$> nodedevices)
  /\ (forall name', name' <> name -> ListNodes s' !! name' = ListNodes s !! name')
  /\ s_pods s' = s_pods s.
Proof.
  intros Hs. unfold register_report, register_devices.
  pose proof (register_loop_spec name (imap pair nodedevices) s [] Hs) as Hr. rewrite imap_pair_dev in Hr.
  destruct (foldl (register_one name) (s, []) (imap pair nodedevices)) as [s1 devices]. destruct Hr as [[Hok Hids _ Hoth Hpods] Edev].
  destruct (new_NodeInfo_nodes s1 (mkNodeInfo name devices) Hok) as (Hok2 & Hl2 & Hd2).
  pose proof (lookup_app_r (s_heap s1) [mkNodeInfo name devices] (length (s_heap s1)) ltac:(lia)) as Hh.
  rewrite Nat.sub_diag in Hh.
  destruct (new_NodeInfo s1 (mkNodeInfo name devices)) as [l s2] eqn:En. cbn [fst snd] in *.
  injection En as <- <-.
  destruct (addNode_spec _ name (length (s_heap s1)) Hok2) as (Hok3 & Hids3 & Hoth3 & Hp3).
  { rewrite Hd2. exact Hh. } { by rewrite Hd2. }
  split_and!; [exact Hok3| | |].
  - rewrite Hids3, Hd2. cbn [ni_Devices]. rewrite Edev. unfold node_ids in *. rewrite Hl2, Hids. done.
  - intros name' Hne. by rewrite Hoth3, Hl2, Hoth.
  - by rewrite Hp3.
Qed.

(** ** Removing what was registered last *)
Lemma rm_loop_filter rm devices :
  rm_loop rm devices = filter (fun d => (di_ID d ∉ di_ID <$> rm) /\ di_ID d <> ""%string) devices.
Proof.
  unfold rm_loop. assert (forall l tmp, foldl (fun tmp val =>
      let found := existsb (fun rmval => bool_decide (di_ID val = di_ID rmval)) rm in
      if negb found && negb (bool_decide (di_ID val = ""%string)) then tmp ++ [val] else tmp) tmp l
    = tmp ++ filter (fun d => (di_ID d ∉ di_ID <$> rm) /\ di_ID d <> ""%string) l) as Hl; [|by rewrite Hl].
  induction l as [|d l IH]; intros tmp; cbn [foldl]; [by rewrite app_nil_r|]. rewrite IH, filter_cons. cbv zeta.
  assert (existsb (fun rmval => bool_decide (di_ID d = di_ID rmval)) rm = bool_decide (di_ID d ∈ di_ID <$> rm)) as ->.
  { apply Bool.eq_iff_eq_true. rewrite existsb_exists, bool_decide_eq_true, list_elem_of_fmap.
    split; intros (x & H1 & H2); exists x; rewrite <- ?list_elem_of_In, ?bool_decide_eq_true in *; naive_solver. }
  do 2 case_bool_decide; cbn [negb andb]; case_decide; try (exfalso; tauto); by rewrite <- ?app_assoc.
Qed.

(** The pointer [l] lets [rmNodeDevice] take the node back to [ids]. *)
Definition undoes (s : Scheduler) (name : string) (l : loc) (ids : list string) : Prop :=
  exists l0, s_nodes s !! name = Some l0 /\
    let devices := ni_Devices (deref s l0) in
    let rm := ni_Devices (deref s l) in
    (length rm <= length devices)%nat /\ di_ID <$> rm_loop rm devices = ids.

Lemma undoes_removes s name l ids :
  nodes_ok s -> undoes s name l ids ->
  exists s', rmNodeDevice s name l = Ret s' /\ nodes_ok s' /\ node_ids s' name = ids.
Proof.
  intros Hs (l0 & Hl & Hlen & <-). unfold rmNodeDevice. rewrite Hl. case_decide as E.
  - exists s. split_and!; [done|done|]. unfold node_ids, ListNodes. rewrite lookup_fmap, Hl. cbn. by rewrite E.
  - destruct (Nat.ltb_spec (length (ni_Devices (deref s l0))) (length (ni_Devices (deref s l)))) as [|_]; [lia|].
    destruct (set_Devices_nodes s name l0 (rm_loop (ni_Devices (deref s l)) (ni_Devices (deref s l0))) Hs Hl) as [Hok Hn].
    eexists. split_and!; [done|done|]. unfold node_ids. by rewrite Hn, decide_True.
Qed.

Lemma filter_none {A} (P : A -> Prop) `{!forall x, Decision (P x)} (l : list A) : Forall (fun x => ~ P x) l -> filter P l = [].
Proof. induction 1 as [|x l Hx _ IH]; [done|]. by rewrite filter_cons_False. Qed.

Lemma filter_all {A} (P : A -> Prop) `{!forall x, Decision (P x)} (l : list A) : Forall P l -> filter P l = l.
Proof. induction 1 as [|x l Hx _ IH]; [done|]. by rewrite filter_cons_True, IH. Qed.

Lemma node_ids_at s name l : s_nodes s !! name = Some l -> node_ids s name = di_ID <$> ni_Devices (deref s l).
Proof. intros Hl. unfold node_ids, ListNodes. by rewrite lookup_fmap, Hl. Qed.

(** A report can be undone: removing the new object takes the node back to
    what it was before the report. *)
Lemma report_undoes s name nodedevices :
  nodes_ok s -> nodedevices <> [] -> ""%string ∉ node_ids s name ->
  let '(s', l) := register_report s name nodedevices in undoes s' name l (node_ids s name).
Proof.
  intros Hs Hne Hid. unfold register_report, register_devices.
  pose proof (register_loop_spec name (imap pair nodedevices) s [] Hs) as Hr. rewrite imap_pair_dev in Hr.
  destruct (foldl (register_one name) (s, []) (imap pair nodedevices)) as [s1 devices].
  destruct Hr as [[Hok Hids Hknown _ _] Edev]. cbn [fmap list_fmap app] in Edev.
  set (l := length (s_heap s1)). set (s2 := with_node_table s1 (s_heap s1 ++ [mkNodeInfo name devices]) (s_nodes s1)).
  change (new_NodeInfo s1 (mkNodeInfo name devices)) with (l, s2).
  assert (deref s2 l = mkNodeInfo name devices) as Hd by (unfold deref; cbn; by rewrite lookup_app_r, Nat.sub_diag).
  assert (forall x, x ∈ devices -> di_ID x ∉ node_ids s name) as Hnew.
  { intros x Hx. apply (list_elem_of_fmap_2 di_ID) in Hx. rewrite Edev in Hx. by apply list_elem_of_filter in Hx as [? _]. }
  unfold addNode. rewrite Hd. cbn [ni_Devices]. change (s_nodes s2) with (s_nodes s1).
  destruct (s_nodes s1 !! name) as [l0|] eqn:Hl.
  - assert (deref s2 l0 = deref s1 l0) as Hd0.
    { destruct (deref_ok s1 name l0 Hok Hl) as [Hh _]. unfold deref at 1. cbn. by rewrite (lookup_app_l_Some _ _ _ _ Hh). }
    assert (l0 <> l) as Hl0.
    { destruct (deref_ok s1 name l0 Hok Hl) as [Hh _]. apply lookup_lt_Some in Hh. unfold l. lia. }
    assert (Forall (fun d => (di_ID d ∉ di_ID <$> devices) /\ di_ID d <> ""%string) (ni_Devices (deref s1 l0))) as Hold.
    { apply Forall_forall. intros d Hd1. apply (list_elem_of_fmap_2 di_ID) in Hd1. rewrite <- (node_ids_at _ _ _ Hl), Hids in Hd1.
      split; [|by intros E; rewrite E in Hd1]. intros (x & Ex & Hx)%list_elem_of_fmap. apply (Hnew x Hx). by rewrite <- Ex. }
    case_decide as E.
    + exists l0. split; [done|]. cbv zeta. rewrite Hd, Hd0. cbn [ni_Devices]. rewrite E, rm_loop_filter. split; [cbn; lia|].
      rewrite filter_all; [by rewrite <- (node_ids_at _ _ _ Hl)|]. by rewrite E in Hold.
    + rewrite Hd0. exists l0. split; [done|]. cbv zeta.
      assert (deref (set_Devices s2 l0 (ni_Devices (deref s1 l0) ++ devices)) l0
              = mkNodeInfo (ni_ID (deref s2 l0)) (ni_Devices (deref s1 l0) ++ devices)) as ->.
      { unfold deref at 1. cbn [s_heap set_Devices with_node_table]. rewrite list_lookup_insert_eq; [done|].
        destruct (deref_ok s1 name l0 Hok Hl) as [Hh _]. apply lookup_lt_Some in Hh. cbn. rewrite length_app. cbn. lia. }
      assert (deref (set_Devices s2 l0 (ni_Devices (deref s1 l0) ++ devices)) l = mkNodeInfo name devices) as ->.
      { unfold deref at 1. cbn [s_heap set_Devices with_node_table]. rewrite list_lookup_insert_ne by done. exact Hd. }
      cbn [ni_Devices]. rewrite rm_loop_filter, filter_app, (filter_all _ _ Hold), filter_none, app_nil_r, length_app.
      * split; [lia|]. by rewrite <- (node_ids_at _ _ _ Hl).
      * apply Forall_forall. intros x Hx [Hx' _]. by apply Hx', list_elem_of_fmap_2.
  - assert (node_ids s name = []) as Ho.
    { rewrite <- Hids. unfold node_ids, ListNodes. by rewrite lookup_fmap, Hl. }
    rewrite decide_False.
    + exists l. split; [cbn; by rewrite lookup_insert_eq|]. cbv zeta.
      change (deref (with_node_table s2 (s_heap s2) (<[name:=l]> (s_nodes s1))) l) with (deref s2 l). rewrite Hd. cbn [ni_Devices].
      split; [done|]. rewrite rm_loop_filter, filter_none, Ho; [done|].
      apply Forall_forall. intros x Hx [Hx' _]. by apply Hx', list_elem_of_fmap_2.
    + intros ->. rewrite Ho in Edev. rewrite filter_all in Edev by (apply Forall_forall; intros; apply not_elem_of_nil).
      by destruct nodedevices.
Qed.

(** ** The handshake text *)
(** A character that the printed times have not. *)
Definition not_in_times (c : ascii) : Prop :=
  dec_digit c = None /\ Forall (fun x => (x =? c)%char = false) ["."; " "; ":"]%char.

Lemma pad2_no_char c n s : not_in_times c -> 0 <= n < 100 -> has_char c (pad2 n s) = has_char c s.
Proof.
  intros [Hdig _] Hn. unfold pad2. cbn [has_char].
  assert (forall d, 0 <= d < 10 -> (digit_char d =? c)%char = false) as Hd.
  { intros d Hd. destruct (Ascii.eqb_spec (digit_char d) c) as [E|]; [|done].
    pose proof (dec_digit_char d Hd) as Hc. rewrite E, Hdig in Hc. done. }
  rewrite !Hd by (Z.to_euclidean_division_equations; lia). done.
Qed.

Lemma plain_no_char c zone t :
  not_in_times c -> plain_time t -> plain_zone zone -> has_char c (format_plain zone t) = false.
Proof.
  intros Hc Ht Hz. pose proof (plain_year zone t Ht Hz) as Hy. unfold format_plain, format_datetime.
  pose proof (civil_valid ((t / Second + zone) / 86400)) as Hv.
  destruct (civil_from_days ((t / Second + zone) / 86400)) as [[y m] d]. cbn [fst snd] in *. destruct Hv as [Hm Hd].
  assert (days_in m y <= 31) by (unfold days_in; repeat case_match; lia).
  unfold pad_year. destruct (Z.ltb_spec y 0); [lia|]. destruct (Z.ltb_spec y 10000); [|lia]. unfold pad4.
  pose proof (Z.mod_pos_bound (t / Second + zone) 86400 ltac:(lia)). set (r := (t / Second + zone) mod 86400) in *.
  pose proof Hc as [_ Hsep]. apply Forall_cons in Hsep as [Hdot Hsep]. apply Forall_cons in Hsep as [Hsp Hsep].
  apply Forall_cons in Hsep as [Hcol _].
  repeat first [rewrite pad2_no_char by (done || (Z.to_euclidean_division_equations; lia))
    | rewrite Hdot | rewrite Hsp | rewrite Hcol | progress cbn [has_char orb]].
  done.
Qed.

Lemma no_underscore_plain zone t :
  plain_time t -> plain_zone zone -> has_char "_" (format_plain zone t) = false.
Proof. apply plain_no_char. split; [done|by repeat constructor]. Qed.

(** The time read back from a request. *)
Lemma handshake_time zone t :
  plain_time t -> plain_zone zone ->
  split "_" ("Requesting_" +:+ format_plain zone t) = ["Requesting"%string; format_plain zone t]
  /\ default zeroTime (parse_plain (format_plain zone t)) = (t / Second + zone) * Second.
Proof.
  intros Ht Hz. split; [|by rewrite plain_round].
  change ("Requesting_" +:+ format_plain zone t)%string with ("Requesting" +:+ String "_" (format_plain zone t))%string.
  rewrite split_app by done. by rewrite split_no_sep by (by apply no_underscore_plain).
Qed.

Lemma contains_requesting s : contains ("Requesting_" +:+ s) "Requesting" = true.
Proof. reflexivity. Qed.

(** A round before a request has expired. *)
Lemma request_pending `{GoRuntime} {W} `{!KubeClient W} zone (val : Node) devhandsk devreg
    s nodeInfoCopy str devs t0 t (w w1 : W) :
  node_annos val !! devreg = Some str -> DecodeNodeDevices str = (devs, None) -> devs <> [] ->
  str_lookup (node_annos val) devhandsk = "Requesting_" +:+ format_plain zone t0 ->
  plain_time t0 -> plain_zone zone ->
  api_Now w = (t, w1) -> t <= (t0 / Second + zone + 60) * Second ->
  register_device zone val devhandsk devreg (s, nodeInfoCopy) w = Ret ((s, nodeInfoCopy), w1).
Proof.
  intros Hr Hd Hne Hh Ht Hz Hn Hle. unfold register_device, lift, call, mbind, K_bind, outcome_bind.
  rewrite Hr, Hd, Hh, contains_requesting. rewrite (bool_decide_false (is_Some None)) by (by intros [? ?]).
  rewrite (bool_decide_false (devs = [])) by done. cbn [orb].
  destruct (handshake_time zone t0 Ht Hz) as [-> Hp]. cbn [slice_get lookup list_lookup]. cbv beta iota.
  rewrite Hn, Hp. replace ((t0 / Second + zone) * Second + 60 * Second) with ((t0 / Second + zone + 60) * Second) by lia.
  cbv beta iota. destruct (Z.ltb_spec ((t0 / Second + zone + 60) * Second) t); [lia|done].
Qed.

(** ** Small fleets *)
Definition fleet_gpu (id : string) : api.DeviceInfo := api.mkDeviceInfo 0 id 4 16000 100 "NVIDIA-Tesla V100" 0 true.
Definition reported (devices : list api.DeviceInfo) : gmap string string :=
  {[nvidia.RegisterAnnos := EncodeNodeDevices devices]}.
Definition fleet (nodes : gmap string (gmap string string)) : Server :=
  mkServer ((fun a => [Some a]) <$> nodes) [] [] epoch [].
Definition later (secs : Z) (w : Server) : Server :=
  mkServer (sv_nodes w) (sv_pods w) (sv_bound w) (sv_now w + secs * Second) (sv_script w).

(** A round of the registration loop of a scheduler in UTC. *)
Definition round (st : Scheduler * gmap string loc) (w : Server)
    : outcome ((Scheduler * gmap string loc) * Server) :=
  match @register_round go_reference Server server 0 st w with
  | Ret ((st, _), w) => Ret (st, w)
  | Panic p => Panic p
  end.

Definition handshake_of (w : Server) (name : string) : string :=
  str_lookup (default ∅ (current_annos w name)) nvidia.HandshakeAnnos.

Module RegisterProps.

(** Registering a report merges it into the node table: the node's known
    devices stay in place, the unknown ones are appended in the order of the
    report, and nothing is ever registered twice; every other node, and the
    pods, are untouched, and the table stays consistent although nodes are
    updated through shared pointers. *)
Theorem registration_merges s name nodedevices :
  nodes_ok s -> NoDup (node_ids s name) -> NoDup (api.Id <$> nodedevices) ->
  let s' := (register_report s name nodedevices).1 in
  nodes_ok s' /\ NoDup (node_ids s' name)
  /\ node_ids s' name = node_ids s name ++ filter (fun id => id ∉ node_ids s name) (api.Id <$> nodedevices)
  /\ (forall name', name' <> name -> ListNodes s' !! name' = ListNodes s !! name')
  /\ s_pods s' = s_pods s.
Proof.
  intros Hs Hnd Hnd'. destruct (register_report_spec s name nodedevices Hs) as (H1 & H2 & H3 & H4).
  split_and!; [done| |done..]. rewrite H2. apply NoDup_app. split_and!; [done| |by apply NoDup_filter].
  intros id Hin Hf. by apply list_elem_of_filter in Hf as [? _].
Qed.

Lemma registration_merges_witness :
  let s1 := (register_report NewScheduler "a" [fleet_gpu "g0"; fleet_gpu "g1"]).1 in
  nodes_ok s1 /\ NoDup (node_ids s1 "a").
Proof.
  destruct (registration_merges NewScheduler "a" [fleet_gpu "g0"; fleet_gpu "g1"]) as (H1 & H2 & _).
  - apply map_Forall_empty.
  - constructor.
  - apply (bool_decide_unpack (NoDup _)). vm_compute. exact I.
  - split; [exact H1|exact H2].
Defined.

(** The time of a request is printed in the local zone and read back as
    UTC, so a node that has stopped answering is not removed 60 seconds
    after the request but 60 seconds plus the offset of the zone: until
    then, a round leaves it registered. *)
Theorem registration_timeout_shifted `{GoRuntime} {W} `{!KubeClient W} zone (val : Node) devhandsk devreg
    s nodeInfoCopy str devs t0 t (w w1 : W) :
  node_annos val !! devreg = Some str -> DecodeNodeDevices str = (devs, None) -> devs <> [] ->
  str_lookup (node_annos val) devhandsk = "Requesting_" +:+ format_plain zone t0 ->
  plain_time t0 -> plain_zone zone ->
  api_Now w = (t, w1) -> t <= (t0 / Second + zone + 60) * Second ->
  register_device zone val devhandsk devreg (s, nodeInfoCopy) w = Ret ((s, nodeInfoCopy), w1).
Proof. apply request_pending. Qed.

Lemma registration_timeout_shifted_witness :
  let _ := go_reference in
  let annos := <[nvidia.HandshakeAnnos := "Requesting_" +:+ format_plain 28800 epoch]> (reported [fleet_gpu "g0"]) in
  let w := later 25200 (fleet {["a" := annos]}) in
  register_device 28800 (mkNode "a" (Some annos) 0) nvidia.HandshakeAnnos nvidia.RegisterAnnos (NewScheduler, ∅) w
  = Ret ((NewScheduler, ∅), w).
Proof.
  intros rt annos w.
  eapply (@registration_timeout_shifted go_reference Server server 28800 _ _ _ _ _ _ _ epoch);
    [reflexivity|reflexivity|discriminate|reflexivity|..]; [| |reflexivity|];
    vm_compute; repeat split; congruence.
Defined.

(** The pointer kept for a kind of device is not kept per node: when two
    nodes of different sizes have stopped answering, the devices of the one
    are removed from the other, and the negative capacity of the new slice
    panics, which ends the scheduler. *)
Theorem unequal_nodes_crash_registration :
  match round (NewScheduler, ∅) (fleet {["a" := reported [fleet_gpu "g0"];
                                         "b" := reported [fleet_gpu "h0"; fleet_gpu "h1"]]}) with
  | Ret (st, w) => node_ids st.1 "a" = ["g0"] /\ node_ids st.1 "b" = ["h0"; "h1"]
      /\ round st (later 120 w) = Panic MakeNegativeCap
  | Panic _ => False
  end.
Proof. vm_compute. repeat split; reflexivity. Qed.

(** A node that answered once more is never removed: its second report
    holds no new device, so the pointer kept for the removal points to an
    empty list.  Without the second report the devices are removed; with it,
    the handshake says that they are deleted and they are still scheduled
    on. *)
Theorem second_report_blocks_removal :
  let w0 := fleet {["a" := reported [fleet_gpu "g0"]]} in
  match round (NewScheduler, ∅) w0 with
  | Ret (st1, w1) =>
      match round st1 (later 120 w1) with
      | Ret (st, _) => node_ids st.1 "a" = []
      | Panic _ => False
      end
      /\ match round st1 (write_node "a" (Some (reported [fleet_gpu "g0"])) w1) with
         | Ret (st2, w2) =>
             match round st2 (later 120 w2) with
             | Ret (st, w) => node_ids st.1 "a" = ["g0"]
                 /\ String.prefix "Deleted" (handshake_of w "a") = true
             | Panic _ => False
             end
         | Panic _ => False
         end
  | Panic _ => False
  end.
Proof. vm_compute. repeat split; reflexivity. Qed.

(** A handshake that says Requesting without an underscore panics: the
    second part of the split is not there. *)
Theorem malformed_handshake_panics `{GoRuntime} {W} `{!KubeClient W} zone (val : Node) devhandsk devreg
    s nodeInfoCopy str devs (w : W) :
  node_annos val !! devreg = Some str -> DecodeNodeDevices str = (devs, None) -> devs <> [] ->
  contains (str_lookup (node_annos val) devhandsk) "Requesting" = true ->
  has_char "_" (str_lookup (node_annos val) devhandsk) = false ->
  register_device zone val devhandsk devreg (s, nodeInfoCopy) w = Panic IndexOutOfRange.
Proof.
  intros Hr Hd Hne Hh Hu. unfold register_device, lift, call, mbind, K_bind, outcome_bind.
  rewrite Hr, Hd, Hh. rewrite (bool_decide_false (is_Some None)) by (by intros [? ?]).
  rewrite (bool_decide_false (devs = [])) by done. cbn [orb]. by rewrite split_no_sep.
Qed.

Lemma malformed_handshake_panics_witness :
  let _ := go_reference in
  let annos := <[nvidia.HandshakeAnnos := "Requesting"]> (reported [fleet_gpu "g0"]) in
  register_device (W := Server) 0 (mkNode "a" (Some annos) 0) nvidia.HandshakeAnnos nvidia.RegisterAnnos
    (NewScheduler, ∅) (fleet {["a" := annos]}) = Panic IndexOutOfRange.
Proof.
  intros rt annos. eapply (@malformed_handshake_panics go_reference Server server);
    [reflexivity|reflexivity|discriminate|reflexivity|reflexivity].
Defined.
End RegisterProps.
