(* ===== verification/SchedThreads.v ===== *)
(** * The goroutines of the scheduler ([pkg/scheduler/scheduler.go])

    [Start] hands the events of the pod informer to [onAddPod], [onUpdatePod]
    and [onDelPod]; [RegisterFromNodeAnnotatons] runs in a goroutine of its own;
    the HTTP server runs [Filter].  No lock is held across a handler: the pod
    table has a mutex for each [addPod] and [delPod], and [Filter] reads the
    tables between them.  Here the handler is cut at these points, and the
    steps of the three goroutines interleave.

    kube-scheduler asks its extender for one pod at a time, so there is one
    [Filter] at a time.  The events of the informer and the registration of a
    node are one step each.  The API server is not part of the state: a step
    that calls it may meet any server, so nothing relates the answers of two
    calls.  Each read of a table is one step, also the loop over [s.pods] in
    [getNodesUsage], which the code runs without the mutex: that the Go
    runtime ends the process when such a read meets a write is not
    modelled. *)

From Stdlib Require Import ZArith Lia Ascii String Sorted.
From stdpp Require Import base decidable option gmap strings numbers sorting list relations.
From S2P Require Import Prelude GoStrings GoTime GoRuntime Types Kube NodeLock Codec Devices Score Scheduler Register.

#[local] Open Scope Z_scope.

(** ** The informer *)

(** What the informer hands to a handler: a pod, or the tombstone of a pod
    whose deletion was missed while the watch was broken. *)
Inductive informer_obj :=
| ObjPod (pod : Pod)
| DeletedFinalStateUnknown (key : string) (last : Pod).

Section handlers.
Context `{GoRuntime}.

(** The handlers test the type of the object first. *)
Definition AddFunc (s : Scheduler) (obj : informer_obj) : Scheduler :=
  match obj with ObjPod pod => onAddPod s pod | DeletedFinalStateUnknown _ _ => s end.
Definition UpdateFunc (s : Scheduler) (oldObj newObj : informer_obj) : Scheduler := AddFunc s newObj.
Definition DeleteFunc (s : Scheduler) (obj : informer_obj) : Scheduler :=
  match obj with ObjPod pod => onDelPod s pod | DeletedFinalStateUnknown _ _ => s end.
End handlers.

(** ** [Filter], cut where other goroutines may run *)
Inductive filter_pc :=
| Idle
| Deleted (pod : Pod) (names : list string)                                        (* [s.delPod] *)
| NodesRead (pod : Pod) (names : list string) (overall : gmap string NodeUsage)     (* the loop over [allNodes] *)
| PodsRead (pod : Pod) (names : list string) (overall : gmap string NodeUsage)      (* the loop over [s.pods] *)
| Cached (pod : Pod) (cache : gmap string (option NodeUsage)) (failed : gmap string string)
| Chosen (pod : Pod) (m : NodeScore)                                               (* [calcScore] and the sort *)
| Recorded (pod : Pod) (m : NodeScore) (t : Z)                                     (* [s.addPod] *)
| Refused (pod : Pod) (e : error)                                                  (* the patch failed *)
| Crashed (p : panic).

Definition filter_answer : Type := option ExtenderFilterResult * option error.

(** [t_owner]: the overview is the table of the running [Filter]. *)
Record threads := mkThreads {
  t_sched : Scheduler;
  t_copy : gmap string loc;
  t_filter : filter_pc;
  t_owner : bool;
  t_answers : list filter_answer;
}.

Definition with_sched (T : threads) (s : Scheduler) : threads :=
  mkThreads s (t_copy T) (t_filter T) (t_owner T) (t_answers T).
Definition at_pc (T : threads) (s : Scheduler) (pc : filter_pc) : threads :=
  mkThreads s (t_copy T) pc (t_owner T) (t_answers T).
Definition answer (T : threads) (s : Scheduler) (a : filter_answer) : threads :=
  mkThreads s (t_copy T) Idle (t_owner T) (t_answers T ++ [a]).

(** The last loop of [getNodesUsage] copies pointers: a node that was
    registered after the nodes were read has a nil pointer. *)
Definition cache_pointers (s : Scheduler) (overall : gmap string NodeUsage) (names : list string)
    : gmap string (option NodeUsage) :=
  foldl (fun cache id => <[id := overall !! id]> cache) ∅ (cache_nodes s names).1.

(** The usages [calcScore] leaves in its table are those of the overview as
    long as the overview is that table. *)
Definition booked_overview (T : threads) (nodes' : gmap string NodeUsage) : Scheduler :=
  if t_owner T then with_overview (t_sched T) (nodes' ∪ s_overviewstatus (t_sched T)) else t_sched T.

Inductive label :=
| LCall (pod : Pod) (names : list string)     (* a request of kube-scheduler *)
| LFilter                                     (* a step of [Filter] *)
| LAdd (obj : informer_obj)
| LUpdate (oldObj newObj : informer_obj)
| LDelete (obj : informer_obj)
| LRegister (val : Node) (devhandsk devreg : string)
| LRound (names : list string).               (* [getNodesUsage] at the end of a round *)

Section steps.
Context `{GoRuntime} {W : Type} `{!KubeClient W} (cfg : Config) (zone : Z).

Inductive thread_step : label -> threads -> threads -> Prop :=
| ts_no_device T pod names :
    t_filter T = Idle -> total_nums (Resourcereqs cfg pod) = 0 ->
    thread_step (LCall pod names) T (answer T (t_sched T) (Some (mkFilterResult (Some names) ∅ ""), None))
| ts_call T pod names :
    t_filter T = Idle -> total_nums (Resourcereqs cfg pod) <> 0 ->
    thread_step (LCall pod names) T (at_pc T (delPod (t_sched T) pod) (Deleted pod names))
| ts_nodes T pod names :
    t_filter T = Deleted pod names ->
    thread_step LFilter T (at_pc T (t_sched T) (NodesRead pod names (fresh_overview (t_sched T))))
| ts_pods T pod names overall :
    t_filter T = NodesRead pod names overall ->
    let overall' := pods_usage overall (s_pods (t_sched T)) in
    thread_step LFilter T
      (mkThreads (with_overview (t_sched T) overall') (t_copy T) (PodsRead pod names overall') true (t_answers T))
| ts_cache T pod names overall :
    t_filter T = PodsRead pod names overall ->
    thread_step LFilter T
      (at_pc T (with_status (t_sched T) (s_overviewstatus (t_sched T)) (cache_nodes (t_sched T) names).1)
         (Cached pod (cache_pointers (t_sched T) overall names) (cache_nodes (t_sched T) names).2))
| ts_nil T pod cache failed :
    t_filter T = Cached pod cache failed -> ~ map_Forall (fun _ u => is_Some u) cache ->
    thread_step LFilter T (at_pc T (t_sched T) (Crashed NilDereference))
| ts_panic T pod cache failed p :
    t_filter T = Cached pod cache failed -> map_Forall (fun _ u => is_Some u) cache ->
    calcScore cfg (omap id cache) (Resourcereqs cfg pod) (pod_Annotations pod) = Panic p ->
    thread_step LFilter T (at_pc T (t_sched T) (Crashed p))
| ts_none T pod cache failed nodes' :
    t_filter T = Cached pod cache failed -> map_Forall (fun _ u => is_Some u) cache ->
    calcScore cfg (omap id cache) (Resourcereqs cfg pod) (pod_Annotations pod) = Ret (nodes', []) ->
    thread_step LFilter T (answer T (booked_overview T nodes') (Some (mkFilterResult None failed ""), None))
| ts_choose T pod cache failed nodes' scores m :
    t_filter T = Cached pod cache failed -> map_Forall (fun _ u => is_Some u) cache ->
    calcScore cfg (omap id cache) (Resourcereqs cfg pod) (pod_Annotations pod) = Ret (nodes', scores) ->
    last (sort_by NodeScore_Less scores) = Some m ->
    thread_step LFilter T (at_pc T (booked_overview T nodes') (Chosen pod m))
| ts_record T pod m t (w w' : W) :
    t_filter T = Chosen pod m -> api_Now w = (t, w') ->
    thread_step LFilter T (at_pc T (addPod (t_sched T) pod (ns_nodeID m) (ns_devices m)) (Recorded pod m t))
| ts_patched T pod m t (w w' : W) :
    t_filter T = Recorded pod m t -> PatchPodAnnotations pod (filter_annotations t m) w = Ret (None, w') ->
    thread_step LFilter T (answer T (t_sched T) (Some (mkFilterResult (Some [ns_nodeID m]) ∅ ""), None))
| ts_refused T pod m t e (w w' : W) :
    t_filter T = Recorded pod m t -> PatchPodAnnotations pod (filter_annotations t m) w = Ret (Some e, w') ->
    thread_step LFilter T (at_pc T (t_sched T) (Refused pod e))
| ts_undo T pod e :
    t_filter T = Refused pod e ->
    thread_step LFilter T (answer T (delPod (t_sched T) pod) (None, Some e))
| ts_add T obj : thread_step (LAdd obj) T (with_sched T (AddFunc (t_sched T) obj))
| ts_update T oldObj newObj :
    thread_step (LUpdate oldObj newObj) T (with_sched T (UpdateFunc (t_sched T) oldObj newObj))
| ts_delete T obj : thread_step (LDelete obj) T (with_sched T (DeleteFunc (t_sched T) obj))
| ts_register T val devhandsk devreg s' copy' (w w' : W) :
    register_device zone val devhandsk devreg (t_sched T, t_copy T) w = Ret ((s', copy'), w') ->
    thread_step (LRegister val devhandsk devreg) T (mkThreads s' copy' (t_filter T) (t_owner T) (t_answers T))
| ts_round T names :
    thread_step (LRound names) T
      (mkThreads (getNodesUsage (t_sched T) names).1.1 (t_copy T) (t_filter T) false (t_answers T)).
End steps.
