(* ===== verification/ThreadFacts.v ===== *)
(** * Properties of the scheduler's goroutines

    The cards of the cluster are a table [spec] of nodes and card identifiers:
    plugins report the cards they have, and a card keeps its size.  Against
    this table the accounts stay within capacity in every interleaving of
    [Filter], the informer and the registration; what the scheduler reads
    between two of its own writes may be out of date, but only in the safe
    direction. *)

From Stdlib Require Import ZArith Lia Ascii String Sorted.
From stdpp Require Import base decidable option gmap strings numbers sorting list relations.
From S2P Require Import Prelude GoStrings GoTime GoRuntime Types Kube NodeLock Codec Devices Score FitFacts BookFacts ScoreFacts CalcFacts Scheduler Register UsageFacts FilterFacts FilterProps RegisterProps SchedThreads.

#[local] Open Scope Z_scope.

(** ** The invariant *)
Definition cluster_cards : Type := string -> string -> option DeviceInfo.

Definition same_size (d d0 : DeviceInfo) : Prop :=
  di_Count d = di_Count d0 /\ di_Devmem d = di_Devmem d0 /\ di_Devcore d = di_Devcore d0.

(** A registered device is a card of its node. *)
Definition card_of (spec : cluster_cards) (name : string) (d : DeviceInfo) : Prop :=
  exists d0, spec name (di_ID d) = Some d0 /\ same_size d d0.

Lemma same_size_capacity f c d d0 : capacity f c -> same_size d d0 -> c d = c d0.
Proof. by intros [] (? & ? & ?). Qed.

Lemma same_size_ok d d0 : same_size d d0 -> device_ok d0 -> device_ok d.
Proof. intros (E1 & E2 & E3) [? ? ?]. split; by rewrite ?E1, ?E2, ?E3. Qed.

(** The node table registers cards of the cluster, each once. *)
Record nodes_of (spec : cluster_cards) (s : Scheduler) : Prop := {
  no_ok : nodes_ok s;
  no_cards name n : ListNodes s !! name = Some n ->
    NoDup (di_ID <$> ni_Devices n) /\ Forall (card_of spec name) (ni_Devices n);
}.

(** The pods, with what a running [Filter] is about to add, fit the cards. *)
Definition within (spec : cluster_cards) (pods : gmap string podInfo)
    (extra : (ContainerDevice -> Z) -> string -> string -> Z) : Prop :=
  forall name id d0 f c, spec name id = Some d0 -> capacity f c -> account f name id pods + extra f name id <= c d0.

Definition no_extra (_ : ContainerDevice -> Z) (_ _ : string) : Z := 0.
Definition extra_of (m : NodeScore) (f : ContainerDevice -> Z) (name id : string) : Z :=
  if decide (ns_nodeID m = name) then pod_amount f id (ns_devices m) else 0.

Definition reserved (pc : filter_pc) : (ContainerDevice -> Z) -> string -> string -> Z :=
  match pc with Chosen _ m => extra_of m | _ => no_extra end.

(** The accounts of [pods] are at most those of [pods0]. *)
Definition below (pods pods0 : gmap string podInfo) : Prop :=
  forall f g name id, tracked f g -> account f name id pods <= account f name id pods0.

Definition pods_nonneg (pods : gmap string podInfo) : Prop := map_Forall (fun _ p => pod_nonneg (pi_Devices p)) pods.

(** A state the accounts were read from. *)
Record snapshot (spec : cluster_cards) (s0 : Scheduler) (pods : gmap string podInfo) : Prop := {
  sn_nodes : nodes_of spec s0;
  sn_pods : pods_nonneg (s_pods s0);
  sn_within : within spec (s_pods s0) no_extra;
  sn_below : below pods (s_pods s0);
}.

Section invariant.
Context `{GoRuntime} (cfg : Config) (spec : cluster_cards).

Definition pc_ok (s : Scheduler) (pc : filter_pc) : Prop :=
  match pc with
  | Idle | Recorded _ _ _ | Refused _ _ | Crashed _ => True
  | Deleted pod _ => placeable cfg pod /\ s_pods s !! pod_UID pod = None
  | NodesRead pod _ overall =>
      placeable cfg pod /\ s_pods s !! pod_UID pod = None /\
      exists s0, nodes_of spec s0 /\ overall = fresh_overview s0
  | PodsRead pod _ overall =>
      placeable cfg pod /\ s_pods s !! pod_UID pod = None /\
      exists s0, snapshot spec s0 (s_pods s) /\ overall = overview s0
  | Cached pod cache _ =>
      placeable cfg pod /\ s_pods s !! pod_UID pod = None /\
      exists s0, snapshot spec s0 (s_pods s) /\ forall id u, cache !! id = Some (Some u) -> overview s0 !! id = Some u
  | Chosen pod m => s_pods s !! pod_UID pod = None /\ pod_nonneg (ns_devices m)
  end.

Record threads_ok (T : threads) : Prop := {
  to_nodes : nodes_of spec (t_sched T);
  to_pods : pods_nonneg (s_pods (t_sched T));
  to_within : within spec (s_pods (t_sched T)) (reserved (t_filter T));
  to_pc : pc_ok (t_sched T) (t_filter T);
}.

(** The steps considered: requests for pods the vendors understand, reports
    of the cards of the cluster, and events for pods that are recorded, have
    ended, or carry no assignment. *)
Definition reported_card (name : string) (dev : api.DeviceInfo) : Prop :=
  exists d0, spec name (api.Id dev) = Some d0 /\ api.Count dev = di_Count d0
    /\ api.Devmem dev = di_Devmem d0 /\ api.Devcore dev = di_Devcore d0.

Definition known_event (s : Scheduler) (obj : informer_obj) : Prop :=
  match obj with
  | ObjPod pod => is_Some (s_pods s !! pod_UID pod) \/ IsPodInTerminatedState pod = true
      \/ pod_Annotations pod !! AssignedNodeAnnotations = None
  | DeletedFinalStateUnknown _ _ => True
  end.

Definition allowed (T : threads) (l : label) : Prop :=
  match l with
  | LCall pod _ => placeable cfg pod
  | LAdd obj | LUpdate _ obj => known_event (t_sched T) obj
  | LRegister val _ devreg => forall str devs,
      node_annos val !! devreg = Some str -> DecodeNodeDevices str = (devs, None) ->
      NoDup (api.Id <$> devs) /\ Forall (reported_card (node_Name val)) devs
  | LFilter | LDelete _ | LRound _ => True
  end.
End invariant.

(** ** Accounts *)
Lemma below_refl pods : below pods pods.
Proof. by intros f g name id _. Qed.

Lemma below_delete pods uid : pods_nonneg pods -> below (delete uid pods) pods.
Proof. intros Hp f g name id Ht. by apply (account_delete_le f g). Qed.

Lemma below_trans pods1 pods2 pods3 : below pods1 pods2 -> below pods2 pods3 -> below pods1 pods3.
Proof. intros H1 H2 f g name id Ht. etransitivity; [by eapply H1|by eapply H2]. Qed.

Lemma within_below spec pods pods0 extra : below pods pods0 -> within spec pods0 extra -> within spec pods extra.
Proof.
  intros Hb Hw name id d0 f c Hs Hc. destruct (capacity_tracked f c Hc) as [g Ht].
  specialize (Hw name id d0 f c Hs Hc). specialize (Hb f g name id Ht). lia.
Qed.

Lemma snapshot_below spec s0 pods pods' : below pods' pods -> snapshot spec s0 pods -> snapshot spec s0 pods'.
Proof. intros Hb [? ? ? ?]. split; [done..|]. by eapply below_trans. Qed.

(** The state a snapshot describes satisfies the sequential invariant. *)
Lemma snapshot_state_ok spec s0 pods :
  (forall name id d0, spec name id = Some d0 -> device_ok d0) -> snapshot spec s0 pods -> state_ok s0.
Proof.
  intros Hspec [[Hn Hc] Hp Hw _]. split; [done| |done|].
  - intros name n Hl. destruct (Hc name n Hl) as [Hnd Hf]. split; [done|].
    eapply Forall_impl; [exact Hf|]. intros d (d0 & Hs & Hz). by eapply same_size_ok, Hspec.
  - intros name n d f c Hl Hd Hcap. destruct (Hc name n Hl) as [_ Hf]. rewrite Forall_forall in Hf.
    destruct (Hf d Hd) as (d0 & Hs & Hz). rewrite (same_size_capacity f c d d0) by done.
    specialize (Hw name (di_ID d) d0 f c Hs Hcap). unfold no_extra in Hw. lia.
Qed.

(** ** Steps that change no node *)
Definition same_nodes (s s' : Scheduler) : Prop := s_heap s' = s_heap s /\ s_nodes s' = s_nodes s.

Lemma same_nodes_list s s' : same_nodes s s' -> ListNodes s' = ListNodes s.
Proof. intros [E1 E2]. unfold ListNodes, deref. by rewrite E1, E2. Qed.

Lemma nodes_of_same spec s s' : same_nodes s s' -> nodes_of spec s -> nodes_of spec s'.
Proof.
  intros Hsn [Hok Hc]. split; [|by rewrite (same_nodes_list s s')].
  destruct Hsn as [E1 E2]. unfold nodes_ok. by rewrite E1, E2.
Qed.

(** The pods are the same, or one is gone. *)
Definition shrinks (s s' : Scheduler) : Prop :=
  same_nodes s s' /\ (s_pods s' = s_pods s \/ exists uid, s_pods s' = delete uid (s_pods s)).

Lemma shrinks_refl s : shrinks s s.
Proof. split; [done|by left]. Qed.

Lemma delPod_shrinks s pod : shrinks s (delPod s pod).
Proof. split; [done|]. right. by exists (pod_UID pod). Qed.

Lemma shrinks_below s s' : pods_nonneg (s_pods s) -> shrinks s s' -> below (s_pods s') (s_pods s).
Proof. intros Hp [_ [->|[uid ->]]]; [apply below_refl|by apply below_delete]. Qed.

Lemma shrinks_none s s' uid : shrinks s s' -> s_pods s !! uid = None -> s_pods s' !! uid = None.
Proof. intros [_ [->|[u ->]]] Hn; [done|]. rewrite lookup_delete_None. by right. Qed.

Section steps.
Context `{GoRuntime} (cfg : Config) (spec : cluster_cards).
Hypothesis spec_ok : forall name id d0, spec name id = Some d0 -> device_ok d0.

Lemma pc_ok_below s s' pc :
  below (s_pods s') (s_pods s) -> (forall uid, s_pods s !! uid = None -> s_pods s' !! uid = None) ->
  pc_ok cfg spec s pc -> pc_ok cfg spec s' pc.
Proof.
  intros Hb Hn. destruct pc; cbn; try done; intros Hpc.
  - destruct Hpc; auto.
  - destruct Hpc as (? & ? & ?); auto.
  - destruct Hpc as (? & ? & s0 & Hs0 & ->). split_and!; auto. exists s0. split; [by eapply snapshot_below|done].
  - destruct Hpc as (? & ? & s0 & Hs0 & Hc). split_and!; auto. exists s0. split; [by eapply snapshot_below|done].
  - destruct Hpc; auto.
Qed.

Lemma threads_ok_shrinks T s' : threads_ok cfg spec T -> shrinks (t_sched T) s' -> threads_ok cfg spec (with_sched T s').
Proof.
  intros [Hn Hp Hw Hpc] Hs. pose proof (shrinks_below _ _ Hp Hs) as Hb. split; cbn.
  - destruct Hs as [Hs _]. by eapply nodes_of_same.
  - destruct Hs as [_ [->|[uid ->]]]; [done|]. by apply map_Forall_delete.
  - by eapply within_below.
  - eapply pc_ok_below; [done| |done]. intros uid. by apply shrinks_none.
Qed.

Lemma AddFunc_shrinks s obj : known_event s obj -> shrinks s (AddFunc s obj).
Proof.
  destruct obj as [pod|key last]; [|intros _; apply shrinks_refl]. intros Hk. unfold AddFunc, onAddPod.
  destruct (pod_Annotations pod !! _) as [nodeID|] eqn:Ea; [|apply shrinks_refl].
  destruct (IsPodInTerminatedState pod) eqn:Et; [apply delPod_shrinks|].
  destruct Hk as [Hk|[Hk|Hk]]; [|congruence..]. rewrite addPod_recorded by done. apply shrinks_refl.
Qed.

Lemma DeleteFunc_shrinks s obj : shrinks s (DeleteFunc s obj).
Proof.
  destruct obj as [pod|key last]; [|apply shrinks_refl]. unfold DeleteFunc, onDelPod.
  destruct (pod_Annotations pod !! _); [apply delPod_shrinks|apply shrinks_refl].
Qed.

(** ** The registration *)
Lemma threads_ok_nodes T s' copy' owner :
  threads_ok cfg spec T -> nodes_of spec s' -> s_pods s' = s_pods (t_sched T) ->
  threads_ok cfg spec (mkThreads s' copy' (t_filter T) owner (t_answers T)).
Proof.
  intros [Hn Hp Hw Hpc] Hn' E. split; cbn; rewrite ?E; [done|done|done|].
  eapply pc_ok_below; [| |exact Hpc]; rewrite E; [apply below_refl|done].
Qed.

Lemma update_device_cards name dev devices devices' :
  reported_card spec name dev -> Forall (card_of spec name) devices ->
  update_device dev devices = Some devices' -> Forall (card_of spec name) devices'.
Proof.
  intros (d0 & Hs & Hc & Hm & Hco) Hf. revert devices'. induction Hf as [|d ds Hd Hf IH]; intros devices'; cbn [update_device]; [done|].
  case_decide as E.
  - intros [= <-]. constructor; [|done]. destruct Hd as (d1 & Hs1 & Hz1 & _).
    rewrite E, Hs in Hs1. injection Hs1 as <-. exists d0. cbn. by rewrite E.
  - destruct (update_device dev ds) as [ds'|]; cbn; [|done]. intros [= <-]. constructor; [done|by apply IH].
Qed.

Lemma set_Devices_cards s name l devices :
  nodes_of spec s -> s_nodes s !! name = Some l -> NoDup (di_ID <$> devices) -> Forall (card_of spec name) devices ->
  nodes_of spec (set_Devices s l devices).
Proof.
  intros [Hok Hc] Hl Hnd Hf. destruct (set_Devices_nodes s name l devices Hok Hl) as [Hok' Hn]. split; [done|].
  intros name' n. rewrite Hn. case_decide as E; [|apply Hc]. intros [= <-]. by subst name'.
Qed.

Lemma deref_cards s name l :
  nodes_of spec s -> s_nodes s !! name = Some l ->
  NoDup (di_ID <$> ni_Devices (deref s l)) /\ Forall (card_of spec name) (ni_Devices (deref s l)).
Proof. intros [_ Hc] Hl. apply Hc. unfold ListNodes. by rewrite lookup_fmap, Hl. Qed.

Lemma register_loop_cards name (l : list (nat * api.DeviceInfo)) : forall s devices,
  Forall (fun x => reported_card spec name x.2) l -> nodes_of spec s -> Forall (card_of spec name) devices ->
  let '(s', devices') := foldl (register_one name) (s, devices) l in
  nodes_of spec s' /\ Forall (card_of spec name) devices'.
Proof.
  induction l as [|[i dev] l IH]; intros s devices Hl Hn Hd; cbn [foldl]; [done|].
  apply Forall_cons in Hl as [Hdev Hl]. cbn in Hdev.
  assert (card_of spec name (new_device i dev)) as Hnew.
  { destruct Hdev as (d0 & Hs & Hc & Hm & Hco). exists d0. done. }
  unfold register_one at 2. destruct (s_nodes s !! name) as [lc|] eqn:Elc.
  - destruct (update_device dev (ni_Devices (deref s lc))) as [upd|] eqn:Eu.
    + destruct (deref_cards s name lc Hn Elc) as [Hnd Hf]. apply IH; [done| |done].
      apply (set_Devices_cards s name); [done|done| |by eapply update_device_cards].
      apply update_device_Some in Eu as [-> _]. done.
    + apply IH; [done|done|]. apply Forall_app_2; [done|by constructor].
  - apply IH; [done|done|]. apply Forall_app_2; [done|by constructor].
Qed.

Lemma register_report_cards s name devs :
  nodes_of spec s -> NoDup (api.Id <$> devs) -> Forall (reported_card spec name) devs ->
  nodes_of spec (register_report s name devs).1 /\ s_pods (register_report s name devs).1 = s_pods s.
Proof.
  intros Hn Hnd Hr.
  destruct (register_report_spec s name devs (no_ok _ _ Hn)) as (Hok & Hids & Hoth & Hpods). split; [|done].
  split; [done|]. intros name' n Hl.
  destruct (decide (name' = name)) as [->|Hne]; [|rewrite Hoth in Hl by done; by apply Hn].
  assert (node_ids (register_report s name devs).1 name = di_ID <$> ni_Devices n) as En by (unfold node_ids; by rewrite Hl).
  split.
  { rewrite <- En, Hids. apply NoDup_app. split_and!.
    - unfold node_ids. destruct (ListNodes s !! name) eqn:E; [by apply Hn in E as [? _]|constructor].
    - intros id Hin Hf. by apply list_elem_of_filter in Hf as [? _].
    - by apply NoDup_filter. }
  clear Hids En Hok Hoth Hpods. unfold register_report, register_devices in Hl.
  pose proof (register_loop_cards name (imap pair devs) s []) as Hloop.
  destruct (foldl (register_one name) (s, []) (imap pair devs)) as [s1 devices].
  destruct Hloop as [Hn1 Hd]; [|done|constructor|].
  { rewrite <- (Forall_fmap snd (reported_card spec name)). by rewrite imap_pair_dev. }
  destruct (new_NodeInfo_nodes s1 (mkNodeInfo name devices) (no_ok _ _ Hn1)) as (Hok2 & Hl2 & Hd2).
  destruct (new_NodeInfo s1 (mkNodeInfo name devices)) as [lc s2]. cbn [fst snd] in *.
  assert (nodes_of spec s2) as Hn2. { split; [done|]. rewrite Hl2. apply Hn1. }
  unfold addNode in Hl. rewrite Hd2 in Hl. cbn [ni_Devices] in Hl. case_decide; [by apply Hn2 in Hl as [_ ?]|].
  destruct (s_nodes s2 !! name) as [l0|] eqn:El0.
  - destruct (set_Devices_nodes s2 name l0 (ni_Devices (deref s2 l0) ++ devices) Hok2 El0) as [_ Hns].
    rewrite Hns, decide_True in Hl by done. injection Hl as <-. cbn [ni_Devices].
    apply Forall_app_2; [|done]. by eapply deref_cards.
  - unfold ListNodes in Hl. rewrite lookup_fmap in Hl. cbn [s_nodes with_node_table] in Hl.
    rewrite lookup_insert_eq in Hl. injection Hl as <-. unfold deref in Hd2 |- *. cbn [s_heap with_node_table]. by rewrite Hd2.
Qed.

Lemma rmNodeDevice_cards s s' name l :
  nodes_of spec s -> rmNodeDevice s name l = Ret s' -> nodes_of spec s' /\ s_pods s' = s_pods s.
Proof.
  intros Hn. unfold rmNodeDevice. destruct (s_nodes s !! name) as [l0|] eqn:El; [|by intros [= <-]].
  case_decide; [by intros [= <-]|]. destruct (_ <? _)%nat; [done|]. intros [= <-]. split; [|done].
  destruct (deref_cards s name l0 Hn El) as [Hnd Hf]. apply (set_Devices_cards s name); [done|done| |];
    rewrite rm_loop_filter.
  - eapply sublist_NoDup; [exact Hnd|]. by apply fmap_sublist, sublist_filter.
  - apply Forall_forall. intros d [_ Hd]%list_elem_of_filter. by rewrite Forall_forall in Hf; apply Hf.
Qed.

Lemma register_device_cards {W} `{!KubeClient W} zone val devhandsk devreg s copy s' copy' (w w' : W) :
  nodes_of spec s ->
  (forall str devs, node_annos val !! devreg = Some str -> DecodeNodeDevices str = (devs, None) ->
     NoDup (api.Id <$> devs) /\ Forall (reported_card spec (node_Name val)) devs) ->
  register_device zone val devhandsk devreg (s, copy) w = Ret ((s', copy'), w') ->
  nodes_of spec s' /\ s_pods s' = s_pods s.
Proof.
  intros Hn Hr. unfold register_device, mbind, K_bind, outcome_bind, lift, call, mret, K_ret.
  destruct (node_annos val !! devreg) as [str|] eqn:Ea; [|by intros [= <- <- <-]].
  destruct (DecodeNodeDevices str) as [devs err] eqn:Ed.
  destruct (bool_decide (is_Some err) || bool_decide (devs = [])) eqn:Eb; [by intros [= <- <- <-]|].
  destruct (contains _ "Requesting").
  - destruct (slice_get _ _) as [text|]; [|done]. cbn [mbind outcome_bind]. destruct (api_Now w) as [t w1]. cbv beta iota.
    destruct (default zeroTime (parse_plain text) + 60 * Second <? t); cbv beta iota; [|by intros [= <- <- <-]].
    destruct (s_nodes s !! node_Name val) as [l0|]; [|by intros [= <- <- <-]].
    destruct (copy !! devhandsk) as [l|]; [|by intros [= <- <- <-]].
    destruct (rmNodeDevice s (node_Name val) l) as [s1|] eqn:Erm; [|done]. cbn [mbind outcome_bind]. destruct (api_Now w1) as [t2 w2].
    cbv beta iota. destruct (patch_handshake _ _ _ w2) as [[ok w3]|]; [|done]. intros [= <- <- <-].
    by eapply rmNodeDevice_cards.
  - destruct (contains _ "Deleted"); [by intros [= <- <- <-]|]. destruct (api_Now w) as [t w1]. cbv beta iota.
    destruct (patch_handshake _ _ _ w1) as [[ok w2]|]; [|done]. destruct (negb ok); [by intros [= <- <- <-]|].
    apply orb_false_iff in Eb as [Eb _]. apply bool_decide_eq_false in Eb.
    destruct (Hr str devs eq_refl) as [Hnd Hf]; [destruct err; [by destruct Eb|done]|].
    pose proof (register_report_cards s (node_Name val) devs Hn Hnd Hf) as Hc.
    destruct (register_report s (node_Name val) devs) as [s1 l]. by intros [= <- <- <-].
Qed.

(** ** The steps of [Filter] *)

(** A step that keeps the tables. *)
Lemma threads_ok_pc T s' copy' pc' owner answers :
  threads_ok cfg spec T -> same_nodes (t_sched T) s' -> s_pods s' = s_pods (t_sched T) ->
  within spec (s_pods s') (reserved pc') -> pc_ok cfg spec s' pc' ->
  threads_ok cfg spec (mkThreads s' copy' pc' owner answers).
Proof. intros [Hn Hp Hw Hpc] Hs E Hw' Hpc'. split; cbn; [by eapply nodes_of_same|by rewrite E|done|done]. Qed.

Lemma cache_pointers_lookup s overall names id u :
  cache_pointers s overall names !! id = Some (Some u) -> overall !! id = Some u.
Proof.
  unfold cache_pointers. generalize (cache_nodes s names).1. intros l.
  assert (forall cache : gmap string (option NodeUsage), (cache !! id = Some (Some u) -> overall !! id = Some u) ->
    foldl (fun cache id => <[id := overall !! id]> cache) cache l !! id = Some (Some u) -> overall !! id = Some u) as Hg;
    [|by apply Hg].
  induction l as [|x l IH]; intros cache Hc; cbn [foldl]; [done|]. apply IH.
  destruct (decide (x = id)) as [->|Hne]; [|by rewrite lookup_insert_ne]. rewrite lookup_insert_eq. by intros [= ->].
Qed.

Lemma cache_pointers_None s overall names id :
  id ∈ (cache_nodes s names).1 -> overall !! id = None -> cache_pointers s overall names !! id = Some None.
Proof.
  unfold cache_pointers. generalize (cache_nodes s names).1. intros l Hin Hn.
  assert (id ∈ l \/ (∅ : gmap string (option NodeUsage)) !! id = Some None) as Hor by (by left). clear Hin. revert Hor.
  generalize (∅ : gmap string (option NodeUsage)).
  induction l as [|x l IH]; intros cache Hor; cbn [foldl].
  { destruct Hor as [Hin|?]; [by apply not_elem_of_nil in Hin|done]. }
  apply IH. destruct (decide (x = id)) as [->|Hne]; [right; by rewrite lookup_insert_eq, Hn|].
  rewrite lookup_insert_ne by done. destruct Hor as [[->|?]%elem_of_cons|?]; [done|by left|by right].
Qed.

(** What [Filter] chose from an old reading of the accounts fits the pods
    recorded now. *)
Lemma chosen_within s0 pods pod cache nodes' scores m :
  placeable cfg pod -> snapshot spec s0 pods -> within spec pods no_extra ->
  (forall id u, cache !! id = Some (Some u) -> overview s0 !! id = Some u) ->
  calcScore cfg (omap id cache) (Resourcereqs cfg pod) (pod_Annotations pod) = Ret (nodes', scores) -> m ∈ scores ->
  pod_nonneg (ns_devices m) /\ within spec pods (extra_of m).
Proof.
  intros [Hn Hsk] Hsn Hw Hc E Hm. pose proof (snapshot_state_ok spec s0 pods spec_ok Hsn) as Hs.
  destruct (chosen_fits_on cfg s0 (omap id cache) _ (pod_Annotations pod) nodes' scores m Hs Hn Hsk) as (_ & Hnn & n & Hl & Hfit & Hno); [|exact E|exact Hm|].
  { intros id u. rewrite <- overview_spec by apply Hs. rewrite lookup_omap_Some. intros (x & Hx & Hi).
    cbn in Hx. subst x. by apply Hc. }
  split; [done|]. intros name id d0 f c Hsp Hcap. specialize (Hw name id d0 f c Hsp Hcap).
  destruct (capacity_tracked f c Hcap) as [g Ht]. unfold extra_of, no_extra in *. case_decide as En; [|lia].
  subst name. destruct (decide (id ∈ di_ID <$> ni_Devices n)) as [Hin|Hin]; [|rewrite (Hno f g) by done; lia].
  apply list_elem_of_fmap in Hin as (d & -> & Hd). destruct (no_cards _ _ (sn_nodes _ _ _ Hsn) _ n Hl) as [_ Hf].
  rewrite Forall_forall in Hf. destruct (Hf d Hd) as (d1 & Hs1 & Hz). rewrite Hsp in Hs1. injection Hs1 as <-.
  rewrite <- (same_size_capacity f c d d0) by done. specialize (Hfit d f c Hd Hcap).
  pose proof (sn_below _ _ _ Hsn f g (ns_nodeID m) (di_ID d) Ht). lia.
Qed.

Lemma booked_overview_same T nodes' :
  same_nodes (t_sched T) (booked_overview T nodes') /\ s_pods (booked_overview T nodes') = s_pods (t_sched T).
Proof. unfold booked_overview. by destruct (t_owner T). Qed.

Lemma within_no_extra s pc :
  within spec (s_pods s) (reserved pc) -> pc_ok cfg spec s pc -> within spec (s_pods s) no_extra.
Proof.
  intros Hw Hpc name id d0 f c Hs Hc. specialize (Hw name id d0 f c Hs Hc). destruct (capacity_tracked f c Hc) as [g Ht].
  destruct pc; try done. destruct Hpc as [_ Hnn]. cbn in Hw. unfold extra_of, no_extra in *.
  pose proof (pod_amount_nonneg f g id _ Ht Hnn). case_decide; lia.
Qed.

(** The record of the chosen score is what was reserved for it. *)
Lemma record_within T pod m t :
  threads_ok cfg spec T -> t_filter T = Chosen pod m ->
  threads_ok cfg spec (at_pc T (addPod (t_sched T) pod (ns_nodeID m) (ns_devices m)) (Recorded pod m t)).
Proof.
  intros [Hn Hp Hw Hpc] E. rewrite E in Hw, Hpc. destruct Hpc as [Hnone Hnn].
  unfold addPod. rewrite Hnone. split; cbn; [by apply (nodes_of_same _ (t_sched T))| | |done].
  - by apply map_Forall_insert_2.
  - intros name id d0 f c Hs Hc. rewrite account_insert by done. cbn [pi_NodeID pi_Devices].
    specialize (Hw name id d0 f c Hs Hc). unfold no_extra. cbn in Hw. unfold extra_of in Hw. lia.
Qed.

(** ** Every step *)
Lemma thread_step_ok {W} `{!KubeClient W} zone l T T' :
  threads_ok cfg spec T -> allowed cfg spec T l -> thread_step (W := W) cfg zone l T T' -> threads_ok cfg spec T'.
Proof.
  intros HT Hl Hst. pose proof HT as [Hn Hp Hw Hpc]. destruct Hst as [T pod names E Hz|T pod names E Hz|T pod names E
    |T pod names overall E|T pod names overall E|T pod cache failed E Hnil|T pod cache failed p E Hall Hcs
    |T pod cache failed nodes' E Hall Hcs|T pod cache failed nodes' scores m E Hall Hcs Hm|T pod m t w w' E Hnow
    |T pod m t w w' E Hpat|T pod m t e w w' E Hpat|T pod e E|T obj|T oldObj newObj|T obj
    |T val devhandsk devreg s' copy' w w' Hreg|T names]; try rewrite E in *.
  - by apply (threads_ok_pc T).
  - pose proof (threads_ok_shrinks T _ HT (delPod_shrinks _ pod)) as HT'.
    destruct HT' as [Hn' Hp' Hw' _]. cbn in Hw', Hn', Hp'. rewrite E in Hw'. split; cbn; [done..|].
    split; [exact Hl|apply lookup_delete_eq].
  - apply (threads_ok_pc T); [done..|]. destruct Hpc as [Hpl Hnone]. cbn. split_and!; [done..|].
    by exists (t_sched T).
  - apply (threads_ok_pc T); [done..|]. destruct Hpc as (Hpl & Hnone & s0 & Hn0 & ->). cbn. split_and!; [done..|].
    exists (with_pod_table s0 (s_pods (t_sched T))). split; [|done].
    split; cbn; [by apply (nodes_of_same _ s0)|done|done|apply below_refl].
  - apply (threads_ok_pc T); [done..|]. destruct Hpc as (Hpl & Hnone & s0 & Hs0 & ->). cbn. split_and!; [done..|].
    exists s0. split; [done|]. intros id u. apply cache_pointers_lookup.
  - by apply (threads_ok_pc T).
  - by apply (threads_ok_pc T).
  - destruct (booked_overview_same T nodes') as [Hsn Hpo]. apply (threads_ok_pc T); [done..| |done]. by rewrite Hpo.
  - destruct (booked_overview_same T nodes') as [Hsn Hpo]. destruct Hpc as (Hpl & Hnone & s0 & Hs0 & Hc).
    assert (m ∈ scores) as Hin by (apply last_elem_of in Hm; by rewrite sort_perm in Hm).
    destruct (chosen_within s0 _ pod cache nodes' scores m Hpl Hs0 Hw Hc Hcs Hin) as [Hnn Hwm].
    apply (threads_ok_pc T); [done..| |]; cbn; by rewrite Hpo.
  - by apply record_within.
  - by apply (threads_ok_pc T).
  - by apply (threads_ok_pc T).
  - pose proof (threads_ok_shrinks T _ HT (delPod_shrinks _ pod)) as [Hn' Hp' Hw' _].
    cbn in Hw', Hn', Hp'. rewrite E in Hw'. by split.
  - apply threads_ok_shrinks; [done|]. by apply AddFunc_shrinks.
  - apply threads_ok_shrinks; [done|]. by apply AddFunc_shrinks.
  - apply threads_ok_shrinks; [done|]. apply DeleteFunc_shrinks.
  - destruct (register_device_cards zone val devhandsk devreg _ _ _ _ w w' Hn Hl Hreg). by apply threads_ok_nodes.
  - rewrite getNodesUsage_state by apply Hn. apply threads_ok_nodes; [done|by apply (nodes_of_same _ (t_sched T))|done].
Qed.
End steps.
