(* ===== verification/ThreadProps.v ===== *)
(** * Theorems on the scheduler's goroutines *)

From Stdlib Require Import ZArith Lia Ascii String Sorted.
From stdpp Require Import base decidable option gmap strings numbers sorting list relations.
From S2P Require Import Prelude GoStrings GoTime GoRuntime Types Kube NodeLock Codec Devices Score FitFacts BookFacts ScoreFacts CalcFacts Scheduler Register UsageFacts FilterFacts FilterProps RegisterProps SchedThreads ThreadFacts.

#[local] Open Scope Z_scope.

(** ** A call that is not interrupted *)
Section uninterrupted.
Context `{GoRuntime} {W : Type} `{!KubeClient W} (cfg : Config) (zone : Z).

Definition filter_runs : relation threads := rtc (thread_step (W := W) cfg zone LFilter).

(** When the nodes of the cache are in the overview, no pointer is nil. *)
Lemma cache_pointers_of s overall names :
  Forall (fun id => is_Some (overall !! id)) (cache_nodes s names).1 ->
  cache_pointers s overall names = Some <$> cached_usage overall (cache_nodes s names).1.
Proof.
  unfold cache_pointers, cached_usage. generalize (cache_nodes s names).1. intros l Hl.
  rewrite <- (fmap_empty (M := gmap string) (Some (A := NodeUsage))) at 1. generalize (∅ : gmap string NodeUsage).
  induction Hl as [|id l [u Hu] Hl IH]; intros m; cbn [foldl]; [done|]. by rewrite Hu, <- fmap_insert, IH.
Qed.

Lemma omap_Some_id (m : gmap string NodeUsage) : omap id (Some <$> m) = m.
Proof. apply map_eq. intros i. rewrite lookup_omap, lookup_fmap. by destruct (m !! i). Qed.

(** The steps up to the table of candidates. *)
Lemma filter_reads s copy owner answers pod names :
  nodes_ok s ->
  filter_runs (mkThreads s copy (Deleted pod names) owner answers)
    (mkThreads (getNodesUsage s names).1.1 copy
       (Cached pod (Some <$> (getNodesUsage s names).1.2) (getNodesUsage s names).2) true answers).
Proof.
  intros Hs. unfold filter_runs. eapply rtc_l; [by apply ts_nodes|]. cbn. eapply rtc_l; [by eapply ts_pods|]. cbn.
  eapply rtc_l; [by eapply ts_cache|]. cbn. fold (overview s). unfold getNodesUsage.
  pose proof (cache_nodes_spec s names Hs) as [Hc _].
  assert (cache_nodes (with_overview s (overview s)) names = cache_nodes s names) as Ec by done.
  rewrite cache_pointers_of; rewrite Ec.
  - destruct (cache_nodes s names) as [cached failed]. apply rtc_refl.
  - rewrite Hc. apply Forall_forall. intros id [[l Hl] _]%list_elem_of_filter. rewrite overview_spec by done.
    eexists. apply spec_usage_lookup. eexists. split; [|done]. unfold ListNodes. by rewrite lookup_fmap, Hl.
Qed.

(** [Filter] is an uninterrupted run of the steps. *)
Lemma filter_outcome_runs s copy owner answers pod names (w w' : W) r :
  nodes_ok s -> filter_outcome cfg s pod names w r w' ->
  exists T owner', thread_step (W := W) cfg zone (LCall pod names) (mkThreads s copy Idle owner answers) T
    /\ filter_runs T (mkThreads r.1.1 copy Idle owner' (answers ++ [(r.1.2, r.2)])).
Proof.
  intros Hs [Hz|nodes' Hz Ec|nodes' scores m t w1 err w2 Hz Ec Em En Ep].
  { eexists. exists owner. split; [by apply ts_no_device|apply rtc_refl]. }
  all: pose proof (filter_reads (delPod s pod) copy owner answers pod names Hs) as Hr.
  all: destruct (getNodesUsage (delPod s pod) names) as [[s1 usage] failed] eqn:Eg; cbn [fst snd] in *.
  all: assert (map_Forall (fun _ u => is_Some u) (Some <$> usage)) as Hall
    by (intros i u Hi; apply lookup_fmap_Some in Hi as (x & <- & _); by eexists).
  - eexists. exists true. split; [by apply ts_call|]. etransitivity; [exact Hr|].
    unfold filter_state. rewrite Eg. eapply rtc_l; [|apply rtc_refl].
    refine (ts_none _ _ (mkThreads s1 copy _ true answers) pod (Some <$> usage) failed nodes' _ Hall _); [done|].
    by rewrite omap_Some_id.
  - assert (filter_state s pod names nodes' = with_overview s1 (nodes' ∪ s_overviewstatus s1)) as Ef
      by (unfold filter_state; by rewrite Eg).
    rewrite Ef. eexists. exists true. split; [by apply ts_call|]. etransitivity; [exact Hr|].
    eapply rtc_l; [eapply ts_choose; [done|done|rewrite omap_Some_id; exact Ec|exact Em]|]. cbn.
    eapply rtc_l; [by eapply ts_record|]. cbn. destruct err as [e|].
    + eapply rtc_l; [eapply ts_refused; [done|unfold PatchPodAnnotations, call; by rewrite Ep]|]. cbn.
      eapply rtc_l; [by eapply ts_undo|]. apply rtc_refl.
    + eapply rtc_l; [eapply ts_patched; [done|unfold PatchPodAnnotations, call; by rewrite Ep]|]. apply rtc_refl.
Qed.
End uninterrupted.

(** The steps of all goroutines, as long as they are allowed. *)
Definition allowed_step `{GoRuntime} {W} `{!KubeClient W} (cfg : Config) (zone : Z) (spec : cluster_cards) : relation threads :=
  fun T T' => exists l, allowed cfg spec T l /\ thread_step (W := W) cfg zone l T T'.

(** The cards of [two_nodes]. *)
Definition two_nodes_cards : cluster_cards := fun name id =>
  n ← ListNodes two_nodes !! name; snd <$> list_find (fun d => di_ID d = id) (ni_Devices n).

Lemma two_nodes_cards_ok name id d0 : two_nodes_cards name id = Some d0 -> device_ok d0.
Proof.
  unfold two_nodes_cards. rewrite bind_Some. intros (n & Hn & Hd). apply fmap_Some in Hd as ([i d] & Hd & ->).
  apply list_find_Some in Hd as (Hd & _ & _). destruct (so_devices _ two_nodes_ok name n Hn) as [_ Hf].
  rewrite Forall_forall in Hf. by eapply Hf, list_elem_of_lookup_2.
Qed.

Definition two_nodes_threads : threads := mkThreads two_nodes ∅ Idle false [].

Lemma two_nodes_threads_ok : @threads_ok go_reference default_config two_nodes_cards two_nodes_threads.
Proof.
  split; cbn; [|done| |done].
  - split; [apply two_nodes_ok|]. intros name n Hn. split; [by eapply so_devices in Hn as [? _]; [|apply two_nodes_ok]|].
    apply two_nodes_cases in Hn as [[-> ->]|[-> ->]]; repeat (constructor; [by eexists|]); constructor.
  - intros name id d0 f c Hs Hc. destruct (two_nodes_cards_ok _ _ _ Hs) as [? ? ?].
    replace (account f name id ∅) with 0 by done. unfold no_extra. destruct Hc; lia.
Qed.

(** A pod whose annotations still name an earlier node. *)
Definition requeued_pod : Pod :=
  mkPod "p" "default" "uid-p" {[AssignedNodeAnnotations := "n2"]} (pod_Containers one_gpu_pod) "" "Pending".

Lemma pods_usage_None `{GoRuntime} overall pods name : overall !! name = None -> pods_usage overall pods !! name = None.
Proof.
  unfold pods_usage. generalize (range ("getNodesUsage"%string, 1%nat) pods). intros l.
  revert overall. induction l as [|[uid p] l IH]; intros overall Hn; cbn [foldl]; [done|]. apply IH.
  destruct (overall !! pi_NodeID p) as [u|] eqn:E; [|done]. rewrite lookup_insert_ne; [done|]. intros E'. congruence.
Qed.

Module ThreadProps.

(** C1. Allowed steps do not over-commit a device, however they interleave:
    from a state whose accounts fit the cards of the cluster, after any
    sequence of allowed steps of [Filter], the pod handlers and the
    registration, every registered device holds at most its count, memory and
    cores, and what a running [Filter] has chosen from its earlier reading of
    the tables still fits beside the pods recorded meanwhile.  Allowed are:
    one [Filter] at a time, for a pod of which each container asks for at most
    one kind of device, with nonnegative amounts and a percentage of at most
    101; a report that lists cards of the cluster, with distinct identifiers
    and the sizes of the cluster, each of which times 101 fits an int32; an
    add or update event only of a pod that is already recorded, has ended, or
    carries no assignment; any deletion.  An event that records an assignment
    the tables do not hold yet is not covered: such an event can over-commit a
    device (a stale one, or one of the first list that comes after a request). *)
Theorem interleaved_capacity `{GoRuntime} {W} `{!KubeClient W} cfg zone spec T T' :
  (forall name id d0, spec name id = Some d0 -> device_ok d0) -> threads_ok cfg spec T ->
  rtc (allowed_step (W := W) cfg zone spec) T T' ->
  state_ok (t_sched T') /\ within spec (s_pods (t_sched T')) (reserved (t_filter T')).
Proof.
  intros Hspec HT Hst. assert (threads_ok cfg spec T') as HT'.
  { induction Hst as [|T1 T2 T3 (l & Hl & Hs) _ IH]; [done|]. apply IH. by eapply thread_step_ok. }
  destruct HT' as [Hn Hp Hw Hpc]. split; [|done]. apply (snapshot_state_ok spec _ (s_pods (t_sched T'))); [done|].
  split; [done|done| |apply below_refl]. by eapply within_no_extra.
Qed.

Lemma interleaved_capacity_witness :
  let _ := go_reference in
  exists T', rtc (allowed_step (W := Server) default_config 0 two_nodes_cards) two_nodes_threads T'
    /\ state_ok (t_sched T') /\ length (t_answers T') = 1%nat.
Proof.
  destruct cluster_filter as (s' & m & w' & E). apply (@Filter_outcome go_reference Server server) in E.
  destruct (@filter_outcome_runs go_reference Server server default_config 0 two_nodes ∅ false [] one_gpu_pod _ _ _ _
    (so_nodes _ two_nodes_ok) E) as (T1 & owner & Hcall & Hrun).
  assert (rtc (@allowed_step go_reference Server server default_config 0 two_nodes_cards) two_nodes_threads
    (with_sched (mkThreads s' ∅ Idle owner [(Some (mkFilterResult (Some [m]) ∅ ""), None)]) (DeleteFunc s' (ObjPod one_gpu_pod)))) as Hst.
  { eapply rtc_l; [exists (LCall one_gpu_pod ["n1"; "n2"; "n3"]); split; [exact one_gpu_pod_placeable|exact Hcall]|].
    eapply rtc_r.
    - eapply rtc_subrel; [|exact Hrun]. intros x y Hxy. exists LFilter. split; [exact I|exact Hxy].
    - exists (LDelete (ObjPod one_gpu_pod)). split; [exact I|apply ts_delete]. }
  eexists. split; [exact Hst|]. split; [|reflexivity].
  exact (proj1 (@interleaved_capacity go_reference Server server default_config 0 two_nodes_cards _ _
    two_nodes_cards_ok two_nodes_threads_ok Hst)).
Defined.

(** The handler as a whole is its steps: when [Filter] returns, a request
    followed by steps of [Filter] only leads from the same tables to the
    tables it returns, with its answer the one added. *)
Theorem filter_steps_agree `{GoRuntime} {W} `{!KubeClient W} cfg zone s copy owner answers pod names (w : W) s' res err w' :
  nodes_ok s -> Filter cfg s pod names w = Ret ((s', res, err), w') ->
  exists T owner', thread_step (W := W) cfg zone (LCall pod names) (mkThreads s copy Idle owner answers) T
    /\ filter_runs (W := W) cfg zone T (mkThreads s' copy Idle owner' (answers ++ [(res, err)])).
Proof. intros Hs E. apply Filter_outcome in E. by apply (filter_outcome_runs _ zone _ copy owner answers) in E. Qed.

Lemma filter_steps_agree_witness :
  let _ := go_reference in
  exists T T', thread_step (W := Server) default_config 0 (LCall one_gpu_pod ["n1"; "n2"; "n3"]) two_nodes_threads T
    /\ filter_runs (W := Server) default_config 0 T T' /\ length (t_answers T') = 1%nat.
Proof.
  destruct cluster_filter as (s' & m & w' & E).
  destruct (@filter_steps_agree go_reference Server server default_config 0 two_nodes ∅ false [] one_gpu_pod _ _ _ _ _ _
    (so_nodes _ two_nodes_ok) E) as (T & owner & H1 & H2).
  exists T. eexists. split; [exact H1|]. split; [exact H2|reflexivity].
Defined.

(** A pod that is filtered again while an event still carries its previous
    assignment keeps the previous one in the scheduler's table: the event
    records it after [delPod], [addPod] leaves the record alone, [Filter]
    answers with the node it has chosen now and annotates it, and no later
    event of the running pod repairs the record. *)
Theorem stale_event_keeps_old_node `{GoRuntime} {W} `{!KubeClient W} cfg zone T pod m stale old nodeX t (w1 w2 w3 w4 : W) :
  t_filter T = Chosen pod m -> s_pods (t_sched T) !! pod_UID pod = None ->
  pod_UID stale = pod_UID pod -> pod_Annotations stale !! AssignedNodeAnnotations = Some nodeX ->
  IsPodInTerminatedState stale = false ->
  api_Now w1 = (t, w2) -> PatchPodAnnotations pod (filter_annotations t m) w3 = Ret (None, w4) ->
  exists T1 T2 p,
    thread_step (W := W) cfg zone (LUpdate old (ObjPod stale)) T T1 /\ filter_runs (W := W) cfg zone T1 T2
    /\ t_answers T2 = t_answers T ++ [(Some (mkFilterResult (Some [ns_nodeID m]) ∅ ""), None)]
    /\ s_pods (t_sched T2) !! pod_UID pod = Some p /\ pi_NodeID p = nodeX
    /\ forall ev, pod_UID ev = pod_UID pod -> IsPodInTerminatedState ev = false ->
         UpdateFunc (t_sched T2) old (ObjPod ev) = t_sched T2.
Proof.
  intros E Hnone Huid Hann Hterm Hnow Hpat. eexists. eexists. eexists. split; [apply ts_update|]. split.
  { eapply rtc_l; [by eapply (ts_record _ _ (with_sched T _))|]. eapply rtc_l; [by eapply ts_patched|]. apply rtc_refl. }
  cbn. unfold onAddPod. rewrite Hann, Hterm. set (pd := (DecodePodDevices _ _).1).
  assert (addPod (t_sched T) stale nodeX pd = with_pod_table (t_sched T)
    (<[pod_UID pod := mkPodInfo (pod_Namespace stale) (pod_Name stale) (pod_UID stale) nodeX pd]> (s_pods (t_sched T)))) as ->
    by (unfold addPod; by rewrite Huid, Hnone).
  rewrite addPod_recorded by (cbn; rewrite lookup_insert_eq; by eexists). split_and!; [done|apply lookup_insert_eq|done|].
  intros ev Hev Ht. destruct (pod_Annotations ev !! _); [|done]. rewrite Ht.
  apply addPod_recorded. cbn. rewrite Hev, lookup_insert_eq. by eexists.
Qed.

Lemma stale_event_keeps_old_node_witness :
  let _ := go_reference in
  let m := FilterProps.placed_score in
  exists T1 T2 p,
    thread_step (W := Server) default_config 0 (LUpdate (ObjPod requeued_pod) (ObjPod requeued_pod))
      (at_pc two_nodes_threads two_nodes (Chosen one_gpu_pod m)) T1
    /\ filter_runs (W := Server) default_config 0 T1 T2
    /\ t_answers T2 = [(Some (mkFilterResult (Some ["n1"]) ∅ ""), None)]
    /\ s_pods (t_sched T2) !! "uid-p" = Some p /\ pi_NodeID p = "n2".
Proof.
  destruct (@stale_event_keeps_old_node go_reference Server server default_config 0
    (at_pc two_nodes_threads two_nodes (Chosen one_gpu_pod FilterProps.placed_score)) one_gpu_pod
    FilterProps.placed_score requeued_pod (ObjPod requeued_pod) "n2"
    (fst (api_Now cluster)) cluster (snd (api_Now cluster)) cluster
    (snd (api_PatchPod "default" "p" (@filter_annotations go_reference (fst (api_Now cluster)) FilterProps.placed_score) cluster)))
    as (T1 & T2 & p & H1 & H2 & H3 & H4 & H5 & _);
    [vm_compute; reflexivity..|].
  exists T1, T2, p. split; [exact H1|]. split; [exact H2|]. split; [exact H3|]. split; [exact H4|exact H5].
Defined.

(** A node that is registered after [Filter] has read the nodes and before it
    looks its names up leads to a nil pointer, and [Filter] panics. *)
Theorem late_node_crashes `{GoRuntime} {W} `{!KubeClient W} cfg zone T pod names overall name :
  t_filter T = NodesRead pod names overall -> name ∈ names -> overall !! name = None ->
  nodes_ok (t_sched T) -> is_Some (s_nodes (t_sched T) !! name) ->
  exists T', filter_runs (W := W) cfg zone T T' /\ t_filter T' = Crashed NilDereference.
Proof.
  intros E Hin Hn Hok Hreg. eexists. split.
  - eapply rtc_l; [by eapply ts_pods|]. eapply rtc_l; [by eapply ts_cache|]. eapply rtc_l; [|apply rtc_refl].
    eapply ts_nil; [done|]. cbn. set (s1 := with_overview _ _). set (overall' := pods_usage _ _).
    assert (name ∈ (cache_nodes s1 names).1) as Hc.
    { destruct (cache_nodes_spec s1 names Hok) as [-> _]. by apply list_elem_of_filter. }
    assert (cache_pointers s1 overall' names !! name = Some None) as Hp.
    { apply cache_pointers_None; [done|]. by apply pods_usage_None. }
    intros Hall. by destruct (Hall name None Hp).
  - done.
Qed.
End ThreadProps.
