(* ===== verification/SchedServer.v ===== *)
(** * The scheduler as a server: routes and metrics

    The handlers of [pkg/scheduler/routes/route.go] around [Filter] and
    [Bind], and the collector of [cmd/scheduler/metrics.go], which turns the
    usage of the nodes and the devices of the scheduled pods into metrics.

    The JSON codec is a parameter.  A metric is its descriptor, its value and
    its label values; Prometheus identifies a series by descriptor and labels
    and refuses a scrape in which two metrics have the same ([scrape_ok]). *)

From Stdlib Require Import ZArith Lia Ascii String Sorted.
From stdpp Require Import base decidable option gmap strings numbers sorting list.
From S2P Require Import Prelude GoStrings GoTime GoRuntime Types Kube NodeLock Codec Devices Score Scheduler.

#[local] Open Scope Z_scope.

(** ** Routes *)
Record response := mkResponse { rs_status : Z; rs_body : string }.

Section routes.
Context `{GoRuntime} {W : Type} `{!KubeClient W} (cfg : Config) (zone : Z).

(** The decoded body of a request: the pod and the names of the nodes
    ([NodeNames] is a pointer); a missing pod is a nil pointer. *)
Record ExtenderArgs := mkExtenderArgs { ea_Pod : option Pod; ea_NodeNames : option (list string) }.

Context (marshal_filter : option ExtenderFilterResult -> string + error).

Definition error_result (err : error) : option ExtenderFilterResult := Some (mkFilterResult None ∅ err).

(** [body]: [None] is a request without a body. *)
Definition PredicateRoute (body : option (ExtenderArgs + error)) (s : Scheduler) : K W (Scheduler * response) :=
  let respond s result :=
    match marshal_filter result with
    | inr err => mret (s, mkResponse 500 err)
    | inl text => mret (s, mkResponse 200 text)
    end in
  match body with
  | None => lift (Panic NilDereference)
  | Some (inr err) => respond s (error_result err)
  | Some (inl args) =>
      match ea_Pod args, ea_NodeNames args with
      | Some pod, Some names =>
          '(s, result, err) ← Filter cfg s pod names;
          match err with
          | Some e => respond s (error_result e)
          | None => respond s result
          end
      | Some pod, None =>      (* [*nodes] of [getNodesUsage] *)
          if total_nums (Resourcereqs cfg pod) =? 0 then respond s (Some (mkFilterResult None ∅ ""))
          else lift (Panic NilDereference)
      | None, _ => lift (Panic NilDereference)
      end
  end.

Record ExtenderBindingArgs := mkBindingArgs { ba_PodName : string; ba_PodNamespace : string; ba_PodUID : string; ba_Node : string }.

(** [marshal_bind] is applied to the error of the result. *)
Context (marshal_bind : string -> string + error).

Definition BindRoute (body : ExtenderBindingArgs + error) : K W response :=
  result ← (match body with
            | inr err => mret err
            | inl args => Bind zone (ba_PodName args) (ba_PodNamespace args) (ba_PodUID args) (ba_Node args)
            end : K W string);
  mret (match marshal_bind result with
        | inr err => mkResponse 500 ("{'error':'" +:+ err +:+ "'}")
        | inl text => mkResponse 200 text
        end).
End routes.

(** ** Metrics *)
Inductive desc :=
| GPUDeviceMemoryLimit
| GPUDeviceCoreLimit
| GPUDeviceMemoryAllocated
| GPUDeviceSharedNum
| GPUDeviceCoreAllocated
| NodeGPUOverview
| NodeGPUMemoryPercentage
| VGPUPodsDeviceAllocated
| VGPUMemoryPercentage
| VGPUCorePercentage.

#[export] Instance desc_eq_dec : EqDecision desc.
Proof. solve_decision. Defined.

Record Metric := mkMetric { mt_desc : desc; mt_value : float64; mt_labels : list string }.

(** What Prometheus identifies a metric by, and its check of a scrape. *)
Definition series (m : Metric) : desc * list string := (mt_desc m, mt_labels m).
Definition scrape_ok (l : list Metric) : Prop := NoDup (series <$> l).

(** [float64(x)*float64(1024)*float64(1024)] *)
Definition bytes (x : Z) : float64 := f64_mul (f64_mul (f64_of_Z x) (f64_of_Z 1024)) (f64_of_Z 1024).

Definition device_metrics (nodeID : string) (devs : DeviceUsage) : list Metric :=
  let labels := [nodeID; du_Id devs; itoa (du_Index devs)] in
  [mkMetric GPUDeviceMemoryLimit (bytes (du_Totalmem devs)) labels;
   mkMetric GPUDeviceCoreLimit (f64_of_Z (du_Totalcore devs)) labels;
   mkMetric GPUDeviceMemoryAllocated (bytes (du_Usedmem devs)) (labels ++ [itoa (du_Usedcores devs)]);
   mkMetric GPUDeviceSharedNum (f64_of_Z (du_Used devs)) labels;
   mkMetric GPUDeviceCoreAllocated (f64_of_Z (du_Usedcores devs)) labels;
   mkMetric NodeGPUOverview (bytes (du_Usedmem devs))
     (labels ++ [itoa (du_Usedcores devs); itoa (du_Used devs); itoa (du_Totalmem devs); du_Type devs]);
   mkMetric NodeGPUMemoryPercentage (f64_div (f64_of_Z (du_Usedmem devs)) (f64_of_Z (du_Totalmem devs))) labels].

Section collect.
Context `{GoRuntime}.

Definition node_metrics (nu : gmap string NodeUsage) : list Metric :=
  concat ((fun '(nodeID, val) => concat (device_metrics nodeID <$> nu_Devices val)) <$> range ("Collect"%string, 0%nat) nu).

(** The memory of the first device with the UUID, in the order of the range
    [t] over the nodes; 0 when there is none. *)
Definition total_memory (t : loop_id) (nu : gmap string NodeUsage) (uuid : string) : Z :=
  match list_find (fun d => du_Id d = uuid) (concat ((fun x => nu_Devices x.2) <$> range t nu)) with
  | Some (_, d) => du_Totalmem d
  | None => 0
  end.

(** [where_] tells the executions of the inner range apart. *)
Definition device_share_metrics (nu : gmap string NodeUsage) (where_ : string) (val : podInfo) (kind : string) (k : nat)
    (d : ContainerDevice) : list Metric :=
  let labels := [pi_Namespace val; pi_NodeID val; pi_Name val; kind; cd_UUID d] in
  let totaldev := total_memory ("Collect " +:+ where_, k)%string nu (cd_UUID d) in
  mkMetric VGPUPodsDeviceAllocated (bytes (cd_Usedmem d)) (labels ++ [itoa (cd_Usedcores d)])
  :: (if 0 <? totaldev
      then [mkMetric VGPUMemoryPercentage (f64_div (f64_of_Z (cd_Usedmem d)) (f64_of_Z totaldev)) labels] else [])
  ++ [mkMetric VGPUCorePercentage (f64_of_Z (cd_Usedcores d)) labels].

(** [ctridx] of the source ranges over a map, so it is the kind of device. *)
Definition kind_metrics (nu : gmap string NodeUsage) (val : podInfo) (ctridx : string) (podSingleDevice : PodSingleDevice)
    : list Metric :=
  concat (imap (fun c ctrdevs =>
      concat (imap (fun k d => device_share_metrics nu (pi_Uid val +:+ " " +:+ ctridx +:+ " " +:+ itoa (Z.of_nat c))%string
                                 val ctridx k d) ctrdevs)) podSingleDevice).

Definition pod_metrics (nu : gmap string NodeUsage) (val : podInfo) : list Metric :=
  concat ((fun '(ctridx, podSingleDevice) => kind_metrics nu val ctridx podSingleDevice)
    <$> range ("Collect " +:+ pi_Uid val, 1%nat)%string (pi_Devices val)).

Definition Collect (sher : Scheduler) : list Metric :=
  let nu := InspectAllNodesUsage sher in
  node_metrics nu
  ++ concat ((fun x => pod_metrics nu x.2) <$> range ("Collect"%string, 2%nat) (GetScheduledPods sher)).
End collect.

(** ** When the series of a scrape are distinct *)

(** Pieces whose keys show which piece they are of. *)
Lemma NoDup_pieces {A B C T} (key : B -> C) (g : A -> list B) (tag : A -> T) (rd : C -> T) l :
  (forall a b, a ∈ l -> b ∈ g a -> rd (key b) = tag a) -> NoDup (tag <$> l) ->
  (forall a, a ∈ l -> NoDup (key <$> g a)) -> NoDup (key <$> concat (g <$> l)).
Proof.
  induction l as [|a l IH]; intros Hrd Hnd Hg; cbn [fmap list_fmap concat]; [constructor|].
  apply NoDup_cons in Hnd as [Ha Hnd]. rewrite fmap_app. apply NoDup_app. split_and!.
  - apply Hg. by left.
  - intros c (b & -> & Hb)%list_elem_of_fmap (b' & E & Hb')%list_elem_of_fmap.
    apply elem_of_concat in Hb' as (x & Hb' & (a' & -> & Ha')%list_elem_of_fmap).
    apply Ha, list_elem_of_fmap. exists a'. split; [|done].
    rewrite <- (Hrd a b) by (done || by left). rewrite E. apply Hrd; [by right|done].
  - apply IH; [|done|]; intros; [apply Hrd|apply Hg]; try done; by right.
Qed.

(** Keys of different pieces of a list without duplicates differ. *)
Lemma NoDup_pieces_apart {B C} (key : B -> C) (L : list (list B)) i j l k x y :
  NoDup (key <$> concat L) -> L !! i = Some l -> L !! j = Some k -> (i < j)%nat -> x ∈ l -> y ∈ k -> key x <> key y.
Proof.
  revert i j. induction L as [|h L IH]; intros i j Hnd Hi Hj Hlt Hx Hy; [done|].
  cbn [concat] in Hnd. rewrite fmap_app in Hnd. apply NoDup_app in Hnd as (_ & Hd & Hnd).
  destruct i as [|i], j as [|j]; try lia; cbn in Hi, Hj.
  - injection Hi as ->. intros E. apply (Hd (key x)); [by apply list_elem_of_fmap_2|]. rewrite E.
    apply list_elem_of_fmap_2, elem_of_concat. exists k. split; [done|]. by eapply list_elem_of_lookup_2.
  - apply (IH i j); try done. lia.
Qed.

Lemma NoDup_piece {B C} (key : B -> C) (L : list (list B)) l : NoDup (key <$> concat L) -> l ∈ L -> NoDup (key <$> l).
Proof.
  induction L as [|h L IH]; intros Hnd Hl; [by apply elem_of_nil in Hl|].
  cbn [concat] in Hnd. rewrite fmap_app in Hnd. apply NoDup_app in Hnd as (Hh & _ & Hnd).
  apply elem_of_cons in Hl as [->|Hl]; [done|by apply IH].
Qed.

(** The label values at the positions that tell the pieces apart. *)
Definition label (i : nat) (x : desc * list string) : string := default ""%string (x.2 !! i).

Lemma device_metrics_labels nodeID d m :
  m ∈ device_metrics nodeID d -> label 0 (series m) = nodeID /\ label 1 (series m) = du_Id d.
Proof. unfold device_metrics. intros Hm. repeat (apply elem_of_cons in Hm as [->|Hm]; [done|]). by apply elem_of_nil in Hm. Qed.

Lemma device_metrics_distinct nodeID d : NoDup (series <$> device_metrics nodeID d).
Proof.
  apply (NoDup_fmap_1 fst). change (NoDup [GPUDeviceMemoryLimit; GPUDeviceCoreLimit; GPUDeviceMemoryAllocated;
    GPUDeviceSharedNum; GPUDeviceCoreAllocated; NodeGPUOverview; NodeGPUMemoryPercentage]).
  apply (bool_decide_unpack _). by vm_compute.
Qed.

Section distinct.
Context `{GoRuntime}.

(** Every device of a node has its own identifier. *)
Definition ids_distinct (nu : gmap string NodeUsage) : Prop :=
  map_Forall (fun _ u => NoDup (du_Id <$> nu_Devices u)) nu.

Lemma node_metrics_distinct nu : ids_distinct nu -> NoDup (series <$> node_metrics nu).
Proof.
  intros Hd. unfold node_metrics.
  apply (NoDup_pieces series (fun '(nodeID, val) => concat (device_metrics nodeID <$> nu_Devices val)) fst (label 0)).
  - intros [n u] m _ (l & Hm & (d & -> & _)%list_elem_of_fmap)%elem_of_concat. by apply device_metrics_labels in Hm as [? _].
  - apply range_NoDup.
  - intros [n u] Hin%elem_of_range.
    apply (NoDup_pieces series (device_metrics n) du_Id (label 1)).
    + intros d m _ Hm. by apply device_metrics_labels in Hm as [_ ?].
    + apply (Hd n u Hin).
    + intros d _. apply device_metrics_distinct.
Qed.

Lemma share_labels nu wh val kind k d m :
  m ∈ device_share_metrics nu wh val kind k d ->
  label 0 (series m) = pi_Namespace val /\ label 2 (series m) = pi_Name val
  /\ label 3 (series m) = kind /\ label 4 (series m) = cd_UUID d.
Proof.
  unfold device_share_metrics. intros [->|Hm]%elem_of_cons; [done|].
  apply elem_of_app in Hm as [Hm|Hm%list_elem_of_singleton]; [|by subst m].
  destruct (0 <? _); [apply list_elem_of_singleton in Hm as ->; done|by apply elem_of_nil in Hm].
Qed.

Lemma share_distinct nu wh val kind k d : NoDup (series <$> device_share_metrics nu wh val kind k d).
Proof.
  apply (NoDup_fmap_1 fst). unfold device_share_metrics. destruct (0 <? _); cbn; apply (bool_decide_unpack _); by vm_compute.
Qed.

(** The devices of the containers with their places. *)
Definition places (ps : PodSingleDevice) : list (nat * nat * ContainerDevice) :=
  concat (imap (fun c ctr => imap (fun k d => (c, k, d)) ctr) ps).

Lemma places_from (f : nat -> nat) (ps : PodSingleDevice) :
  (fun x => x.2) <$> concat (imap (fun c ctr => imap (fun k d => (f c, k, d)) ctr) ps) = concat ps.
Proof.
  revert f. induction ps as [|ctr ps IH]; intros f; [done|]. cbn [imap concat]. rewrite fmap_app.
  f_equal; [|apply (IH (fun c => f (S c)))]. rewrite fmap_imap.
  assert (forall g : nat -> nat, imap (fun i d => (f 0%nat, g i, d).2) ctr = ctr) as Hg; [|apply (Hg (fun i => i))].
  induction ctr as [|d ctr' IH']; intros g; [done|]. cbn. f_equal. apply (IH' (fun i => g (S i))).
Qed.

Lemma places_devices ps : (fun x => x.2) <$> places ps = concat ps.
Proof. apply (places_from (fun c => c)). Qed.

Definition place_metrics (nu : gmap string NodeUsage) (val : podInfo) (kind : string) (x : nat * nat * ContainerDevice) : list Metric :=
  device_share_metrics nu (pi_Uid val +:+ " " +:+ kind +:+ " " +:+ itoa (Z.of_nat x.1.1))%string val kind x.1.2 x.2.

Lemma kind_metrics_places nu val kind ps :
  kind_metrics nu val kind ps = concat (place_metrics nu val kind <$> places ps).
Proof.
  unfold kind_metrics, places.
  assert (forall f : nat -> nat,
    concat (imap (fun c ctrdevs => concat (imap (fun k d =>
        place_metrics nu val kind (f c, k, d)) ctrdevs)) ps)
    = concat (place_metrics nu val kind <$> concat (imap (fun c ctr => imap (fun k d => (f c, k, d)) ctr) ps))) as Hf;
    [|apply (Hf (fun c => c))].
  induction ps as [|ctr ps IH]; intros f; [done|]. cbn [imap concat]. rewrite fmap_app, concat_app.
  f_equal; [by rewrite fmap_imap|apply (IH (fun c => f (S c)))].
Qed.

(** No kind of device of the pod has a card twice. *)
Definition cards_distinct (p : podInfo) : Prop :=
  map_Forall (fun _ ps => NoDup (cd_UUID <$> concat ps)) (pi_Devices p).

Lemma pod_metric_labels nu val m :
  m ∈ pod_metrics nu val -> label 0 (series m) = pi_Namespace val /\ label 2 (series m) = pi_Name val.
Proof.
  unfold pod_metrics. intros (l & Hm & ([kind ps] & -> & _)%list_elem_of_fmap)%elem_of_concat.
  rewrite kind_metrics_places in Hm. apply elem_of_concat in Hm as (l & Hm & (x & -> & _)%list_elem_of_fmap).
  by apply share_labels in Hm as (? & ? & _).
Qed.

Lemma pod_metrics_distinct nu val : cards_distinct val -> NoDup (series <$> pod_metrics nu val).
Proof.
  intros Hc. unfold pod_metrics.
  apply (NoDup_pieces series (fun '(ctridx, ps) => kind_metrics nu val ctridx ps) fst (label 3)).
  - intros [kind ps] m _ Hm. rewrite kind_metrics_places in Hm.
    apply elem_of_concat in Hm as (l & Hm & (x & -> & _)%list_elem_of_fmap). by apply share_labels in Hm as (_ & _ & ? & _).
  - apply range_NoDup.
  - intros [kind ps] Hin%elem_of_range. rewrite kind_metrics_places.
    apply (NoDup_pieces series (place_metrics nu val kind) (fun x => cd_UUID x.2) (label 4)).
    + intros x m _ Hm. by apply share_labels in Hm as (_ & _ & _ & ?).
    + pose proof (Hc kind ps Hin) as Hnd. cbn in Hnd. rewrite <- places_devices, <- list_fmap_compose in Hnd. exact Hnd.
    + intros x _. apply share_distinct.
Qed.

(** The metrics of nodes and of pods have descriptors of their own. *)
Definition pod_desc (d : desc) : bool :=
  match d with VGPUPodsDeviceAllocated | VGPUMemoryPercentage | VGPUCorePercentage => true | _ => false end.

Lemma node_metrics_desc nu m : m ∈ node_metrics nu -> pod_desc (mt_desc m) = false.
Proof.
  unfold node_metrics. intros (l & Hm & ([n u] & -> & _)%list_elem_of_fmap)%elem_of_concat.
  apply elem_of_concat in Hm as (l & Hm & (d & -> & _)%list_elem_of_fmap).
  unfold device_metrics in Hm. repeat (apply elem_of_cons in Hm as [->|Hm]; [done|]). by apply elem_of_nil in Hm.
Qed.

Lemma pod_metrics_desc nu val m : m ∈ pod_metrics nu val -> pod_desc (mt_desc m) = true.
Proof.
  unfold pod_metrics. intros (l & Hm & ([kind ps] & -> & _)%list_elem_of_fmap)%elem_of_concat.
  rewrite kind_metrics_places in Hm. apply elem_of_concat in Hm as (l & Hm & (x & -> & _)%list_elem_of_fmap).
  unfold place_metrics, device_share_metrics in Hm. apply elem_of_cons in Hm as [->|Hm]; [done|].
  apply elem_of_app in Hm as [Hm|Hm%list_elem_of_singleton]; [|by subst m].
  destruct (0 <? _); [apply list_elem_of_singleton in Hm as ->; done|by apply elem_of_nil in Hm].
Qed.

(** Pods are told apart by namespace and name. *)
Definition pods_named (pods : gmap string podInfo) : Prop :=
  forall u1 u2 p1 p2, pods !! u1 = Some p1 -> pods !! u2 = Some p2 ->
    pi_Namespace p1 = pi_Namespace p2 -> pi_Name p1 = pi_Name p2 -> u1 = u2.

Lemma pods_tags_distinct t (pods : gmap string podInfo) :
  pods_named pods -> NoDup ((fun x => (pi_Namespace x.2, pi_Name x.2)) <$> range t pods).
Proof.
  intros Hn. apply NoDup_fmap_2_strong.
  - intros [u1 p1] [u2 p2] H1%elem_of_range H2%elem_of_range [= E1 E2].
    assert (u1 = u2) as -> by (by apply (Hn u1 u2 p1 p2)). congruence.
  - apply (NoDup_fmap_1 fst), range_NoDup.
Qed.
End distinct.

Module SchedServerProps.

(** A scrape of the scheduler's metrics is well formed, that is, no two of
    its metrics have the same name and labels, when the devices of each node
    have distinct identifiers and no pod has the same card twice, whatever
    order the maps are walked in. *)
Theorem scrape_distinct `{GoRuntime} sher :
  ids_distinct (InspectAllNodesUsage sher) -> pods_named (GetScheduledPods sher) ->
  map_Forall (fun _ p => cards_distinct p) (GetScheduledPods sher) ->
  scrape_ok (Collect sher).
Proof.
  intros Hi Hn Hc. unfold scrape_ok, Collect. rewrite fmap_app. apply NoDup_app. split_and!.
  - by apply node_metrics_distinct.
  - intros x (m & -> & Hm%node_metrics_desc)%list_elem_of_fmap (m' & E & Hm')%list_elem_of_fmap.
    apply elem_of_concat in Hm' as (l & Hm' & (y & -> & _)%list_elem_of_fmap). apply pod_metrics_desc in Hm'.
    injection E as E _. congruence.
  - apply (NoDup_pieces series (fun x => pod_metrics (InspectAllNodesUsage sher) x.2)
      (fun x => (pi_Namespace x.2, pi_Name x.2)) (fun y => (label 0 y, label 2 y))).
    + intros x m _ Hm. by apply pod_metric_labels in Hm as [-> ->].
    + by apply pods_tags_distinct.
    + intros [u p] Hin%elem_of_range. apply pod_metrics_distinct. by apply (Hc u).
Qed.

Definition busy_pod (card : string) : PodDevices :=
  {["NVIDIA" := [[mkContainerDevice 0 "GPU-a" "NVIDIA" 1000 30]; [mkContainerDevice 0 card "NVIDIA" 1000 30]]]}.
Definition busy (card : string) : Scheduler :=
  addPod NewScheduler (mkPod "p" "default" "uid" ∅ [] "" "") "n1" (busy_pod card).

Lemma busy_pods card :
  GetScheduledPods (busy card) = {["uid"%string := mkPodInfo "default" "p" "uid" "n1" (busy_pod card)]}.
Proof. reflexivity. Qed.

Lemma scrape_distinct_witness : let _ := go_reference in scrape_ok (Collect (busy "GPU-b")).
Proof.
  intros rt. apply scrape_distinct.
  - apply map_Forall_empty.
  - rewrite busy_pods. by intros u1 u2 p1 p2 [<- _]%lookup_singleton_Some [<- _]%lookup_singleton_Some _ _.
  - rewrite busy_pods. apply map_Forall_singleton, map_Forall_singleton.
    apply (bool_decide_unpack (NoDup _)). vm_compute. exact I.
Defined.

(** Two containers of a pod on the same card break the scrape: the label
    that should be the container's index is the kind of device (the loop
    ranges over a map of kinds), so the two containers give the same series
    and Prometheus refuses the whole scrape. *)
Theorem shared_card_breaks_scrape `{GoRuntime} sher uid p kind ps i j ci cj d d' :
  GetScheduledPods sher !! uid = Some p -> pi_Devices p !! kind = Some ps ->
  ps !! i = Some ci -> ps !! j = Some cj -> (i < j)%nat -> d ∈ ci -> d' ∈ cj -> cd_UUID d = cd_UUID d' ->
  ~ scrape_ok (Collect sher).
Proof.
  intros Hp Hk Hi Hj Hlt Hd Hd' E Hnd. unfold scrape_ok, Collect in Hnd. rewrite fmap_app in Hnd.
  apply NoDup_app in Hnd as (_ & _ & Hnd).
  apply (NoDup_piece series _ (pod_metrics (InspectAllNodesUsage sher) p)) in Hnd.
  2:{ apply list_elem_of_fmap. exists (uid, p). split; [done|]. by apply elem_of_range. }
  apply (NoDup_piece series _ (kind_metrics (InspectAllNodesUsage sher) p kind ps)) in Hnd.
  2:{ apply list_elem_of_fmap. exists (kind, ps). split; [done|]. by apply elem_of_range. }
  unfold kind_metrics in Hnd.
  apply list_elem_of_lookup in Hd as [k Hd]. apply list_elem_of_lookup in Hd' as [k' Hd'].
  set (core d := mkMetric VGPUCorePercentage (f64_of_Z (cd_Usedcores d))
    [pi_Namespace p; pi_NodeID p; pi_Name p; kind; cd_UUID d]).
  assert (forall nu wh k d, core d ∈ device_share_metrics nu wh p kind k d) as Hcore.
  { intros. unfold device_share_metrics. right. apply elem_of_app. right. by left. }
  eapply (NoDup_pieces_apart series _ i j _ _ (core d) (core d') Hnd).
  - by rewrite list_lookup_imap, Hi.
  - by rewrite list_lookup_imap, Hj.
  - done.
  - apply elem_of_concat. eexists. split; [apply Hcore|]. apply list_elem_of_lookup. exists k. by rewrite list_lookup_imap, Hd.
  - apply elem_of_concat. eexists. split; [apply Hcore|]. apply list_elem_of_lookup. exists k'. by rewrite list_lookup_imap, Hd'.
  - unfold series, core. cbn. by rewrite E.
Qed.

Lemma shared_card_breaks_scrape_witness : let _ := go_reference in ~ scrape_ok (Collect (busy "GPU-a")).
Proof.
  intros rt. eapply (shared_card_breaks_scrape _ "uid" _ "NVIDIA" _ 0 1); [reflexivity|reflexivity|reflexivity|reflexivity|lia|by left|by left|reflexivity].
Defined.
End SchedServerProps.
