(* ===== verification/Webhook.v ===== *)
(** * The admission webhook ([pkg/scheduler/webhook.go])

    [Handle] runs the vendors over the containers of a pod; the vendors change
    the container in place and tell whether it asks for their resource.  The
    decoder, the JSON encoding and the JSON patch are not part of the
    repository: [Handle] takes what the decoder returns and answers with the
    pod the patch leads to. *)

From Stdlib Require Import ZArith Lia Ascii String.
From stdpp Require Import base decidable option gmap strings numbers sorting list.
From S2P Require Import Prelude GoStrings GoRuntime Types Devices.

#[local] Open Scope Z_scope.

(** [admission.Response] *)
Inductive Response :=
| Errored (code : Z) (err : error)
| Denied (reason : string)
| Allowed (reason : string)
| Patched (pod : Pod).

Definition is_privileged (ctr : Container) : bool := default false (ctr_Privileged ctr).

(** [hasResource = hasResource || val.MutateAdmission(c)]: the call is skipped
    once a resource was found. *)
Fixpoint mutate_loop (vendors : list (string * Devices)) (hasResource : bool) (c : Container)
    : bool * Container :=
  match vendors with
  | [] => (hasResource, c)
  | (_, val) :: vendors' =>
      if hasResource then mutate_loop vendors' hasResource c
      else let '(c, found) := MutateAdmission val c in mutate_loop vendors' found c
  end.

Section webhook.
Context `{GoRuntime} (cfg : Config).

Fixpoint handle_containers (idx : nat) (ctrs : list Container) (hasResource : bool)
    : bool * list Container :=
  match ctrs with
  | [] => (hasResource, [])
  | ctr :: ctrs' =>
      let '(hasResource, c) :=
        if is_privileged ctr then (hasResource, ctr)
        else mutate_loop (range ("Handle", idx) (GetDevices cfg)) hasResource ctr in
      let '(hasResource, cs) := handle_containers (S idx) ctrs' hasResource in
      (hasResource, c :: cs)
  end.

Definition with_containers (pod : Pod) (ctrs : list Container) (schedulerName : string) : Pod :=
  mkPod (pod_Name pod) (pod_Namespace pod) (pod_UID pod) (pod_Annotations pod) ctrs schedulerName
    (pod_Phase pod).

Definition Handle (decoded : Pod + error) : Response :=
  match decoded with
  | inr err => Errored 400 err
  | inl pod =>
      if decide (pod_Containers pod = []) then Denied "pod has no containers"
      else
        let '(hasResource, ctrs) := handle_containers 0 (pod_Containers pod) false in
        if negb hasResource then Allowed "no resource found"
        else
          Patched (with_containers pod ctrs
            (if decide (SchedulerName cfg = "") then pod_SchedulerName pod else SchedulerName cfg))
  end.
End webhook.

(** ** What the containers become *)

(** A vendor asks for the container. *)
Definition wants (cfg : Config) (ctr : Container) : Prop :=
  is_Some (ctr_Limits ctr !! ResourceName cfg) \/ is_Some (ctr_Limits ctr !! MLUResourceMemory cfg)
  \/ is_Some (ctr_Limits ctr !! MLUResourceCount cfg) \/ is_Some (ctr_Limits ctr !! HygonResourceCount cfg).

#[export] Instance wants_dec cfg ctr : Decision (wants cfg ctr).
Proof. unfold wants. apply _. Defined.

Lemma mutate_loop_true vendors c : mutate_loop vendors true c = (true, c).
Proof. induction vendors as [|[k v] vs IH]; [done|exact IH]. Qed.

Section facts.
Context `{GoRuntime} (cfg : Config).

(** A vendor never touches the limits, and tells whether it wants the
    container. *)
Lemma vendor_mutates k v c :
  GetDevices cfg !! k = Some v ->
  ctr_Limits (MutateAdmission v c).1 = ctr_Limits c
  /\ ((MutateAdmission v c).2 = true -> wants cfg c).
Proof.
  intros [(-> & ->)|[(-> & ->)|(-> & ->)]]%GetDevices_cases; cbn.
  - unfold cambricon.cambricon_MutateAdmission, wants. case_decide; cbn; [by auto|].
    split; [done|]. intros Hb. bool_to_prop. auto.
  - unfold nvidia.nvidia_MutateAdmission, wants. cbn. split; [by case_match|]. intros Hb. bool_to_prop. auto.
  - unfold wants. split; [done|]. intros Hb. bool_to_prop. auto.
Qed.

Lemma vendor_wants c :
  wants cfg c -> exists k v, GetDevices cfg !! k = Some v
    /\ forall c', ctr_Limits c' = ctr_Limits c -> (MutateAdmission v c').2 = true.
Proof.
  intros [Hw|[Hw|[Hw|Hw]]].
  - exists "NVIDIA"%string, (nvidia.InitNvidiaDevice cfg). split; [done|]. intros c' E. cbn.
    rewrite E. by apply bool_decide_true.
  - exists "Cambricon"%string, (cambricon.InitMLUDevice cfg). split; [done|]. intros c' E. cbn.
    unfold cambricon.cambricon_MutateAdmission. rewrite E. by rewrite decide_True.
  - exists "Cambricon"%string, (cambricon.InitMLUDevice cfg). split; [done|]. intros c' E. cbn.
    unfold cambricon.cambricon_MutateAdmission. rewrite E. case_decide; [done|]. by apply bool_decide_true.
  - exists "Hygon"%string, (hygon.InitDCUDevice cfg). split; [done|]. intros c' E. cbn.
    rewrite E. by apply bool_decide_true.
Qed.

Lemma mutate_loop_wants vendors c :
  (forall k v, (k, v) ∈ vendors -> GetDevices cfg !! k = Some v) ->
  ((mutate_loop vendors false c).1 = true -> wants cfg c)
  /\ ((exists k v, (k, v) ∈ vendors /\ forall c', ctr_Limits c' = ctr_Limits c -> (MutateAdmission v c').2 = true) ->
      (mutate_loop vendors false c).1 = true)
  /\ ctr_Limits (mutate_loop vendors false c).2 = ctr_Limits c.
Proof.
  revert c. induction vendors as [|[k v] vs IH]; intros c Hv; cbn [mutate_loop].
  { split_and!; [done| |done]. intros (k & v & Hin & _). by apply not_elem_of_nil in Hin. }
  destruct (vendor_mutates k v c (Hv k v ltac:(left))) as [Hl Hw].
  destruct (MutateAdmission v c) as [c1 found] eqn:E. cbn [fst snd] in *. destruct found.
  { rewrite mutate_loop_true. cbn. split_and!; [auto|done|done]. }
  destruct (IH c1) as (H1 & H2 & H3); [by intros; apply Hv; right|]. split_and!.
  - intros Hm. specialize (H1 Hm). unfold wants in *. by rewrite Hl in H1.
  - intros (k' & v' & [[= -> ->]|Hin]%elem_of_cons & Hmut).
    + specialize (Hmut c eq_refl). by rewrite E in Hmut.
    + apply H2. exists k', v'. split; [done|]. intros c' Hc'. apply Hmut. congruence.
  - congruence.
Qed.

(** The containers before the first that is wanted and not privileged keep
    their limits; that one is found; the ones after it are not touched. *)
Lemma handle_containers_found idx ctrs : handle_containers cfg idx ctrs true = (true, ctrs).
Proof.
  revert idx. induction ctrs as [|c cs IH]; intros idx; cbn [handle_containers]; [done|].
  rewrite mutate_loop_true. destruct (is_privileged c); by rewrite IH.
Qed.

Lemma handle_containers_spec idx ctrs :
  (handle_containers cfg idx ctrs false).1 = true <->
  Exists (fun c => is_privileged c = false /\ wants cfg c) ctrs.
Proof.
  revert idx. induction ctrs as [|c cs IH]; intros idx; cbn [handle_containers].
  { split; [done|]. by intros ?%Exists_nil. }
  rewrite Exists_cons. destruct (is_privileged c) eqn:Ep.
  - specialize (IH (S idx)). destruct (handle_containers cfg (S idx) cs false) as [h cs']. cbn in *. naive_solver.
  - destruct (mutate_loop_wants (range ("Handle", idx)%string (GetDevices cfg)) c) as (H1 & H2 & _).
    { intros k v. apply elem_of_range. }
    destruct (mutate_loop (range ("Handle", idx)%string (GetDevices cfg)) false c) as [found c1]. cbn [fst snd] in *.
    destruct found.
    + rewrite handle_containers_found. cbn. split; [intros _; left; auto|done].
    + specialize (IH (S idx)). destruct (handle_containers cfg (S idx) cs false) as [h cs']. cbn in *.
      rewrite IH. split; [by right|]. intros [[_ Hw]|?]; [|done].
      destruct (vendor_wants c Hw) as (k & v & Hk & Hmut). enough (false = true) by done. apply H2.
      exists k, v. split; [by apply elem_of_range|done].
Qed.

Lemma handle_containers_after idx pre c post :
  is_privileged c = false -> wants cfg c ->
  exists pre' c', (handle_containers cfg idx (pre ++ c :: post) false).2 = pre' ++ c' :: post
    /\ length pre' = length pre.
Proof.
  intros Hp Hw. revert idx. induction pre as [|x pre IH]; intros idx; cbn [app handle_containers].
  - rewrite Hp. destruct (mutate_loop_wants (range ("Handle", idx)%string (GetDevices cfg)) c) as (_ & H2 & _).
    { intros k v. apply elem_of_range. }
    destruct (mutate_loop (range ("Handle", idx)%string (GetDevices cfg)) false c) as [found c1]. cbn [fst] in H2.
    assert (found = true) as ->.
    { apply H2. destruct (vendor_wants c Hw) as (k & v & Hk & Hmut). exists k, v.
      split; [by apply elem_of_range|done]. }
    rewrite handle_containers_found. by exists [], c1.
  - destruct (if is_privileged x then _ else _) as [found x1]. destruct found.
    + rewrite handle_containers_found. exists (x1 :: pre), c. done.
    + destruct (IH (S idx)) as (pre' & c' & E & Hlen).
      destruct (handle_containers cfg (S idx) (pre ++ c :: post) false) as [h cs']. cbn in *. subst cs'.
      exists (x1 :: pre'), c'. cbn. by rewrite Hlen.
Qed.
End facts.

(** ** The containers the webhook returns *)
Section containers.
Context `{GoRuntime} (cfg : Config).

(** The container with its priority in the environment. *)
Definition with_priority (c : Container) : Container :=
  mkContainer (ctr_Name c) (ctr_Limits c) (ctr_Requests c)
    (ctr_Env c ++ match ctr_Limits c !! ResourcePriority cfg with
                  | Some q => [(api.TaskPriority, itoa (q_Value q))]
                  | None => []
                  end) (ctr_PostStart c) (ctr_Privileged c).

Definition taken (c : Container) : Prop := is_privileged c = false /\ wants cfg c.

Definition passed (c : Container) : Container := if is_privileged c then c else with_priority c.

Definition unwanted_mlu (c : Container) : Prop :=
  ctr_Limits c !! MLUResourceMemory cfg = None /\ ctr_Limits c !! MLUResourceCount cfg = None.

Lemma nvidia_mutates c :
  nvidia.nvidia_MutateAdmission cfg c = (with_priority c, bool_decide (is_Some (ctr_Limits c !! ResourceName cfg))).
Proof.
  unfold nvidia.nvidia_MutateAdmission, with_priority. destruct (ctr_Limits c !! ResourcePriority cfg); [done|].
  rewrite app_nil_r. by destruct c.
Qed.

Lemma cambricon_ignores c : unwanted_mlu c -> cambricon.cambricon_MutateAdmission cfg c = (c, false).
Proof.
  intros [Hm Hc]. unfold cambricon.cambricon_MutateAdmission. rewrite Hm, Hc. rewrite decide_False by by intros [].
  by rewrite bool_decide_false by by intros [].
Qed.

Definition registered_vendors (vendors : list (string * Devices)) : Prop :=
  NoDup vendors.*1 /\ forall k v, (k, v) ∈ vendors -> GetDevices cfg !! k = Some v.

Lemma registered_vendors_tail x vendors : registered_vendors (x :: vendors) -> registered_vendors vendors.
Proof. intros [Hnd Hv]. split; [by apply NoDup_cons in Hnd as [_ ?]|]. intros k v Hin. apply Hv. by right. Qed.

(** Without a limit for MLU or DCU cards only the NVIDIA vendor acts: it adds
    the priority, and it takes the container over when it has its limit. *)
Lemma mutate_loop_nvidia vendors c :
  registered_vendors vendors -> unwanted_mlu c -> ctr_Limits c !! HygonResourceCount cfg = None ->
  mutate_loop vendors false c
  = if decide ("NVIDIA"%string ∈ vendors.*1)
    then (bool_decide (is_Some (ctr_Limits c !! ResourceName cfg)), with_priority c) else (false, c).
Proof.
  induction vendors as [|[k v] vs IH]; intros Hr Hm Hd; cbn [mutate_loop].
  { rewrite decide_False by apply not_elem_of_nil. done. }
  pose proof (registered_vendors_tail _ _ Hr) as Hr'. destruct Hr as [Hnd Hv]. apply NoDup_cons in Hnd as [Hni Hnd].
  assert (GetDevices cfg !! k = Some v) as Hk by (apply Hv; by left). rewrite fmap_cons.
  apply GetDevices_cases in Hk as [(-> & ->)|[(-> & ->)|(-> & ->)]]; cbn [MutateAdmission fst].
  - change (MutateAdmission (cambricon.InitMLUDevice cfg) c) with (cambricon.cambricon_MutateAdmission cfg c).
    rewrite cambricon_ignores by done. rewrite IH by done. apply decide_ext. rewrite elem_of_cons. naive_solver.
  - change (MutateAdmission (nvidia.InitNvidiaDevice cfg) c) with (nvidia.nvidia_MutateAdmission cfg c).
    rewrite nvidia_mutates. rewrite decide_True by by left. case_bool_decide; [by rewrite mutate_loop_true|].
    assert (forall l, "NVIDIA"%string ∉ l.*1 -> registered_vendors l -> mutate_loop l false (with_priority c) = (false, with_priority c)) as Hrest.
    { clear -Hm Hd. intros l Hni Hr. induction l as [|[k v] l IH]; [done|]. cbn [mutate_loop]. rewrite fmap_cons, not_elem_of_cons in Hni.
      destruct Hni as [Hne Hni]. assert (GetDevices cfg !! k = Some v) as Hk by (apply Hr; by left).
      apply GetDevices_cases in Hk as [(-> & ->)|[(-> & ->)|(-> & ->)]]; [|done|].
      - change (MutateAdmission (cambricon.InitMLUDevice cfg) (with_priority c)) with (cambricon.cambricon_MutateAdmission cfg (with_priority c)).
        rewrite cambricon_ignores by done. apply IH; [done|by eapply registered_vendors_tail].
      - cbn. rewrite Hd, bool_decide_false by by intros []. apply IH; [done|by eapply registered_vendors_tail]. }
    by apply Hrest.
  - cbn. rewrite Hd, bool_decide_false by by intros []. rewrite IH by done. apply decide_ext. rewrite elem_of_cons. naive_solver.
Qed.

Lemma visited_vendors t : registered_vendors (range t (GetDevices cfg)) /\ "NVIDIA"%string ∈ (range t (GetDevices cfg)).*1.
Proof.
  split; [split; [apply range_NoDup|intros k v; apply elem_of_range]|].
  apply list_elem_of_fmap. exists ("NVIDIA"%string, nvidia.InitNvidiaDevice cfg). split; [done|]. by apply elem_of_range.
Qed.

(** Containers that are not taken over only get their priority. *)
Lemma mutate_loop_passed t c : ~ wants cfg c -> mutate_loop (range t (GetDevices cfg)) false c = (false, with_priority c).
Proof.
  intros Hw. destruct (visited_vendors t) as [Hr Hin]. unfold wants in Hw.
  rewrite mutate_loop_nvidia; [rewrite decide_True by done|done|split|]; try by apply eq_None_not_Some; tauto.
  by rewrite bool_decide_false by tauto.
Qed.

Lemma handle_containers_passed idx pre c post :
  Forall (fun x => ~ taken x) pre -> taken c ->
  exists t, handle_containers cfg idx (pre ++ c :: post) false
    = (true, (passed <$> pre) ++ (mutate_loop (range t (GetDevices cfg)) false c).2 :: post).
Proof.
  intros Hpre [Hp Hw]. revert idx. induction Hpre as [|x pre Hx Hpre IH]; intros idx; cbn [app handle_containers fmap list_fmap].
  - rewrite Hp. exists ("Handle"%string, idx).
    destruct (mutate_loop_wants cfg (range ("Handle", idx)%string (GetDevices cfg)) c) as (_ & H2 & _); [by intros k v; apply elem_of_range|].
    destruct (mutate_loop (range ("Handle", idx)%string (GetDevices cfg)) false c) as [found c1]. cbn [fst snd] in *.
    rewrite H2; [by rewrite handle_containers_found|]. destruct (vendor_wants cfg c Hw) as (k & v & Hk & Hmut).
    exists k, v. split; [by apply elem_of_range|done].
  - destruct (IH (S idx)) as [t Et]. exists t. unfold passed at 1. destruct (is_privileged x) eqn:Ex; [by rewrite Et|].
    rewrite mutate_loop_passed by (unfold taken in Hx; tauto). by rewrite Et.
Qed.

Lemma handle_containers_none idx ctrs :
  Forall (fun x => ~ taken x) ctrs -> (handle_containers cfg idx ctrs false).1 = false.
Proof.
  intros Hf. apply not_true_is_false. intros Ht. apply handle_containers_spec in Ht.
  apply Exists_exists in Ht as (c & Hin & Hc). rewrite Forall_forall in Hf. by apply (Hf c Hin).
Qed.

(** A container that only asks for NVIDIA cards. *)
Lemma taken_by_nvidia t c :
  is_Some (ctr_Limits c !! ResourceName cfg) -> unwanted_mlu c -> ctr_Limits c !! HygonResourceCount cfg = None ->
  mutate_loop (range t (GetDevices cfg)) false c = (true, with_priority c).
Proof.
  intros Hn Hm Hd. destruct (visited_vendors t) as [Hr Hin]. rewrite mutate_loop_nvidia by done.
  rewrite decide_True by done. by rewrite bool_decide_true.
Qed.
End containers.

Definition gpu_ctr (name : string) (priority : Z) : Container :=
  mkContainer name {["nvidia.com/gpu" := mkQuantity (Some 1) 1;
                     "vgputaskpriority" := mkQuantity (Some priority) priority]} ∅ [] None None.
Definition two_gpu_pod : Pod :=
  mkPod "p" "default" "uid" ∅ [gpu_ctr "c1" 1; gpu_ctr "c2" 1] "default-scheduler" "Pending".

Module WebhookProps.

(** C22. What the webhook does with a pod that has containers.  A container is
    taken over when it is not privileged and has a limit of one of the four
    resources the vendors test: the count of NVIDIA cards, the count or the
    memory of MLU cards, the count of DCU cards.  A limit of GPU memory, its
    percentage or cores, or of DCU memory or cores, alone does not count.  When no
    container is taken over, the pod is admitted as it is.  Otherwise only its
    containers and its scheduler change: the scheduler is the configured one,
    if one is configured; each container before the first one taken over gets
    its task priority, if it has the limit, appended to its environment,
    unless it is privileged; that one keeps its limits, and when it asks for
    NVIDIA cards only it is changed in the same way; the containers after it
    are not touched. *)
Theorem Handle_takes_over `{GoRuntime} cfg pod :
  pod_Containers pod <> [] ->
  (Forall (fun c => ~ taken cfg c) (pod_Containers pod) -> Handle cfg (inl pod) = Allowed "no resource found")
  /\ forall pre c post, pod_Containers pod = pre ++ c :: post -> Forall (fun x => ~ taken cfg x) pre -> taken cfg c ->
     exists c', Handle cfg (inl pod) = Patched (with_containers pod ((passed cfg <$> pre) ++ c' :: post)
         (if decide (SchedulerName cfg = "") then pod_SchedulerName pod else SchedulerName cfg))
       /\ ctr_Limits c' = ctr_Limits c
       /\ (is_Some (ctr_Limits c !! ResourceName cfg) -> unwanted_mlu cfg c -> ctr_Limits c !! HygonResourceCount cfg = None ->
           c' = with_priority cfg c).
Proof.
  intros Hne. unfold Handle. rewrite decide_False by done. split.
  - intros Hf. apply (handle_containers_none cfg 0) in Hf. destruct (handle_containers cfg 0 _ false). by cbn in Hf; subst.
  - intros pre c post Hc Hpre Ht. destruct (handle_containers_passed cfg 0 pre c post Hpre Ht) as [t Et].
    rewrite Hc, Et. cbn [negb]. eexists. split; [reflexivity|]. split.
    + apply (mutate_loop_wants cfg). intros k v. apply elem_of_range.
    + intros Hn Hm Hd. by rewrite taken_by_nvidia.
Qed.

Lemma Handle_takes_over_witness :
  let _ := go_reference in
  exists c', Handle default_config (inl two_gpu_pod)
      = Patched (with_containers two_gpu_pod [c'; gpu_ctr "c2" 1] "default-scheduler")
    /\ ctr_Env c' = [(api.TaskPriority, "1"%string)].
Proof.
  destruct (proj2 (@Handle_takes_over go_reference default_config two_gpu_pod ltac:(discriminate)) [] (gpu_ctr "c1" 1)
    [gpu_ctr "c2" 1] eq_refl ltac:(constructor)) as (c' & E & _ & Hc).
  - split; [reflexivity|]. left. by eexists.
  - exists c'. split; [exact E|]. rewrite Hc; [vm_compute; reflexivity|by eexists|by split|reflexivity].
Defined.

(** The vendors are not run any more once a container was found: the
    containers after the first one that counts leave the webhook as they
    came, so the priority of a second container is never put in its
    environment. *)
Theorem Handle_skips_later_containers `{GoRuntime} cfg pod pre c post :
  pod_Containers pod = pre ++ c :: post -> is_privileged c = false -> wants cfg c ->
  exists pod' pre' c', Handle cfg (inl pod) = Patched pod'
    /\ pod_Containers pod' = pre' ++ c' :: post /\ length pre' = length pre.
Proof.
  intros Hc Hp Hw. unfold Handle. rewrite decide_False by (rewrite Hc; by destruct pre).
  pose proof (handle_containers_spec cfg 0 (pod_Containers pod)) as Hf.
  destruct (handle_containers_after cfg 0 pre c post Hp Hw) as (pre' & c' & E & Hlen). rewrite <- Hc in E.
  destruct (handle_containers cfg 0 (pod_Containers pod) false) as [found ctrs]. cbn [fst snd] in *. subst ctrs.
  assert (found = true) as ->.
  { apply Hf. rewrite Hc, Exists_app, Exists_cons. auto. }
  eexists _, pre', c'. split; [done|]. done.
Qed.

Lemma Handle_skips_later_containers_witness :
  let _ := go_reference in
  exists pod' c', Handle default_config (inl two_gpu_pod) = Patched pod'
    /\ pod_Containers pod' = [c'; gpu_ctr "c2" 1].
Proof.
  destruct (@Handle_skips_later_containers go_reference default_config two_gpu_pod [] (gpu_ctr "c1" 1)
    [gpu_ctr "c2" 1] eq_refl eq_refl ltac:(left; by eexists)) as (pod' & pre' & c' & E & Ec & Hl).
  exists pod', c'. split; [exact E|]. destruct pre'; [exact Ec|discriminate].
Defined.
End WebhookProps.
