(* ===== verification/SchedMain.v ===== *)
(** * The scheduler binary ([cmd/scheduler/main.go])

    [start]: the scheduler with its pod informer ([Scheduler.Start]), the three
    routes of the HTTP server and the choice of the listener, with [checkBody]
    and [WebHookRoute] of [pkg/scheduler/routes/route.go] and [NewWebHook] of
    [pkg/scheduler/webhook.go].

    [informerFactory.WaitForCacheSync] waits for the informer's store, not for
    the handlers: as documented by client-go the notifications of the first
    list are delivered afterwards, in an order of the informer's own.  The
    running server therefore holds a queue [ms_pending] of pods whose
    [onAddPod] is still to come.

    The client, the router, the JSON codec and the admission library are not
    part of the repository: what they return is a parameter. *)

From Stdlib Require Import ZArith Lia Ascii String Sorted.
From stdpp Require Import base decidable option gmap strings numbers sorting list relations.
From S2P Require Import Prelude GoStrings GoTime GoRuntime Types Kube NodeLock Codec Devices Score FitFacts BookFacts ScoreFacts CalcFacts Scheduler UsageFacts FilterFacts FilterProps SchedThreads SchedServer Webhook.

#[local] Open Scope Z_scope.

(** ** Flags *)
Record Flags := mkFlags {
  fl_HttpBind : string;
  fl_tlsCertFile : string;
  fl_tlsKeyFile : string;
  fl_SchedulerName : string;
  fl_DefaultMem : Z;
  fl_DefaultCores : Z;
  fl_MetricsBindAddress : string;
}.

(** [init]: the values when the command line sets none. *)
Definition init_flags : Flags := mkFlags "127.0.0.1:8080" "" "" "" 0 0 ":9395".

(** The listener [start] chooses. *)
Definition listens_tls (f : Flags) : bool := negb (bool_decide (fl_tlsCertFile f = "") || bool_decide (fl_tlsKeyFile f = "")).

(** ** [http.ResponseWriter]: the first status counts *)
Record writer := mkWriter { rw_status : option Z; rw_body : string }.

Definition WriteHeader (status : Z) (w : writer) : writer :=
  mkWriter (Some (default status (rw_status w))) (rw_body w).
Definition Write (text : string) (w : writer) : writer :=
  mkWriter (Some (default 200 (rw_status w))) (rw_body w +:+ text).
(** [http.Error] ends the text with a newline. *)
Definition http_Error (text : string) (status : Z) (w : writer) : writer :=
  Write (text +:+ String "010" "")%string (WriteHeader status w).

Definition checkBody {A} (body : option A) (w : writer) : writer :=
  match body with
  | None => http_Error "Please send a request body" 400 w
  | Some _ => w
  end.

(** [bind], which nothing calls: the error of the function as a text. *)
Definition bind (args : ExtenderBindingArgs) (bindFunc : string -> string -> string -> string -> option error) : string :=
  default "" (bindFunc (ba_PodName args) (ba_PodNamespace args) (ba_PodUID args) (ba_Node args)).

(** ** The server *)
Inductive handler := PredicateHandler | BindHandler | WebHookHandler.

#[export] Instance handler_eq_dec : EqDecision handler.
Proof. solve_decision. Defined.

(** What [start] registers with [router.POST]. *)
Definition router : gmap (string * string) handler :=
  {[("POST", "/filter") := PredicateHandler; ("POST", "/bind") := BindHandler; ("POST", "/webhook") := WebHookHandler]}%string.

Record request := mkHttpRequest { rq_method : string; rq_path : string; rq_body : option string }.

Record server_state := mkServerState {
  ms_sched : Scheduler;
  ms_pending : list Pod;      (* notifications of the informer still to be delivered *)
  ms_stopped : bool;          (* [stopCh] is closed *)
}.

Section server.
Context `{GoRuntime} {W : Type} `{!KubeClient W} (cfg : Config) (zone : Z).

(** [Scheduler.Start]: [check(err)] exits when there is no client; [cache] is
    the first list of the informer. *)
Definition Start (NewClient : option error) (cache : list Pod) (s : Scheduler) : outcome server_state :=
  match NewClient with
  | Some _ => Panic Fatal
  | None => Ret (mkServerState s cache false)
  end.

Definition Stop (sv : server_state) : outcome server_state :=
  if ms_stopped sv then Panic CloseClosed else Ret (mkServerState (ms_sched sv) (ms_pending sv) true).

(** [NewWebHook] and [WebHookRoute] fail with the scheme of the client. *)
Definition NewWebHook (AddToScheme : option error) : (Pod + error -> Response) + error :=
  match AddToScheme with
  | Some err => inr err
  | None => inl (Handle cfg)
  end.

Definition WebHookRoute (AddToScheme : option error) : outcome (Pod + error -> Response) :=
  match NewWebHook AddToScheme with
  | inr _ => Panic Fatal
  | inl h => Ret h
  end.

(** [start] up to the call that serves. *)
Definition start (NewClient AddToScheme : option error) (cache : list Pod) : outcome (server_state * (Pod + error -> Response)) :=
  sv ← Start NewClient cache NewScheduler;
  h ← WebHookRoute AddToScheme;
  Ret (sv, h).

(** [ListenAndServe] only returns with an error, and [klog.Fatal] does not run
    the deferred [sher.Stop()]. *)
Definition listen_end (err : error) : outcome unit := Panic Fatal.

(** A notification of the informer. *)
Definition deliver (sv : server_state) : server_state :=
  match ms_pending sv with
  | [] => sv
  | pod :: pods => mkServerState (AddFunc (ms_sched sv) (ObjPod pod)) pods (ms_stopped sv)
  end.

Definition deliver_all (sv : server_state) : server_state :=
  Nat.iter (length (ms_pending sv)) deliver sv.

(** ** Requests *)
Context (decode_args : string -> ExtenderArgs + error) (decode_binding : string -> ExtenderBindingArgs + error)
        (marshal_filter : option ExtenderFilterResult -> string + error) (marshal_bind : string -> string + error)
        (admission_ServeHTTP : (Pod + error -> Response) -> option string -> response)
        (no_route : request -> response).

Definition respond (w : writer) (r : response) : writer := Write (rs_body r) (WriteHeader (rs_status r) w).
Definition no_response : writer := mkWriter None "".

(** A body that was not sent is read through a nil reader. *)
Definition serve (h : Pod + error -> Response) (rq : request) (s : Scheduler) : K W (Scheduler * writer) :=
  match router !! (rq_method rq, rq_path rq) with
  | Some PredicateHandler =>
      let w := checkBody (rq_body rq) no_response in
      '(s, r) ← PredicateRoute cfg marshal_filter (decode_args <$> rq_body rq) s;
      mret (s, respond w r)
  | Some BindHandler =>
      match rq_body rq with
      | None => lift (Panic NilDereference)
      | Some body => r ← BindRoute zone marshal_bind (decode_binding body); mret (s, respond no_response r)
      end
  | Some WebHookHandler => mret (s, respond no_response (admission_ServeHTTP h (rq_body rq)))
  | None => mret (s, respond no_response (no_route rq))
  end.

(** The requests of a client, one after the other. *)
Fixpoint serve_all (h : Pod + error -> Response) (rqs : list request) (s : Scheduler) : K W (Scheduler * list writer) :=
  match rqs with
  | [] => mret (s, [])
  | rq :: rqs' =>
      '(s, w) ← serve h rq s;
      '(s, ws) ← serve_all h rqs' s;
      mret (s, w :: ws)
  end.
End server.

(** ** The first list of the informer *)
Section sync.
Context `{GoRuntime}.

Lemma deliver_all_sched sv :
  ms_sched (deliver_all sv) = foldl onAddPod (ms_sched sv) (ms_pending sv) /\ ms_pending (deliver_all sv) = [].
Proof.
  unfold deliver_all. destruct sv as [s pods stopped]. cbn [ms_sched ms_pending]. revert s.
  induction pods as [|pod pods IH]; intros s; [done|]. cbn [length]. rewrite Nat.iter_succ_r. apply IH.
Qed.

(** The record [onAddPod] makes of a pod. *)
Definition recorded_as (pod : Pod) (p : podInfo) : Prop :=
  exists nodeID, pod_Annotations pod !! AssignedNodeAnnotations = Some nodeID /\ IsPodInTerminatedState pod = false
    /\ p = mkPodInfo (pod_Namespace pod) (pod_Name pod) (pod_UID pod) nodeID (DecodePodDevices SupportDevices (pod_Annotations pod)).1.

Lemma onAddPod_lookup s pod uid p :
  s_pods s !! pod_UID pod = None ->
  s_pods (onAddPod s pod) !! uid = Some p <-> s_pods s !! uid = Some p \/ uid = pod_UID pod /\ recorded_as pod p.
Proof.
  intros Hn. unfold onAddPod, recorded_as. destruct (pod_Annotations pod !! AssignedNodeAnnotations) as [nodeID|]; [|naive_solver].
  destruct (IsPodInTerminatedState pod).
  - cbn [delPod with_pod_table s_pods]. rewrite delete_id by done. naive_solver.
  - unfold addPod. rewrite Hn. cbn [with_pod_table s_pods]. rewrite lookup_insert_Some. naive_solver congruence.
Qed.

Lemma sync_lookup pods s uid p :
  NoDup (pod_UID <$> pods) -> Forall (fun pod => s_pods s !! pod_UID pod = None) pods ->
  s_pods (foldl onAddPod s pods) !! uid = Some p <->
  s_pods s !! uid = Some p \/ exists pod, pod ∈ pods /\ pod_UID pod = uid /\ recorded_as pod p.
Proof.
  revert s. induction pods as [|pod pods IH]; intros s Hnd Hf; cbn [foldl].
  { split; [by left|]. intros [?|(pod & Hin & _)]; [done|]. by apply not_elem_of_nil in Hin. }
  apply Forall_cons in Hf as [Hp Hf]. apply NoDup_cons in Hnd as [Hni Hnd]. rewrite IH; [|done|].
  - rewrite onAddPod_lookup by done. setoid_rewrite elem_of_cons. naive_solver.
  - apply Forall_forall. intros q Hq. apply eq_None_not_Some. intros [x Hx].
    apply onAddPod_lookup in Hx as [Hx|[E _]]; [|by apply Hni; rewrite <- E; apply list_elem_of_fmap_2|done].
    rewrite Forall_forall in Hf. by rewrite (Hf q Hq) in Hx.
Qed.

(** What the delivery of a list adds to the accounts. *)
Definition listed_amount (f : ContainerDevice -> Z) (node id : string) (pod : Pod) : Z :=
  match pod_Annotations pod !! AssignedNodeAnnotations with
  | Some nodeID =>
      if IsPodInTerminatedState pod then 0
      else if decide (nodeID = node) then pod_amount f id (DecodePodDevices SupportDevices (pod_Annotations pod)).1 else 0
  | None => 0
  end.

Lemma onAddPod_account f node id s pod :
  s_pods s !! pod_UID pod = None ->
  account f node id (s_pods (onAddPod s pod)) = account f node id (s_pods s) + listed_amount f node id pod.
Proof.
  intros Hn. unfold onAddPod, listed_amount. destruct (pod_Annotations pod !! _) as [nodeID|]; [|lia].
  destruct (IsPodInTerminatedState pod).
  - cbn [delPod with_pod_table s_pods]. rewrite delete_id by done. lia.
  - unfold addPod. rewrite Hn. cbn [with_pod_table s_pods]. rewrite account_insert by done. cbn [pi_NodeID pi_Devices]. lia.
Qed.

Lemma onAddPod_other s pod uid : uid <> pod_UID pod -> s_pods (onAddPod s pod) !! uid = s_pods s !! uid.
Proof.
  intros Hne. unfold onAddPod. destruct (pod_Annotations pod !! _); [|done]. destruct (IsPodInTerminatedState pod).
  - cbn. by rewrite lookup_delete_ne.
  - unfold addPod. destruct (s_pods s !! pod_UID pod); [done|]. cbn. by rewrite lookup_insert_ne.
Qed.

Lemma sync_account f node id pods s :
  NoDup (pod_UID <$> pods) -> Forall (fun pod => s_pods s !! pod_UID pod = None) pods ->
  account f node id (s_pods (foldl onAddPod s pods))
  = account f node id (s_pods s) + foldr (fun pod z => listed_amount f node id pod + z) 0 pods.
Proof.
  revert s. induction pods as [|pod pods IH]; intros s Hnd Hf; cbn [foldl foldr]; [lia|].
  apply NoDup_cons in Hnd as [Hni Hnd]. apply Forall_cons in Hf as [Hp Hf]. rewrite IH; [|done|].
  - rewrite onAddPod_account by done. lia.
  - rewrite Forall_forall in Hf |- *. intros q Hq. rewrite onAddPod_other; [by apply Hf|].
    intros E. apply Hni. rewrite <- E. by apply list_elem_of_fmap_2.
Qed.

Lemma sync_nodes pods s : ListNodes (foldl onAddPod s pods) = ListNodes s.
Proof.
  revert s. induction pods as [|pod pods IH]; intros s; cbn [foldl]; [done|]. rewrite IH. unfold onAddPod.
  destruct (pod_Annotations pod !! _); [|done]. destruct (IsPodInTerminatedState pod); [done|].
  unfold addPod. by destruct (s_pods s !! _).
Qed.
End sync.

(** ** Requests and the accounts *)
Section capacity.
Context `{GoRuntime} {W : Type} `{!KubeClient W} (cfg : Config) (zone : Z).
Context (decode_args : string -> ExtenderArgs + error) (decode_binding : string -> ExtenderBindingArgs + error)
        (marshal_filter : option ExtenderFilterResult -> string + error) (marshal_bind : string -> string + error)
        (admission_ServeHTTP : (Pod + error -> Response) -> option string -> response)
        (no_route : request -> response).

(** The pod of a request, when it names one, asks for sizes that fit an int32. *)
Definition sane_request (rq : request) : Prop :=
  forall body args pod, rq_body rq = Some body -> decode_args body = inl args -> ea_Pod args = Some pod -> placeable cfg pod.

(** [PredicateRoute] changes the tables by [Filter] only. *)
Lemma predicate_route_tables body s (w w' : W) s' r :
  PredicateRoute cfg marshal_filter body s w = Ret ((s', r), w') ->
  s' = s \/ exists args pod names res err w1, body = Some (inl args) /\ ea_Pod args = Some pod
    /\ Filter cfg s pod names w = Ret ((s', res, err), w1).
Proof.
  unfold PredicateRoute. cbv zeta.
  assert (forall st res (w1 : W), (match marshal_filter res with inr err => mret (st, mkResponse 500 err) | inl text => mret (st, mkResponse 200 text) end : K W (Scheduler * response)) w1
    = Ret ((s', r), w') -> s' = st) as Hr by (intros st res w1; by destruct (marshal_filter res); intros [= -> _ _]).
  destruct body as [[args|err]|]; [|intros E; left; by eapply Hr|done].
  destruct (ea_Pod args) as [pod|] eqn:Ep; [|done]. destruct (ea_NodeNames args) as [names|].
  - intros ([[[s1 res] err] w1] & Ef & E)%bind_Ret_inv. right. exists args, pod, names, res, err, w1.
    split_and!; [done|done|]. rewrite Ef. destruct err; apply Hr in E; congruence.
  - destruct (_ =? 0); [|done]. intros E. left. by eapply Hr.
Qed.

Lemma serve_ok h rq s (w w' : W) s' r :
  state_ok s -> sane_request rq ->
  serve cfg zone decode_args decode_binding marshal_filter marshal_bind admission_ServeHTTP no_route h rq s w = Ret ((s', r), w') ->
  state_ok s'.
Proof.
  intros Hs Hsane. unfold serve. destruct (router !! _) as [[]|].
  - intros ([[s1 r1] w1] & E & [= <- _ _])%bind_Ret_inv.
    apply predicate_route_tables in E as [->|(args & pod & names & res & err & w2 & Eb & Epod & Ef)]; [done|].
    destruct (rq_body rq) as [body|] eqn:Er; [|done]. injection Eb as Ed.
    destruct (Hsane body args pod Er Ed Epod) as [Hn Hk]. apply Filter_outcome in Ef.
    apply (filter_keeps _ _ _ _ _ _ _ Hs Hn Hk Ef).
  - destruct (rq_body rq); [|done]. by intros ([r1 w1] & _ & [= <- _ _])%bind_Ret_inv.
  - by intros [= <- _ _].
  - by intros [= <- _ _].
Qed.
End capacity.

(** ** A scheduler that restarts *)

(** A pod that holds the whole card of [n2]. *)
Definition full_score : NodeScore :=
  mkNodeScore "n2" {["NVIDIA" := [[mkContainerDevice 0 "h0" "NVIDIA" 16000 0]]]} f32_zero.
Definition full_pod : Pod :=
  mkPod "q" "default" "uid-q" (@filter_annotations go_reference epoch full_score)
    [mkContainer "c" (gpu_request 1 16000) ∅ [] None None] "" "Running".

(** The nodes have been registered again, the pod has not been delivered. *)
Definition restarted : server_state := mkServerState two_nodes [full_pod] false.

(** The calls the examples make: the body is the name of the pod. *)
Definition example_args (body : string) : ExtenderArgs + error :=
  if decide (body = "p")%string then inl (mkExtenderArgs (Some one_gpu_pod) (Some ["n2"%string])) else inr "unexpected end of JSON input"%string.
Definition example_filter (rq : request) (sv : server_state) :=
  @serve go_reference Server server default_config 0 example_args (fun _ => inr "EOF"%string)
    (fun res => inl (join "," (default [] (res ≫= fr_NodeNames)))) inl (fun _ _ => mkResponse 200 "") (fun _ => mkResponse 404 "404 page not found")
    (@Handle go_reference default_config) rq (ms_sched sv) cluster.
Definition filter_p : request := mkHttpRequest "POST" "/filter" (Some "p"%string).

(** The tables after the call, and the tables with the pod delivered. *)
Definition early : Scheduler :=
  match @Filter go_reference Server server default_config two_nodes one_gpu_pod ["n2"%string] cluster with
  | Ret ((s', _, _), _) => s'
  | Panic _ => NewScheduler
  end.

Lemma restarted_ok : state_ok (ms_sched (@deliver_all go_reference restarted)).
Proof.
  change (state_ok (@onAddPod go_reference two_nodes full_pod)). unfold onAddPod.
  replace (pod_Annotations full_pod !! AssignedNodeAnnotations) with (Some "n2"%string) by (vm_compute; reflexivity).
  replace (IsPodInTerminatedState full_pod) with false by (vm_compute; reflexivity).
  replace (DecodePodDevices SupportDevices (pod_Annotations full_pod)).1
    with ({["NVIDIA" := [[mkContainerDevice 0 "h0" "NVIDIA" 16000 0]; []]]} : PodDevices) by (vm_compute; reflexivity).
  apply addPod_ok; [exact two_nodes_ok| |].
  - apply map_Forall_singleton. repeat constructor; cbn; lia.
  - intros n d f c [[E _]|[_ ->]]%two_nodes_cases Hd Hc; [discriminate E|].
    apply list_elem_of_singleton in Hd as ->. by destruct Hc; vm_compute.
Qed.

Module SchedMainProps.

(** C35. What a scheduler that starts knows of the pods.  When the informer has
    delivered its first list, in whatever order, the table holds exactly the
    pods of the list that carry an assignment and have not ended, each with
    the node and the devices of its annotations. *)
Theorem start_syncs_pods `{GoRuntime} cfg cache pending sv h uid p :
  NoDup (pod_UID <$> cache) -> start cfg None None cache = Ret (sv, h) -> pending ≡ₚ ms_pending sv ->
  let sv' := deliver_all (mkServerState (ms_sched sv) pending (ms_stopped sv)) in
  ms_pending sv' = [] /\
  (s_pods (ms_sched sv') !! uid = Some p <-> exists pod, pod ∈ cache /\ pod_UID pod = uid /\ recorded_as pod p).
Proof.
  intros Hnd [= <- _] Hperm. cbn [ms_sched ms_pending ms_stopped] in *.
  destruct (deliver_all_sched (mkServerState NewScheduler pending false)) as [Es Ep]. split; [exact Ep|].
  rewrite Es. cbn [ms_sched ms_pending]. rewrite sync_lookup; [|by rewrite Hperm|by apply Forall_forall].
  setoid_rewrite Hperm. split; [intros [Hu|?]; [discriminate Hu|done]|by right].
Qed.

Lemma start_syncs_pods_witness :
  let _ := go_reference in
  exists sv h p, start default_config None None [full_pod; one_gpu_pod] = Ret (sv, h)
    /\ s_pods (ms_sched (deliver_all (mkServerState (ms_sched sv) [one_gpu_pod; full_pod] false))) !! "uid-q"%string = Some p
    /\ pi_NodeID p = "n2"%string.
Proof.
  intros rt. do 3 eexists. split; [reflexivity|]. split.
  - eapply (proj2 (@start_syncs_pods go_reference default_config [full_pod; one_gpu_pod] [one_gpu_pod; full_pod]
      (mkServerState NewScheduler [full_pod; one_gpu_pod] false) (Handle default_config) "uid-q"%string _
      ltac:(apply (bool_decide_unpack (NoDup _)); vm_compute; exact I) eq_refl ltac:(apply perm_swap))).
    exists full_pod. split; [by left|]. split; [reflexivity|]. exists "n2"%string. split_and!; reflexivity.
  - reflexivity.
Defined.

(** C4. Sane requests keep the accounts, one after the other: whatever the
    method and the path of the requests, a sequence of them that the server
    answers leaves every registered device within its count, memory and cores
    when it was before.  A request is sane when the pod its body decodes to,
    if any, asks in each container for at most one kind of device, with
    nonnegative amounts and a percentage of at most 101; a device is within
    its limits only if its memory times 101 fits an int32.  Both conditions
    are needed: a container that asks for two kinds is recorded twice for the
    first, and a larger percentage overflows. *)
Theorem requests_keep_capacity `{GoRuntime} {W} `{!KubeClient W} cfg zone decode_args decode_binding marshal_filter marshal_bind
    admission_ServeHTTP no_route h rqs s (w w' : W) s' ws :
  state_ok s -> Forall (sane_request cfg decode_args) rqs ->
  serve_all cfg zone decode_args decode_binding marshal_filter marshal_bind admission_ServeHTTP no_route h rqs s w
  = Ret ((s', ws), w') ->
  state_ok s' /\ length ws = length rqs.
Proof.
  intros Hs Hsane. revert s w w' s' ws Hs. induction Hsane as [|rq rqs Hrq _ IH]; intros s w w' s' ws Hs; cbn [serve_all].
  { by intros [= <- <- _]. }
  intros ([[s1 r1] w1] & E & ([[s2 rs] w2] & E2 & [= <- <- _])%bind_Ret_inv)%bind_Ret_inv.
  eapply serve_ok in E; [|done..]. destruct (IH s1 w1 w2 s2 rs E E2) as [Hs2 Hl]. split; [done|]. cbn. by rewrite Hl.
Qed.

Lemma requests_keep_capacity_witness :
  exists s' ws w', @serve_all go_reference Server server default_config 0 example_args (fun _ => inr "EOF"%string)
      (fun _ => inl "{}"%string) inl (fun _ _ => mkResponse 200 "") (fun _ => mkResponse 404 "404 page not found")
      (@Handle go_reference default_config) [filter_p; mkHttpRequest "GET" "/filter" None] two_nodes cluster = Ret ((s', ws), w')
    /\ state_ok s' /\ length ws = 2%nat.
Proof.
  assert (exists s' ws w', @serve_all go_reference Server server default_config 0 example_args (fun _ => inr "EOF"%string)
      (fun _ => inl "{}"%string) inl (fun _ _ => mkResponse 200 "") (fun _ => mkResponse 404 "404 page not found")
      (@Handle go_reference default_config) [filter_p; mkHttpRequest "GET" "/filter" None] two_nodes cluster = Ret ((s', ws), w'))
    as (s' & ws & w' & E) by (do 3 eexists; vm_compute; reflexivity).
  exists s', ws, w'. split; [exact E|].
  refine (@requests_keep_capacity go_reference Server server _ _ _ _ _ _ _ _ _ [_; _] _ _ _ _ _ two_nodes_ok _ E).
  apply Forall_cons. split; [|by apply Forall_singleton].
  intros body args pod Hb Ha Hpod. cbn [rq_body filter_p] in Hb. assert (body = "p"%string) as -> by congruence.
  assert (args = mkExtenderArgs (Some one_gpu_pod) (Some ["n2"%string])) as ->
    by (cbv [example_args] in Ha; rewrite decide_True in Ha by done; congruence).
  cbn [ea_Pod] in Hpod. assert (pod = one_gpu_pod) as -> by congruence. exact one_gpu_pod_placeable.
Defined.


End SchedMainProps.
