(* ===== verification/PodAlloc.v ===== *)
(** * The allocation protocol between scheduler and device plugins
      ([pkg/util/util.go], [pkg/device/devices.go])

    After [Bind], the kubelet of the node calls a device plugin, which looks
    for the pod being bound on its node, reads the devices chosen for its next
    container from the annotations, erases them there, and finally reports
    success or failure and releases the node. *)

From Stdlib Require Import ZArith Lia Ascii String.
From stdpp Require Import base decidable option gmap strings numbers sorting list.
From S2P Require Import Prelude GoStrings GoTime GoRuntime Types Kube NodeLock Codec Devices Score Scheduler FilterFacts.

#[local] Open Scope Z_scope.

Definition no_binding_pod (node : string) : error := "no binding pod found on node " +:+ node.
Definition request_not_found : error := "device request not found".
Definition erase_not_found : error := "erase device annotation not found".

(** The tests of the loop of [GetPendingPod]. *)
Definition is_pending (node : string) (p : Pod) : bool :=
  bool_decide (is_Some (pod_Annotations p !! BindTimeAnnotations))
  && bool_decide (pod_Annotations p !! DeviceBindPhase = Some DeviceBindAllocating)
  && bool_decide (pod_Annotations p !! AssignedNodeAnnotations = Some node).

(** The loop of [GetNextDeviceRequest]. *)
Fixpoint next_request (ctridx : nat) (pd : PodSingleDevice) : option (nat * ContainerDevices) :=
  match pd with
  | [] => None
  | ctrDevice :: pd' =>
      match ctrDevice with
      | [] => next_request (S ctridx) pd'
      | _ :: _ => Some (ctridx, ctrDevice)
      end
  end.

(** The loop of [EraseNextDeviceTypeFromAnnotation]. *)
Fixpoint erase_loop (found : bool) (pd : PodSingleDevice) : PodSingleDevice :=
  match pd with
  | [] => []
  | val :: pd' =>
      if found then val :: erase_loop found pd'
      else match val with
           | [] => val :: erase_loop found pd'
           | _ :: _ => [] :: erase_loop true pd'
           end
  end.

Section protocol.
Context `{GoRuntime} {W : Type} `{!KubeClient W}.

Definition GetPendingPod (node : string) : K W (option Pod * option error) :=
  '(podlist, err) ← call api_ListPods;
  mret match err with
       | Some e => (None, Some e)
       | None =>
           match list_find (fun p => is_pending node p = true) podlist with
           | Some (_, p) => (Some p, None)
           | None => (None, Some (no_binding_pod node))
           end
       end.

Definition GetNextDeviceRequest (dtype : string) (p : Pod)
    : outcome (Container * ContainerDevices * option error) :=
  let '(pdevices, err) := DecodePodDevices InRequestDevices (pod_Annotations p) in
  match err with
  | Some e => Ret (zeroContainer, [], Some e)
  | None =>
      match pdevices !! dtype with
      | None => Ret (zeroContainer, [], Some request_not_found)
      | Some pd =>
          match next_request 0 pd with
          | Some (ctridx, ctrDevice) =>
              ctr ← slice_get (pod_Containers p) ctridx; Ret (ctr, ctrDevice, None)
          | None => Ret (zeroContainer, [], Some request_not_found)
          end
      end
  end.

Definition EraseNextDeviceTypeFromAnnotation (dtype : string) (p : Pod) : K W (option error) :=
  let '(pdevices, err) := DecodePodDevices InRequestDevices (pod_Annotations p) in
  match err with
  | Some e => mret (Some e)
  | None =>
      match pdevices !! dtype with
      | None => mret (Some erase_not_found)
      | Some pd =>
          PatchPodAnnotations p
            {[str_lookup InRequestDevices dtype := EncodePodSingleDevice (erase_loop false pd)]}
      end
  end.

(** The pod's phase, then the node's lock; errors are only logged. *)
Definition finish_allocation (phase nodeName : string) (pod : Pod) : K W unit :=
  _ ← PatchPodAnnotations pod {[DeviceBindPhase := phase]};
  _ ← ReleaseNodeLock nodeName;
  mret tt.

Definition PodAllocationSuccess (nodeName : string) (pod : Pod) : K W unit :=
  finish_allocation DeviceBindSuccess nodeName pod.

Definition PodAllocationFailed (nodeName : string) (pod : Pod) : K W unit :=
  finish_allocation DeviceBindFailed nodeName pod.

Definition PodAllocationTrySuccess (nodeName : string) (pod : Pod) : K W unit :=
  '(refreshed, _) ← call (api_GetPod (pod_Namespace pod) (pod_Name pod));
  let annos := str_lookup (pod_Annotations refreshed) AssignedIDsToAllocateAnnotations in
  if existsb (contains annos) DevicesToHandle then mret tt
  else PodAllocationSuccess nodeName pod.
End protocol.

(** ** What a plugin reads *)
Lemma next_request_erase i pd j devs :
  next_request i pd = Some (j, devs) ->
  exists k, j = (i + k)%nat /\ pd !! k = Some devs /\ devs <> []
    /\ Forall (fun d => d = []) (take k pd) /\ erase_loop false pd = <[k := []]> pd.
Proof.
  assert (forall l, erase_loop true l = l) as Ht by (intros l; induction l as [|c l IH]; cbn; [done|by rewrite IH]).
  revert i. induction pd as [|c pd IH]; intros i; cbn [next_request erase_loop]; [done|].
  destruct c as [|d c].
  - intros Hn. destruct (IH _ Hn) as (k & -> & Hk & Hne & Hf & He). exists (S k).
    split_and!; [lia|done|done|by constructor|]. cbn. by rewrite He.
  - intros [= <- <-]. exists 0%nat. split_and!; [lia|done|done|constructor|]. cbn. by rewrite Ht.
Qed.

Section facts.
Context `{GoRuntime}.

(** The devices of a pod annotated with one encoded list. *)
Lemma decode_requests annos psd :
  annos !! "hami.sh/vgpu-devices-to-allocate"%string = Some (EncodePodSingleDevice psd) ->
  Forall (Forall wire_device) psd ->
  DecodePodDevices InRequestDevices annos = ({["NVIDIA"%string := merged psd]}, None).
Proof.
  intros Ha Hw. apply DecodePodDevices_spec.
  - intros t a s Ht Hs. unfold InRequestDevices in Ht. apply lookup_singleton_Some in Ht as [<- <-].
    rewrite Ha in Hs. injection Hs as <-. by rewrite decode_encode_pod_single.
  - intros t. unfold InRequestDevices. destruct (decide ("NVIDIA"%string = t)) as [<-|Hne].
    + rewrite !lookup_singleton_eq. cbn [mbind option_bind]. rewrite Ha. cbn [mbind option_bind].
      by rewrite decode_encode_pod_single.
    + by rewrite !lookup_singleton_ne.
Qed.

Lemma erased_nothing_left (psd : PodSingleDevice) :
  Forall (fun d => d = []) psd -> next_request 0 psd = None.
Proof.
  intros Hf. generalize 0%nat. induction Hf as [|c psd -> _ IH]; intros i; cbn [next_request]; [done|apply IH].
Qed.

Lemma EncodePodSingleDevice_empty : EncodePodSingleDevice [[]; []] = EncodePodSingleDevice [].
Proof. reflexivity. Qed.
End facts.

Definition gpu_alloc (id : string) : ContainerDevice := mkContainerDevice 0 id "NVIDIA" 3000 30.
Definition requested (psd : PodSingleDevice) : gmap string string :=
  {["hami.sh/vgpu-devices-to-allocate" := EncodePodSingleDevice psd]}.
Definition named_ctr (name : string) : Container := mkContainer name ∅ ∅ [] None None.
Definition waiting_pod (psd : PodSingleDevice) : Pod :=
  mkPod "p" "default" "uid" (requested psd) [named_ctr "c0"; named_ctr "c1"] "" "Pending".

Module PodAllocProps.

(** C18. The devices written for a pod are handed out once: when [Filter] has
    written them under the request annotation, the plugin is given all of
    them, for the pod's first container, whichever container asked for them;
    once the erasure has been patched into the pod, there is nothing more to
    hand out. *)
Theorem request_handed_out_once `{GoRuntime} (pod : Pod) psd c0 cs :
  pod_Annotations pod !! "hami.sh/vgpu-devices-to-allocate" = Some (EncodePodSingleDevice psd) ->
  Forall (Forall wire_device) psd -> concat psd <> [] -> pod_Containers pod = c0 :: cs ->
  GetNextDeviceRequest "NVIDIA" pod = Ret (c0, drop_idx <$> concat psd, None)
  /\ forall {W} `{!KubeClient W} (w w' : W),
       EraseNextDeviceTypeFromAnnotation "NVIDIA" pod w = Ret (None, w') ->
       exists patch, api_PatchPod (pod_Namespace pod) (pod_Name pod) patch w = (None, w')
         /\ GetNextDeviceRequest "NVIDIA" (with_annotations pod (patch ∪ pod_Annotations pod))
            = Ret (zeroContainer, [], Some request_not_found).
Proof.
  intros Ha Hw Hne Hc. pose proof (decode_requests _ _ Ha Hw) as Hd.
  assert (exists d ds, drop_idx <$> concat psd = d :: ds) as (d & ds & Eds).
  { destruct (concat psd) as [|x xs]; [done|]. by do 2 eexists. }
  split.
  - unfold GetNextDeviceRequest. rewrite Hd. cbv beta iota. rewrite lookup_singleton_eq. unfold merged.
    rewrite Eds. cbn [next_request]. rewrite Hc. done.
  - intros W HW w w' E. unfold EraseNextDeviceTypeFromAnnotation in E. rewrite Hd in E. cbv beta iota in E.
    rewrite lookup_singleton_eq in E. unfold merged in E. rewrite Eds in E. cbn [erase_loop] in E.
    rewrite EncodePodSingleDevice_empty in E. unfold PatchPodAnnotations, call in E. injection E as E.
    eexists. split; [exact E|]. unfold GetNextDeviceRequest. cbn [pod_Annotations with_annotations].
    rewrite (decode_requests _ []); [reflexivity| |constructor].
    apply lookup_union_Some_l. reflexivity.
Qed.

Lemma request_handed_out_once_witness :
  let _ := go_reference in
  GetNextDeviceRequest "NVIDIA" (waiting_pod [[]; [gpu_alloc "g0"]]) = Ret (named_ctr "c0", [gpu_alloc "g0"], None).
Proof.
  eapply (@request_handed_out_once go_reference (waiting_pod [[]; [gpu_alloc "g0"]]) [[]; [gpu_alloc "g0"]]).
  - reflexivity.
  - repeat constructor; vm_compute; intuition congruence.
  - discriminate.
  - reflexivity.
Defined.

(** [PodAllocationTrySuccess] is meant to wait until every device type of
    the pod has been handed out, but looks for them under an annotation that
    nothing writes: for a pod without it, it reports success and releases
    the node at once, whatever is left to hand out. *)
Theorem TrySuccess_never_waits {W} `{!KubeClient W} nodeName pod refreshed err (w w1 : W) :
  api_GetPod (pod_Namespace pod) (pod_Name pod) w = ((refreshed, err), w1) ->
  pod_Annotations refreshed !! AssignedIDsToAllocateAnnotations = None ->
  PodAllocationTrySuccess nodeName pod w = PodAllocationSuccess nodeName pod w1.
Proof.
  intros Eg Ha. unfold PodAllocationTrySuccess, call, mbind, K_bind. rewrite Eg. cbv beta iota.
  unfold str_lookup. rewrite Ha. reflexivity.
Qed.

Lemma TrySuccess_never_waits_witness :
  let w := mkServer ∅ [waiting_pod [[gpu_alloc "g0"]; [gpu_alloc "g1"]]] [] epoch [] in
  PodAllocationTrySuccess "n1" (waiting_pod [[gpu_alloc "g0"]; [gpu_alloc "g1"]]) w
  = PodAllocationSuccess "n1" (waiting_pod [[gpu_alloc "g0"]; [gpu_alloc "g1"]]) w.
Proof. eapply TrySuccess_never_waits; reflexivity. Defined.

(** The keys [Filter] writes never include the annotation that is waited
    for. *)
Lemma filter_annotations_not_waited `{GoRuntime} t m :
  filter_annotations t m !! AssignedIDsToAllocateAnnotations = None.
Proof.
  unfold filter_annotations. rewrite !lookup_union_None. split_and!; [..|done];
    apply EncodePodDevices_keys; intros ty _; unfold InRequestDevices, SupportDevices;
    rewrite str_lookup_single; by case_decide.
Qed.
End PodAllocProps.
