(* ===== verification/DCU.v ===== *)
(** * The Hygon DCU plugin ([pkg/device-plugin/hygon/dcu])

    A card's compute units are handed out by bit masks, kept as strings of
    hexadecimal digits ([corealloc.go]); each container gets a directory
    whose name records the card, the pipe, the virtual device and the mask
    ([server.go]), from which the plugin rebuilds its tables.

    The directory listing and the outcomes of [os.MkdirAll] and [os.Chmod] are
    arguments; the tables of [Start], which reads them from the output of the
    vendor's tools ([DCUStart]), are the initial state here. *)

From Stdlib Require Import ZArith Lia Ascii String.
From stdpp Require Import base decidable option gmap strings numbers sorting list.
From S2P Require Import Prelude GoStrings GoTime GoRuntime Types Kube NodeLock Codec Devices Score Scheduler PodAlloc.

#[local] Open Scope Z_scope.

(** ** [corealloc.go] *)
Fixpoint repeat_char (n : nat) (c : ascii) : string :=
  match n with O => ""%string | S n' => String c (repeat_char n' c) end.

(** [req/4] digits; nothing for a negative number. *)
Definition initCoreUsage (req : Z) : string := repeat_char (Z.to_nat (Z.quot req 4)) "0".

(** [strconv.ParseInt(string(b), 16, 0)], the error ignored *)
Definition hex_val (c : ascii) : Z := (parse_int 16 64 (String c "")).1.

(** [%x] of a number of one digit *)
Definition hex_char (n : Z) : ascii :=
  if n <? 10 then ascii_of_N (Z.to_N (48 + n)) else ascii_of_N (Z.to_N (87 + n)).

(** The loops stop at a NUL byte. *)
Fixpoint addCoreUsage (tot c : string) : outcome string :=
  match tot with
  | EmptyString => Ret ""%string
  | String a tot' =>
      if (a =? "000")%char then Ret ""%string
      else
        match c with
        | EmptyString => Panic IndexOutOfRange
        | String b c' =>
            rest ← addCoreUsage tot' c';
            Ret (String (hex_char (Z.lor (hex_val a) (hex_val b))) rest)
        end
  end.

(** [%b] of a number below 16, padded to four digits *)
Definition binary4 (b : Z) : list bool :=
  [Z.testbit b 3; Z.testbit b 2; Z.testbit b 1; Z.testbit b 0].

Fixpoint byte_loop (leftstr : list bool) (res remains : Z) : Z * Z :=
  match leftstr with
  | [] => (res, remains)
  | bit :: leftstr' =>
      let res := res * 2 in
      if negb bit && (0 <? remains) then byte_loop leftstr' (res + 1) (remains - 1)
      else byte_loop leftstr' res remains
  end.

Definition byteAlloc (b req : Z) : Z * Z :=
  if req =? 0 then (0, 0) else byte_loop (binary4 b) 0 req.

Fixpoint allocCoreUsage (tot : string) (remains : Z) : string :=
  match tot with
  | EmptyString => ""%string
  | String a tot' =>
      if (a =? "000")%char then ""%string
      else
        let '(alloc, remains) := byteAlloc (hex_val a) remains in
        String (hex_char alloc) (allocCoreUsage tot' remains)
  end.

(** ** [register.go] and [server.go]: the plugin's tables *)
Record Plugin := mkPlugin {
  p_pcibusid : list string;
  p_totalcores : list Z;
  p_totalmem : list Z;
  p_vidx : list bool;
  p_pipeid : list (list bool);
  p_coremask : list string;
  p_cardtype : list string;
}.

Definition with_vidx (p : Plugin) vidx : Plugin :=
  mkPlugin (p_pcibusid p) (p_totalcores p) (p_totalmem p) vidx (p_pipeid p) (p_coremask p) (p_cardtype p).
Definition with_pipeid (p : Plugin) pipeid : Plugin :=
  mkPlugin (p_pcibusid p) (p_totalcores p) (p_totalmem p) (p_vidx p) pipeid (p_coremask p) (p_cardtype p).
Definition with_coremask (p : Plugin) coremask : Plugin :=
  mkPlugin (p_pcibusid p) (p_totalcores p) (p_totalmem p) (p_vidx p) (p_pipeid p) coremask (p_cardtype p).

(** The tables [Start] makes, with what the tools report. *)
Definition Start_tables (pcibusid : list string) (totalcores totalmem : list Z) (cardtype : list string) : Plugin :=
  mkPlugin pcibusid totalcores totalmem (replicate 200 false) (replicate 16 (replicate 20 false))
    (initCoreUsage <$> totalcores) cardtype.

Definition apiDevices (r : Plugin) : list api.DeviceInfo :=
  foldl (fun res '(idx, val) =>
      if 0 <? val then
        res ++ [api.mkDeviceInfo (Z.of_nat idx) ("DCU-" +:+ itoa (Z.of_nat idx)) 30 (i32 val) 100
                  (default ""%string (p_cardtype r !! idx)) 0 true]
      else res)
    [] (imap pair (p_totalmem r)).

Definition generateFakeDevs (devices : list api.DeviceInfo) : list string :=
  concat ((fun val => (fun idx => (api.Id val +:+ "-fake-" +:+ itoa (Z.of_nat idx))%string)
             <$> seq 0 (Z.to_nat (api.Count val))) <$> devices).

(** The first free entry of a table. *)
Fixpoint take_free (idx : nat) (l : list bool) : option (nat * list bool) :=
  match l with
  | [] => None
  | b :: l' =>
      if b then (fun '(i, l'') => (i, b :: l'')) <$> take_free (S idx) l'
      else Some (idx, true :: l')
  end.

Definition vidx_error : error := "vidx out of bound (>200)".
Definition pipe_error (devidx : Z) : error := "pipidx out of bound:" +:+ itoa devidx.

Definition AllocateVidx (p : Plugin) : (Z * option error) * Plugin :=
  match take_free 0 (p_vidx p) with
  | Some (idx, vidx) => ((Z.of_nat idx, None), with_vidx p vidx)
  | None => ((0, Some vidx_error), p)
  end.

Definition AllocatePipeID (p : Plugin) (devidx : nat) : outcome ((Z * option error) * Plugin) :=
  pipes ← slice_get (p_pipeid p) devidx;
  match take_free 0 pipes with
  | Some (idx, pipes') =>
      pipeid ← slice_set (p_pipeid p) devidx pipes';
      Ret ((Z.of_nat idx, None), with_pipeid p pipeid)
  | None => Ret ((0, Some (pipe_error (Z.of_nat devidx))), p)
  end.

(** [uid[4:]]: panics on a shorter string. *)
Definition getIndexFromUUID (uid : string) : outcome Z :=
  match uid with
  | String _ (String _ (String _ (String _ rest))) => Ret (parse_int 10 64 rest).1
  | _ => Panic SliceBounds
  end.

(** An index of a table: a negative one is out of range, too. *)
Definition index_of (z : Z) : outcome nat := if z <? 0 then Panic IndexOutOfRange else Ret (Z.to_nat z).

(** ** [RefreshContainerDevices] *)
Definition dir_name (uid ctr : string) (devidx pipeid vdevidx : Z) (coremsk : string) : string :=
  uid +:+ "_" +:+ ctr +:+ "_" +:+ itoa devidx +:+ "_" +:+ itoa pipeid +:+ "_" +:+ itoa vdevidx +:+ "_" +:+ coremsk.

(** The fields of a directory name: [strings.Split(f.Name(), "_")]. *)
Definition refresh_found (name : string) (p : Plugin) : outcome Plugin :=
  let tmpstr := split "_" name in
  t2 ← slice_get tmpstr 2; t3 ← slice_get tmpstr 3; t4 ← slice_get tmpstr 4;
  didx ← index_of (atoi t2).1;
  mask ← slice_get (p_coremask p) didx;
  t5 ← slice_get tmpstr 5;
  mask ← addCoreUsage mask t5;
  coremask ← slice_set (p_coremask p) didx mask;
  vdidx ← index_of (atoi t4).1;
  vidx ← slice_set (p_vidx p) vdidx true;
  pipes ← slice_get (p_pipeid p) didx;
  pid ← index_of (atoi t3).1;
  pipes ← slice_set pipes pid true;
  pipeid ← slice_set (p_pipeid p) didx pipes;
  Ret (with_pipeid (with_vidx (with_coremask p coremask) vidx) pipeid).

Definition refresh_gone (name : string) (p : Plugin) : outcome Plugin :=
  let tmpstr := split "_" name in
  t2 ← slice_get tmpstr 2; t3 ← slice_get tmpstr 3; t4 ← slice_get tmpstr 4;
  vdidx ← index_of (atoi t4).1;
  vidx ← slice_set (p_vidx p) vdidx false;
  didx ← index_of (atoi t2).1;
  pipes ← slice_get (p_pipeid p) didx;
  pid ← index_of (atoi t3).1;
  pipes ← slice_set pipes pid false;
  pipeid ← slice_set (p_pipeid p) didx pipes;
  Ret (with_pipeid (with_vidx p vidx) pipeid).

Fixpoint refresh_pods (name : string) (pods : list Pod) (found : bool) (p : Plugin) : outcome (bool * Plugin) :=
  match pods with
  | [] => Ret (found, p)
  | val :: pods' =>
      if contains name (pod_UID val) then p ← refresh_found name p; refresh_pods name pods' true p
      else refresh_pods name pods' found p
  end.

Section plugin.
Context `{GoRuntime} {W : Type} `{!KubeClient W}.

(** The loop over the directories; the directories removed. *)
Fixpoint refresh_loop (files : list string) (p : Plugin) (removed : list string)
    : K W (Plugin * list string * option error) :=
  match files with
  | [] => mret (p, removed, None)
  | f :: files' =>
      '(pods, err) ← call api_ListPods;
      match err with
      | Some e => mret (p, removed, Some e)
      | None =>
          '(found, p) ← lift (refresh_pods f pods false p);
          if found : bool then refresh_loop files' p removed
          else p ← lift (refresh_gone f p); refresh_loop files' p (removed ++ [f])
      end
  end.

Definition RefreshContainerDevices (readdir : list string + error) (p : Plugin)
    : K W (Plugin * list string * option error) :=
  match readdir with
  | inr err => mret (p, [], Some err)
  | inl files =>
      let p := with_coremask p ((fun idx => initCoreUsage (default 0 (p_totalcores p !! idx)))
                                  <$> seq 0 (length (p_coremask p))) in
      refresh_loop files p []
  end.

(** [now] is [time.Now().String()]. *)
Definition RegistrInAnnotation (r : Plugin) (nodeName now : string) : K W (option error) :=
  '(node, err) ← call (api_GetNode nodeName);
  match err with
  | Some e => mret (Some e)
  | None =>
      PatchNodeAnnotations node
        {[hygon.HandshakeAnnos := "Reported " +:+ now; hygon.RegisterAnnos := EncodeNodeDevices (apiDevices r)]}
  end.
End plugin.

(** ** [createvdevFile] *)
Definition one_device_error : error := "vdev only support one device per container".
Definition LF : string := String "010" "".

(** The text of the file, and the pipe, the card and the mask; [vdevidx] is
    declared anew inside the loop, so the outer one stays 0. *)
Definition vdev_device (p : Plugin) (val : ContainerDevice)
    : outcome (Plugin * (string * Z * Z * string) * option error) :=
  idx ← getIndexFromUUID (cd_UUID val);
  i ← index_of idx;
  pcibusId ← slice_get (p_pcibusid p) i;
  totalcores ← slice_get (p_totalcores p) i;
  mask ← slice_get (p_coremask p) i;
  let reqcores := Z.quot (i32 (cd_Usedcores val * i32 totalcores)) 100 in
  let coremsk := allocCoreUsage mask reqcores in
  let '((vdevidx, err), p) := AllocateVidx p in
  match err with
  | Some e => Ret (p, (""%string, 0, idx, coremsk), Some e)
  | None =>
      '((pipeid, err), p) ← AllocatePipeID p i;
      match err with
      | Some e => Ret (p, (""%string, pipeid, idx, coremsk), Some e)
      | None =>
          Ret (p, (("PciBusId: " +:+ pcibusId +:+ LF +:+ "cu_mask: 0x" +:+ coremsk +:+ LF
                    +:+ "cu_count: " +:+ itoa totalcores +:+ LF
                    +:+ "mem: " +:+ itoa (cd_Usedmem val) +:+ " MiB" +:+ LF
                    +:+ "device_id: 0" +:+ LF +:+ "vdev_id: " +:+ itoa vdevidx +:+ LF
                    +:+ "pipe_id: " +:+ itoa pipeid +:+ LF +:+ "enable: 1" +:+ LF)%string,
                   pipeid, idx, coremsk), None)
      end
  end.

Section vdev.
Context (os_MkdirAll os_Chmod : string -> option error).

Definition vdev_root : string := "/usr/local/vgpu/dcu/".

(** The plugin, the directory and the error returned, and the file written. *)
Definition createvdevFile (p : Plugin) (current : Pod) (ctr : Container) (req : ContainerDevices)
    : outcome (Plugin * string * option error * option (string * string)) :=
  if (1 <? length req)%nat then
    if existsb (fun val => (0 <? cd_Usedcores val) || (0 <? cd_Usedmem val)) req
    then Ret (p, ""%string, Some one_device_error, None)
    else Ret (p, ""%string, None, None)
  else
    let finish '(p, (s, pipeid, devidx, coremsk)) :=
      let dir := (vdev_root +:+ dir_name (pod_UID current) (ctr_Name ctr) devidx pipeid 0 coremsk)%string in
      match os_MkdirAll dir with
      | Some e => Ret (p, ""%string, Some e, None)
      | None =>
          match os_Chmod dir with
          | Some e => Ret (p, ""%string, Some e, None)
          | None => Ret (p, dir, None, Some ((dir +:+ "/vdev0.conf")%string, s))
          end
      end in
    match req with
    | val :: _ =>
        if decide (cd_UUID val = "") then finish (p, (""%string, 0, 0, ""%string))
        else
          '(p, r, err) ← vdev_device p val;
          match err with
          | Some e => Ret (p, ""%string, Some e, None)
          | None => finish (p, r)
          end
    | [] => finish (p, (""%string, 0, 0, ""%string))
    end.
End vdev.

(** ** [Allocate] *)
Definition number_error : error := "device number not matched".

(** [fmt.Sscanf(uuid, "DCU-%d", &id)] leaves 0 when the text does not match. *)
Definition scan_dcu (uuid : string) : Z := default 0 (sscanf_int "DCU-" uuid).

Definition same_path (path permissions : string) : DeviceSpec := mkDeviceSpec path path permissions.

Definition dcu_devices (devreq : ContainerDevices) : list DeviceSpec :=
  same_path "/dev/kfd" "rwm" :: same_path "/dev/mkfd" "rwm" ::
  concat ((fun val =>
      let id := scan_dcu (cd_UUID val) in
      [same_path ("/dev/dri/card" +:+ itoa id) "rw"; same_path ("/dev/dri/renderD" +:+ itoa (id + 128)) "rw"])
    <$> devreq).

Section allocate.
Context `{GoRuntime} {W : Type} `{!KubeClient W}.
Context (os_MkdirAll os_Chmod : string -> option error) (HYGONPATH : string).

(** [reqs] are the numbers of device IDs per container.  The responses hold
    pointers to one variable [car], which each iteration overwrites. *)
Fixpoint allocate_loop (nodename : string) (current : Pod) (reqs : list nat) (p : Plugin)
    (car : ContainerAllocateResponse) (count : nat) : K W (Plugin * list ContainerAllocateResponse * option error) :=
  match reqs with
  | [] =>
      _ ← PodAllocationTrySuccess nodename current;
      mret (p, replicate count car, None)
  | n :: reqs' =>
      '(currentCtr, devreq, err) ← lift (GetNextDeviceRequest hygon.HygonDCUDevice current);
      match err with
      | Some e => _ ← PodAllocationFailed nodename current; mret (p, [], Some e)
      | None =>
          if negb (length devreq =? n)%nat
          then _ ← PodAllocationFailed nodename current; mret (p, [], Some number_error)
          else
            err ← EraseNextDeviceTypeFromAnnotation hygon.HygonDCUDevice current;
            match err with
            | Some e => _ ← PodAllocationFailed nodename current; mret (p, [], Some e)
            | None =>
                '(p, filename, err, _) ← lift (createvdevFile os_MkdirAll os_Chmod p current currentCtr devreq);
                match err with
                | Some e =>
                    _ ← PodAllocationFailed nodename current;
                    mret (p, replicate count (mkCar ∅ [] (dcu_devices devreq)), Some e)
                | None =>
                    let mounts := if decide (filename = "") then []
                      else [mkMount "/etc/vdev/docker/" filename false; mkMount "/opt/hygondriver" HYGONPATH false] in
                    allocate_loop nodename current reqs' p (mkCar ∅ mounts (dcu_devices devreq)) (S count)
                end
            end
      end
  end.

Definition Allocate (nodename : string) (reqs : list nat) (p : Plugin)
    : K W (Plugin * list ContainerAllocateResponse * option error) :=
  '(current, err) ← GetPendingPod nodename;
  match err, current with
  | None, Some current => allocate_loop nodename current reqs p (mkCar ∅ [] []) 0
  | Some e, _ => _ ← ReleaseNodeLock nodename; mret (p, [], Some e)
  | None, None => lift (Panic NilDereference)
  end.
End allocate.
