(* ===== verification/DCUFacts.v ===== *)
(** * Compute units are not handed out twice; the plugin's books

    Masks are read digit by digit.  A mask allocated on top of a card's mask
    has no unit in common with it, and has as many units as were asked for
    as long as the card has them; rebuilding a card's mask from the
    directories keeps every live container's units marked. *)

From Stdlib Require Import ZArith Lia Ascii String.
From stdpp Require Import base decidable option gmap strings numbers sorting list.
From S2P Require Import Prelude GoStrings GoTime GoRuntime Types Kube NodeLock Codec Devices Score Scheduler FilterFacts PodAlloc DCU.

#[local] Open Scope Z_scope.

(** ** Digits *)
Fixpoint digits (s : string) : list Z :=
  match s with EmptyString => [] | String c s' => hex_val c :: digits s' end.

Definition bit (n i : Z) : Z := if Z.testbit n i then 1 else 0.
Definition units (n : Z) : Z := bit n 3 + bit n 2 + bit n 1 + bit n 0.
Definition mask_units (s : string) : Z := zsum (units <$> digits s).
Definition free_units (s : string) : Z := zsum ((fun n => 4 - units n) <$> digits s).

(** No unit in common. *)
Definition disjoint_masks (s t : string) : Prop := Forall2 (fun a b => Z.land a b = 0) (digits s) (digits t).

(** A mask: no NUL byte, so that the loops reach its end. *)
Definition is_mask (s : string) : Prop := has_char "000" s = false.

Definition digit (n : Z) : Prop := 0 <= n < 16.

Lemma digit_cases n :
  digit n -> n ∈ seqZ 0 16.
Proof. unfold digit. intros H. apply elem_of_seqZ. lia. Qed.

Ltac each_digit H :=
  apply digit_cases in H; let l := eval vm_compute in (seqZ 0 16) in change (seqZ 0 16) with l in H;
  repeat apply elem_of_cons in H as [->|H]; [..|by apply elem_of_nil in H].

Lemma hex_val_digit c : digit (hex_val c).
Proof.
  unfold digit, hex_val, parse_int. destruct (c =? "+")%char; [split; vm_compute; congruence|].
  destruct (c =? "-")%char; [split; vm_compute; congruence|]. unfold parse_uint. cbn [parse_uint_loop].
  destruct (digit_val c) as [d|] eqn:E; [|rewrite decide_True by done; cbn; lia].
  destruct (Z.leb_spec 16 d); [rewrite decide_True by done; cbn; lia|].
  assert (0 <= d).
  { unfold digit_val in E. repeat (case_match; bool_to_prop; try (injection E as <-; lia)); done. }
  change (2 ^ 64 - 1) with 18446744073709551615. change (2 ^ (64 - 1)) with 9223372036854775808.
  destruct (Z.ltb_spec 18446744073709551615 (0 * 16 + d)); [lia|].
  rewrite decide_False by done. destruct (Z.leb_spec 9223372036854775808 (0 * 16 + d)); [lia|]. cbn [negb andb fst]. lia.
Qed.

Lemma hex_char_val n : digit n -> hex_val (hex_char n) = n /\ (hex_char n =? "000")%char = false.
Proof. intros Hn. each_digit Hn; split; reflexivity. Qed.

(** ** One digit *)

(** Runs the loop on a concrete digit, for every number of units asked. *)
Ltac byte_cases :=
  lazymatch goal with |- context [binary4 ?b] =>
    let l := eval vm_compute in (binary4 b) in change (binary4 b) with l end;
  repeat (cbn [byte_loop negb andb];
    match goal with |- context [0 <? ?x] => destruct (Z.ltb_spec 0 x) end);
  cbn [byte_loop negb andb]; cbv beta iota;
  lazymatch goal with |- digit ?a /\ Z.land _ ?b = _ /\ _ =>
    let v := eval vm_compute in a in change a with v;
    let u := eval vm_compute in (units v) in change (units v) with u;
    let w := eval vm_compute in (units b) in change (units b) with w end;
  unfold digit; split_and!; first [reflexivity | lia].

Lemma byteAlloc_spec b req :
  digit b -> 0 <= req ->
  let '(a, r) := byteAlloc b req in
  digit a /\ Z.land a b = 0 /\ units a = Z.min req (4 - units b) /\ r = req - units a.
Proof.
  intros Hb Hr. unfold byteAlloc. destruct (Z.eqb_spec req 0) as [->|Hne].
  { unfold digit. split_and!; [lia|lia|done| |done]. each_digit Hb; reflexivity. }
  each_digit Hb; byte_cases.
Qed.

(** ** Masks *)
Lemma is_mask_cons c s : is_mask (String c s) -> (c =? "000")%char = false /\ is_mask s.
Proof. unfold is_mask. cbn. intros H. by apply orb_false_iff in H. Qed.

Lemma allocCoreUsage_spec tot req :
  is_mask tot -> 0 <= req ->
  let mask := allocCoreUsage tot req in
  is_mask mask /\ disjoint_masks mask tot /\ mask_units mask = Z.min req (free_units tot).
Proof.
  revert req. induction tot as [|c tot IH]; intros req Hm Hr; cbn [allocCoreUsage].
  { split_and!; [done|constructor|]. unfold mask_units, free_units. cbn. lia. }
  apply is_mask_cons in Hm as [Hc Hm]. rewrite Hc.
  pose proof (byteAlloc_spec (hex_val c) req (hex_val_digit c) Hr) as Hb.
  destruct (byteAlloc (hex_val c) req) as [a r]. destruct Hb as (Ha & Hland & Hu & ->).
  destruct (hex_char_val a Ha) as [Hv Hz].
  assert (0 <= units (hex_val c) <= 4) by (unfold units, bit; repeat case_match; lia).
  destruct (IH (req - units a)) as (IH1 & IH2 & IH3); [done|lia|].
  assert (0 <= free_units tot).
  { apply zsum_nonneg. rewrite Forall_fmap. apply Forall_forall. intros n _. cbn. unfold units, bit.
    repeat case_match; lia. }
  split_and!.
  - unfold is_mask in *. cbn. by rewrite Hz, IH1.
  - unfold disjoint_masks in *. cbn. rewrite Hv. by constructor.
  - unfold mask_units, free_units in *. cbn [digits]. rewrite !fmap_cons, !zsum_cons, Hv, IH3. lia.
Qed.

(** ** The mask of a card, rebuilt *)

(** The marks of a mask are in the card's mask, digit by digit; a mask longer
    than the card's is read as far as the card's goes. *)
Definition covered (m tot : string) : Prop :=
  forall j t, digits tot !! j = Some t -> exists a, digits m !! j = Some a /\ Z.land a t = a.

(** No unit in common, where both have a digit. *)
Definition apart (s t : string) : Prop :=
  forall j a b, digits s !! j = Some a -> digits t !! j = Some b -> Z.land a b = 0.

Lemma land_lor_l a b : Z.land a (Z.lor a b) = a.
Proof. apply Z.bits_inj'. intros n _. rewrite Z.land_spec, Z.lor_spec. by destruct (Z.testbit a n), (Z.testbit b n). Qed.

Lemma hex_lor_digit a b : digit (Z.lor (hex_val a) (hex_val b)).
Proof.
  generalize (hex_val_digit a) (hex_val_digit b). generalize (hex_val a) (hex_val b). intros x y Hx Hy.
  each_digit Hx; each_digit Hy; unfold digit; vm_compute; split; congruence.
Qed.

(** A mask that was added is in the sum, and so is what was there before. *)
Lemma covered_add tot c sum :
  is_mask tot -> addCoreUsage tot c = Ret sum ->
  is_mask sum /\ length (digits sum) = length (digits tot) /\ covered c sum /\ (forall m, covered m tot -> covered m sum).
Proof.
  revert c sum. induction tot as [|a tot IH]; intros c sum Hm; cbn [addCoreUsage].
  { intros [= <-]. by split_and!. }
  apply is_mask_cons in Hm as [Ha Hm]. rewrite Ha. destruct c as [|b c]; [done|].
  intros (rest & E & [= <-])%bind_Ret_inv. destruct (IH c rest Hm E) as (I1 & I2 & I3 & I4).
  destruct (hex_char_val _ (hex_lor_digit a b)) as [Hv Hz]. split_and!.
  - unfold is_mask in *. cbn. by rewrite Hz, I1.
  - cbn. by rewrite I2.
  - intros [|j] t; cbn [digits lookup list_lookup]; rewrite ?Hv; [|apply I3]. intros [= <-]. eexists. split; [done|].
    rewrite Z.lor_comm. apply land_lor_l.
  - intros m Hc [|j] t; cbn [digits lookup list_lookup]; rewrite ?Hv.
    + intros [= <-]. destruct (Hc 0%nat (hex_val a) eq_refl) as (x & Hx & Hxa). exists x. split; [done|].
      rewrite <- Hxa at 1. rewrite <- Z.land_assoc, land_lor_l. exact Hxa.
    + intros Ht. destruct m as [|x m]; [by destruct (Hc 0%nat (hex_val a) eq_refl) as (? & ? & _)|].
      apply (I4 m); [|done]. intros j' t' Hj. exact (Hc (S j') t' Hj).
Qed.

(** What is disjoint from the card's mask is disjoint from every mask in it. *)
Lemma disjoint_covered a m tot : disjoint_masks a tot -> covered m tot -> apart a m.
Proof.
  unfold disjoint_masks. intros Hd Hc j x y Hx Hy. destruct (Forall2_lookup_l _ _ _ _ _ Hd Hx) as (t & Ht & Hxt).
  destruct (Hc j t Ht) as (y' & Hy' & Hyt). assert (y' = y) as -> by congruence. cbn in Hxt.
  rewrite <- Hyt, (Z.land_comm y t), Z.land_assoc, Hxt. apply Z.land_0_l.
Qed.

Lemma initCoreUsage_spec n :
  is_mask (initCoreUsage n) /\ length (digits (initCoreUsage n)) = Z.to_nat (Z.quot n 4)
  /\ Forall (fun d => d = 0) (digits (initCoreUsage n)).
Proof.
  unfold initCoreUsage. generalize (Z.to_nat (Z.quot n 4)). intros k. induction k as [|k (I1 & I2 & I3)].
  { split_and!; [done..|constructor]. }
  cbn [repeat_char digits]. split_and!; [exact I1|cbn; by rewrite I2|by constructor].
Qed.

(** ** The plugin *)
Lemma AllocateVidx_keeps p : p_coremask (AllocateVidx p).2 = p_coremask p /\ p_totalcores (AllocateVidx p).2 = p_totalcores p
  /\ p_pcibusid (AllocateVidx p).2 = p_pcibusid p /\ p_pipeid (AllocateVidx p).2 = p_pipeid p.
Proof. unfold AllocateVidx. by destruct (take_free 0 (p_vidx p)) as [[? ?]|]. Qed.

Lemma AllocatePipeID_keeps p i r p' :
  AllocatePipeID p i = Ret (r, p') ->
  p_coremask p' = p_coremask p /\ p_totalcores p' = p_totalcores p /\ p_pcibusid p' = p_pcibusid p.
Proof.
  unfold AllocatePipeID. destruct (slice_get (p_pipeid p) i) as [pipes|]; [|done]. cbn [mbind outcome_bind].
  destruct (take_free 0 pipes) as [[idx pipes']|].
  - destruct (slice_set (p_pipeid p) i pipes'); [|done]. cbn [mbind outcome_bind]. by intros [= <- <-].
  - by intros [= <- <-].
Qed.

(** The mask of a new device: computed from the card's mask, which stays as
    it was. *)
Lemma vdev_device_mask p val p' s pipe idx mask :
  vdev_device p val = Ret (p', (s, pipe, idx, mask), None) ->
  p_coremask p' = p_coremask p /\ p_totalcores p' = p_totalcores p
  /\ exists i cores tot, getIndexFromUUID (cd_UUID val) = Ret idx /\ index_of idx = Ret i
       /\ p_totalcores p !! i = Some cores /\ p_coremask p !! i = Some tot
       /\ mask = allocCoreUsage tot (Z.quot (i32 (cd_Usedcores val * i32 cores)) 100).
Proof.
  unfold vdev_device. destruct (getIndexFromUUID (cd_UUID val)) as [idx'|]; [|done]. cbn [mbind outcome_bind].
  destruct (index_of idx') as [i|] eqn:Ei; [|done]. cbn [mbind outcome_bind].
  destruct (slice_get (p_pcibusid p) i); [|done]. cbn [mbind outcome_bind].
  destruct (slice_get (p_totalcores p) i) as [cores|] eqn:Ec; [|done]. cbn [mbind outcome_bind].
  destruct (slice_get (p_coremask p) i) as [tot|] eqn:Et; [|done]. cbn [mbind outcome_bind].
  destruct (AllocateVidx_keeps p) as (K1 & K2 & _). destruct (AllocateVidx p) as [[v [e|]] p1]; [done|].
  cbn [snd] in *. destruct (AllocatePipeID p1 i) as [[[pp [e|]] p2]|] eqn:Ep; [done| |done]. cbn [mbind outcome_bind].
  apply AllocatePipeID_keeps in Ep as (K3 & K4 & _). intros [= <- _ _ <- <-].
  apply slice_get_Ret in Ec, Et. split_and!; [congruence|congruence|].
  exists i, cores, tot. by split_and!.
Qed.

(** ** The masks after a refresh *)
Definition dir_card (name : string) : option nat :=
  t ← split "_" name !! 2%nat; match index_of (atoi t).1 with Ret i => Some i | Panic _ => None end.
Definition dir_mask (name : string) : option string := split "_" name !! 5%nat.

(** The card of a directory has the units of the directory marked. *)
Definition marked (p : Plugin) (name : string) : Prop :=
  exists i m tot, dir_card name = Some i /\ dir_mask name = Some m /\ p_coremask p !! i = Some tot /\ covered m tot.

(** The masks only grow. *)
Record masks_grow (p p' : Plugin) : Prop := {
  mg_masks : Forall is_mask (p_coremask p');
  mg_cores : p_totalcores p' = p_totalcores p;
  mg_marked name : marked p name -> marked p' name;
}.

Lemma masks_grow_same p p' :
  Forall is_mask (p_coremask p) -> p_coremask p' = p_coremask p -> p_totalcores p' = p_totalcores p -> masks_grow p p'.
Proof. intros Hm E1 E2. split; [by rewrite E1|done|]. intros name. unfold marked. by rewrite E1. Qed.

Lemma masks_grow_trans p1 p2 p3 : masks_grow p1 p2 -> masks_grow p2 p3 -> masks_grow p1 p3.
Proof. intros [A1 A2 A3] [B1 B2 B3]. split; [done|congruence|auto]. Qed.

Lemma slice_set_Ret {A} (l : list A) i v l' : slice_set l i v = Ret l' -> l' = <[i := v]> l /\ (i < length l)%nat.
Proof. unfold slice_set. case_decide; [|done]. by intros [= <-]. Qed.

Lemma refresh_found_marks name p p' :
  Forall is_mask (p_coremask p) -> refresh_found name p = Ret p' -> masks_grow p p' /\ marked p' name.
Proof.
  intros Hm. unfold refresh_found. intros (t2 & H2 & E)%bind_Ret_inv. apply bind_Ret_inv in E as (t3 & _ & E).
  apply bind_Ret_inv in E as (t4 & _ & E). apply bind_Ret_inv in E as (i & Hi & E). apply bind_Ret_inv in E as (tot & Ht & E).
  apply bind_Ret_inv in E as (m & H5 & E). apply bind_Ret_inv in E as (sum & Hs & E). apply bind_Ret_inv in E as (masks & Hset & E).
  do 6 apply bind_Ret_inv in E as (? & _ & E). injection E as <-.
  apply slice_get_Ret in H2, Ht, H5. apply slice_set_Ret in Hset as [-> Hlt]. rewrite Forall_lookup in Hm.
  destruct (covered_add tot m sum (Hm i tot Ht) Hs) as (S1 & _ & S3 & S4). split; [split|]; cbn.
  - apply Forall_insert; [by rewrite Forall_lookup|done].
  - done.
  - intros name' (i' & m' & tot' & C1 & C2 & C3 & C4). unfold marked. cbn. destruct (decide (i' = i)) as [->|Hne].
    + exists i, m', sum. rewrite list_lookup_insert_eq by done. split_and!; [done|done|done|]. apply S4. by assert (tot' = tot) as <- by congruence.
    + exists i', m', tot'. rewrite list_lookup_insert_ne by done. by split_and!.
  - unfold marked. cbn. exists i, m, sum. rewrite list_lookup_insert_eq by done. split_and!; [|done|done|done].
    unfold dir_card. rewrite H2. cbn. by rewrite Hi.
Qed.

Lemma refresh_pods_marks name pods found p found' p' :
  Forall is_mask (p_coremask p) -> refresh_pods name pods found p = Ret (found', p') ->
  masks_grow p p' /\ (found' = true -> found = true \/ marked p' name).
Proof.
  revert found p. induction pods as [|pod pods IH]; intros found p Hm; cbn [refresh_pods].
  { intros [= <- <-]. split; [by apply masks_grow_same|auto]. }
  destruct (contains name (pod_UID pod)); [|by apply IH]. intros (p1 & E1 & E)%bind_Ret_inv.
  destruct (refresh_found_marks name p p1 Hm E1) as [Hg Hmk]. destruct (IH true p1 (mg_masks _ _ Hg) E) as [Hg' _].
  split; [by eapply masks_grow_trans|]. intros _. right. by apply (mg_marked _ _ Hg').
Qed.

Lemma refresh_gone_keeps name p p' :
  refresh_gone name p = Ret p' -> p_coremask p' = p_coremask p /\ p_totalcores p' = p_totalcores p.
Proof. unfold refresh_gone. intros E. do 10 apply bind_Ret_inv in E as (? & _ & E). by injection E as <-. Qed.

(** Every directory that is kept has its units marked. *)
Lemma refresh_loop_marks `{KubeClient W} files p gone (w : W) p' removed err w' :
  Forall is_mask (p_coremask p) -> refresh_loop files p gone w = Ret ((p', removed, err), w') ->
  masks_grow p p' /\ gone ⊆ removed /\ (err = None -> forall f, f ∈ files -> f ∉ removed -> marked p' f).
Proof.
  revert p gone w. induction files as [|f files IH]; intros p gone w Hm; cbn [refresh_loop].
  { intros [= <- <- <- <-]. split_and!; [by apply masks_grow_same|done|]. intros _ f Hf. by apply elem_of_nil in Hf. }
  intros ([pods lerr] & w1 & _ & E)%K_bind_inv. destruct lerr as [e|].
  { injection E as <- <- <- <-. split_and!; [by apply masks_grow_same|done|done]. }
  apply K_bind_inv in E as ([found p1] & w2 & [E1 _]%lift_inv & E). cbn [fst] in E1.
  destruct (refresh_pods_marks f pods false p found p1 Hm E1) as [Hg Hf]. destruct found.
  - destruct (IH p1 gone w2 (mg_masks _ _ Hg) E) as (Hg' & Hs & Hk). split_and!; [by eapply masks_grow_trans|done|].
    intros He f' [->|Hin]%elem_of_cons Hn; [|by apply Hk]. destruct (Hf eq_refl) as [?|Hmk]; [done|]. by apply (mg_marked _ _ Hg').
  - apply K_bind_inv in E as (p2 & w3 & [E2 _]%lift_inv & E). cbn [fst] in E2. apply refresh_gone_keeps in E2 as [K1 K2].
    assert (masks_grow p1 p2) as Hg2 by (apply masks_grow_same; [apply Hg|done|done]).
    destruct (IH p2 (gone ++ [f]) w3 (mg_masks _ _ Hg2) E) as (Hg' & Hs & Hk).
    split_and!; [by do 2 (eapply masks_grow_trans; [done|])|set_solver|].
    intros He f' [->|Hin]%elem_of_cons Hn; [|by apply Hk]. exfalso. apply Hn, Hs. set_solver.
Qed.

Lemma RefreshContainerDevices_marks `{KubeClient W} files p (w : W) p' removed w' :
  RefreshContainerDevices (inl files) p w = Ret ((p', removed, None), w') ->
  Forall is_mask (p_coremask p') /\ p_totalcores p' = p_totalcores p
  /\ forall f, f ∈ files -> f ∉ removed -> marked p' f.
Proof.
  unfold RefreshContainerDevices. intros E. apply refresh_loop_marks in E as ([G1 G2 _] & _ & Hk); [by split_and!; auto|].
  cbn. apply Forall_fmap, Forall_forall. intros i _. apply initCoreUsage_spec.
Qed.

(** No request of a Hygon container is ever found: its type has no annotation
    name. *)
Lemma dcu_request_missing `{GoRuntime} p :
  GetNextDeviceRequest hygon.HygonDCUDevice p = Ret (zeroContainer, [], Some request_not_found).
Proof.
  unfold GetNextDeviceRequest.
  pose proof (DecodePodDevices_dom InRequestDevices (pod_Annotations p) hygon.HygonDCUDevice eq_refl) as Hd.
  assert ((DecodePodDevices InRequestDevices (pod_Annotations p)).2 = None) as He.
  { unfold DecodePodDevices. case_decide; [done|].
    destruct (decode_pod_loop_total (range ("DecodePodDevices", 0%nat)%string InRequestDevices) (pod_Annotations p) ∅)
      as [pd ->]. done. }
  destruct (DecodePodDevices InRequestDevices (pod_Annotations p)) as [pd err]. cbn [fst snd] in *. subst err.
  by rewrite Hd.
Qed.

Definition dcu_card : Plugin :=
  Start_tables ["0000:33:00.0"] [64] [16000] ["DCU-Z100"].
Definition dcu_val (cores : Z) : ContainerDevice := mkContainerDevice 0 "DCU-0" "DCU" 4000 cores.

(** A card of 16 units, the directories of two containers, of which one is of
    a pod that exists. *)
Definition small_card : Plugin := Start_tables ["0000:33:00.0"] [16] [16000] ["DCU-Z100"].
Definition two_directories : list string := ["u1_c_0_0_0_f000"; "u2_c_0_1_1_0c00"].
Definition dcu_container (name : string) : Container := mkContainer name ∅ ∅ [] None None.
Definition live_pod : Pod := mkPod "p1" "default" "u1" ∅ [dcu_container "c"] "" "Running".
Definition one_live_pod : Server := mkServer ∅ [live_pod] [] 0 [].

Definition refreshed : Plugin :=
  match RefreshContainerDevices (inl two_directories) small_card one_live_pod with
  | Ret ((p', _, _), _) => p'
  | Panic _ => small_card
  end.

(** A run that succeeded. *)
Definition vdev_ok (r : outcome (Plugin * (string * Z * Z * string) * option error)) : bool :=
  match r with Ret (_, _, None) => true | _ => false end.

Lemma vdev_ok_inv r :
  vdev_ok r = true -> exists p s pipe idx mask, r = Ret (p, (s, pipe, idx, mask), None).
Proof. destruct r as [[[p [[[s pipe] idx] mask]] [e|]]|]; [done| |done]. intros _. by exists p, s, pipe, idx, mask. Qed.

Module DCUProps.

(** C26. A new container does not get compute units of the containers known to
    the last refresh.  When [RefreshContainerDevices] has rebuilt the masks of
    the cards from the directories of the containers, and [createvdevFile]
    then makes the directory of a container that asks for one device, the mask
    it writes has no unit in common with the mask of any directory of that
    card that the refresh kept, and it has the share of the card's units that
    was asked for, as long as so many are free.  The share is between 0 and
    100 percent, and 100 times the units of a card fits an int32.  The card's
    mask is left as it was, so nothing is said of a second container before
    the next refresh: it may get the same units ([dcu_mask_given_twice]). *)
Theorem dcu_masks_disjoint `{KubeClient W} files p (w w' : W) p' removed mkdir chmod current ctr val p'' dir file :
  RefreshContainerDevices (inl files) p w = Ret ((p', removed, None), w') ->
  createvdevFile mkdir chmod p' current ctr [val] = Ret (p'', dir, None, Some file) -> cd_UUID val <> ""%string ->
  0 <= cd_Usedcores val <= 100 -> Forall (fun n => 0 <= n /\ 100 * n <= max_i32) (p_totalcores p) ->
  exists i cores tot pipe mask, getIndexFromUUID (cd_UUID val) = Ret (Z.of_nat i)
    /\ p_totalcores p !! i = Some cores /\ p_coremask p' !! i = Some tot /\ p_coremask p'' = p_coremask p'
    /\ dir = (vdev_root +:+ dir_name (pod_UID current) (ctr_Name ctr) (Z.of_nat i) pipe 0 mask)%string
    /\ (forall f, f ∈ files -> f ∉ removed -> dir_card f = Some i -> exists m, dir_mask f = Some m /\ apart mask m)
    /\ mask_units mask = Z.min (Z.quot (cd_Usedcores val * cores) 100) (free_units tot).
Proof.
  intros Er Ec Hu Hv Hcores. apply RefreshContainerDevices_marks in Er as (Hm & Htc & Hk).
  unfold createvdevFile in Ec. cbn [length Nat.ltb Nat.leb] in Ec. rewrite decide_False in Ec by done.
  apply bind_Ret_inv in Ec as ([[p1 [[[s pipe] idx] mask]] err] & Ev & Ec). destruct err as [e|]; [done|].
  apply vdev_device_mask in Ev as (K1 & _ & i & cores & tot & G1 & I1 & C1 & T1 & ->).
  assert (idx = Z.of_nat i) as ->.
  { unfold index_of in I1. destruct (Z.ltb_spec idx 0); [done|]. injection I1 as <-. lia. }
  rewrite Htc in C1. rewrite Forall_lookup in Hcores. rewrite Forall_lookup in Hm. destruct (Hcores i cores C1) as [Hc0 Hc1].
  assert (i32 (cd_Usedcores val * i32 cores) = cd_Usedcores val * cores) as Hw.
  { unfold max_i32 in *. rewrite (wrap32_id cores) by (unfold in_i32, min_i32, max_i32; lia).
    apply wrap32_id. unfold in_i32, min_i32, max_i32. nia. }
  rewrite Hw in Ec.
  destruct (allocCoreUsage_spec tot (Z.quot (cd_Usedcores val * cores) 100) (Hm i tot T1)) as (_ & Hd & Hn);
    [apply Z.quot_pos; nia|].
  exists i, cores, tot, pipe, (allocCoreUsage tot (Z.quot (cd_Usedcores val * cores) 100)).
  destruct (mkdir _); [done|]. destruct (chmod _); [done|]. injection Ec as <- <- _. split_and!; try done.
  intros f Hf Hnr Hcard. destruct (Hk f Hf Hnr) as (i' & m & tot' & M1 & M2 & M3 & M4).
  assert (i' = i) as -> by congruence. assert (tot' = tot) as -> by congruence. exists m. split; [done|].
  by eapply disjoint_covered.
Qed.

Lemma dcu_masks_disjoint_witness :
  exists w' p'' dir file mask,
    RefreshContainerDevices (inl two_directories) small_card one_live_pod = Ret ((refreshed, ["u2_c_0_1_1_0c00"%string], None), w')
    /\ createvdevFile (fun _ => None) (fun _ => None) refreshed live_pod (dcu_container "c") [dcu_val 25] = Ret (p'', dir, None, Some file)
    /\ apart mask "f000" /\ mask_units mask = 4.
Proof.
  assert (exists w', RefreshContainerDevices (inl two_directories) small_card one_live_pod
    = Ret ((refreshed, ["u2_c_0_1_1_0c00"%string], None), w')) as (w' & E1) by (eexists; vm_compute; reflexivity).
  assert (exists p'' dir file, createvdevFile (fun _ => None) (fun _ => None) refreshed live_pod (dcu_container "c") [dcu_val 25]
    = Ret (p'', dir, None, Some file)) as (p'' & dir & file & E2) by (do 3 eexists; vm_compute; reflexivity).
  destruct (dcu_masks_disjoint two_directories small_card one_live_pod w' refreshed _ _ _ _ _ _ _ _ _ E1 E2)
    as (i & cores & tot & pipe & mask & Hi & Hc & Ht & _ & _ & Hd & Hn); [discriminate|cbn; lia|repeat constructor; cbn; unfold max_i32; lia|].
  assert (i = 0%nat) as -> by (change (Ret 0 = Ret (Z.of_nat i)) in Hi; injection Hi as Hi; lia).
  assert (cores = 16) as -> by (cbn in Hc; congruence).
  assert (tot = "f000"%string) as -> by (vm_compute in Ht; congruence).
  exists w', p'', dir, file, mask. split; [exact E1|]. split; [exact E2|]. split.
  - destruct (Hd "u1_c_0_0_0_f000"%string) as (m & Em' & Ha); [by left|by rewrite list_elem_of_singleton|vm_compute; reflexivity|].
    assert (m = "f000"%string) as -> by (vm_compute in Em'; congruence). exact Ha.
  - rewrite Hn. vm_compute. reflexivity.
Defined.

(** Creating the file of a container does not mark its units: until the
    tables are rebuilt from the directories, a second container on the same
    card with the same share is given the same units. *)
Theorem dcu_mask_given_twice p val p' s pipe idx mask val' p'' s' pipe' idx' mask' :
  vdev_device p val = Ret (p', (s, pipe, idx, mask), None) ->
  vdev_device p' val' = Ret (p'', (s', pipe', idx', mask'), None) ->
  cd_UUID val' = cd_UUID val -> cd_Usedcores val' = cd_Usedcores val ->
  mask' = mask.
Proof.
  intros E1 E2 Hu Hc. apply vdev_device_mask in E1 as (K1 & K2 & i & cores & tot & G1 & I1 & C1 & T1 & ->).
  apply vdev_device_mask in E2 as (_ & _ & i' & cores' & tot' & G2 & I2 & C2 & T2 & ->).
  rewrite Hu, G1 in G2. injection G2 as <-. rewrite I1 in I2. injection I2 as <-.
  rewrite K2, C1 in C2. injection C2 as <-. rewrite K1, T1 in T2. injection T2 as <-. by rewrite Hc.
Qed.

Lemma dcu_mask_given_twice_witness :
  exists p' p'' s s' pipe pipe' idx idx' mask mask',
    vdev_device dcu_card (dcu_val 50) = Ret (p', (s, pipe, idx, mask), None)
    /\ vdev_device p' (dcu_val 50) = Ret (p'', (s', pipe', idx', mask'), None) /\ mask' = mask.
Proof.
  assert (vdev_ok (vdev_device dcu_card (dcu_val 50)) = true) as E1 by (vm_compute; reflexivity).
  assert (match vdev_device dcu_card (dcu_val 50) with
          | Ret (p', _, _) => vdev_ok (vdev_device p' (dcu_val 50)) | Panic _ => false end = true)
    as E2 by (vm_compute; reflexivity).
  apply vdev_ok_inv in E1 as (p' & s & pipe & idx & mask & E1). rewrite E1 in E2.
  apply vdev_ok_inv in E2 as (p'' & s' & pipe' & idx' & mask' & E2).
  exists p', p'', s, s', pipe, pipe', idx, idx', mask, mask'. split; [exact E1|]. split; [exact E2|].
  exact (dcu_mask_given_twice _ _ _ _ _ _ _ _ _ _ _ _ _ E1 E2 eq_refl eq_refl).
Defined.

(** The Hygon plugin never serves a container: its type is not in the table
    of annotation names, so the search for the container's devices always
    fails, and every allocation call with a container ends in an error. *)
Theorem dcu_allocate_always_fails `{GoRuntime} {W} `{!KubeClient W} mkdir chmod path nodename n reqs p (w : W) p' res err w' :
  Allocate mkdir chmod path nodename (n :: reqs) p w = Ret ((p', res, err), w') ->
  res = [] /\ is_Some err /\ p' = p.
Proof.
  unfold Allocate, GetPendingPod, call, mbind, K_bind, mret, K_ret.
  destruct (api_ListPods w) as [[podlist lerr] w1]. destruct lerr as [e|].
  { destruct (ReleaseNodeLock nodename w1) as [[r w2]|]; [|done]. intros [= <- <- <- _]. split_and!; [done|by eexists|done]. }
  destruct (list_find (fun p => is_pending nodename p = true) podlist) as [[k current]|].
  - cbn [allocate_loop]. unfold lift, mbind, K_bind, outcome_bind. rewrite dcu_request_missing. cbv beta iota.
    destruct (PodAllocationFailed nodename current w1) as [[u w2]|]; [|done].
    intros [= <- <- <- _]. split_and!; [done|by eexists|done].
  - destruct (ReleaseNodeLock nodename w1) as [[r w2]|]; [|done]. intros [= <- <- <- _]. split_and!; [done|by eexists|done].
Qed.

Lemma dcu_allocate_always_fails_witness :
  let _ := go_reference in
  exists p' res err w', Allocate (fun _ => None) (fun _ => None) "" "n1" [1%nat] dcu_card (one_node free_node [])
    = Ret ((p', res, err), w') /\ is_Some err.
Proof.
  intros rt. assert (exists p' res err w', Allocate (fun _ => None) (fun _ => None) "" "n1" [1%nat] dcu_card
    (one_node free_node []) = Ret ((p', res, err), w')) as (p' & res & err & w' & E)
    by (do 4 eexists; vm_compute; reflexivity).
  exists p', res, err, w'. split; [exact E|].
  eapply (@dcu_allocate_always_fails go_reference Server server) in E as (_ & He & _). exact He.
Defined.
End DCUProps.
