(* ===== verification/DCUStart.v ===== *)
(** * The Hygon DCU plugin: start, device list, discovery

    [Start] of [pkg/device-plugin/hygon/dcu/server.go] reads the cards of the
    node from the output of the vendor's tools: [hy-smi] for the memory, the
    product and the bus of each card, [hdmcli] for the compute units.  The
    output of each tool is an argument, [None] when the tool fails.  Then
    [ListAndWatch] with its heartbeat, [AllocateOrigin], the count of GPUs in
    the topology files, and the registration loop of [register.go];
    [GetAMDGPUs] and [AMDGPU] of [amdgpu/amdgpu.go] (DCUDriver.v has the rest). *)

From Stdlib Require Import ZArith Lia Ascii String.
From stdpp Require Import base decidable option gmap strings numbers sorting list.
From S2P Require Import Prelude GoStrings GoScan GoTime GoRuntime Types Kube NodeLock Codec Devices Score Scheduler PodAlloc DCU.

#[local] Open Scope string_scope.
#[local] Open Scope Z_scope.

(** ** Reading the tools *)

(** [_, err := fmt.Sscanf(...); if err != nil { panic(err) }] *)
Definition scan_or_panic (val format : string) : outcome (list scan_value) :=
  match Sscanf val format with
  | (vals, None) => Ret vals
  | (_, Some _) => Panic Explicit
  end.

Definition format_end : string := String NL "".
Definition TAB : ascii := "009".
(** The text between the index and the colon. *)
Definition gap : string := String " " (String TAB (String TAB "")).

Definition fmt_memory : string := "DCU[%d]" +:+ gap +:+ ": vram Total Memory (B): %d" +:+ format_end.
Definition fmt_used : string := "DCU[%d]" +:+ gap +:+ ": vram Total Used Memory (B): %d" +:+ format_end.
Definition fmt_series : string := "DCU[%d]" +:+ gap +:+ ": Card series:" +:+ String TAB (String TAB "%s") +:+ format_end.
Definition fmt_bus : string := "DCU[%d]" +:+ gap +:+ ": PCI Bus: %s" +:+ format_end.
Definition fmt_device : string := String TAB "Actual Device: %d".
Definition fmt_units : string := String TAB "Compute units: %d".

(** The values of the verbs; a scan without an error fills every verb. *)
Definition int_arg (vals : list scan_value) (i : nat) : Z := match vals !! i with Some (SInt z) => z | _ => 0 end.
Definition str_arg (vals : list scan_value) (i : nat) : string := match vals !! i with Some (SStr s) => s | _ => "" end.

(** [hy-smi --showmeminfo vram]: the lines of the cards alternate between the
    total and the used memory; [index] and [count] go up with each. *)
Fixpoint read_memory (lines : list string) (index count : Z) (totalmem : list Z) : outcome (Z * Z * list Z) :=
  match lines with
  | [] => Ret (index, count, totalmem)
  | val :: lines' =>
      if negb (contains val "DCU[") then read_memory lines' index count totalmem
      else if index mod 2 =? 0 then
        vals ← scan_or_panic val fmt_memory;
        idx ← index_of (int_arg vals 0);
        totalmem ← slice_set totalmem idx (Z.quot (Z.quot (int_arg vals 1) 1024) 1024);
        read_memory lines' (index + 1) (count + 1) totalmem
      else
        _ ← scan_or_panic val fmt_used;
        read_memory lines' (index + 1) (count + 1) totalmem
  end.

(** [hy-smi --showproduct]: [index] goes on from the lines of the memory. *)
Fixpoint read_product (lines : list string) (index : Z) (cardtype : list string) : outcome (list string) :=
  match lines with
  | [] => Ret cardtype
  | val :: lines' =>
      if negb (contains val "DCU[") then read_product lines' index cardtype
      else if index mod 2 =? 0 then
        vals ← scan_or_panic val fmt_series;
        idx ← index_of (int_arg vals 0);
        cardtype ← slice_set cardtype idx ("DCU-" +:+ str_arg vals 1);
        read_product lines' (index + 1) cardtype
      else read_product lines' (index + 1) cardtype
  end.

(** [hy-smi --showbus] *)
Fixpoint read_bus (lines : list string) (pcibusid : list string) : outcome (list string) :=
  match lines with
  | [] => Ret pcibusid
  | val :: lines' =>
      if negb (contains val "DCU[") then read_bus lines' pcibusid
      else
        vals ← scan_or_panic val fmt_bus;
        idx ← index_of (int_arg vals 0);
        pcibusid ← slice_set pcibusid idx (str_arg vals 1);
        read_bus lines' pcibusid
  end.

(** [hdmcli --show-device-info]: the line of a card, then its units. *)
Fixpoint read_units (lines : list string) (idx : Z) (totalcores : list Z) : outcome (list Z) :=
  match lines with
  | [] => Ret totalcores
  | val :: lines' =>
      if contains val "Actual Device:" then
        vals ← scan_or_panic val fmt_device;
        read_units lines' (int_arg vals 0) totalcores
      else if contains val "Compute units:" then
        i ← index_of idx;
        _ ← slice_get totalcores i;
        vals ← scan_or_panic val fmt_units;
        totalcores ← slice_set totalcores i (int_arg vals 0);
        read_units lines' idx totalcores
      else read_units lines' idx totalcores
  end.

(** [log.Fatalf] when a tool fails. *)
Definition output (out : option string) : outcome (list string) :=
  match out with Some s => Ret (split NL s) | None => Panic Fatal end.

(** The tables and [count]. *)
Definition Start (meminfo product bus info : option string) : outcome (Plugin * Z) :=
  lines ← output meminfo;
  '(index, count, totalmem) ← read_memory lines 0 0 (replicate 16 0);
  lines ← output product;
  cardtype ← read_product lines index (replicate 16 "");
  lines ← output bus;
  pcibusid ← read_bus lines (replicate 16 "");
  lines ← output info;
  totalcores ← read_units lines 0 (replicate 16 0);
  Ret (Start_tables pcibusid totalcores totalmem cardtype, count).

(** ** amdgpu/amdgpu.go *)

(** [name[0:n]] and [name[n:]]: a shorter name panics. *)
Definition str_cut (n : nat) (name : string) : outcome (string * string) :=
  if (n <=? String.length name)%nat
  then Ret (String.substring 0 n name, String.substring n (String.length name - n) name)
  else Panic SliceBounds.

(** One entry of the drm directory of a card. *)
Definition drm_entry (m : gmap string Z) (devPath : string) : outcome (gmap string Z) :=
  let name := path_base devPath in
  '(pre4, rest4) ← str_cut 4 name;
  if decide (pre4 = "card") then Ret (<[pre4 := (atoi rest4).1]> m)
  else
    '(pre7, rest7) ← str_cut 7 name;
    if decide (pre7 = "renderD") then Ret (<[pre7 := (atoi rest7).1]> m) else Ret m.

Fixpoint drm_entries (m : gmap string Z) (devPaths : list string) : outcome (gmap string Z) :=
  match devPaths with
  | [] => Ret m
  | d :: devPaths' => m ← drm_entry m d; drm_entries m devPaths'
  end.

(** [driver]: the driver directory exists; [matches]: the paths of the cards
    with the entries of their drm directories. *)
Fixpoint gpus_loop (matches : list (string * list string)) (devices : gmap string (gmap string Z))
    : outcome (gmap string (gmap string Z)) :=
  match matches with
  | [] => Ret devices
  | (path, devPaths) :: matches' =>
      m ← drm_entries ∅ devPaths;
      gpus_loop matches' (<[path_base path := m]> devices)
  end.

Definition GetAMDGPUs (driver : bool) (matches : list (string * list string)) : outcome (gmap string (gmap string Z)) :=
  if negb driver then Ret ∅ else gpus_loop matches ∅.

(** [AMDGPU]: the vendor file of the card. *)
Definition AMDGPU (vendor : string + error) : bool :=
  match vendor with
  | inl b => bool_decide (trim_space b = "0x1d94")
  | inr _ => false
  end.

(** ** The topology *)

(** [\s] of a regular expression: no vertical tab. *)
Definition re_space (c : ascii) : bool := is_space c && negb (c =? "011")%char.

(** [simd_count\s(\d+)]: the digits of the leftmost match. *)
Fixpoint find_simd (s : string) : option string :=
  match (match strip_prefix "simd_count" s with
         | Some (String c rest) =>
             if re_space c then match digits_prefix rest with "" => None | d => Some d end else None
         | _ => None
         end) with
  | Some d => Some d
  | None => match s with EmptyString => None | String _ s' => find_simd s' end
  end.

(** The scan of a file stops at the first count that is positive. *)
Definition has_simd (lines : list string) : bool :=
  existsb (fun l => match find_simd l with Some d => 0 <? (atoi d).1 | None => false end) lines.

(** [files]: the properties files of the nodes, [None] for one that does not
    open. *)
Definition countGPUDevFromTopology (files : list (option string)) : Z :=
  Z.of_nat (length (filter (fun f => match f with Some text => has_simd (scan_lines text) | None => false end = true) files)).

(** ** The device plugin API *)
Section list_and_watch.
Context `{GoRuntime}.

(** [devs]: the devices made from the bus identifiers, whose health the
    heartbeat sets, and the lists sent.  [beats] are the answers of
    [simpleHealthCheck]. *)
Definition fake_devices (p : Plugin) : list pluginapi.Device :=
  (fun id => pluginapi.mkDevice id pluginapi.Healthy) <$> generateFakeDevs (apiDevices p).

Fixpoint heartbeat_loop (p : Plugin) (devs : list pluginapi.Device) (beats : list bool)
    : list pluginapi.Device * list (list pluginapi.Device) :=
  match beats with
  | [] => (devs, [])
  | ok :: beats' =>
      let health := if ok : bool then pluginapi.Healthy else pluginapi.Unhealthy in
      let devs := (fun d => pluginapi.mkDevice (pluginapi.ID d) health) <$> devs in
      let '(devs', sent) := heartbeat_loop p devs beats' in
      (devs', fake_devices p :: sent)
  end.

Definition ListAndWatch (p : Plugin) (AMDGPUs : gmap string (gmap string Z)) (beats : list bool)
    : list pluginapi.Device * list (list pluginapi.Device) :=
  let devs := (fun x => pluginapi.mkDevice x.1 pluginapi.Healthy) <$> range ("ListAndWatch", 0%nat) AMDGPUs in
  let '(devs, sent) := heartbeat_loop p devs beats in
  (devs, fake_devices p :: sent).

(** [AllocateOrigin]: the responses are pointers to one variable, which the
    last container of the request fills. *)
Definition origin_devices (AMDGPUs : gmap string (gmap string Z)) (n : nat) (ids : list string) : list DeviceSpec :=
  same_path "/dev/kfd" "rw" ::
  concat (imap (fun i id => (fun '(k, v) => same_path ("/dev/dri/" +:+ k +:+ itoa v) "rw")
                              <$> range ("AllocateOrigin " +:+ itoa (Z.of_nat n), i) (default ∅ (AMDGPUs !! id))) ids).

Definition AllocateOrigin (AMDGPUs : gmap string (gmap string Z)) (reqs : list (list string)) : list ContainerAllocateResponse :=
  match List.last (imap (fun n ids => Some (mkCar ∅ [] (origin_devices AMDGPUs n ids))) reqs) None with
  | Some car => replicate (length reqs) car
  | None => []
  end.
End list_and_watch.

(** ** register.go: one turn of [WatchAndRegister] *)
Definition dcu_watch_round `{GoRuntime} {W} `{!KubeClient W} (readdir : list string + error) (nodeName now : string)
    (p : Plugin) : K W (Plugin * list string * Z) :=
  '(p, removed, _) ← RefreshContainerDevices readdir p;
  err ← RegistrInAnnotation p nodeName now;
  mret (p, removed, match err with Some _ => 5 | None => 30 end).
