(* ===== verification/DCUStartFacts.v ===== *)
(** * Properties of the start of the Hygon DCU plugin

    The tables [Start] builds from the output of the vendor's tools, what the
    node then registers, and what the heartbeat tells the kubelet. *)

From Stdlib Require Import ZArith Lia Ascii String.
From stdpp Require Import base decidable option gmap strings numbers sorting list.
From S2P Require Import Prelude GoStrings GoScan GoTime GoRuntime Types Kube NodeLock Codec Devices Score Scheduler PodAlloc DCU DCUStart.

#[local] Open Scope string_scope.
#[local] Open Scope Z_scope.

(** ** The cards and what the tools print of them *)
Record card := mkDcuCard {
  c_idx : nat;
  c_memory : Z;      (* bytes *)
  c_used : Z;
  c_series : string;
  c_vendor : string;
  c_bus : string;
  c_units : Z;
}.

(** A word that [%s] reads whole. *)
Definition good_word (w : string) : Prop := w <> "" /\ word w = true.

Record card_ok (c : card) : Prop := {
  ok_idx : (c_idx c < 16)%nat;
  ok_memory : printable (c_memory c);
  ok_used : printable (c_used c);
  ok_series : good_word (c_series c);
  ok_bus : good_word (c_bus c);
  ok_units : printable (c_units c);
}.

Definition dcu_prefix (c : card) : string := "DCU[" +:+ itoa (Z.of_nat (c_idx c)) +:+ "]" +:+ gap.
Definition memory_line (c : card) : string := dcu_prefix c +:+ ": vram Total Memory (B): " +:+ itoa (c_memory c).
Definition used_line (c : card) : string := dcu_prefix c +:+ ": vram Total Used Memory (B): " +:+ itoa (c_used c).
Definition series_line (c : card) : string := dcu_prefix c +:+ ": Card series:" +:+ String TAB (String TAB (c_series c)).
Definition vendor_line (c : card) : string := dcu_prefix c +:+ ": Card vendor:" +:+ String TAB (String TAB (c_vendor c)).
Definition bus_line (c : card) : string := dcu_prefix c +:+ ": PCI Bus: " +:+ c_bus c.
Definition device_line (c : card) : string := String TAB "Actual Device: " +:+ itoa (Z.of_nat (c_idx c)).
Definition units_line (c : card) : string := String TAB "Compute units: " +:+ itoa (c_units c).

(** Lines of one kind among others that the plugin skips. *)
Definition mentions (text line : string) : Prop := contains line text = true.
#[local] Instance mentions_dec text line : Decision (mentions text line).
Proof. unfold mentions. apply _. Defined.

Definition has_lines (text : string) (out : string) (lines : list string) : Prop :=
  filter (mentions text) (split NL out) = lines.

(** The lines of [hdmcli] that the plugin reads. *)
Definition unit_text (line : string) : Prop := contains line "Actual Device:" || contains line "Compute units:" = true.
#[local] Instance unit_text_dec line : Decision (unit_text line).
Proof. unfold unit_text. apply _. Defined.

Lemma idx_printable c : card_ok c -> printable (Z.of_nat (c_idx c)).
Proof. intros [Hi _ _ _ _ _]. unfold printable. lia. Qed.

(** The blanks between the index and the colon. *)
Lemma scan_gap c s items vals :
  is_space c = false ->
  scan (Spaces 0 true :: items) (String " " (String TAB (String TAB (String c s)))) vals = scan items (String c s) vals.
Proof. intros Hc. by apply (scan_blanks " " (String TAB (String TAB ""))). Qed.

Lemma scan_tabs c s items vals :
  is_space c = false ->
  scan (Spaces 0 true :: items) (String TAB (String TAB (String c s))) vals = scan items (String c s) vals.
Proof. intros Hc. by apply (scan_blanks TAB (String TAB "")). Qed.

Lemma scan_tab c s items vals :
  is_space c = false -> scan (Spaces 0 true :: items) (String TAB (String c s)) vals = scan items (String c s) vals.
Proof. intros Hc. by apply (scan_blanks TAB ""). Qed.

Ltac scan_dcu_line := scan_line; repeat (rewrite scan_gap by done; repeat scan_step).

Lemma scan_memory_line c : card_ok c -> Sscanf (memory_line c) fmt_memory = ([SInt (Z.of_nat (c_idx c)); SInt (c_memory c)], None).
Proof.
  intros Hc. pose proof (idx_printable c Hc) as Hi. destruct Hc as [_ Hm _ _ _ _]. unfold printable in *.
  unfold memory_line, dcu_prefix, gap. rewrite !str_app_assoc, <- (str_app_nil_r (itoa (c_memory c))). scan_dcu_line. reflexivity.
Qed.

Lemma scan_used_line c : card_ok c -> Sscanf (used_line c) fmt_used = ([SInt (Z.of_nat (c_idx c)); SInt (c_used c)], None).
Proof.
  intros Hc. pose proof (idx_printable c Hc) as Hi. destruct Hc as [_ _ Hm _ _ _]. unfold printable in *.
  unfold used_line, dcu_prefix, gap. rewrite !str_app_assoc, <- (str_app_nil_r (itoa (c_used c))). scan_dcu_line. reflexivity.
Qed.

Lemma good_word_head w : good_word w -> exists c w', w = String c w' /\ is_space c = false /\ word (String c w') = true.
Proof.
  intros [Hne Hw]. destruct w as [|c w']; [done|]. exists c, w'. split_and!; [done| |done].
  cbn [word] in Hw. apply andb_true_iff in Hw as [Hc _]. by apply negb_true_iff.
Qed.

Lemma scan_series_line c : card_ok c -> Sscanf (series_line c) fmt_series = ([SInt (Z.of_nat (c_idx c)); SStr (c_series c)], None).
Proof.
  intros Hc. pose proof (idx_printable c Hc) as Hi. destruct Hc as [_ _ _ Hw _ _]. unfold printable in *.
  apply good_word_head in Hw as (a & w & E & Ha & Hw).
  unfold series_line, dcu_prefix, gap. rewrite E, !str_app_assoc. scan_dcu_line. rewrite scan_tabs, scan_word_end by done. reflexivity.
Qed.

Lemma scan_bus_line c : card_ok c -> Sscanf (bus_line c) fmt_bus = ([SInt (Z.of_nat (c_idx c)); SStr (c_bus c)], None).
Proof.
  intros Hc. pose proof (idx_printable c Hc) as Hi. destruct Hc as [_ _ _ _ Hw _]. unfold printable in *.
  apply good_word_head in Hw as (a & w & E & Ha & Hw).
  unfold bus_line, dcu_prefix, gap. rewrite E, !str_app_assoc. scan_dcu_line. rewrite scan_word_end by done. reflexivity.
Qed.

Lemma scan_device_line c : card_ok c -> Sscanf (device_line c) fmt_device = ([SInt (Z.of_nat (c_idx c))], None).
Proof.
  intros Hc. pose proof (idx_printable c Hc) as Hi. unfold printable in *.
  unfold device_line. rewrite <- (str_app_nil_r (itoa _)). scan_line. rewrite scan_tab by done. repeat scan_step. reflexivity.
Qed.

Lemma scan_units_line c : card_ok c -> Sscanf (units_line c) fmt_units = ([SInt (c_units c)], None).
Proof.
  intros [_ _ _ _ _ Hu]. unfold printable in *.
  unfold units_line. rewrite <- (str_app_nil_r (itoa _)). scan_line. rewrite scan_tab by done. repeat scan_step. reflexivity.
Qed.

(** ** The loops *)

(** A table after the entries of the cards have been written. *)
Definition fill {A} (f : card -> A) (t : list A) (cards : list card) : list A :=
  foldl (fun t c => <[c_idx c := f c]> t) t cards.

Lemma fill_cons {A} (f : card -> A) t c cards : fill f t (c :: cards) = fill f (<[c_idx c := f c]> t) cards.
Proof. done. Qed.

Lemma fill_length {A} (f : card -> A) cards t : length (fill f t cards) = length t.
Proof. revert t. induction cards as [|c cards IH]; intros t; [done|]. rewrite fill_cons, IH. apply length_insert. Qed.

Lemma fill_other {A} (f : card -> A) cards t i : i ∉ c_idx <$> cards -> fill f t cards !! i = t !! i.
Proof.
  revert t. induction cards as [|c cards IH]; intros t Hi; [done|]. rewrite fill_cons. cbn in Hi.
  apply not_elem_of_cons in Hi as [Hc Hi]. rewrite IH by done. by apply list_lookup_insert_ne.
Qed.

Lemma fill_lookup {A} (f : card -> A) cards t c :
  NoDup (c_idx <$> cards) -> c ∈ cards -> (c_idx c < length t)%nat -> fill f t cards !! c_idx c = Some (f c).
Proof.
  revert t. induction cards as [|d cards IH]; intros t Hnd Hin Hlt; [by apply elem_of_nil in Hin|].
  rewrite fill_cons. cbn in Hnd. apply NoDup_cons in Hnd as [Hd Hnd].
  apply elem_of_cons in Hin as [<-|Hin]; [|apply IH; by rewrite ?length_insert].
  rewrite fill_other by done. by apply list_lookup_insert_eq.
Qed.

(** Writes to a table of sixteen entries. *)
Lemma table_set {A} (t : list A) c v :
  length t = 16%nat -> card_ok c ->
  (idx ← index_of (Z.of_nat (c_idx c)); slice_set t idx v) = Ret (<[c_idx c := v]> t).
Proof.
  intros Ht [Hi _ _ _ _ _]. unfold index_of, mbind, outcome_bind. destruct (Z.ltb_spec (Z.of_nat (c_idx c)) 0); [lia|].
  rewrite Nat2Z.id. unfold slice_set. by rewrite decide_True by lia.
Qed.

(** The lines that are skipped do not matter. *)
Lemma read_memory_filter lines : forall index count t,
  read_memory lines index count t = read_memory (filter (mentions "DCU[") lines) index count t.
Proof.
  induction lines as [|l lines IH]; intros index count t; [done|]. rewrite filter_cons. unfold mentions at 1.
  case_decide as Hl; cbn [read_memory]; [|destruct (contains l "DCU["); [done|apply IH]].
  rewrite Hl. cbn [negb]. unfold mbind, outcome_bind. destruct (_ =? 0).
  - destruct (scan_or_panic l fmt_memory); [|done]. destruct (index_of _); [|done]. destruct (slice_set _ _ _); [apply IH|done].
  - destruct (scan_or_panic l fmt_used); [apply IH|done].
Qed.

Lemma read_product_filter lines : forall index t,
  read_product lines index t = read_product (filter (mentions "DCU[") lines) index t.
Proof.
  induction lines as [|l lines IH]; intros index t; [done|]. rewrite filter_cons. unfold mentions at 1.
  case_decide as Hl; cbn [read_product]; [|destruct (contains l "DCU["); [done|apply IH]].
  rewrite Hl. cbn [negb]. unfold mbind, outcome_bind. destruct (_ =? 0); [|apply IH].
  destruct (scan_or_panic l fmt_series); [|done]. destruct (index_of _); [|done]. destruct (slice_set _ _ _); [apply IH|done].
Qed.

Lemma read_bus_filter lines : forall t, read_bus lines t = read_bus (filter (mentions "DCU[") lines) t.
Proof.
  induction lines as [|l lines IH]; intros t; [done|]. rewrite filter_cons. unfold mentions at 1.
  case_decide as Hl; cbn [read_bus]; [|destruct (contains l "DCU["); [done|apply IH]].
  rewrite Hl. cbn [negb]. unfold mbind, outcome_bind.
  destruct (scan_or_panic l fmt_bus); [|done]. destruct (index_of _); [|done]. destruct (slice_set _ _ _); [apply IH|done].
Qed.

Lemma read_units_filter lines : forall idx t, read_units lines idx t = read_units (filter unit_text lines) idx t.
Proof.
  induction lines as [|l lines IH]; intros idx t; [done|]. rewrite filter_cons. unfold unit_text at 1.
  case_decide as Hl; cbn [read_units].
  - unfold mbind, outcome_bind. destruct (contains l "Actual Device:").
    + destruct (scan_or_panic l fmt_device); [apply IH|done].
    + cbn [orb] in Hl. rewrite Hl. destruct (index_of idx); [|done]. destruct (slice_get _ _); [|done].
      destruct (scan_or_panic l fmt_units); [|done]. destruct (slice_set _ _ _); [apply IH|done].
  - apply not_true_is_false, orb_false_iff in Hl as [-> ->]. apply IH.
Qed.

(** The lines of a card mention it. *)
Lemma dcu_line_mentions c s : contains (dcu_prefix c +:+ s) "DCU[" = true.
Proof. unfold dcu_prefix. rewrite str_app_assoc. apply contains_prefix. Qed.

Lemma card_lines_mention c :
  contains (memory_line c) "DCU[" = true /\ contains (used_line c) "DCU[" = true
  /\ contains (series_line c) "DCU[" = true /\ contains (vendor_line c) "DCU[" = true /\ contains (bus_line c) "DCU[" = true.
Proof. split_and!; apply dcu_line_mentions. Qed.
#[local] Opaque memory_line used_line series_line vendor_line bus_line Sscanf fmt_memory fmt_used fmt_series fmt_bus.

Definition mib (c : card) : Z := Z.quot (Z.quot (c_memory c) 1024) 1024.
Definition memory_lines (c : card) : list string := [memory_line c; used_line c].
Definition product_lines (c : card) : list string := [series_line c; vendor_line c].
Definition info_lines (c : card) : list string := [device_line c; units_line c].

Lemma args_ints a b : int_arg [SInt a; SInt b] 0 = a /\ int_arg [SInt a; SInt b] 1 = b.
Proof. done. Qed.
Lemma args_int a : int_arg [SInt a] 0 = a.
Proof. done. Qed.
Lemma args_word a w : int_arg [SInt a; SStr w] 0 = a /\ str_arg [SInt a; SStr w] 1 = w.
Proof. done. Qed.

Lemma mod2_next i : i mod 2 = 0 -> ((i + 1) mod 2 =? 0) = false /\ (i + 1 + 1) mod 2 = 0.
Proof.
  intros Hi. rewrite <- Z.add_assoc. rewrite !(Z.add_mod i) by lia. rewrite Hi. done.
Qed.

Lemma read_memory_cards cards : forall index count t,
  Forall card_ok cards -> length t = 16%nat -> index mod 2 = 0 ->
  read_memory (concat (memory_lines <$> cards)) index count t
  = Ret (index + 2 * Z.of_nat (length cards), count + 2 * Z.of_nat (length cards), fill mib t cards).
Proof.
  induction cards as [|c cards IH]; intros index count t Hok Ht He.
  { cbn. by rewrite !Z.add_0_r. }
  apply Forall_cons in Hok as [Hc Hok]. cbn [fmap list_fmap concat memory_lines app read_memory].
  destruct (card_lines_mention c) as (-> & -> & _). cbn [negb].
  rewrite (proj2 (Z.eqb_eq (index mod 2) 0) He). destruct (mod2_next index He) as [-> He'].
  unfold scan_or_panic. rewrite (scan_memory_line c Hc). rewrite (scan_used_line c Hc). destruct (args_ints (Z.of_nat (c_idx c)) (c_memory c)) as [A1 A2].
  pose proof (table_set t c (mib c) Ht Hc) as Hs. unfold mbind, outcome_bind in Hs |- *.
  rewrite A1, A2.
  destruct (index_of (Z.of_nat (c_idx c))); [|done]. unfold mib in Hs. rewrite Hs.
  rewrite IH by (done || by rewrite length_insert).
  rewrite fill_cons. cbn [length]. f_equal. f_equal. f_equal; lia.
Qed.

Lemma read_product_cards cards rest : forall index t,
  Forall card_ok cards -> length t = 16%nat -> index mod 2 = 0 ->
  read_product (concat (product_lines <$> cards) ++ rest) index t
  = read_product rest (index + 2 * Z.of_nat (length cards)) (fill (fun c => "DCU-" +:+ c_series c) t cards).
Proof.
  induction cards as [|c cards IH]; intros index t Hok Ht He; [cbn; by rewrite Z.add_0_r|].
  apply Forall_cons in Hok as [Hc Hok]. cbn [fmap list_fmap concat product_lines app read_product].
  destruct (card_lines_mention c) as (_ & _ & -> & -> & _). cbn [negb].
  rewrite (proj2 (Z.eqb_eq (index mod 2) 0) He). destruct (mod2_next index He) as [-> He'].
  unfold scan_or_panic. rewrite (scan_series_line c Hc). destruct (args_word (Z.of_nat (c_idx c)) (c_series c)) as [A1 A2].
  pose proof (table_set t c ("DCU-" +:+ c_series c) Ht Hc) as Hs. unfold mbind, outcome_bind in Hs |- *.
  rewrite A1, A2. destruct (index_of (Z.of_nat (c_idx c))); [|done]. rewrite Hs.
  rewrite IH by (done || by rewrite length_insert). rewrite fill_cons. cbn [length]. f_equal. lia.
Qed.

Lemma read_bus_cards cards : forall t,
  Forall card_ok cards -> length t = 16%nat -> read_bus (bus_line <$> cards) t = Ret (fill c_bus t cards).
Proof.
  induction cards as [|c cards IH]; intros t Hok Ht; [done|].
  apply Forall_cons in Hok as [Hc Hok]. cbn [fmap list_fmap read_bus].
  destruct (card_lines_mention c) as (_ & _ & _ & _ & ->). cbn [negb].
  unfold scan_or_panic. rewrite scan_bus_line by done. destruct (args_word (Z.of_nat (c_idx c)) (c_bus c)) as [A1 A2].
  pose proof (table_set t c (c_bus c) Ht Hc) as Hs. unfold mbind, outcome_bind in Hs |- *.
  rewrite A1, A2. destruct (index_of (Z.of_nat (c_idx c))); [|done]. rewrite Hs.
  rewrite IH by (done || by rewrite length_insert). done.
Qed.

Lemma units_line_no_device c : card_ok c -> contains (units_line c) "Actual Device:" = false.
Proof.
  intros [_ _ _ _ _ Hu]. unfold printable in Hu. apply (contains_no_char "A"); [done|]. unfold units_line. rewrite has_char_app.
  by rewrite itoa_no_letter by (done || lia).
Qed.

Lemma read_units_cards cards : forall idx t,
  Forall card_ok cards -> length t = 16%nat ->
  read_units (concat (info_lines <$> cards)) idx t = Ret (fill c_units t cards).
Proof.
  induction cards as [|c cards IH]; intros idx t Hok Ht; [done|].
  apply Forall_cons in Hok as [Hc Hok]. cbn [fmap list_fmap concat info_lines app read_units].
  assert (contains (device_line c) "Actual Device:" = true) as ->
    by (apply (contains_app_r (String TAB "")), (contains_prefix "Actual Device:")).
  rewrite units_line_no_device by done. assert (contains (units_line c) "Compute units:" = true) as ->
    by (apply (contains_app_r (String TAB "")), (contains_prefix "Compute units:")).
  unfold scan_or_panic. rewrite scan_device_line, scan_units_line by done.
  pose proof (table_set t c (c_units c) Ht Hc) as Hs. unfold mbind, outcome_bind in Hs |- *.
  rewrite !args_int. unfold index_of in Hs |- *. destruct (Z.ltb_spec (Z.of_nat (c_idx c)) 0); [done|]. rewrite Nat2Z.id in Hs |- *.
  destruct (lookup_lt_is_Some_2 t (c_idx c)) as [x Hx]; [destruct Hc; lia|]. unfold slice_get. rewrite Hx, Hs.
  rewrite IH by (done || by rewrite length_insert). done.
Qed.

(** The tools' output for a list of cards, with other lines in between. *)
Record outputs_of (cards : list card) (meminfo product bus info : string) : Prop := {
  out_meminfo : has_lines "DCU[" meminfo (concat (memory_lines <$> cards));
  out_product : has_lines "DCU[" product (concat (product_lines <$> cards));
  out_bus : has_lines "DCU[" bus (bus_line <$> cards);
  out_info : filter unit_text (split NL info) = concat (info_lines <$> cards);
}.

(** The tables of a node with the given cards. *)
Definition tables_of (cards : list card) : Plugin :=
  Start_tables (fill c_bus (replicate 16 "") cards) (fill c_units (replicate 16 0) cards)
    (fill mib (replicate 16 0) cards) (fill (fun c => "DCU-" +:+ c_series c) (replicate 16 "") cards).

Lemma Start_tables_of cards meminfo product bus info :
  Forall card_ok cards -> outputs_of cards meminfo product bus info ->
  DCUStart.Start (Some meminfo) (Some product) (Some bus) (Some info) = Ret (tables_of cards, 2 * Z.of_nat (length cards)).
Proof.
  intros Hok [Hm Hp Hb Hi]. unfold has_lines in *. unfold DCUStart.Start. cbn [output mbind outcome_bind].
  rewrite read_memory_filter, Hm, read_memory_cards by done. cbn [mbind outcome_bind]. rewrite !Z.add_0_l.
  rewrite read_product_filter, Hp, <- (app_nil_r (concat (product_lines <$> cards))),
    read_product_cards by (done || by rewrite Z.mul_comm, Z.mod_mul).
  cbn [mbind outcome_bind]. rewrite read_bus_filter, Hb, read_bus_cards by done.
  cbn [mbind outcome_bind]. by rewrite read_units_filter, Hi, read_units_cards by done.
Qed.

(** ** The devices of the tables *)
Lemma apiDevices_elem r d :
  d ∈ apiDevices r <-> exists idx val, p_totalmem r !! idx = Some val /\ 0 < val
    /\ d = api.mkDeviceInfo (Z.of_nat idx) ("DCU-" +:+ itoa (Z.of_nat idx)) 30 (i32 val) 100
             (default "" (p_cardtype r !! idx)) 0 true.
Proof.
  unfold apiDevices.
  assert (forall (l : list (nat * Z)) res,
    d ∈ foldl (fun res '(idx, val) =>
        if 0 <? val then
          (res ++ [api.mkDeviceInfo (Z.of_nat idx) ("DCU-" +:+ itoa (Z.of_nat idx)) 30 (i32 val) 100
                    (default "" (p_cardtype r !! idx)) 0 true])%list
        else res) res l
    <-> d ∈ res \/ exists idx val, (idx, val) ∈ l /\ 0 < val
         /\ d = api.mkDeviceInfo (Z.of_nat idx) ("DCU-" +:+ itoa (Z.of_nat idx)) 30 (i32 val) 100
                  (default "" (p_cardtype r !! idx)) 0 true) as Hl.
  { induction l as [|[idx val] l IH]; intros res; cbn [foldl].
    - split; [by left|]. intros [?|(i & v & Hf & _)]; [done|]. by apply elem_of_nil in Hf.
    - rewrite IH. setoid_rewrite elem_of_cons. destruct (Z.ltb_spec 0 val).
      + rewrite elem_of_app, list_elem_of_singleton. naive_solver.
      + split; [naive_solver|]. intros [?|(i & v & [[= -> ->]|Hin] & ? & ?)]; [by left|lia|right; eauto]. }
  rewrite Hl. split.
  - intros [Hf|(idx & val & Hin & Hv & ->)]; [by apply elem_of_nil in Hf|]. exists idx, val. split_and!; [|done..].
    apply list_elem_of_lookup in Hin as [i Hi]. rewrite list_lookup_imap in Hi.
    destruct (p_totalmem r !! i) eqn:E; [|done]. by injection Hi as <- <-.
  - intros (idx & val & Hi & Hv & ->). right. exists idx, val. split_and!; [|done..].
    apply list_elem_of_lookup. exists idx. rewrite list_lookup_imap, Hi. done.
Qed.

(** The device of a card. *)
Definition card_info (c : card) : api.DeviceInfo :=
  api.mkDeviceInfo (Z.of_nat (c_idx c)) ("DCU-" +:+ itoa (Z.of_nat (c_idx c))) 30 (i32 (mib c)) 100 ("DCU-" +:+ c_series c) 0 true.

Lemma tables_devices cards d :
  Forall card_ok cards -> NoDup (c_idx <$> cards) ->
  d ∈ apiDevices (tables_of cards) <-> exists c, c ∈ cards /\ 0 < mib c /\ d = card_info c.
Proof.
  intros Hok Hnd. rewrite apiDevices_elem. unfold tables_of, Start_tables. cbn [p_totalmem p_cardtype].
  rewrite Forall_forall in Hok.
  assert (forall c, c ∈ cards -> fill mib (replicate 16 0) cards !! c_idx c = Some (mib c)
    /\ fill (fun c => "DCU-" +:+ c_series c) (replicate 16 "") cards !! c_idx c = Some ("DCU-" +:+ c_series c)) as Hc.
  { intros c Hin. destruct (Hok c Hin).
    split; [by apply (fill_lookup mib)|by apply (fill_lookup (fun c => "DCU-" +:+ c_series c))]. }
  split.
  - intros (idx & val & Hv & Hpos & ->). destruct (decide (idx ∈ c_idx <$> cards)) as [Hin|Hn].
    + apply list_elem_of_fmap in Hin as (c & -> & Hin). destruct (Hc c Hin) as [E1 E2]. rewrite E1 in Hv. injection Hv as <-.
      exists c. split_and!; [done|done|]. unfold card_info. by rewrite E2.
    + rewrite fill_other in Hv by done. apply lookup_replicate in Hv as [-> _]. lia.
  - intros (c & Hin & Hpos & ->). destruct (Hc c Hin) as [E1 E2]. exists (c_idx c), (mib c). split_and!; [done|done|].
    unfold card_info. by rewrite E2.
Qed.

#[local] Transparent series_line fmt_series Sscanf.

(** A series of two words: the scan stops between them. *)
Lemma scan_two_words c w1 w2 :
  (c_idx c < 16)%nat -> c_series c = w1 +:+ String " " w2 -> good_word w1 -> good_word w2 ->
  scan_or_panic (series_line c) fmt_series = Panic Explicit.
Proof.
  intros Hi Es (a1 & r1 & -> & Ha1 & Hw1)%good_word_head (a2 & r2 & -> & Ha2 & Hw2)%good_word_head.
  assert (0 <= Z.of_nat (c_idx c) < 2 ^ 63) as Hp by lia.
  unfold scan_or_panic, series_line, dcu_prefix, gap. rewrite Es, !str_app_assoc.
  scan_dcu_line. rewrite scan_tabs by done. cbn [scan]. unfold SkipSpace. cbn [drop_blanks]. rewrite Ha1. cbn [andb].
  assert (forall a, is_space a = false -> (a =? NL)%char = false) as Hnl.
  { intros a Ha. apply Ascii.eqb_neq. intros ->. by vm_compute in Ha. }
  rewrite (Hnl a1 Ha1). unfold scan_word.
  change (String a1 (r1 +:+ String " " (String a2 r2))) with (String a1 r1 +:+ String " " (String a2 r2)).
  rewrite (take_word_space (String a1 r1)) by done. unfold match_spaces. cbn [match_newlines].
  pose proof (drop_blanks_app (String " " "") a2 r2 eq_refl Ha2) as Hd. cbn [String.append] in Hd.
  rewrite Hd. by rewrite (Hnl a2 Ha2).
Qed.

(** ** A node with two cards *)
Definition two_dcus : list card :=
  [mkDcuCard 0 17163091968 2420736 "Z100" "HYGON" "0000:33:00.0" 60;
   mkDcuCard 2 34342961152 0 "K100" "HYGON" "0000:37:00.0" 120].

(** The text of a tool: a title, the lines, a rule. *)
Definition tool_text (lines : list string) : string :=
  foldr (fun l s => l +:+ String NL s) "====" ("==== System Management Interface ====" :: lines).

Lemma two_dcus_ok : Forall card_ok two_dcus.
Proof. repeat constructor; vm_compute; intuition congruence. Qed.

Definition two_meminfo : string := tool_text (concat (memory_lines <$> two_dcus)).
Definition two_product : string := tool_text (concat (product_lines <$> two_dcus)).
Definition two_bus : string := tool_text (bus_line <$> two_dcus).
Definition two_info : string := tool_text (concat (info_lines <$> two_dcus)).

Lemma two_outputs : outputs_of two_dcus two_meminfo two_product two_bus two_info.
Proof. split; vm_compute; reflexivity. Qed.

Module DCUStartProps.

(** C27. The start of the plugin reads back what the tools print, for cards of
    which the series and the bus address are each one word without blanks,
    the numbers are not negative and fit an int64, and the indices are
    distinct and below 16: with the cards in any order and any other lines
    around theirs, [Start] returns, every table holds the value of the card at
    its index (the memory in MiB, all compute units free), and the node
    registers exactly the cards with memory, each with its index, memory and
    series.  A series of two words ends [Start] in a panic instead
    ([series_of_two_words_panics]). *)
Theorem start_reads_cards cards meminfo product bus info :
  Forall card_ok cards -> NoDup (c_idx <$> cards) -> outputs_of cards meminfo product bus info ->
  exists p count, DCUStart.Start (Some meminfo) (Some product) (Some bus) (Some info) = Ret (p, count)
    /\ (forall c, c ∈ cards ->
         p_totalmem p !! c_idx c = Some (mib c) /\ p_totalcores p !! c_idx c = Some (c_units c)
         /\ p_pcibusid p !! c_idx c = Some (c_bus c) /\ p_coremask p !! c_idx c = Some (initCoreUsage (c_units c)))
    /\ forall d, d ∈ apiDevices p <-> exists c, c ∈ cards /\ 0 < mib c /\ d = card_info c.
Proof.
  intros Hok Hnd Hout. exists (tables_of cards), (2 * Z.of_nat (length cards)).
  split; [by apply Start_tables_of|]. split; [|by intros d; apply tables_devices].
  rewrite Forall_forall in Hok. intros c Hin. destruct (Hok c Hin).
  unfold tables_of, Start_tables. cbn [p_totalmem p_totalcores p_pcibusid p_coremask].
  rewrite list_lookup_fmap, (fill_lookup c_units) by done.
  split_and!; [by apply (fill_lookup mib)|done|by apply (fill_lookup c_bus)|done].
Qed.

Lemma start_reads_cards_witness :
  exists p count, DCUStart.Start (Some two_meminfo) (Some two_product) (Some two_bus) (Some two_info) = Ret (p, count)
    /\ p_totalmem p !! 2%nat = Some 32752 /\ p_pcibusid p !! 0%nat = Some "0000:33:00.0".
Proof.
  destruct (start_reads_cards two_dcus two_meminfo two_product two_bus two_info) as (p & count & E & Hc & _).
  - exact two_dcus_ok.
  - apply (bool_decide_unpack (NoDup _)). vm_compute. exact I.
  - exact two_outputs.
  - exists p, count. split; [exact E|].
    destruct (Hc (mkDcuCard 2 34342961152 0 "K100" "HYGON" "0000:37:00.0" 120)) as (H1 & _); [right; left|].
    destruct (Hc (mkDcuCard 0 17163091968 2420736 "Z100" "HYGON" "0000:33:00.0" 60)) as (_ & _ & H2 & _); [left|].
    split; [exact H1|exact H2].
Defined.

(** A card whose series is two words ends the plugin: the word of the scan
    stops at the space, the newline of the format does not match the second
    word, and the error is a panic. *)
Theorem series_of_two_words_panics cards c rest meminfo product bus info w1 w2 :
  Forall card_ok cards -> Forall card_ok rest -> (c_idx c < 16)%nat ->
  c_series c = w1 +:+ String " " w2 -> good_word w1 -> good_word w2 ->
  has_lines "DCU[" meminfo (concat (memory_lines <$> (cards ++ rest)%list)) ->
  has_lines "DCU[" product (concat (product_lines <$> (cards ++ c :: rest)%list)) ->
  DCUStart.Start (Some meminfo) (Some product) bus info = Panic Explicit.
Proof.
  intros Hok Hrest Hi Es Hw1 Hw2 Hm Hp. unfold has_lines in *. unfold DCUStart.Start. cbn [output mbind outcome_bind].
  rewrite read_memory_filter, Hm, read_memory_cards by (done || by apply Forall_app). cbn [mbind outcome_bind].
  rewrite read_product_filter, Hp, fmap_app, concat_app, read_product_cards; [|done|done|by rewrite Z.add_0_l, Z.mul_comm, Z.mod_mul].
  cbn [fmap list_fmap concat product_lines app read_product].
  destruct (card_lines_mention c) as (_ & _ & -> & _). cbn [negb].
  assert (forall a b, ((0 + 2 * a + 2 * b) mod 2 =? 0) = true) as ->.
  { intros a b. apply Z.eqb_eq. replace (0 + 2 * a + 2 * b) with ((a + b) * 2) by lia. by apply Z.mod_mul. }
  by rewrite (scan_two_words c w1 w2).
Qed.

Definition two_word_card : card := mkDcuCard 1 0 0 "K100 AI" "HYGON" "0000:35:00.0" 120.

Lemma series_of_two_words_panics_witness :
  DCUStart.Start (Some two_meminfo) (Some (tool_text (concat (product_lines <$> (two_dcus ++ [two_word_card])%list)))) None None
  = Panic Explicit.
Proof.
  apply (series_of_two_words_panics two_dcus two_word_card [] _ _ _ _ "K100" "AI").
  - exact two_dcus_ok.
  - constructor.
  - vm_compute. lia.
  - reflexivity.
  - split; [discriminate|reflexivity].
  - split; [discriminate|reflexivity].
  - vm_compute. reflexivity.
  - vm_compute. reflexivity.
Defined.

(** The heartbeat never reaches the kubelet: whatever the health checks
    answer, every list the plugin sends is the first one, with every device
    healthy, although the devices it keeps are marked unhealthy. *)
Theorem health_never_reported `{GoRuntime} p AMDGPUs beats :
  (DCUStart.ListAndWatch p AMDGPUs beats).2 = replicate (S (length beats)) (fake_devices p)
  /\ Forall (fun d => pluginapi.Health d = pluginapi.Healthy) (fake_devices p)
  /\ (List.last beats true = false ->
      Forall (fun d => pluginapi.Health d = pluginapi.Unhealthy) (DCUStart.ListAndWatch p AMDGPUs beats).1).
Proof.
  assert (forall beats devs, (heartbeat_loop p devs beats).2 = replicate (length beats) (fake_devices p)) as Hs.
  { intros b. induction b as [|ok b IH]; intros devs; [done|]. cbn [heartbeat_loop length replicate].
    specialize (IH ((fun d => pluginapi.mkDevice (pluginapi.ID d) (if ok then pluginapi.Healthy else pluginapi.Unhealthy)) <$> devs)).
    destruct (heartbeat_loop p _ b). cbn in *. by rewrite IH. }
  unfold DCUStart.ListAndWatch. split_and!.
  - specialize (Hs beats ((fun x => pluginapi.mkDevice x.1 pluginapi.Healthy) <$> range ("ListAndWatch", 0%nat) AMDGPUs)).
    destruct (heartbeat_loop p _ beats). cbn in *. by rewrite Hs.
  - apply Forall_fmap, Forall_true. done.
  - intros Hl. destruct (heartbeat_loop p _ beats) as [devs sent] eqn:E. cbn.
    revert Hl E. generalize ((fun x => pluginapi.mkDevice x.1 pluginapi.Healthy) <$> range ("ListAndWatch", 0%nat) AMDGPUs).
    clear. revert devs sent. induction beats as [|ok beats IH]; intros devs sent devs0 Hl E; [done|].
    cbn [heartbeat_loop] in E. destruct (heartbeat_loop p _ beats) as [devs1 sent1] eqn:E1. injection E as <- <-.
    destruct beats as [|b beats]; [|by eapply IH]. cbn in Hl, E1. subst ok. injection E1 as <- <-.
    apply Forall_fmap, Forall_true. done.
Qed.

Lemma health_never_reported_witness :
  let _ := go_reference in
  let r := DCUStart.ListAndWatch (tables_of two_dcus) {["0000:33:00.0" := ∅]} [true; false] in
  r.2 = replicate 3 (fake_devices (tables_of two_dcus))
  /\ Forall (fun d => pluginapi.Health d = pluginapi.Unhealthy) r.1.
Proof.
  intros rt r. destruct (health_never_reported (tables_of two_dcus) {["0000:33:00.0" := ∅]} [true; false]) as (H1 & _ & H2).
  split; [exact H1|apply H2; reflexivity].
Defined.
End DCUStartProps.
