(* ===== verification/DCUDriver.v ===== *)
(** * The Hygon DCU plugin: libdrm, hwloc and the debug files

    The rest of [pkg/device-plugin/hygon/dcu/amdgpu/amdgpu.go], with its
    regular expression; [hwloc/hwloc.go]; the lister of
    [cmd/device-plugin/hygon/main.go].  libdrm and hwloc are C libraries: what
    they answer is an argument, and the opens, closes and frees the code makes
    are recorded in the order they happen. *)

From Stdlib Require Import ZArith Lia Ascii String.
From stdpp Require Import base decidable option gmap strings numbers sorting list.
From S2P Require Import Prelude GoStrings GoScan GoRegexp GoRuntime Types DCUStart.

#[local] Open Scope string_scope.
#[local] Open Scope Z_scope.

(** ** strconv with base 0 *)

(** A number with its prefix: 0x, 0b, 0o, or 0 for octal. *)
Definition base_prefix (s : string) : Z * string :=
  match s with
  | String "0" (String c (String d rest)) =>
      let l := lower_char c in
      if (l =? "b")%char then (2, String d rest)
      else if (l =? "o")%char then (8, String d rest)
      else if (l =? "x")%char then (16, String d rest)
      else (8, String c (String d rest))
  | String "0" rest => (8, rest)
  | _ => (10, s)
  end.

(** The digits; underscores are skipped. *)
Fixpoint uint0_loop (base maxVal n : Z) (s : string) : Z * option num_error :=
  match s with
  | EmptyString => (n, None)
  | String c s' =>
      if (c =? "_")%char then uint0_loop base maxVal n s'
      else match digit_val c with
           | None => (0, Some ErrSyntax)
           | Some d =>
               if base <=? d then (0, Some ErrSyntax)
               else if maxVal <? n * base + d then (maxVal, Some ErrRange)
               else uint0_loop base maxVal (n * base + d) s'
           end
  end.

Definition is_digit (c : ascii) : bool := (48 <=? byte_val c) && (byte_val c <=? 57).
Definition is_hex_letter (c : ascii) : bool :=
  let b := byte_val (lower_char c) in (97 <=? b) && (b <=? 102).

(** [underscoreOK]: underscores only between digits. *)
Fixpoint underscores_ok (hex : bool) (i : ascii) (s : string) : bool :=
  match s with
  | EmptyString => negb (i =? "_")%char
  | String c s' =>
      if is_digit c || (hex && is_hex_letter c) then underscores_ok hex "0" s'
      else if (c =? "_")%char then (i =? "0")%char && underscores_ok hex "_" s'
      else negb (i =? "_")%char && underscores_ok hex "!" s'
  end.

Definition underscoreOK (s : string) : bool :=
  match s with
  | String "0" (String c rest) =>
      let l := lower_char c in
      if (l =? "b")%char || (l =? "o")%char || (l =? "x")%char then underscores_ok (l =? "x")%char "0" rest
      else underscores_ok false "^" s
  | _ => underscores_ok false "^" s
  end.

Definition parse_uint0 (bits : Z) (s : string) : Z * option num_error :=
  match s with
  | EmptyString => (0, Some ErrSyntax)
  | _ =>
      let '(base, digits) := base_prefix s in
      match uint0_loop base (2 ^ bits - 1) 0 digits with
      | (n, Some e) => (n, Some e)
      | (n, None) => if has_char "_" digits && negb (underscoreOK s) then (0, Some ErrSyntax) else (n, None)
      end
  end.

(** [strconv.ParseInt(s, 0, bits)] *)
Definition parse_int0 (bits : Z) (s : string) : Z * option num_error :=
  match s with
  | EmptyString => (0, Some ErrSyntax)
  | String c s' =>
      let '(neg, digits) :=
        if (c =? "+")%char then (false, s') else if (c =? "-")%char then (true, s') else (false, s) in
      let '(un, err) := parse_uint0 bits digits in
      if decide (err = Some ErrSyntax) then (0, err)
      else
        let cutoff := 2 ^ (bits - 1) in
        if negb neg && (cutoff <=? un) then (cutoff - 1, Some ErrRange)
        else if neg && (cutoff <? un) then (- cutoff, Some ErrRange)
        else (if neg then - un else un, None)
  end.

(** ** The regular expressions *)
Definition is_word (c : ascii) : bool :=
  is_digit c || ((97 <=? byte_val (lower_char c)) && (byte_val (lower_char c) <=? 122)) || (c =? "_")%char.

(** [(\w+) feature version: (\d+), firmware version: (0x[0-9a-fA-F]+)] *)
Definition fwVersionRe : regex :=
  RSeq (RGroup (RPlus is_word)) (RLit " feature version: " (RSeq (RGroup (RPlus is_digit))
    (RLit ", firmware version: " (RGroup (RLit "0x" (RPlus (fun c => is_digit c || is_hex_letter c))))))).

(** [simd_count\s(\d+)] *)
Definition topoSIMDre : regex := RLit "simd_count" (RSeq (RClass re_space) (RGroup (RPlus is_digit))).

(** ** amdgpu.go: text files *)

(** [m[1]] of a match without groups panics. *)
Fixpoint topology_loop (re : regex) (lines : list string) : outcome (option (Z * option num_error)) :=
  match lines with
  | [] => Ret None
  | l :: lines' =>
      match FindStringSubmatch re l with
      | None => topology_loop re lines'
      | Some m => text ← slice_get m 1; Ret (Some (parse_int0 64 text))
      end
  end.

Inductive topology_error :=
| OpenError (e : error)
| NotFound (re : string)
| NumError (e : num_error).

(** [file]: what the path opens to; [restring]: [re.String()]. *)
Definition ParseTopologyProperties (file : string + error) (re : regex) (restring : string)
    : outcome (Z * option topology_error) :=
  match file with
  | inr e => Ret (0, Some (OpenError e))
  | inl text =>
      r ← topology_loop re (scan_lines text);
      Ret match r with
          | None => (0, Some (NotFound restring))
          | Some (v, e) => (v, NumError <$> e)
          end
  end.

Definition u32 (z : Z) : Z := z mod 2 ^ 32.

Definition firmware_line (acc : gmap string Z * gmap string Z) (line : string) : outcome (gmap string Z * gmap string Z) :=
  match FindStringSubmatch fwVersionRe line with
  | None => Ret acc
  | Some m =>
      let '(feat, fw) := acc in
      name ← slice_get m 1;
      f ← slice_get m 2;
      v ← slice_get m 3;
      Ret (<[name := u32 (parse_int0 32 f).1]> feat, <[name := u32 (parse_int0 32 v).1]> fw)
  end.

Fixpoint firmware_lines (acc : gmap string Z * gmap string Z) (lines : list string)
    : outcome (gmap string Z * gmap string Z) :=
  match lines with
  | [] => Ret acc
  | l :: lines' => acc ← firmware_line acc l; firmware_lines acc lines'
  end.

Definition parseDebugFSFirmwareInfo (file : option string) : outcome (gmap string Z * gmap string Z) :=
  match file with
  | Some text => firmware_lines (∅, ∅) (scan_lines text)
  | None => Ret (∅, ∅)
  end.

(** ** amdgpu.go: libdrm *)

(** The constants of amdgpu_drm.h. *)
Record amdgpu_families := mkFamilies {
  FAMILY_SI : Z; FAMILY_CI : Z; FAMILY_KV : Z; FAMILY_VI : Z; FAMILY_CZ : Z; FAMILY_AI : Z; FAMILY_RV : Z; FAMILY_NV : Z;
}.

Definition family_error (familyId : Z) : error := "Unknown Family ID: " +:+ itoa familyId.

Definition FamilyIDtoString (k : amdgpu_families) (familyId : Z) : string * option error :=
  if familyId =? FAMILY_SI k then ("SI", None)
  else if familyId =? FAMILY_CI k then ("CI", None)
  else if familyId =? FAMILY_KV k then ("KV", None)
  else if familyId =? FAMILY_VI k then ("VI", None)
  else if familyId =? FAMILY_CZ k then ("CZ", None)
  else if familyId =? FAMILY_AI k then ("AI", None)
  else if familyId =? FAMILY_RV k then ("RV", None)
  else if familyId =? FAMILY_NV k then ("NV", None)
  else ("", Some (family_error familyId)).

(** What the code opens and frees. *)
Inductive drm_event :=
| Opened (path : string)
| Closed (path : string)
| Initialized (h : Z)
| Deinitialized (h : Z).

#[export] Instance drm_event_eq_dec : EqDecision drm_event.
Proof. solve_decision. Defined.

Section drm.
(** The vendor file of a card, [os.Open], and the calls of libdrm: a return
    code with the handle, the family, or the versions ([None]: a failed query
    writes nothing). *)
Context (vendor : string -> string + error) (open_ : string -> option error).
Context (amdgpu_device_initialize : string -> Z * Z) (amdgpu_query_gpu_info : Z -> Z * Z).
Context (amdgpu_query_firmware_version : Z -> Z -> option (Z * Z)).
Context (families : amdgpu_families).

Definition not_amd_error (cardName : string) : error := cardName +:+ " is not an AMD GPU".
Definition drm_open_error (devPath e : string) : error := "Fail to open " +:+ devPath +:+ ": " +:+ e.
(** The text prints [err], which is nil here, with [%d]. *)
Definition drm_init_error (devPath : string) : error := "Fail to initialize " +:+ devPath +:+ ": %!d(<nil>)".

(** The file is closed when the function returns; the handle is the caller's. *)
Definition openAMDGPU (cardName : string) : (Z + error) * list drm_event :=
  if negb (AMDGPU (vendor cardName)) then (inr (not_amd_error cardName), [])
  else
    let devPath := "/dev/dri/" +:+ cardName in
    match open_ devPath with
    | Some e => (inr (drm_open_error devPath e), [])
    | None =>
        let '(rc, h) := amdgpu_device_initialize devPath in
        if rc <? 0 then (inr (drm_init_error devPath), [Opened devPath; Closed devPath])
        else (inl h, [Opened devPath; Initialized h; Closed devPath])
    end.

Definition family_query_error (cardName : string) (rc : Z) : error :=
  "Fail to get FamilyID " +:+ cardName +:+ ": " +:+ itoa rc.

Definition GetCardFamilyName (cardName : string) : (string * option error) * list drm_event :=
  let '(r, evs) := openAMDGPU cardName in
  match r with
  | inr err => (("", Some err), evs)
  | inl h =>
      let '(rc, family_id) := amdgpu_query_gpu_info h in
      ((if rc <? 0 then ("", Some (family_query_error cardName rc)) else FamilyIDtoString families family_id),
       evs ++ [Deinitialized h])%list
  end.

Definition DevFunctional (cardName : string) : bool * list drm_event :=
  let '(r, evs) := openAMDGPU cardName in
  match r with
  | inr _ => (false, evs)
  | inl h => (true, evs ++ [Deinitialized h])%list
  end.

(** The blocks and their names, in the order of the calls.  The return codes
    are ignored: [ver] and [feat] keep what the last successful query wrote. *)
Definition fw_query (h : Z) (acc : (Z * Z) * (gmap string Z * gmap string Z)) (block : Z * string)
    : (Z * Z) * (gmap string Z * gmap string Z) :=
  let '(vars, (feats, fws)) := acc in
  let '(ver, feat) := default vars (amdgpu_query_firmware_version h block.1) in
  ((ver, feat), (<[block.2 := u32 feat]> feats, <[block.2 := u32 ver]> fws)).

(** [FW]: the numbers of the blocks in amdgpu_drm.h. *)
Definition fw_blocks (FW : string -> Z) : list (Z * string) :=
  (fun x => (FW x.1, x.2)) <$>
  [("VCE", "VCE"); ("UVD", "UVD"); ("GMC", "MC"); ("GFX_ME", "ME"); ("GFX_PFP", "PFP"); ("GFX_CE", "CE"); ("GFX_RLC", "RLC");
   ("GFX_MEC", "MEC"); ("SMC", "SMC"); ("SDMA", "SDMA0")].

Definition GetFirmwareVersions (FW : string -> Z) (cardName : string)
    : (gmap string Z * gmap string Z * option error) * list drm_event :=
  let '(r, evs) := openAMDGPU cardName in
  match r with
  | inr err => ((∅, ∅, Some err), evs)
  | inl h =>
      let '(_, (feats, fws)) := foldl (fw_query h) ((0, 0), (∅, ∅)) (fw_blocks FW) in
      ((feats, fws, None), evs ++ [Deinitialized h])%list
  end.
End drm.

(** ** hwloc.go *)

(** An object of the topology that holds memory: its arity and the chain of
    its memory children, by logical index. *)
Record hwloc_obj := mkObj { memory_arity : Z; memory_children : list Z }.

Section hwloc.
(** The codes of init, filter and load, and the ancestor of a PCI device:
    [None] for an unknown bus, [Some None] for a device without one. *)
Context (init_rc filter_rc load_rc : Z) (pcidev : string -> option (option hwloc_obj)).

(** [true]: the topology was destroyed. *)
Definition hwloc_Init : option error * bool :=
  if negb (init_rc =? 0) then (Some ("Problem initializing hwloc topology rc: " +:+ itoa init_rc), false)
  else if negb (filter_rc =? 0) then (Some ("Problem setting type filter rc: " +:+ itoa filter_rc), true)
  else if negb (load_rc =? 0) then (Some ("Problem loading topology rc: " +:+ itoa load_rc), true)
  else (None, false).

Definition no_gpu_error (busid : string) : error := "Fail to find GPU with bus ID: " +:+ busid.
Definition no_numa_error (busid : string) : error := "No NUMA node found with bus ID: " +:+ busid.

Definition GetNUMANodes (busid : string) : list Z * option error :=
  match pcidev busid with
  | None => ([], Some (no_gpu_error busid))
  | Some None => ([], Some (no_numa_error busid))
  | Some (Some ancestor) =>
      if memory_arity ancestor <=? 0 then ([], Some (no_numa_error busid)) else (memory_children ancestor, None)
  end.

(** The block of [ListAndWatch] that uses hwloc: the NUMA nodes of the cards
    whose query gave some, and how often the topology was destroyed. *)
Definition watch_numa (ids : list string) : gmap string (list Z) * nat :=
  let '(_, destroyed) := hwloc_Init in
  (foldl (fun m id =>
       let '(numas, err) := GetNUMANodes id in
       match err with
       | Some _ => m
       | None => if (length numas =? 0)%nat then m else <[id := numas]> m
       end) ∅ ids,
   if destroyed then 2%nat else 1%nat).
End hwloc.

(** [simpleHealthCheck]: /dev/kfd opens. *)
Definition simpleHealthCheck (kfd : option error) : bool := match kfd with Some _ => false | None => true end.

(** ** main.go *)

(** What [Discover] receives: a list of resources, or the stop message. *)
Inductive discover_event := ResUpdate (resources : list string) | StopMessage.

Fixpoint Discover (events : list discover_event) : list (list string) :=
  match events with
  | [] => []
  | ResUpdate l :: events' => l :: Discover events'
  | StopMessage :: _ => []
  end.

Definition GetResourceNamespace : string := "hygon.com".

(** The resources offered at start: [kfd] says that /sys/class/kfd exists. *)
Definition discovered (kfd : bool) : list discover_event := if kfd then [ResUpdate ["dcunum"]] else [].

(** [main]: the period of the heartbeat in seconds, 0 for none, and what the
    lister is told of. *)
Record hygon_process := mkHygonProcess { hy_pulse : Z; hy_events : list discover_event }.

Definition hygon_main (pulse : option Z) (kfd : bool) : hygon_process := mkHygonProcess (default 0 pulse) (discovered kfd).

(** The beats sent until a time (seconds): the goroutine sleeps before each
    beat and hands it to the plugin on a channel without a buffer, so a slow
    plugin gets fewer. *)
Definition beats_until (p : hygon_process) (elapsed : Z) : Z := if 0 <? hy_pulse p then elapsed / hy_pulse p else 0.
