(* ===== verification/DCUDriverFacts.v ===== *)
(** * Properties of the driver files and libraries of the DCU plugin *)

From Stdlib Require Import ZArith Lia Ascii String.
From stdpp Require Import base decidable option gmap strings numbers sorting list.
From S2P Require Import Prelude GoStrings GoScan GoRegexp GoRuntime Types DCUStart DCUDriver.

#[local] Open Scope string_scope.
#[local] Open Scope Z_scope.

(** ** Running the matcher forward *)
Definition starts_with (p : ascii -> bool) (s : string) : bool :=
  match s with String c _ => p c | EmptyString => false end.

Lemma plus_more_longest {A} p x : forall acc rest (k : string -> string -> list string -> option A) a,
  all_class p x = true -> starts_with p rest = false -> k (acc +:+ x) rest [] = Some a ->
  plus_more p acc (x +:+ rest) k = Some a.
Proof.
  induction x as [|c x IH]; intros acc rest k a Hx Hr Hk.
  - rewrite app_string_nil in Hk. change ("" +:+ rest) with rest. destruct rest as [|c s]; cbn [plus_more starts_with] in *; [done|].
    by rewrite Hr.
  - cbn in Hx. apply andb_true_iff in Hx as [Hc Hx]. change (String c x +:+ rest) with (String c (x +:+ rest)). cbn [plus_more].
    rewrite Hc. rewrite (IH _ rest k a) by (done || by rewrite app_string_assoc). done.
Qed.

Lemma rx_plus {A} p x rest (k : string -> string -> list string -> option A) a :
  x <> "" -> all_class p x = true -> starts_with p rest = false -> k x rest [] = Some a ->
  rx_match (RPlus p) (x +:+ rest) k = Some a.
Proof.
  intros Hne Hx Hr Hk. destruct x as [|c x]; [done|]. cbn in Hx. apply andb_true_iff in Hx as [Hc Hx].
  change (String c x +:+ rest) with (String c (x +:+ rest)). cbn [rx_match]. rewrite Hc. by apply plus_more_longest.
Qed.

Lemma rx_lit {A} s : forall r rest (k : string -> string -> list string -> option A),
  rx_match (RLit s r) (s +:+ rest) k = rx_match r rest (fun x s' g => k (s +:+ x) s' g).
Proof.
  induction s as [|c s IH]; intros r rest k; [done|]. cbn [RLit rx_match].
  change (String c s +:+ rest) with (String c (s +:+ rest)). cbv beta iota. rewrite Ascii.eqb_refl. by rewrite IH.
Qed.

Lemma find_at_start r s m : rx_match r s (fun x _ g => Some (x :: g)) = Some m -> FindStringSubmatch r s = Some m.
Proof. intros E. destruct s; cbn [FindStringSubmatch]; by rewrite E. Qed.

(** A line of the debug file. *)
Definition firmware_text (name feat fw : string) : string :=
  name +:+ " feature version: " +:+ feat +:+ ", firmware version: " +:+ "0x" +:+ fw.

Definition is_hex (c : ascii) : bool := is_digit c || is_hex_letter c.

Record firmware_ok (name feat fw : string) : Prop := {
  fo_name : name <> "" /\ all_class is_word name = true;
  fo_feat : feat <> "" /\ all_class is_digit feat = true;
  fo_fw : fw <> "" /\ all_class is_hex fw = true;
}.

Lemma firmware_find name feat fw :
  firmware_ok name feat fw ->
  FindStringSubmatch fwVersionRe (firmware_text name feat fw) = Some [firmware_text name feat fw; name; feat; "0x" +:+ fw].
Proof.
  intros [[Hn Hnc] [Hf Hfc] [Hw Hwc]]. apply find_at_start. unfold fwVersionRe, firmware_text.
  cbn [rx_match]. apply rx_plus; [done|done|done|]. rewrite rx_lit. cbn [rx_match].
  apply rx_plus; [done|done|done|]. rewrite rx_lit. cbn [rx_match]. rewrite rx_lit.
  rewrite <- (app_string_nil fw) at 1. apply rx_plus; [done|done|done|]. done.
Qed.

(** ** Numbers *)
Fixpoint digits_value (base n : Z) (s : string) : Z :=
  match s with
  | EmptyString => n
  | String c s' => digits_value base (n * base + default 0 (digit_val c)) s'
  end.

(** Bytes that are digits of the base. *)
Definition digit_of (base : Z) (c : ascii) : bool :=
  negb (c =? "_")%char && match digit_val c with Some d => (0 <=? d) && (d <? base) | None => false end.

Lemma digits_value_ge base s : forall n, 1 < base -> 0 <= n -> all_class (digit_of base) s = true -> n <= digits_value base n s.
Proof.
  induction s as [|c s IH]; intros n Hb Hn Hs; cbn [digits_value]; [lia|]. cbn in Hs. apply andb_true_iff in Hs as [Hc Hs].
  unfold digit_of in Hc. apply andb_true_iff in Hc as [_ Hc]. destruct (digit_val c) as [d|]; [|done]. cbn [default].
  apply andb_true_iff in Hc as [H0%Z.leb_le H1%Z.ltb_lt]. unfold id. pose proof (IH (n * base + d) Hb ltac:(nia) Hs). nia.
Qed.

Lemma uint0_loop_value base maxVal s : forall n, 1 < base -> 0 <= n <= maxVal -> all_class (digit_of base) s = true ->
  uint0_loop base maxVal n s
  = if digits_value base n s <=? maxVal then (digits_value base n s, None) else (maxVal, Some ErrRange).
Proof.
  induction s as [|c s IH]; intros n Hb Hn Hs; cbn [uint0_loop digits_value].
  { destruct (Z.leb_spec n maxVal); [done|lia]. }
  cbn in Hs. apply andb_true_iff in Hs as [Hc Hs]. unfold digit_of in Hc. apply andb_true_iff in Hc as [Hu Hc].
  apply negb_true_iff in Hu. rewrite Hu. destruct (digit_val c) as [d|]; [|done]. cbn [default]. unfold id.
  apply andb_true_iff in Hc as [H0%Z.leb_le H1%Z.ltb_lt]. destruct (Z.leb_spec base d); [lia|].
  destruct (Z.ltb_spec maxVal (n * base + d)) as [Hm|Hm]; [|apply IH; [done|nia|done]].
  pose proof (digits_value_ge base s (n * base + d) Hb ltac:(nia) Hs). destruct (Z.leb_spec (digits_value base (n * base + d) s) maxVal); [lia|done].
Qed.

Lemma no_underscore base s : all_class (digit_of base) s = true -> has_char "_" s = false.
Proof.
  induction s as [|c s IH]; [done|]. cbn. intros [Hc Hs]%andb_true_iff. unfold digit_of in Hc.
  apply andb_true_iff in Hc as [Hc%negb_true_iff _]. rewrite Hc. by apply IH.
Qed.

Lemma all_class_impl p q s : (forall c, p c = true -> q c = true) -> all_class p s = true -> all_class q s = true.
Proof. intros Hpq. induction s as [|c s IH]; [done|]. cbn. intros [Hc Hs]%andb_true_iff. by rewrite (Hpq c Hc), IH. Qed.

Lemma hex_digit_of c : is_hex c = true -> digit_of 16 c = true.
Proof. destruct c as [[] [] [] [] [] [] [] []]; vm_compute; congruence. Qed.

(** A number after its prefix, in 32 bits: values that do not fit saturate. *)
Lemma parse_int0_value s base digits :
  starts_with (fun c => (c =? "+")%char || (c =? "-")%char) s = false -> base_prefix s = (base, digits) -> s <> "" -> 1 < base ->
  all_class (digit_of base) digits = true ->
  (parse_int0 32 s).1 = Z.min (digits_value base 0 digits) (2 ^ 31 - 1).
Proof.
  intros Hsign Hb Hne Hbase Hd. destruct s as [|c s']; [done|]. cbn [starts_with] in Hsign.
  apply orb_false_iff in Hsign as [Hp Hm]. unfold parse_int0. rewrite Hp, Hm. cbv iota beta.
  unfold parse_uint0. rewrite Hb. rewrite (uint0_loop_value base _ digits 0 Hbase) by (done || lia).
  change (2 ^ 32 - 1) with 4294967295. change (2 ^ (32 - 1)) with 2147483648. change (2 ^ 31) with 2147483648.
  destruct (Z.leb_spec (digits_value base 0 digits) 4294967295) as [Hle|Hgt].
  - rewrite (no_underscore base digits Hd). cbn [andb]. rewrite decide_False by done. cbn [negb andb].
    destruct (Z.leb_spec 2147483648 (digits_value base 0 digits)); cbn [fst]; lia.
  - rewrite decide_False by done. cbn [negb andb Z.leb Z.compare fst]. cbn. lia.
Qed.

Lemma hex_value fw :
  fw <> "" -> all_class is_hex fw = true -> (parse_int0 32 ("0x" +:+ fw)).1 = Z.min (digits_value 16 0 fw) (2 ^ 31 - 1).
Proof.
  intros Hne Hc. destruct fw as [|c fw]; [done|]. apply parse_int0_value; [done|done|done|lia|].
  by eapply all_class_impl, Hc; apply hex_digit_of.
Qed.

(** ** The expressions of the program *)
Fixpoint ngroups (r : regex) : nat :=
  match r with RClass _ | RPlus _ => 0 | RSeq a b => ngroups a + ngroups b | RGroup r => S (ngroups r) end.

Lemma derives_ngroups r x g : derives r x g -> length g = ngroups r.
Proof. induction 1 as [| |a b x y g h _ IH1 _ IH2|r x g _ IH]; cbn; [done|done|by rewrite length_app, IH1, IH2|by rewrite IH]. Qed.

Lemma find_length r s m : FindStringSubmatch r s = Some m -> length m = S (ngroups r).
Proof. intros (pre & x & post & g & -> & [_ Hd] & _)%FindStringSubmatch_sound. cbn. by rewrite (derives_ngroups r x g). Qed.

Lemma firmware_line_total acc l :
  exists acc', firmware_line acc l = Ret acc' /\
    forall n, (forall m, FindStringSubmatch fwVersionRe l = Some m -> m !! 1%nat <> Some n) ->
      acc'.1 !! n = acc.1 !! n /\ acc'.2 !! n = acc.2 !! n.
Proof.
  unfold firmware_line. destruct (FindStringSubmatch fwVersionRe l) as [m|] eqn:E; [|by exists acc].
  pose proof (find_length _ _ _ E) as Hl. cbn in Hl. destruct acc as [feat fw].
  destruct m as [|m0 [|m1 [|m2 [|m3 [|]]]]]; try done. cbn [slice_get]. eexists. split; [reflexivity|].
  intros n Hn. cbn [fst snd]. specialize (Hn _ eq_refl). cbn in Hn. rewrite !lookup_insert_ne by congruence. done.
Qed.

Lemma firmware_lines_total lines : forall acc,
  exists acc', firmware_lines acc lines = Ret acc' /\
    forall n, (forall l m, l ∈ lines -> FindStringSubmatch fwVersionRe l = Some m -> m !! 1%nat <> Some n) ->
      acc'.1 !! n = acc.1 !! n /\ acc'.2 !! n = acc.2 !! n.
Proof.
  induction lines as [|l lines IH]; intros acc; cbn [firmware_lines]; [by exists acc|].
  destruct (firmware_line_total acc l) as (acc1 & -> & H1). cbn [mbind outcome_bind].
  destruct (IH acc1) as (acc2 & -> & H2). exists acc2. split; [done|]. intros n Hn.
  destruct (H2 n) as [-> ->]; [intros l' m Hl'; apply Hn; by right|]. apply H1. intros m. apply Hn. left.
Qed.

Lemma firmware_lines_app l1 l2 acc :
  firmware_lines acc (l1 ++ l2) = (acc ← firmware_lines acc l1; firmware_lines acc l2).
Proof.
  revert acc. induction l1 as [|l l1 IH]; intros acc; [done|]. rewrite <- app_comm_cons. cbn [firmware_lines].
  destruct (firmware_line acc l) as [acc'|]; [|done]. apply IH.
Qed.

Lemma u32_small z : 0 <= z < 2 ^ 32 -> u32 z = z.
Proof. intros Hz. unfold u32. by apply Z.mod_small. Qed.

(** *** [simd_count\s(\d+)] *)
Lemma rx_lit_strip {A} s : forall r t (k : string -> string -> list string -> option A),
  rx_match (RLit s r) t k
  = match strip_prefix s t with Some rest => rx_match r rest (fun x s' g => k (s +:+ x) s' g) | None => None end.
Proof.
  induction s as [|c s IH]; intros r t k; [by destruct t|]. destruct t as [|d t]; [done|]. cbn [RLit rx_match strip_prefix].
  destruct (c =? d)%char eqn:E; [|done]. apply Ascii.eqb_eq in E as ->. rewrite IH. by destruct (strip_prefix s t).
Qed.

Lemma digits_prefix_split s : exists rest, s = digits_prefix s +:+ rest /\ all_class is_digit (digits_prefix s) = true
  /\ starts_with is_digit rest = false.
Proof.
  induction s as [|c s IH]; [by exists ""|]. cbn [digits_prefix]. destruct ((48 <=? byte_val c) && (byte_val c <=? 57)) eqn:E.
  - destruct IH as (rest & IH1 & IH2 & IH3). exists rest. split_and!; [|by cbn; unfold is_digit; rewrite E|done].
    change (String c (digits_prefix s) +:+ rest) with (String c (digits_prefix s +:+ rest)). by rewrite <- IH1.
  - exists (String c s). split_and!; [done|done|exact E].
Qed.

Lemma digits_match {A} s (f : string -> list string -> A) :
  rx_match (RGroup (RPlus is_digit)) s (fun x _ g => Some (f x g))
  = match digits_prefix s with "" => None | d => Some (f d [d]) end.
Proof.
  destruct (digits_prefix_split s) as (rest & E & Hd & Hr). cbn [rx_match].
  destruct (digits_prefix s) as [|c d] eqn:Ed.
  - cbn in E. subst s. destruct rest as [|c rest]; [done|]. cbn [starts_with] in Hr. by rewrite Hr.
  - rewrite E. change (String c d +:+ rest) with ((String c d) +:+ rest).
    apply (rx_plus is_digit (String c d) rest (fun x _ g => Some (f x (x :: g)))); done.
Qed.

Lemma simd_at s :
  rx_match topoSIMDre s (fun x _ g => Some (x :: g))
  = match strip_prefix "simd_count" s with
    | Some (String c rest) =>
        if re_space c then match digits_prefix rest with "" => None | d => Some ["simd_count" +:+ String c d; d] end else None
    | _ => None
    end.
Proof.
  unfold topoSIMDre. rewrite rx_lit_strip. destruct (strip_prefix "simd_count" s) as [[|c rest]|]; [done| |done].
  cbn [rx_match]. destruct (re_space c); [|done].
  exact (digits_match rest (fun y g => ("simd_count" +:+ String c y) :: g)).
Qed.

Lemma find_simd_step s :
  find_simd s = match (match strip_prefix "simd_count" s with
         | Some (String c rest) =>
             if re_space c then match digits_prefix rest with "" => None | d => Some d end else None
         | _ => None
         end) with
  | Some d => Some d
  | None => match s with EmptyString => None | String _ s' => find_simd s' end
  end.
Proof. by destruct s. Qed.

Lemma find_simd_regexp s : find_simd s = (m ← FindStringSubmatch topoSIMDre s; m !! 1%nat).
Proof.
  induction s as [|c s IH]; rewrite find_simd_step; cbn [FindStringSubmatch]; rewrite simd_at.
  - done.
  - destruct (strip_prefix "simd_count" (String c s)) as [[|c' rest]|]; [done| |done]. destruct (re_space c'); [|done].
    by destruct (digits_prefix rest).
Qed.

(** ** Handles and files *)
Definition count_of (e : drm_event) (l : list drm_event) : nat := length (filter (fun x => x = e) l).

(** Everything opened is closed, everything initialised is freed, as often. *)
Definition balanced (l : list drm_event) : Prop :=
  (forall path, count_of (Opened path) l = count_of (Closed path) l)
  /\ forall h, count_of (Initialized h) l = count_of (Deinitialized h) l.

Lemma openAMDGPU_events vendor open_ init cardName :
  let '(r, evs) := openAMDGPU vendor open_ init cardName in
  match r with
  | inr _ => evs = [] \/ exists path, evs = [Opened path; Closed path]
  | inl h => exists path, evs = [Opened path; Initialized h; Closed path]
  end.
Proof.
  unfold openAMDGPU. destruct (AMDGPU (vendor cardName)); cbn [negb]; [|by left].
  destruct (open_ _); [by left|]. destruct (init _) as [rc h]. destruct (rc <? 0); [right|]; by eexists.
Qed.

Ltac count_events := unfold count_of; repeat (rewrite filter_cons; case_decide); simplify_eq; try done.

Lemma balanced_open path : balanced [Opened path; Closed path].
Proof. split; intros; count_events. Qed.

Lemma balanced_device path h : balanced [Opened path; Initialized h; Closed path; Deinitialized h].
Proof. split; intros; count_events. Qed.

Lemma balanced_nil : balanced [].
Proof. by split. Qed.

Definition two_lines : string :=
  "VCE feature version: 0, firmware version: 0x351a0300" +:+ String NL "junk" +:+ String NL
  "SMC feature version: 8, firmware version: 0xfe281b00" +:+ String NL "".

Module DCUDriverProps.

(** Regular expressions: [FindStringSubmatch] finds a match exactly when
    the expression matches somewhere in the line; what it returns is the text
    of a match with the texts of its groups, and no match starts further to
    the left. *)
Theorem find_submatch_leftmost r s :
  (FindStringSubmatch r s = None <-> ~ exists pre x post g, match_at r s pre x post g) /\
  forall m, FindStringSubmatch r s = Some m ->
    exists pre x post g, m = x :: g /\ match_at r s pre x post g /\
      forall pre' x' post' g', match_at r s pre' x' post' g' -> (String.length pre <= String.length pre')%nat.
Proof.
  split; [|apply FindStringSubmatch_sound]. split.
  - intros E (pre & x & post & g & Hm). apply FindStringSubmatch_complete in Hm as [m Hm]. by rewrite E in Hm.
  - intros Hn. destruct (FindStringSubmatch r s) as [m|] eqn:E; [|done]. destruct Hn.
    apply FindStringSubmatch_sound in E as (pre & x & post & g & _ & Hm & _). eauto.
Qed.

(** The parser of the firmware file never panics and reads each line for what
    it says, the last one of a block counting, except that a version of more
    than 31 bits becomes 0x7fffffff. *)
Theorem firmware_versions_read text pre name feat fw post :
  scan_lines text = (pre ++ firmware_text name feat fw :: post)%list -> firmware_ok name feat fw ->
  (forall l m, l ∈ post -> FindStringSubmatch fwVersionRe l = Some m -> m !! 1%nat <> Some name) ->
  exists feats fws, parseDebugFSFirmwareInfo (Some text) = Ret (feats, fws) /\
    fws !! name = Some (Z.min (digits_value 16 0 fw) (2 ^ 31 - 1)) /\
    feats !! name = Some (u32 (parse_int0 32 feat).1).
Proof.
  intros E Hok Hpost. unfold parseDebugFSFirmwareInfo. rewrite E, firmware_lines_app.
  destruct (firmware_lines_total pre (∅, ∅)) as ([feats0 fws0] & -> & _). cbn [mbind outcome_bind firmware_lines].
  unfold firmware_line. rewrite firmware_find by exact Hok. cbn [slice_get lookup list_lookup mbind outcome_bind].
  match goal with |- context [firmware_lines ?a post] => destruct (firmware_lines_total post a) as ([feats fws] & -> & Hp) end.
  destruct (Hp name Hpost) as [Hf Hw]. cbn [fst snd] in Hf, Hw. exists feats, fws. split; [done|].
  rewrite Hf, Hw, !lookup_insert_eq. destruct Hok as [_ _ [Hne Hc]]. rewrite hex_value by done. split; [|done].
  f_equal. apply u32_small. change (2 ^ 31 - 1) with 2147483647. change (2 ^ 32) with 4294967296.
  assert (0 <= digits_value 16 0 fw); [|lia]. apply digits_value_ge; [lia|lia|]. by eapply all_class_impl, Hc; apply hex_digit_of.
Qed.

Lemma firmware_versions_read_witness :
  exists feats fws, parseDebugFSFirmwareInfo (Some two_lines) = Ret (feats, fws) /\ fws !! "SMC" = Some 2147483647.
Proof.
  destruct (firmware_versions_read two_lines ["VCE feature version: 0, firmware version: 0x351a0300"; "junk"]%list "SMC" "8" "fe281b00" [])
    as (feats & fws & E & Hw & _).
  - reflexivity.
  - split; split; (reflexivity || discriminate).
  - intros l m Hl. by apply not_elem_of_nil in Hl.
  - exists feats, fws. split; [exact E|exact Hw].
Defined.

(** The count of GPUs reads what the regular expression matches: the hand
    written search of the topology files is the expression
    [simd_count\s(\d+)]. *)
Theorem simd_search_is_regexp s : find_simd s = (m ← FindStringSubmatch topoSIMDre s; m !! 1%nat).
Proof. apply find_simd_regexp. Qed.

(** Device files and libdrm handles are not leaked: whatever the libraries
    answer, each call closes the files it opened and frees the handles it
    initialised. *)
Theorem drm_handles_balanced vendor open_ init info fwq families FW cardName :
  balanced (GetCardFamilyName vendor open_ init info families cardName).2 /\
  balanced (DevFunctional vendor open_ init cardName).2 /\
  balanced (GetFirmwareVersions vendor open_ init fwq FW cardName).2.
Proof.
  pose proof (openAMDGPU_events vendor open_ init cardName) as Ho. unfold GetCardFamilyName, DevFunctional, GetFirmwareVersions.
  destruct (openAMDGPU vendor open_ init cardName) as [[h|e] evs].
  - destruct Ho as [path ->]. destruct (info h) as [rc fam]. destruct (foldl _ _ _) as [vars [feats fws]].
    split_and!; apply balanced_device.
  - assert (balanced evs) as Hb by (destruct Ho as [->|[path ->]]; [apply balanced_nil|apply balanced_open]).
    by split_and!.
Qed.

(** A failed query repeats the version before it: the return codes are
    ignored and the variables are shared, so a block whose query fails gets
    the versions of the block queried before it. *)
Theorem failed_query_repeats q h vars feats fws b1 b2 ver feat :
  q h b1.1 = Some (ver, feat) -> q h b2.1 = None -> b1.2 <> b2.2 ->
  let '(_, (feats', fws')) := fw_query q h (fw_query q h (vars, (feats, fws)) b1) b2 in
  fws' !! b2.2 = fws' !! b1.2 /\ feats' !! b2.2 = feats' !! b1.2.
Proof.
  intros E1 E2 Hne. unfold fw_query. rewrite E1, E2. cbv beta iota zeta delta [from_option id].
  split; by rewrite lookup_insert_eq, lookup_insert_ne, lookup_insert_eq.
Qed.

(** The topology is destroyed twice when it does not load: [Init] destroys it,
    its error is ignored, and the deferred [Destroy] runs all the same. *)
Theorem failed_topology_destroyed_twice filter_rc load_rc pcidev ids :
  (watch_numa 0 filter_rc load_rc pcidev ids).2 = 2%nat <-> filter_rc <> 0 \/ load_rc <> 0.
Proof.
  unfold watch_numa, hwloc_Init. cbn [Z.eqb negb]. destruct (Z.eqb_spec filter_rc 0) as [->|H1]; cbn [negb].
  - destruct (Z.eqb_spec load_rc 0) as [->|H2]; cbn; naive_solver lia.
  - cbn. naive_solver.
Qed.

(** What the kubelet hears of the cards: one list at the start and one per
    heartbeat, so at most one per period; with the default of no heartbeat
    the first list is the only one. *)
Theorem lists_per_heartbeat `{GoRuntime} pulse kfd elapsed plugin gpus beats :
  0 <= elapsed -> Z.of_nat (length beats) <= beats_until (hygon_main pulse kfd) elapsed ->
  let '(_, sent) := ListAndWatch plugin gpus beats in
  Z.of_nat (length sent) <= 1 + elapsed / Z.max 1 (default 0 pulse) /\ (pulse = None -> sent = [fake_devices plugin])
  /\ Forall (fun l => l = fake_devices plugin) sent.
Proof.
  intros He Hb. unfold ListAndWatch.
  assert (forall devs, length (heartbeat_loop plugin devs beats).2 = length beats
    /\ Forall (fun l => l = fake_devices plugin) (heartbeat_loop plugin devs beats).2) as Hl.
  { induction beats as [|ok beats IH]; intros devs; [by split|]. cbn [heartbeat_loop].
    specialize (IH ltac:(cbn in Hb |- *; lia) ((fun d => pluginapi.mkDevice (pluginapi.ID d) (if ok then pluginapi.Healthy else pluginapi.Unhealthy)) <$> devs)).
    destruct (heartbeat_loop _ _ _) as [d' sent]. cbn in *. destruct IH as [-> Hf]. by split; [|constructor]. }
  specialize (Hl ((fun x => pluginapi.mkDevice x.1 pluginapi.Healthy) <$> range ("ListAndWatch"%string, 0%nat) gpus)).
  destruct (heartbeat_loop _ _ _) as [d' sent]. cbn [snd] in Hl. destruct Hl as [Hn Hf]. unfold beats_until in Hb. cbn [hygon_main hy_pulse] in Hb.
  split_and!.
  - cbn [length]. pose proof (Z.div_pos elapsed (Z.max 1 (default 0 pulse)) He ltac:(lia)).
    destruct (Z.ltb_spec 0 (default 0 pulse)); [|lia]. rewrite Z.max_r by lia. lia.
  - intros ->. cbn in Hb. destruct sent; [done|cbn in Hn; lia].
  - by constructor.
Qed.
End DCUDriverProps.
