(* ===== verification/Cndev.v ===== *)
(** * MLU cards: [pkg/device-plugin/mlu/cndev]

    The Cambricon driver is reached through cgo; what it answers (the number
    of cards, their identities, PCIe addresses and links) is a parameter.
    Modelled from the source: [NewDeviceLite], the PCIe address text, the
    SR-IOV set-up with its file reads and shell commands (over the interface
    [Sysfs]), and [GetMLULinkGroups], a breadth-first search of the MLULink
    graph whose queue may hold a slot several times.  The search is proved to
    end and to return the slots linked with slot 0. *)

From Stdlib Require Import ZArith Lia Ascii String.
From stdpp Require Import base decidable option gmap strings numbers sorting list relations.
From S2P Require Import Prelude GoStrings GoRuntime Types Kube.

#[local] Open Scope Z_scope.

(** ** Cards *)
Record pcie := mkPcie { pcie_domain : Z; pcie_bus : Z; pcie_device : Z; pcie_function : Z }.

Module cndev.
Record Device := mkDevice {
  Slot : Z;
  UUID : string;
  SN : string;
  Path : string;
  MotherBoard : string;
  pcie_info : option pcie;
}.
End cndev.

#[export] Instance pcie_eq_dec : EqDecision pcie.
Proof. solve_decision. Defined.
#[export] Instance cndev_Device_eq_dec : EqDecision cndev.Device.
Proof. solve_decision. Defined.

(** The identity of a card as the driver reports it: UUID, serial number,
    mother board, path. *)
Abbreviation card_info := (string * string * string * string)%type.

Definition NewDeviceLite (getDeviceInfo : Z -> card_info + error)
    (getDevicePCIeInfo : Z -> pcie + error) (idx : Z) (pcieAware : bool) : cndev.Device + error :=
  match getDeviceInfo idx with
  | inr err => inr err
  | inl (uuid, sn, motherBoard, path) =>
      if pcieAware then
        match getDevicePCIeInfo idx with
        | inr err => inr err
        | inl pcie => inl (cndev.mkDevice idx uuid sn path motherBoard (Some pcie))
        end
      else inl (cndev.mkDevice idx uuid sn path motherBoard None)
  end.

(** [strings.Repeat("0", n)] panics for a negative count. *)
Fixpoint zeros (n : nat) : string := match n with O => ""%string | S n' => String "0" (zeros n') end.
Definition repeat0 (n : Z) : outcome string := if n <? 0 then Panic NegativeRepeat else Ret (zeros (Z.to_nat n)).

Definition no_pcie_error : error := "device has no PCIe info".

Definition GetPCIeID (d : cndev.Device) : outcome (string * option error) :=
  match cndev.pcie_info d with
  | None => Ret (""%string, Some no_pcie_error)
  | Some p =>
      let domain := format_hex (pcie_domain p) in
      pad ← repeat0 (4 - Z.of_nat (String.length domain));
      let pad2 n := if n <? 16 then String "0" (format_hex n) else format_hex n in
      Ret ((pad +:+ domain +:+ ":" +:+ pad2 (pcie_bus p) +:+ ":" +:+ pad2 (pcie_device p) +:+ "."
            +:+ format_hex (pcie_function p))%string, None)
  end.

(** ** SR-IOV *)

(** Reading a file and [bash -c "echo num > path"]. *)
Class Sysfs (F : Type) := {
  os_ReadFile : string -> F -> (string + error) * F;
  sh_echo : Z -> string -> F -> option error * F;
}.

Section sriov.
Context {F : Type} `{!Sysfs F}.

Definition NL : ascii := "010".
Definition num_error_text (e : num_error) : error :=
  match e with ErrSyntax => "invalid syntax" | ErrRange => "value out of range" end.

Definition getNumFromFile (path : string) : K F (Z * option error) :=
  output ← call (os_ReadFile path);
  mret match output with
       | inr err => (0, Some err)
       | inl output => let '(num, err) := parse_int 10 64 (trim NL output) in (num, num_error_text <$> err)
       end.

Definition numvfs_path (id : string) : string := "/sys/bus/pci/devices/" +:+ id +:+ "/sriov_numvfs".
Definition totalvfs_path (id : string) : string := "/sys/bus/pci/devices/" +:+ id +:+ "/sriov_totalvfs".

(** [%v] of an error value. *)
Definition show_error (err : option error) : string := default "<nil>"%string err.

Definition echo_error (num : Z) (path : string) (err : error) : error :=
  "echo " +:+ itoa num +:+ " to file " +:+ path +:+ ", err: " +:+ err.
Definition vfs_error (got : Z) (err : option error) (num : Z) : error :=
  "the number of VFs is not expected. got: " +:+ itoa got +:+ ", err: " +:+ show_error err
    +:+ ", expected: " +:+ itoa num.
Definition sriov_number_error (num max : Z) : error :=
  "invalid sriov number " +:+ itoa num +:+ ", maximum: " +:+ itoa max +:+ ", minimum: 1".
Definition sriov_reset_error (id : string) (vf : Z) : error :=
  "failed to set sriov num to 0, pcie: " +:+ id +:+ " now: " +:+ itoa vf.

Definition setSriovNum (id : string) (num : Z) : K F (option error) :=
  let path := numvfs_path id in
  err ← call (sh_echo num path);
  match err with
  | Some e => mret (Some (echo_error num path e))
  | None =>
      '(got, err) ← getNumFromFile path;
      mret (if bool_decide (is_Some err) || negb (got =? num) then Some (vfs_error got err num) else None)
  end.

Definition ValidateSriovNum (d : cndev.Device) (num : Z) : K F (option error) :=
  '(id, err) ← lift (GetPCIeID d);
  match err with
  | Some e => mret (Some e)
  | None =>
      '(max, err) ← getNumFromFile (totalvfs_path id);
      match err with
      | Some e => mret (Some e)
      | None => mret (if (num <? 1) || (max <? num) then Some (sriov_number_error num max) else None)
      end
  end.

Definition EnableSriov (d : cndev.Device) (num : Z) : K F (option error) :=
  err ← ValidateSriovNum d num;
  match err with
  | Some e => mret (Some e)
  | None =>
      '(id, err) ← lift (GetPCIeID d);
      match err with
      | Some e => mret (Some e)
      | None =>
          '(vf, err) ← getNumFromFile (numvfs_path id);
          match err with
          | Some e => mret (Some e)
          | None =>
              if vf =? num then mret None
              else if negb (vf =? 0) then
                err ← setSriovNum id 0;
                match err with
                | Some _ => mret (Some (sriov_reset_error id vf))
                | None => setSriovNum id num
                end
              else setSriovNum id num
          end
      end
  end.
End sriov.

(** ** The MLULink groups *)
Section links.
Context `{GoRuntime}.

(** [getDeviceMLULinkDevs slot]: the UUIDs linked with a slot, with the
    number of ports. *)
Context (getDeviceMLULinkDevs : Z -> gmap string Z + error).

(** The body of the loop over the linked devices. *)
Definition enqueue (slots : gmap string Z) (visited : gset Z) (queue : list Z) (x : string * Z) : list Z :=
  match slots !! x.1 with
  | None => queue
  | Some s => if decide (s ∈ visited) then queue else queue ++ [s]
  end.

(** The search: [i] counts its iterations. *)
Fixpoint link_loop (fuel i : nat) (slots : gmap string Z) (queue : list Z) (group visited : gset Z)
    : option (gset Z + error) :=
  match fuel with
  | O => None
  | S fuel' =>
      match queue with
      | [] => Some (inl group)
      | slot :: queue =>
          let visited := {[slot]} ∪ visited in
          match getDeviceMLULinkDevs slot with
          | inr err => Some (inr err)
          | inl devs =>
              let queue := foldl (enqueue slots visited) queue (range ("GetMLULinkGroups"%string, i) devs) in
              link_loop fuel' (S i) slots queue ({[slot]} ∪ group) visited
          end
      end
  end.

(** The loop that records the slot of every UUID. *)
Fixpoint slot_table (getDeviceInfo : Z -> card_info + error) (i : Z) (n : nat) (slots : gmap string Z)
    : gmap string Z + error :=
  match n with
  | O => inl slots
  | S n' =>
      match getDeviceInfo i with
      | inr err => inr err
      | inl (uuid, _, _, _) => slot_table getDeviceInfo (i + 1) n' (<[uuid := i]> slots)
      end
  end.

(** The identities are those of cards [getDeviceInfo] returns for; its panic
    on an MLU100 is in the model of the bindings. *)
Definition GetMLULinkGroups (count : Z + error) (getDeviceInfo : Z -> card_info + error) (fuel : nat)
    : option (list (list Z) + error) :=
  match count with
  | inr err => Some (inr err)
  | inl num =>
      match slot_table getDeviceInfo 0 (Z.to_nat num) ∅ with
      | inr err => Some (inr err)
      | inl slots =>
          match link_loop fuel 0 slots [0] ∅ ∅ with
          | None => None
          | Some (inr err) => Some (inr err)
          | Some (inl group) =>
              let group1 := range_ints ("GetMLULinkGroups.group"%string, 0%nat) group in
              let group2 := filter (fun slot => slot ∉ group) (Z.of_nat <$> seq 0 (Z.to_nat num)) in
              Some (inl (if bool_decide (group2 = []) then [group1] else [group1; group2]))
          end
      end
  end.
End links.

(** ** The search ends and finds the linked slots *)
Section search.
Context `{GoRuntime} (links : Z -> gmap string Z) (slots : gmap string Z).
#[local] Abbreviation driver := (fun s => inl (links s) : gmap string Z + error).

(** [t] is linked with [s] and is a slot of the node. *)
Definition linked (s t : Z) : Prop := exists dev, is_Some (links s !! dev) /\ slots !! dev = Some t.

Definition reach (s : Z) : Prop := rtc linked 0 s.

Lemma enqueue_fold visited (l : list (string * Z)) queue :
  exists new, foldl (enqueue slots visited) queue l = queue ++ new
    /\ (forall t, t ∈ new <-> (t ∉ visited) /\ exists dev n, (dev, n) ∈ l /\ slots !! dev = Some t)
    /\ (length new <= length l)%nat.
Proof.
  revert queue. induction l as [|[dev n] l IH]; intros queue; simpl.
  { exists []. rewrite app_nil_r. split_and!; [done|set_solver|done]. }
  destruct (IH (enqueue slots visited queue (dev, n))) as (new & -> & Hnew & Hlen).
  unfold enqueue. simpl. destruct (slots !! dev) as [s|] eqn:Es; [destruct (decide (s ∈ visited))|].
  - exists new. split_and!; [done| |lia]. intros t. rewrite Hnew. set_solver.
  - exists (s :: new). rewrite <- app_assoc. split_and!; [done| |simpl; lia].
    intros t. rewrite elem_of_cons, Hnew. set_solver.
  - exists new. split_and!; [done| |lia]. intros t. rewrite Hnew. set_solver.
Qed.

Lemma enqueue_links visited s i queue :
  exists new, foldl (enqueue slots visited) queue (range ("GetMLULinkGroups"%string, i) (links s)) = queue ++ new
    /\ (forall t, t ∈ new <-> (t ∉ visited) /\ linked s t) /\ (length new <= size (links s))%nat.
Proof.
  destruct (enqueue_fold visited (range ("GetMLULinkGroups"%string, i) (links s)) queue) as (new & E & Hn & Hl).
  exists new. rewrite length_range in Hl. split_and!; [done| |done].
  intros t. rewrite Hn. unfold linked. setoid_rewrite elem_of_range. split.
  - intros [? (dev & n & ? & ?)]. split; [done|]. exists dev. eauto.
  - intros [? (dev & [n ?] & ?)]. eauto.
Qed.

(** An entry whose slot was visited while it waited may enqueue its
    neighbours again: it weighs as much as they do. *)
Definition weight (visited : gset Z) (queue : list Z) : nat :=
  sum_list_with (fun s => if decide (s ∈ visited) then S (size (links s)) else 1%nat) queue.

Definition slot_set : gset Z := {[0]} ∪ map_img slots.

Lemma weight_unvisited visited new :
  (forall t, t ∈ new -> t ∉ visited) -> weight visited new = length new.
Proof.
  induction new as [|t new IH]; intros Hn; simpl; [done|].
  rewrite decide_False by (apply Hn; by left). rewrite IH; [lia|]. intros t' Ht'. apply Hn. by right.
Qed.

Lemma linked_slot s t : linked s t -> t ∈ slot_set.
Proof. intros (dev & _ & Hd). unfold slot_set. apply elem_of_union_r. by eapply elem_of_map_img_2. Qed.

Lemma link_loop_ends queue group visited i :
  (forall s, s ∈ queue -> s ∈ slot_set) ->
  exists fuel r, link_loop driver fuel i slots queue group visited = Some r.
Proof.
  remember (size (slot_set ∖ visited)) as u eqn:Hu. revert queue group visited i Hu.
  induction (lt_wf u) as [u _ IHu]. intros queue group visited i Hu Hq.
  remember (weight visited queue) as w eqn:Hw. revert queue group i Hq Hw.
  induction (lt_wf w) as [w _ IHw]. intros queue group i Hq Hw.
  destruct queue as [|s queue]; [by exists 1%nat, (inl group)|].
  destruct (enqueue_links ({[s]} ∪ visited) s i queue) as (new & E & Hnew & Hlen).
  assert (forall t, t ∈ queue ++ new -> t ∈ slot_set) as Hq'.
  { intros t [Ht|Ht]%elem_of_app; [apply Hq; by right|]. apply Hnew in Ht as [_ Ht]. by eapply linked_slot. }
  assert (exists fuel r, link_loop driver fuel (S i) slots (queue ++ new) ({[s]} ∪ group) ({[s]} ∪ visited)
    = Some r) as (fuel & r & Er); [|exists (S fuel), r; simpl; by rewrite E].
  destruct (decide (s ∈ visited)) as [Hin|Hout].
  - replace ({[s]} ∪ visited) with visited in Hnew |- * by set_solver.
    eapply (IHw (weight visited (queue ++ new))); [|done|done].
    rewrite Hw. unfold weight. rewrite sum_list_with_app. fold (weight visited new).
    rewrite weight_unvisited by (intros t Ht; by apply Hnew in Ht as [? _]).
    simpl. rewrite (decide_True _ _ Hin). lia.
  - eapply (IHu (size (slot_set ∖ ({[s]} ∪ visited)))); [|done|done].
    rewrite Hu. apply subset_size. assert (s ∈ slot_set) by (apply Hq; by left). set_solver.
Qed.

(** Invariant of the search. *)
Record searching (queue : list Z) (visited : gset Z) : Prop := {
  se_start : 0 ∈ queue \/ 0 ∈ visited;
  se_reach s : s ∈ queue \/ s ∈ visited -> reach s;
  se_closed s t : s ∈ visited -> linked s t -> t ∈ queue \/ t ∈ visited;
}.

Lemma link_loop_finds fuel i queue visited r :
  searching queue visited -> link_loop driver fuel i slots queue visited visited = Some r ->
  exists group, r = inl group /\ forall s, s ∈ group <-> reach s.
Proof.
  revert i queue visited. induction fuel as [|fuel IH]; intros i queue visited Hs E; [done|].
  destruct queue as [|s queue]; simpl in E.
  - injection E as <-. exists visited. split; [done|]. destruct Hs as [H0 Hr Hc]. intros s. split; [by auto|].
    assert (forall a b, rtc linked a b -> a ∈ visited -> b ∈ visited) as Hclos.
    { intros a b. induction 1 as [|a a' b Ha _ IHr]; [done|]. intros Hin. apply IHr.
      destruct (Hc a a' Hin Ha) as [Hn|?]; [by apply elem_of_nil in Hn|done]. }
    intros Hreach. apply (Hclos 0); [done|]. destruct H0 as [Hn|?]; [by apply elem_of_nil in Hn|done].
  - destruct (enqueue_links ({[s]} ∪ visited) s i queue) as (new & En & Hnew & _). rewrite En in E.
    apply IH in E; [done|]. destruct Hs as [H0 Hr Hc].
    assert (reach s) as Hs by (apply Hr; left; by left).
    split.
    + set_solver.
    + intros t [[Ht|Ht]%elem_of_app|Ht].
      * apply Hr. left. by right.
      * apply Hnew in Ht as [_ Ht]. by eapply rtc_r.
      * apply elem_of_union in Ht as [->%elem_of_singleton|Ht]; [done|]. apply Hr. by right.
    + intros a b Ha Hl. destruct (decide (b ∈ {[s]} ∪ visited)) as [|Hb]; [by right|left].
      apply elem_of_app. apply elem_of_union in Ha as [->%elem_of_singleton|Ha]; [right; by apply Hnew|].
      destruct (Hc a b Ha Hl) as [Hq|Hv]; [|set_solver]. left. apply elem_of_cons in Hq as [->|Hq]; [set_solver|done].
Qed.
End search.

Lemma NoDup_range_ints `{GoRuntime} t (s : gset Z) : NoDup (range_ints t s).
Proof. rewrite (range_ints_perm t s). apply NoDup_elements. Qed.

(** The UUID of a card. *)
Definition info_uuid (i : card_info) : string := i.1.1.1.

Lemma slot_table_spec (info : Z -> card_info) (n : nat) : forall (i : Z) (m : gmap string Z),
  (forall a b, i <= a < i + Z.of_nat n -> i <= b < i + Z.of_nat n ->
     info_uuid (info a) = info_uuid (info b) -> a = b) ->
  (forall a, i <= a < i + Z.of_nat n -> m !! info_uuid (info a) = None) ->
  exists slots, slot_table (fun j => inl (info j)) i n m = inl slots /\
    forall dev t, slots !! dev = Some t <->
      m !! dev = Some t \/ (i <= t < i + Z.of_nat n /\ info_uuid (info t) = dev).
Proof.
  induction n as [|n IH]; intros i m Hinj Hm.
  { exists m. split; [done|]. intros dev t. split; [by left|]. intros [?|[? _]]; [done|lia]. }
  cbn [slot_table]. destruct (info i) as [[[uuid sn] mb] path] eqn:Ei.
  assert (uuid = info_uuid (info i)) as -> by by rewrite Ei.
  destruct (IH (i + 1) (<[info_uuid (info i) := i]> m)) as (slots & -> & Hs).
  - intros a b Ha Hb. apply Hinj; lia.
  - intros a Ha. rewrite lookup_insert_ne; [apply Hm; lia|]. intros E. apply Hinj in E; lia.
  - exists slots. split; [done|]. intros dev t. rewrite Hs, lookup_insert_Some.
    split; [intros [[[<- <-]|[_ ?]]|[? ?]]|intros [Hd|[Ht <-]]].
    + right. split; [lia|done].
    + by left.
    + right. split; [lia|done].
    + left. right. split; [|done]. intros E. specialize (Hm i). rewrite E in Hm. rewrite Hm in Hd by lia. done.
    + destruct (decide (t = i)) as [->|]; [by left; left|]. right. split; [lia|done].
Qed.

(** Card [t] is linked with card [s]. *)
Definition card_linked (links : Z -> gmap string Z) (info : Z -> card_info) (num s t : Z) : Prop :=
  0 <= t < num /\ is_Some (links s !! info_uuid (info t)).

Lemma GetMLULinkGroups_finds `{GoRuntime} links info num :
  0 <= num ->
  (forall a b, 0 <= a < num -> 0 <= b < num -> info_uuid (info a) = info_uuid (info b) -> a = b) ->
  exists fuel group1 rest,
    GetMLULinkGroups (fun s => inl (links s)) (inl num) (fun i => inl (info i)) fuel
    = Some (inl (group1 :: rest)) /\ NoDup group1 /\
    (forall s, s ∈ group1 <-> rtc (card_linked links info num) 0 s) /\
    ((rest = [] /\ forall s, 0 <= s < num -> s ∈ group1) \/
     exists group2, rest = [group2] /\ forall s, s ∈ group2 <-> 0 <= s < num /\ ~ s ∈ group1).
Proof.
  intros Hnum Hinj.
  destruct (slot_table_spec info (Z.to_nat num) 0 ∅) as (slots & Et & Hslots).
  { intros a b Ha Hb. apply Hinj; lia. } { intros a _. apply lookup_empty. }
  assert (forall s t, linked links slots s t <-> card_linked links info num s t) as Hlink.
  { intros s t. unfold linked, card_linked. setoid_rewrite Hslots. setoid_rewrite lookup_empty. split.
    - intros (dev & Hd & [?|[Ht <-]]); [done|]. split; [lia|done].
    - intros [Ht Hd]. eexists. split; [exact Hd|]. right. split; [lia|done]. }
  destruct (link_loop_ends links slots [0] ∅ ∅ 0) as (fuel & r & El).
  { intros s ->%list_elem_of_singleton. unfold slot_set. set_solver. }
  destruct (link_loop_finds links slots fuel 0 [0] ∅ r) as (group & -> & Hg); [|exact El|].
  { split; [by left; left| |set_solver]. intros s [->%list_elem_of_singleton|?]; [apply rtc_refl|set_solver]. }
  exists fuel, (range_ints ("GetMLULinkGroups.group"%string, 0%nat) group). unfold GetMLULinkGroups.
  rewrite Et, El.
  assert (forall s, s ∈ range_ints ("GetMLULinkGroups.group"%string, 0%nat) group <-> s ∈ group) as Hr.
  { intros s. rewrite range_ints_perm. apply elem_of_elements. }
  set (group2 := filter _ _).
  assert (forall s, s ∈ group2 <-> 0 <= s < num /\ ~ s ∈ group) as H2.
  { intros s. unfold group2. rewrite list_elem_of_filter, list_elem_of_fmap. setoid_rewrite elem_of_seq. split.
    - intros (? & n & -> & ?). split; [lia|done].
    - intros [Hs ?]. split; [done|]. exists (Z.to_nat s). lia. }
  destruct (bool_decide (group2 = [])) eqn:Eb; bool_to_prop; eexists; split_and!; try done.
  - apply (NoDup_range_ints _ group).
  - intros s. rewrite Hr, Hg. split; apply rtc_subrel; intros ? ?; apply Hlink.
  - left. split; [done|]. intros s Hs. rewrite Hr. destruct (decide (s ∈ group)); [done|].
    assert (s ∈ group2) as Hn by by apply H2. rewrite Eb in Hn. by apply elem_of_nil in Hn.
  - apply (NoDup_range_ints _ group).
  - intros s. rewrite Hr, Hg. split; apply rtc_subrel; intros ? ?; apply Hlink.
  - right. exists group2. split; [done|]. intros s. by rewrite H2, Hr.
Qed.

(** ** SR-IOV *)
Section sriov_facts.
Context `{!Sysfs F}.

Lemma getNum_read path (f f' : F) n :
  getNumFromFile path f = Ret ((n, None), f') ->
  exists text, os_ReadFile path f = (inl text, f') /\ parse_int 10 64 (trim NL text) = (n, None).
Proof.
  unfold getNumFromFile, call, mbind, K_bind, mret, K_ret. destruct (os_ReadFile path f) as [[text|e] f1]; [|done].
  destruct (parse_int 10 64 (trim NL text)) as [m [err|]] eqn:Ep; intros E; [done|].
  injection E as <- <-. eauto.
Qed.

Lemma setSriovNum_sets id num (f f' : F) :
  setSriovNum id num f = Ret (None, f') ->
  exists text f2, os_ReadFile (numvfs_path id) f2 = (inl text, f') /\ parse_int 10 64 (trim NL text) = (num, None).
Proof.
  unfold setSriovNum, mbind, K_bind, call at 1. destruct (sh_echo _ _ f) as [[e|] f1]; [done|].
  destruct (getNumFromFile (numvfs_path id) f1) as [[[got err] f2]|] eqn:Eg; [|done].
  unfold mret, K_ret. intros E. case_hyp E; [done|]. injection E as <-.
  apply orb_false_iff in E0 as [Herr Hgot]. apply negb_false_iff, Z.eqb_eq in Hgot as ->.
  destruct err as [e|]; [by rewrite bool_decide_true in Herr|].
  apply getNum_read in Eg as (text & ? & ?). eauto.
Qed.

Lemma EnableSriov_enables (d : cndev.Device) num (f f' : F) :
  EnableSriov d num f = Ret (None, f') ->
  exists id f1 max text,
    GetPCIeID d = Ret (id, None) /\
    getNumFromFile (totalvfs_path id) f = Ret ((max, None), f1) /\ 1 <= num <= max /\
    exists f2, os_ReadFile (numvfs_path id) f2 = (inl text, f') /\
      parse_int 10 64 (trim NL text) = (num, None).
Proof.
  unfold EnableSriov, ValidateSriovNum, lift, mbind, K_bind, outcome_bind, mret, K_ret.
  destruct (GetPCIeID d) as [[id [e|]]|] eqn:Eid; [done| |done].
  destruct (getNumFromFile (totalvfs_path id) f) as [[[max [e|]] f1]|] eqn:Emax; [done| |done].
  destruct ((num <? 1) || (max <? num)) eqn:Er; [done|].
  apply orb_false_iff in Er as [H1%Z.ltb_ge H2%Z.ltb_ge].
  destruct (getNumFromFile (numvfs_path id) f1) as [[[vf [e|]] f2]|] eqn:Evf; [done| |done].
  intros E. exists id, f1, max. cut (exists text g, os_ReadFile (numvfs_path id) g = (inl text, f') /\
    parse_int 10 64 (trim NL text) = (num, None)).
  { intros (text & g & Hg & Hp). exists text. split_and!; [done|done|lia|lia|]. eauto. } destruct (Z.eqb_spec vf num) as [->|].
  { injection E as <-. apply getNum_read in Evf as (text & ? & ?). eauto. }
  destruct (negb (vf =? 0)).
  - destruct (setSriovNum id 0 f2) as [[[e|] f3]|]; [done| |done].
    exact (setSriovNum_sets _ _ _ _ E).
  - exact (setSriovNum_sets _ _ _ _ E).
Qed.
End sriov_facts.

Module CndevProps.

(** The search for the MLULink groups ends (for some number of steps) and
    splits the cards exactly: for cards with distinct UUIDs and a driver that
    answers, the first group holds, once each, the cards linked with card 0
    directly or through others, and the second group, present when it is not
    empty, all remaining cards. *)
Theorem link_groups_partition `{GoRuntime} links info num :
  0 <= num ->
  (forall a b, 0 <= a < num -> 0 <= b < num -> info_uuid (info a) = info_uuid (info b) -> a = b) ->
  exists fuel group1 rest,
    GetMLULinkGroups (fun s => inl (links s)) (inl num) (fun i => inl (info i)) fuel
    = Some (inl (group1 :: rest)) /\ NoDup group1 /\
    (forall s, s ∈ group1 <-> rtc (card_linked links info num) 0 s) /\
    ((rest = [] /\ forall s, 0 <= s < num -> s ∈ group1) \/
     exists group2, rest = [group2] /\ forall s, s ∈ group2 <-> 0 <= s < num /\ ~ s ∈ group1).
Proof. apply GetMLULinkGroups_finds. Qed.

(** Four cards; 0 and 2 are linked with each other, 1 and 3 with each other. *)
Definition demo_info (i : Z) : card_info :=
  (("MLU-" +:+ String (digit_char i) "")%string, ""%string, ""%string, ""%string).
Definition demo_links (s : Z) : gmap string Z :=
  if s =? 0 then {["MLU-2"%string := 2]} else if s =? 2 then {["MLU-0"%string := 2]}
  else if s =? 1 then {["MLU-3"%string := 1]} else if s =? 3 then {["MLU-1"%string := 1]} else ∅.

Example demo_groups :
  @GetMLULinkGroups go_reference (fun s => inl (demo_links s)) (inl 4) (fun i => inl (demo_info i)) 5
  = Some (inl [[2; 0]; [1; 3]]).
Proof. vm_compute. reflexivity. Qed.

Lemma link_groups_partition_witness :
  exists fuel group1 rest,
    @GetMLULinkGroups go_reference (fun s => inl (demo_links s)) (inl 4) (fun i => inl (demo_info i)) fuel
    = Some (inl (group1 :: rest)) /\ NoDup group1 /\
    (forall s, s ∈ group1 <-> rtc (card_linked demo_links demo_info 4) 0 s) /\
    ((rest = [] /\ forall s, 0 <= s < 4 -> s ∈ group1) \/
     exists group2, rest = [group2] /\ forall s, s ∈ group2 <-> 0 <= s < 4 /\ ~ s ∈ group1).
Proof.
  apply (@link_groups_partition go_reference demo_links demo_info 4); [lia|].
  intros a b Ha Hb.
  assert (a = 0 \/ a = 1 \/ a = 2 \/ a = 3) as [-> | [-> | [-> | ->]]] by lia;
    assert (b = 0 \/ b = 1 \/ b = 2 \/ b = 3) as [-> | [-> | [-> | ->]]] by lia;
    vm_compute; intros E; try reflexivity; discriminate E.
Defined.

(** SR-IOV is reported as enabled only when it is: if [EnableSriov]
    returns no error, the card has a PCIe address, the number is between 1 and
    the maximum read from the card's [sriov_totalvfs], and the last thing the
    call read from [sriov_numvfs] is that number. *)
Theorem EnableSriov_sound `{!Sysfs F} (d : cndev.Device) num (f f' : F) :
  EnableSriov d num f = Ret (None, f') ->
  exists id f1 max text,
    GetPCIeID d = Ret (id, None) /\
    getNumFromFile (totalvfs_path id) f = Ret ((max, None), f1) /\ 1 <= num <= max /\
    exists f2, os_ReadFile (numvfs_path id) f2 = (inl text, f') /\
      parse_int 10 64 (trim NL text) = (num, None).
Proof. apply EnableSriov_enables. Qed.

(** A card with one file that counts its virtual functions. *)
#[local] Instance one_card : Sysfs Z := {|
  os_ReadFile p n := (inl ((if bool_decide (p = numvfs_path "0000:3b:00.0") then itoa n else "16"%string)
                           +:+ String NL "")%string, n);
  sh_echo n p _ := (None, n);
|}.
Definition sriov_card : cndev.Device :=
  cndev.mkDevice 0 "MLU-0" "1" "/dev/cambricon_dev0" "2" (Some (mkPcie 0 59 0 0)).

Lemma EnableSriov_sound_witness :
  exists id f1 max text,
    GetPCIeID sriov_card = Ret (id, None) /\
    getNumFromFile (totalvfs_path id) 3 = Ret ((max, None), f1) /\ 1 <= 4 <= max /\
    exists f2, os_ReadFile (numvfs_path id) f2 = (inl text, 4) /\
      parse_int 10 64 (trim NL text) = (4, None).
Proof. apply (@EnableSriov_sound Z one_card sriov_card 4 3 4). vm_compute. reflexivity. Defined.
End CndevProps.
