(* ===== verification/CndevBindings.v ===== *)
(** * The bindings of the Cambricon driver ([pkg/device-plugin/mlu/cndev])

    bindings.go calls libcndev through cgo and turns C structures and return
    codes into Go values; cndev_dl.go opens and closes the library.  The
    library itself is not part of the repository: [CndevLib] is the record of
    its answers, with the widths of include/cndev.h.  The functions below are
    the arguments the rest of the MLU model takes ([Cndev], [MLU]). *)

From Stdlib Require Import ZArith Lia Ascii String.
From stdpp Require Import base decidable option gmap strings numbers sorting list relations.
From S2P Require Import Prelude GoStrings GoRuntime Types Kube Cndev.

#[local] Open Scope Z_scope.

(** ** The library *)

(** Return codes and enumerations of cndev.h. *)
Definition CNDEV_SUCCESS : Z := 0.
Definition CNDEV_ERROR_UNINITIALIZED : Z := 4.
Definition CNDEV_ERROR_UNKNOWN : Z := 7.
Definition CNDEV_FEATURE_DISABLED : Z := 0.
Definition MLU100 : Z := 0.

(** The calls take [C.int] indices; each answers with a code and the fields of
    the structure it fills.  [char] arrays hold text that ends with a zero
    byte. *)
Record CndevLib := mkCndevLib {
  cndevGetErrorString : Z -> string;
  cndevGetDeviceCount : Z * Z;
  getCardNameStringByDevId : Z -> string;
  cndevGetMemoryUsage : Z -> Z * Z;                       (* physicalMemoryTotal, int64 *)
  cndevGetMLULinkPortNumber : Z -> Z;
  cndevGetMLULinkStatus : Z -> Z -> Z * Z;                (* isActive *)
  cndevGetMLULinkRemoteInfo : Z -> Z -> Z * string;       (* uuid *)
  cndevGetCardName : Z -> Z * Z;                          (* id *)
  cndevGetCardSN : Z -> Z * (Z * Z);                      (* sn, motherBoardSn *)
  cndevGetUUID : Z -> Z * string;
  cndevGetCardHealthState : Z -> Z * Z;                   (* health *)
  cndevGetPCIeInfo : Z -> Z * pcie;
}.

(** [C.GoString]: up to the first zero byte. *)
Fixpoint GoString (s : string) : string :=
  match s with
  | EmptyString => ""%string
  | String c s' => if (c =? "000")%char then ""%string else String c (GoString s')
  end.

(** [uint(x)] of a 64-bit integer, and [C.int(idx)]. *)
Definition to_uint (z : Z) : Z := z mod 2 ^ 64.
Definition C_int (z : Z) : Z := i32 z.

(** ** bindings.go *)
Section bindings.
Context (lib : CndevLib).

Definition errorString (ret : Z) : option error :=
  if ret =? CNDEV_SUCCESS then None else Some ("cndev: " +:+ GoString (cndevGetErrorString lib ret))%string.

(** A value and the error of its code. *)
Definition checked {A} (x : Z * A) : A + error :=
  match errorString x.1 with Some err => inr err | None => inl x.2 end.

Definition GetDeviceCount : Z + error := checked (cndevGetDeviceCount lib).
Definition GetDeviceModel (idx : Z) : string := GoString (getCardNameStringByDevId lib (C_int idx)).
Definition GetDeviceMemory (idx : Z) : Z + error :=
  match checked (cndevGetMemoryUsage lib (C_int idx)) with inl total => inl (to_uint total) | inr err => inr err end.

Definition device_uuid (text : string) : string := "MLU-" +:+ GoString text.

(** The loop over the ports of a card. *)
Fixpoint link_ports (idx : Z) (ports : list Z) (devs : gmap string Z) : gmap string Z + error :=
  match ports with
  | [] => inl devs
  | i :: ports' =>
      match checked (cndevGetMLULinkStatus lib (C_int idx) (C_int i)) with
      | inr err => inr err
      | inl isActive =>
          if isActive =? CNDEV_FEATURE_DISABLED then link_ports idx ports' devs
          else
            match checked (cndevGetMLULinkRemoteInfo lib (C_int idx) (C_int i)) with
            | inr err => inr err
            | inl text =>
                let uuid := device_uuid text in
                link_ports idx ports' (<[uuid := default 0 (devs !! uuid) + 1]> devs)
            end
      end
  end.

Definition getDeviceMLULinkDevs (idx : Z) : gmap string Z + error :=
  link_ports idx (Z.of_nat <$> seq 0 (Z.to_nat (cndevGetMLULinkPortNumber lib (C_int idx)))) ∅.

(** The identity of a card that is not an MLU100. *)
Definition card_identity (idx : Z) : card_info + error :=
  match checked (cndevGetCardSN lib (C_int idx)) with
  | inr err => inr err
  | inl (sn, motherBoardSn) =>
      match checked (cndevGetUUID lib (C_int idx)) with
      | inr err => inr err
      | inl text =>
          inl (device_uuid text, format_hex sn, format_hex motherBoardSn, "/dev/cambricon_dev" +:+ itoa idx)%string
      end
  end.

(** [log.Panicln] for an MLU100. *)
Definition getDeviceInfo (idx : Z) : outcome (card_info + error) :=
  match checked (cndevGetCardName lib (C_int idx)) with
  | inr err => Ret (inr err)
  | inl id => if id =? MLU100 then Panic Explicit else Ret (card_identity idx)
  end.

(** The delay before the call is not modelled. *)
Definition getDeviceHealthState (idx delayTime : Z) : Z * option error :=
  let '(ret, health) := cndevGetCardHealthState lib (C_int idx) in (health, errorString ret).

Definition GetGeviceHealthState (d : cndev.Device) (delayTime : Z) : Z * option error :=
  getDeviceHealthState (cndev.Slot d) delayTime.

Definition getDevicePCIeInfo (idx : Z) : pcie + error := checked (cndevGetPCIeInfo lib (C_int idx)).
End bindings.

(** ** cndev_dl.go *)

(** The handles of the library, the calls of libdl and what they closed. *)
Section dl.
Context (dlopen : option Z) (c_cndevInit c_cndevRelease : Z) (dlclose : Z -> Z).

Definition dl_cndevInit (handles : list Z) : list Z * Z :=
  match dlopen with
  | None => (handles, CNDEV_ERROR_UNINITIALIZED)
  | Some handle => (handles ++ [handle], c_cndevInit)
  end.

(** Closes one handle after the other, up to the first failure; the list is
    kept. *)
Fixpoint close_handles (handles closed : list Z) : list Z * Z :=
  match handles with
  | [] => (closed, CNDEV_SUCCESS)
  | handle :: handles' =>
      if negb (dlclose handle =? 0) then (closed ++ [handle], CNDEV_ERROR_UNKNOWN)
      else close_handles handles' (closed ++ [handle])
  end.

Definition dl_cndevRelease (handles closed : list Z) : list Z * list Z * Z :=
  if negb (c_cndevRelease =? CNDEV_SUCCESS) then (handles, closed, c_cndevRelease)
  else let '(closed, ret) := close_handles handles closed in (handles, closed, ret).

Definition load_error : error := "could not load CNDEV library".

Definition Init (lib : CndevLib) (handles : list Z) : list Z * option error :=
  let '(handles, r) := dl_cndevInit handles in
  (handles, if r =? CNDEV_ERROR_UNINITIALIZED then Some load_error else errorString lib r).

Definition Release (lib : CndevLib) (handles closed : list Z) : list Z * list Z * option error :=
  let '(handles, closed, r) := dl_cndevRelease handles closed in (handles, closed, errorString lib r).
End dl.

(** ** The links the driver reports *)
Section links_facts.
Context `{GoRuntime} (lib : CndevLib).

(** Port [p] of card [s] is active and connected with [dev]. *)
Definition port_links (s : Z) (dev : string) (p : Z) : Prop :=
  (cndevGetMLULinkStatus lib (C_int s) (C_int p)).2 <> CNDEV_FEATURE_DISABLED
  /\ dev = device_uuid (cndevGetMLULinkRemoteInfo lib (C_int s) (C_int p)).2.

(** A driver that answers without errors, and no MLU100. *)
Record driver_answers (num : Z) : Prop := {
  da_count : cndevGetDeviceCount lib = (CNDEV_SUCCESS, num);
  da_status s p : (cndevGetMLULinkStatus lib s p).1 = CNDEV_SUCCESS;
  da_remote s p : (cndevGetMLULinkRemoteInfo lib s p).1 = CNDEV_SUCCESS;
  da_name i : (cndevGetCardName lib i).1 = CNDEV_SUCCESS /\ (cndevGetCardName lib i).2 <> MLU100;
  da_sn i : (cndevGetCardSN lib i).1 = CNDEV_SUCCESS;
  da_uuid i : (cndevGetUUID lib i).1 = CNDEV_SUCCESS;
}.

Lemma checked_ok {A} (x : Z * A) : x.1 = CNDEV_SUCCESS -> checked lib x = inl x.2.
Proof. intros E. unfold checked, errorString. by rewrite E. Qed.

Lemma link_ports_spec num s ports devs :
  driver_answers num ->
  exists devs', link_ports lib s ports devs = inl devs' /\
    forall dev, is_Some (devs' !! dev) <-> is_Some (devs !! dev) \/ exists p, p ∈ ports /\ port_links s dev p.
Proof.
  intros Hd. revert devs. induction ports as [|p ports IH]; intros devs; cbn [link_ports].
  { exists devs. split; [done|]. intros dev. split; [by left|]. intros [?|(p & Hp & _)]; [done|]. by apply not_elem_of_nil in Hp. }
  rewrite (checked_ok (cndevGetMLULinkStatus lib (C_int s) (C_int p))) by apply (da_status _ Hd).
  rewrite (checked_ok (cndevGetMLULinkRemoteInfo lib (C_int s) (C_int p))) by apply (da_remote _ Hd).
  destruct (Z.eqb_spec (cndevGetMLULinkStatus lib (C_int s) (C_int p)).2 CNDEV_FEATURE_DISABLED) as [Ha|Ha].
  - destruct (IH devs) as (devs' & -> & Hs). exists devs'. split; [done|]. intros dev. rewrite Hs. split.
    + intros [?|(q & Hq & Hl)]; [by left|]. right. exists q. split; [by right|done].
    + intros [?|(q & [->|Hq]%elem_of_cons & Hl)]; [by left|by destruct Hl|]. right. by exists q.
  - destruct (IH (<[device_uuid (cndevGetMLULinkRemoteInfo lib (C_int s) (C_int p)).2 := default 0 (devs !! device_uuid
      (cndevGetMLULinkRemoteInfo lib (C_int s) (C_int p)).2) + 1]> devs)) as (devs' & -> & Hs).
    exists devs'. split; [done|]. intros dev. rewrite Hs, lookup_insert_is_Some'. split.
    + intros [[<-|?]|(q & Hq & Hl)]; [right; exists p; split; [left|done]|by left|right; exists q; split; [by right|done]].
    + intros [?|(q & [->|Hq]%elem_of_cons & Hl)]; [left; by right|left; left; by destruct Hl as [_ ->]|]. right. by exists q.
Qed.

(** The cards [s] has an active port to. *)
Definition mlu_linked (num s t : Z) : Prop :=
  0 <= t < num /\ exists p, 0 <= p < cndevGetMLULinkPortNumber lib (C_int s)
    /\ port_links s (device_uuid (cndevGetUUID lib (C_int t)).2) p.

Definition link_table (s : Z) : gmap string Z := match getDeviceMLULinkDevs lib s with inl devs => devs | inr _ => ∅ end.
Definition identity (i : Z) : card_info :=
  (device_uuid (cndevGetUUID lib (C_int i)).2, format_hex (cndevGetCardSN lib (C_int i)).2.1,
   format_hex (cndevGetCardSN lib (C_int i)).2.2, "/dev/cambricon_dev" +:+ itoa i)%string.

Lemma link_table_of num s : driver_answers num -> getDeviceMLULinkDevs lib s = inl (link_table s).
Proof.
  intros Hd. unfold link_table, getDeviceMLULinkDevs.
  by destruct (link_ports_spec num s (Z.of_nat <$> seq 0 (Z.to_nat (cndevGetMLULinkPortNumber lib (C_int s)))) ∅ Hd) as (devs & -> & _).
Qed.

Lemma link_table_spec num s dev :
  driver_answers num -> is_Some (link_table s !! dev) <-> exists p, 0 <= p < cndevGetMLULinkPortNumber lib (C_int s) /\ port_links s dev p.
Proof.
  intros Hd. unfold link_table, getDeviceMLULinkDevs.
  destruct (link_ports_spec num s (Z.of_nat <$> seq 0 (Z.to_nat (cndevGetMLULinkPortNumber lib (C_int s)))) ∅ Hd) as (devs & -> & Hs).
  rewrite Hs, lookup_empty, is_Some_alt. split.
  - intros [?|(p & Hp & Hl)]; [done|]. exists p. apply list_elem_of_fmap in Hp as (k & -> & Hk%elem_of_seq). split; [lia|done].
  - intros (p & Hp & Hl). right. exists p. split; [|done]. apply list_elem_of_fmap. exists (Z.to_nat p).
    rewrite elem_of_seq. lia.
Qed.

Lemma identity_of num i :
  driver_answers num -> getDeviceInfo lib i = Ret (card_identity lib i) /\ card_identity lib i = inl (identity i).
Proof.
  intros Hd. destruct (da_name _ Hd (C_int i)) as [Hn Hm]. unfold getDeviceInfo, card_identity.
  rewrite (checked_ok _ Hn), (checked_ok _ (da_sn _ Hd (C_int i))), (checked_ok _ (da_uuid _ Hd (C_int i))).
  apply Z.eqb_neq in Hm. rewrite Hm. unfold identity. by destruct (cndevGetCardSN lib (C_int i)).2.
Qed.
End links_facts.

(** The search depends on the driver's answers only. *)
Lemma link_loop_ext `{GoRuntime} (f g : Z -> gmap string Z + error) slots :
  (forall s, f s = g s) -> forall fuel i queue group visited,
  link_loop f fuel i slots queue group visited = link_loop g fuel i slots queue group visited.
Proof.
  intros E. induction fuel as [|fuel IH]; intros i queue group visited; cbn [link_loop]; [done|].
  destruct queue as [|slot queue]; [done|]. rewrite E. by destruct (g slot).
Qed.

Lemma slot_table_ext (f g : Z -> card_info + error) : (forall i, f i = g i) -> forall n i slots,
  slot_table f i n slots = slot_table g i n slots.
Proof. intros E. induction n as [|n IH]; intros i slots; cbn [slot_table]; [done|]. rewrite E. by destruct (g i) as [[[[? ?] ?] ?]|]. Qed.

Lemma rtc_iff {A} (R Q : relation A) x y : (forall a b, R a b <-> Q a b) -> rtc R x y <-> rtc Q x y.
Proof. intros E. split; apply rtc_subrel; intros a b; apply E. Qed.

(** Two cards with one link between them, and a third one. *)
Definition demo_lib : CndevLib := mkCndevLib (fun _ => "oops"%string) (CNDEV_SUCCESS, 3) (fun _ => "MLU290"%string)
  (fun _ => (CNDEV_SUCCESS, 16384)) (fun s => if s =? 2 then 0 else 2)
  (fun s p => (CNDEV_SUCCESS, if p =? 0 then 1 else 0))
  (fun s p => (CNDEV_SUCCESS, String (digit_char (1 - s)) (String "000" "x")))
  (fun _ => (CNDEV_SUCCESS, 16)) (fun i => (CNDEV_SUCCESS, (255, i)))
  (fun i => (CNDEV_SUCCESS, String (digit_char i) (String "000" "y")))
  (fun _ => (CNDEV_SUCCESS, 1)) (fun _ => (CNDEV_SUCCESS, mkPcie 0 12 13 1)).

Module BindingsProps.

(** C28. The MLULink groups of the cards the driver reports: when every call of
    the library succeeds, no card is an MLU100 (for which [getDeviceInfo]
    panics) and the UUIDs of the cards differ, the search ends,
    and the first group holds, once each, the cards that can be reached from
    card 0 over active ports, by the UUIDs the ports report; the second group
    holds the others. *)
Theorem driver_link_groups `{GoRuntime} lib num :
  0 <= num -> driver_answers lib num ->
  (forall a b, 0 <= a < num -> 0 <= b < num ->
     device_uuid (cndevGetUUID lib (C_int a)).2 = device_uuid (cndevGetUUID lib (C_int b)).2 -> a = b) ->
  exists fuel group1 rest,
    GetMLULinkGroups (getDeviceMLULinkDevs lib) (GetDeviceCount lib) (card_identity lib) fuel = Some (inl (group1 :: rest))
    /\ (forall i, getDeviceInfo lib i = Ret (card_identity lib i))
    /\ NoDup group1 /\ (forall s, s ∈ group1 <-> rtc (mlu_linked lib num) 0 s)
    /\ ((rest = [] /\ forall s, 0 <= s < num -> s ∈ group1) \/
        exists group2, rest = [group2] /\ forall s, s ∈ group2 <-> 0 <= s < num /\ ~ s ∈ group1).
Proof.
  intros Hnum Hd Hinj. destruct (GetMLULinkGroups_finds (link_table lib) (identity lib) num Hnum) as (fuel & group1 & rest & E & Hnd & Hg & Hr).
  { intros a b Ha Hb. by apply Hinj. }
  exists fuel, group1, rest. split_and!; [|by intros i; apply (identity_of lib num)|done| |done].
  - rewrite <- E. unfold GetMLULinkGroups, GetDeviceCount. rewrite checked_ok by (by rewrite (da_count _ _ Hd)).
    rewrite (da_count _ _ Hd). cbn [snd].
    rewrite (slot_table_ext (card_identity lib) (fun i => inl (identity lib i))) by (intros i; by apply (identity_of lib num)).
    destruct (slot_table _ _ _ _) as [slots|]; [|done].
    by rewrite (link_loop_ext _ (fun s => inl (link_table lib s)) slots (fun s => link_table_of lib num s Hd)).
  - intros s. rewrite Hg. apply rtc_iff. intros a b. unfold card_linked, mlu_linked.
    rewrite (link_table_spec lib num) by exact Hd. done.
Qed.

Lemma driver_link_groups_witness :
  exists fuel group1 rest,
    @GetMLULinkGroups go_reference (getDeviceMLULinkDevs demo_lib) (GetDeviceCount demo_lib) (card_identity demo_lib) fuel
    = Some (inl (group1 :: rest)) /\ forall s, s ∈ group1 <-> rtc (mlu_linked demo_lib 3) 0 s.
Proof.
  destruct (@driver_link_groups go_reference demo_lib 3) as (fuel & group1 & rest & E & _ & _ & Hg & _).
  - lia.
  - split; try reflexivity. intros i. split; [reflexivity|discriminate].
  - intros a b Ha Hb.
    assert (a = 0 \/ a = 1 \/ a = 2) as [-> | [-> | ->]] by lia; assert (b = 0 \/ b = 1 \/ b = 2) as [-> | [-> | ->]] by lia;
      vm_compute; intros E; try reflexivity; discriminate E.
  - exists fuel, group1, rest. split; [exact E|exact Hg].
Defined.

(** The handles outlive their release: [Release] closes every handle and keeps
    the list, so a second [Release] closes each of them again. *)
Theorem release_closes_twice lib dlclose handles :
  Forall (fun h => dlclose h = 0) handles ->
  let '(handles1, closed1, err1) := Release CNDEV_SUCCESS dlclose lib handles [] in
  let '(handles2, closed2, err2) := Release CNDEV_SUCCESS dlclose lib handles1 closed1 in
  err1 = None /\ err2 = None /\ closed2 = handles ++ handles.
Proof.
  intros Hc. assert (forall closed, close_handles dlclose handles closed = (closed ++ handles, CNDEV_SUCCESS)) as E.
  { induction Hc as [|h hs Hh Hc IH]; intros closed; cbn [close_handles]; [by rewrite app_nil_r|].
    rewrite Hh. cbn [Z.eqb negb]. by rewrite IH, <- app_assoc. }
  unfold Release, dl_cndevRelease. cbn [Z.eqb negb CNDEV_SUCCESS]. by rewrite !E.
Qed.

(** A negative total becomes a huge one: [uint] of the driver's signed
    number. *)
Theorem negative_memory_wraps lib idx n :
  0 < n < 2 ^ 63 -> cndevGetMemoryUsage lib (C_int idx) = (CNDEV_SUCCESS, - n) ->
  GetDeviceMemory lib idx = inl (2 ^ 64 - n).
Proof.
  intros Hn E. unfold GetDeviceMemory. rewrite E. cbn [checked errorString Z.eqb CNDEV_SUCCESS fst snd]. f_equal.
  unfold to_uint. rewrite <- (Z.mod_add _ 1) by lia. rewrite Z.mod_small by lia. lia.
Qed.
End BindingsProps.
