(* ===== verification/MLUAlloc.v ===== *)
(** * The MLU topology allocators

    [pkg/device-plugin/mlu/allocator]: given the slots the kubelet offers and
    a size, choose the cards a container gets.  Three implementations of the
    interface [Allocator] (one per board layout) share the search for a ring
    of MLULink connections with the most non-conflicting rings and differ in
    the fallback when there is no ring and in the preference between equally
    good rings.

    The rings come from the [cntopo] command line tool, which is not part of
    the repository: [GetRings] is a parameter.  Its answer is not checked by
    the code, so [allocation_exact] says of a ring only that it is passed on;
    [rings_ok] (the rings are of as many distinct devices of the white list as
    were asked for) is what the contract of the plugin assumes of the tool.

    [Allocator] is an interface of the program and a class here: the contract
    [AllocatorContract] is proved for the three implementations, and the
    device plugin's theorems (file MLU) are proved against the contract. *)

From Stdlib Require Import ZArith Lia Ascii String Sorted.
From stdpp Require Import base decidable option gmap strings numbers sorting list.
From S2P Require Import Prelude GoStrings GoRuntime Types Cndev.

#[local] Open Scope Z_scope.

(** [cntopo.Ring] *)
Record Ring := mkRing { Ordinals : list Z; NonConflictRingNum : Z }.

#[export] Instance Ring_eq_dec : EqDecision Ring.
Proof. solve_decision. Defined.

(** ** The code *)
Section allocators.
Context `{GoRuntime}.

(** [Cntopo.GetRings]: the rings, or an error of the tool. *)
Context (GetRings : list Z -> Z -> list Ring + error).
Context (policy : string) (devs : gmap string cndev.Device).

Definition contains (set : list Z) (dev : Z) : bool := existsb (Z.eqb dev) set.
Definition containsAll (set devs : list Z) : bool := forallb (contains set) devs.

(** [sort.Slice] by descending [NonConflictRingNum]. *)
Definition sort_rings (rings : list Ring) : list Ring :=
  sort_by (fun a b => NonConflictRingNum b <? NonConflictRingNum a) rings.

(** The prefix of the sorted rings that are as good as the first. *)
Fixpoint best_rings (top : Ring) (rings : list Ring) : list Ring :=
  match rings with
  | [] => []
  | r :: rings' =>
      if NonConflictRingNum r <? NonConflictRingNum top then [] else r :: best_rings top rings'
  end.

(** The candidate inside one of the groups (mother boards or CPU groups, in
    order), the first candidate when no group holds one. *)
Definition pick_ring (groups : list (list Z)) (candidates : list Ring)
  : outcome (list Z * option error) :=
  match groups ≫= (fun g => filter (fun c => containsAll g (Ordinals c) = true) candidates) with
  | candidate :: _ => Ret (Ordinals candidate, None)
  | [] => c ← slice_get candidates 0; Ret (Ordinals c, None)
  end.

Definition no_rings_error : error := "mode " +:+ policy +:+ " found no rings".
Definition ring_num_error (top : Ring) : error :=
  "mode " +:+ policy +:+ ", max non-conflict ring num " +:+ itoa (NonConflictRingNum top).

(** The closure [allocateRemainingFrom]: [allocated] and [needed] are the
    variables it captures; the flag says that [needed] reached zero. *)
Fixpoint allocateRemainingFrom (devices allocated : list Z) (needed : Z) : bool * list Z * Z :=
  match devices with
  | [] => (false, allocated, needed)
  | device :: devices' =>
      if contains allocated device then allocateRemainingFrom devices' allocated needed
      else
        let allocated := allocated ++ [device] in
        let needed := needed - 1 in
        if needed =? 0 then (true, allocated, needed)
        else allocateRemainingFrom devices' allocated needed
  end.

(** [for _, b := range boards { if allocateRemainingFrom(b) ... }]. *)
Fixpoint allocate_from (boards : list (list Z)) (allocated : list Z) (needed : Z)
  : bool * list Z * Z :=
  match boards with
  | [] => (false, allocated, needed)
  | b :: boards' =>
      match allocateRemainingFrom b allocated needed with
      | (true, allocated, needed) => (true, allocated, needed)
      | (false, allocated, needed) => allocate_from boards' allocated needed
      end
  end.

(** The slots of the available cards, grouped by a key of the card, the
    smallest group first. *)
Definition split_by (key : cndev.Device -> string) (t : string) (available : list Z)
  : list (list Z) :=
  let groups := foldl (fun m '(_, dev) =>
      if contains available (cndev.Slot dev)
      then <[key dev := default [] (m !! key dev) ++ [cndev.Slot dev]]> m else m)
    (∅ : gmap string (list Z)) (range (t, 0%nat) devs) in
  sort_by (fun a b => (length a <? length b)%nat) ((range (t, 1%nat) groups).*2).

Definition splitByMotherBoards (available : list Z) : list (list Z) :=
  split_by cndev.MotherBoard "splitByMotherBoards" available.
Definition splitByBoards (available : list Z) : list (list Z) :=
  split_by cndev.SN "splitByBoards" available.

(** [available[0:size]]; [spare] is what the slice's backing array holds
    beyond its length. *)
Definition reslice (available spare : list Z) (size : Z) : outcome (list Z) :=
  if (size <? 0) || (Z.of_nat (length available + length spare) <? size) then Panic SliceBounds
  else Ret (take (Z.to_nat size) (available ++ spare)).

(** default.go *)
Definition default_sizeAlwaysFailsToFormRing (size : Z) : bool := Z.rem size 2 =? 1.

Definition default_Allocate (available spare required : list Z) (size : Z)
  : outcome (list Z * option error) :=
  match GetRings available size with
  | inr err => Ret ([], Some err)
  | inl rings =>
      match sort_rings rings with
      | [] =>
          if negb (bool_decide (policy = BestEffort)) && negb (default_sizeAlwaysFailsToFormRing size)
          then Ret ([], Some no_rings_error)
          else (r ← reslice available spare size; Ret (r, None))
      | top :: _ => Ret (Ordinals top, None)
      end
  end.

(** spider.go *)
Definition spider_sizeAlwaysFailsToFormRing (size : Z) : bool := (size <=? 1) || (8 <? size).

Definition spider_remaining_error : error := "finished allocateRemainingFrom, should not be here".

Definition spider_Allocate (available spare required : list Z) (size : Z)
  : outcome (list Z * option error) :=
  match GetRings available size with
  | inr err => Ret ([], Some err)
  | inl rings =>
      let rings := sort_rings rings in
      let mbs := splitByMotherBoards available in
      match rings with
      | [] =>
          if negb (bool_decide (policy = BestEffort)) && negb (spider_sizeAlwaysFailsToFormRing size)
          then Ret ([], Some no_rings_error)
          else match allocate_from mbs [] size with
               | (true, allocated, _) => Ret (allocated, None)
               | (false, _, _) => Ret ([], Some spider_remaining_error)
               end
      | top :: _ =>
          if bool_decide (policy = Restricted) && (size =? 4) && (NonConflictRingNum top <? 4)
          then Ret ([], Some (ring_num_error top))
          else if bool_decide (policy = Restricted) && (size =? 2) && (NonConflictRingNum top <? 2)
          then Ret ([], Some (ring_num_error top))
          else
            pick_ring mbs (best_rings top rings)
      end
  end.

(** board.go *)
Context (cpu_groups : list (list Z)).

Definition board_sizeAlwaysFailsToFormRing (size : Z) : bool :=
  if (8 <? size) || (size <=? 1) then true else if Z.rem size 2 =? 1 then true else false.

Definition board_no_rings_error (size : Z) : error :=
  no_rings_error +:+ " for size " +:+ itoa size.
Definition board_remaining_error : error :=
  "allocated from all available devices, should not be here".

(** The loop of [filterAvaliableDevsByGroup] ([None]: a device is in neither
    group). *)
Fixpoint filter_group_loop (g0 g1 available group0 group1 : list Z) : option (list Z * list Z) :=
  match available with
  | [] => Some (group0, group1)
  | dev :: available' =>
      if contains g0 dev then filter_group_loop g0 g1 available' (group0 ++ [dev]) group1
      else if contains g1 dev then filter_group_loop g0 g1 available' group0 (group1 ++ [dev])
      else None
  end.

(** [None] is the error return, whose slice is nil. *)
Definition filterAvaliableDevsByGroup (available : list Z) : option (list (list Z)) :=
  match cpu_groups with
  | [g0; g1] =>
      match filter_group_loop g0 g1 available [] [] with
      | None => None
      | Some (group0, group1) =>
          if (length group1 <? length group0)%nat then Some [group1; group0] else Some [group0; group1]
      end
  | _ => None
  end.

(** The boards the fallback visits, in order: all of them without groups;
    otherwise, per group, the boards inside it. *)
Definition board_order (groups : option (list (list Z))) (boards : list (list Z)) : list (list Z) :=
  match groups with
  | None => boards
  | Some groups => groups ≫= (fun group => filter (fun b => containsAll group b = true) boards)
  end.

Definition board_Allocate (available spare required : list Z) (size : Z)
  : outcome (list Z * option error) :=
  match GetRings available size with
  | inr err => Ret ([], Some err)
  | inl rings =>
      let rings := sort_rings rings in
      let boards := splitByBoards available in
      let groups := filterAvaliableDevsByGroup available in
      match rings with
      | [] =>
          if negb (bool_decide (policy = BestEffort)) && negb (board_sizeAlwaysFailsToFormRing size)
          then Ret ([], Some (board_no_rings_error size))
          else match allocate_from (board_order groups boards) [] size with
               | (true, allocated, _) => Ret (allocated, None)
               | (false, allocated, needed) =>
                   match allocateRemainingFrom available allocated needed with
                   | (true, allocated, _) => Ret (allocated, None)
                   | (false, _, _) => Ret ([], Some board_remaining_error)
                   end
               end
      | top :: _ =>
          if bool_decide (policy = Restricted) && (size =? 2) && (NonConflictRingNum top <? 2)
          then Ret ([], Some (ring_num_error top))
          else
            pick_ring (default [] groups) (best_rings top rings)
      end
  end.

(** [getCPUGroups] from the reply of [cndev.GetMLULinkGroups]. *)
Definition getCPUGroups (linked : list (list Z) + error) : outcome (list (list Z)) :=
  match linked with
  | inr _ => Ret []
  | inl groups =>
      if negb (length groups =? 2)%nat then Ret []
      else (g0 ← slice_get groups 0; if negb (length g0 =? 8)%nat then Ret [] else Ret groups)
  end.

(** allocator.go: [New] picks the implementation by the model of card 0. *)
Inductive AllocatorKind := Spider | Board | Default.

Definition New_kind (model : string) : AllocatorKind :=
  if GoStrings.contains model "MLU290" || bool_decide (model = "MLU370-M8") then Spider
  else if bool_decide (model = "MLU370-X8") then Board
  else Default.

Definition Allocate (k : AllocatorKind) : list Z -> list Z -> list Z -> Z -> outcome (list Z * option error) :=
  match k with
  | Spider => spider_Allocate
  | Board => board_Allocate
  | Default => default_Allocate
  end.
End allocators.

(** ** What the topology tool is asked for: rings of [size] distinct devices
    of the white list *)
Definition ring_within (available : list Z) (size : Z) (r : Ring) : Prop :=
  NoDup (Ordinals r) /\ Ordinals r ⊆ available /\ Z.of_nat (length (Ordinals r)) = size.

Definition rings_ok (GetRings : list Z -> Z -> list Ring + error) : Prop :=
  forall available size rings, NoDup available ->
    GetRings available size = inl rings -> Forall (ring_within available size) rings.

(** What an allocator promises the device plugin. *)
Definition exact_choice (available : list Z) (size : Z) (l : list Z) : Prop :=
  NoDup l /\ l ⊆ available /\ Z.of_nat (length l) = size.

Class AllocatorContract (alloc : list Z -> list Z -> list Z -> Z -> outcome (list Z * option error))
  : Prop := {
  alloc_returns available spare required size :
    NoDup available -> 0 <= size <= Z.of_nat (length available) ->
    returns (alloc available spare required size);
  alloc_exact available spare required size l :
    NoDup available -> size <= Z.of_nat (length available) ->
    alloc available spare required size = Ret (l, None) -> exact_choice available size l;
}.

(** ** Membership tests *)
Lemma contains_true set dev : contains set dev = true <-> dev ∈ set.
Proof.
  unfold contains. rewrite existsb_exists. split.
  - intros (x & Hx & E). apply Z.eqb_eq in E as ->. by apply list_elem_of_In.
  - intros Hx. exists dev. split; [by apply list_elem_of_In|apply Z.eqb_refl].
Qed.

Lemma containsAll_true set l : containsAll set l = true <-> l ⊆ set.
Proof.
  unfold containsAll. rewrite forallb_forall. setoid_rewrite contains_true.
  split; intros Hl x Hx; apply Hl; by apply list_elem_of_In.
Qed.

(** ** The fallback fills up to the size *)
Record filling (available : list Z) (size : Z) (allocated : list Z) (needed : Z) : Prop := {
  fill_nodup : NoDup allocated;
  fill_sub : allocated ⊆ available;
  fill_count : Z.of_nat (length allocated) + needed = size;
}.

Section filling.
Context (available : list Z) (size : Z).
Implicit Types devices allocated : list Z.

Lemma filling_start : filling available size [] size.
Proof. split; [constructor|set_solver|simpl; lia]. Qed.

Lemma filling_done allocated : filling available size allocated 0 -> exact_choice available size allocated.
Proof. intros [? ? ?]. unfold exact_choice. split_and!; [done|done|lia]. Qed.

Lemma allocateRemainingFrom_fills devices allocated needed b allocated' needed' :
  devices ⊆ available -> filling available size allocated needed ->
  allocateRemainingFrom devices allocated needed = (b, allocated', needed') ->
  filling available size allocated' needed' /\ (b = true -> needed' = 0) /\
  (b = false -> 0 < needed -> 0 < needed') /\ (b = false -> devices ⊆ allocated') /\
  allocated ⊆ allocated'.
Proof.
  revert allocated needed. induction devices as [|d devices IH]; intros allocated needed Hsub Hf E; simpl in E.
  { injection E as <- <- <-. split_and!; try done. set_solver. }
  destruct (contains allocated d) eqn:Ec.
  { apply contains_true in Ec. apply IH in E as (?&?&?&?&?); [|set_solver|done].
    split_and!; try done. set_solver. }
  assert (filling available size (allocated ++ [d]) (needed - 1)) as Hf'.
  { destruct Hf as [Hnd Hs Hc]. split; [|set_solver|rewrite length_app; simpl; lia].
    apply NoDup_app. split_and!; [done| |apply NoDup_singleton].
    intros x Hx ->%list_elem_of_singleton. apply contains_true in Hx. congruence. }
  destruct (Z.eqb_spec (needed - 1) 0) as [E0|E0].
  { injection E as <- <- <-. split_and!; try done. set_solver. }
  apply IH in E as (?&?&Hpos&Hin&?); [|set_solver|done].
  split_and!; try done; [intros ? ?; apply Hpos; [done|lia]|set_solver|set_solver].
Qed.

Lemma allocate_from_fills boards allocated needed b allocated' needed' :
  concat boards ⊆ available -> filling available size allocated needed ->
  allocate_from boards allocated needed = (b, allocated', needed') ->
  filling available size allocated' needed' /\ (b = true -> needed' = 0) /\
  (b = false -> 0 < needed -> 0 < needed') /\ (b = false -> concat boards ⊆ allocated') /\
  allocated ⊆ allocated'.
Proof.
  revert allocated needed. induction boards as [|d boards IH]; intros allocated needed Hsub Hf E; simpl in E.
  { injection E as <- <- <-. split_and!; try done. set_solver. }
  simpl in Hsub. apply list_subseteq_app_iff_l in Hsub as [Hd Hsub].
  destruct (allocateRemainingFrom d allocated needed) as [[b1 al1] n1] eqn:E1.
  apply allocateRemainingFrom_fills in E1 as (Hf1&Ht1&Hp1&Hs1&Hm1); [|done|done].
  destruct b1; [by injection E as <- <- <-|].
  apply IH in E as (?&?&Hp&Hs&?); [|done|done].
  split_and!; try done; [by auto| |by etrans].
  intros Hb. simpl. apply list_subseteq_app_iff_l. split; [transitivity al1; auto|by apply Hs].
Qed.

(** When every device that may be used is offered, the fallback succeeds. *)
Lemma filling_complete allocated needed :
  NoDup available -> available ⊆ allocated -> filling available size allocated needed ->
  size <= Z.of_nat (length available) -> needed <= 0.
Proof.
  intros Hnd Hsub [_ _ Hc] Hle.
  assert (length available <= length allocated)%nat; [|lia].
  apply submseteq_length. by apply NoDup_submseteq.
Qed.
End filling.

(** ** Grouping *)
Section grouping.
Context `{GoRuntime} (devs : gmap string cndev.Device).

(** The slot belongs to a card of the node whose [key] is [k]. *)
Definition card_with (key : cndev.Device -> string) (k : string) (x : Z) : Prop :=
  exists uuid dev, devs !! uuid = Some dev /\ key dev = k /\ cndev.Slot dev = x.

Lemma group_fold key available (l : list (string * cndev.Device)) m k x :
  x ∈ default [] (foldl (fun m '(_, dev) =>
      if contains available (cndev.Slot dev)
      then <[key dev := default [] (m !! key dev) ++ [cndev.Slot dev]]> m else m)
    (m : gmap string (list Z)) l !! k)
  <-> x ∈ default [] (m !! k) \/
      exists uuid dev, (uuid, dev) ∈ l /\ key dev = k /\ cndev.Slot dev = x /\ x ∈ available.
Proof.
  revert m. induction l as [|[u d] l IH]; intros m; simpl.
  { split; [by left|]. intros [?|(?&?&?&_)]; [done|set_solver]. }
  rewrite IH. destruct (contains available (cndev.Slot d)) eqn:Ec.
  - apply contains_true in Ec. destruct (decide (key d = k)) as [<-|Hne].
    + rewrite lookup_insert_eq. simpl. rewrite elem_of_app, list_elem_of_singleton. set_solver.
    + rewrite lookup_insert_ne by done. set_solver.
  - assert (cndev.Slot d ∉ available) by (rewrite <- contains_true; congruence).
    set_solver.
Qed.

Lemma split_by_groups key t available g :
  g ∈ split_by devs key t available ->
  exists k, forall x, x ∈ g <-> x ∈ available /\ card_with key k x.
Proof.
  unfold split_by. rewrite sort_perm. intros ([k g'] & -> & Hin)%list_elem_of_fmap.
  apply elem_of_range in Hin. exists k. intros x. simpl.
  pose proof (group_fold key available (range (t, 0%nat) devs) ∅ k x) as Hf.
  rewrite Hin, lookup_empty in Hf. simpl in Hf. rewrite Hf. unfold card_with.
  setoid_rewrite elem_of_range. set_solver.
Qed.

Lemma split_by_group key t available k x :
  x ∈ available -> card_with key k x ->
  exists g, g ∈ split_by devs key t available /\
            forall x, x ∈ g <-> x ∈ available /\ card_with key k x.
Proof.
  intros Hx Hk. unfold split_by.
  set (groups := foldl _ _ _).
  assert (forall x, x ∈ default [] (groups !! k) <-> x ∈ available /\ card_with key k x) as Hg.
  { intros y. unfold groups. rewrite group_fold, lookup_empty. unfold card_with.
    setoid_rewrite elem_of_range. simpl. set_solver. }
  destruct (groups !! k) as [g|] eqn:E.
  - exists g. split; [|done]. rewrite sort_perm. apply list_elem_of_fmap. exists (k, g).
    split; [done|]. by apply elem_of_range.
  - pose proof (proj2 (Hg x) (conj Hx Hk)) as Hn. by apply elem_of_nil in Hn.
Qed.

Lemma split_by_sub key t available : concat (split_by devs key t available) ⊆ available.
Proof.
  intros x (g & Hxg & Hg)%elem_of_concat.
  apply split_by_groups in Hg as [k Hk]. by apply Hk.
Qed.

Lemma split_by_covers key t available :
  (forall x, x ∈ available -> exists k, card_with key k x) ->
  available ⊆ concat (split_by devs key t available).
Proof.
  intros Hall x Hx. destruct (Hall x Hx) as [k Hk].
  destruct (split_by_group key t available k x Hx Hk) as (g & Hg & Hxg).
  apply elem_of_concat. exists g. split; [by apply Hxg|done].
Qed.
End grouping.

(** ** Rings *)
Section rings.
Context `{GoRuntime}.

(** No ring of the list has more non-conflicting rings. *)
Definition best_of (rings : list Ring) (c : Ring) : Prop :=
  c ∈ rings /\ forall r, r ∈ rings -> NonConflictRingNum r <= NonConflictRingNum c.

Lemma sort_rings_sorted rings :
  StronglySorted (fun a b => NonConflictRingNum b <= NonConflictRingNum a) (sort_rings rings).
Proof.
  pose proof (sort_sorted (fun _ => True)
    (fun a b => NonConflictRingNum b <? NonConflictRingNum a) rings) as Hs.
  assert (StronglySorted (fun a b => (NonConflictRingNum a <? NonConflictRingNum b) = false)
    (sort_rings rings)) as Hss.
  { apply Hs; [split; intros *; rewrite ?Z.ltb_lt, ?Z.ltb_ge; lia|by apply Forall_forall]. }
  induction Hss as [|r l _ IH Hr]; constructor; [done|].
  eapply Forall_impl; [exact Hr|]. simpl. intros b E. by apply Z.ltb_ge in E.
Qed.

Lemma sort_rings_top rings top rest :
  sort_rings rings = top :: rest -> best_of rings top.
Proof.
  intros E. pose proof (sort_perm (fun a b => NonConflictRingNum b <? NonConflictRingNum a) rings) as Hp.
  fold (sort_rings rings) in Hp. pose proof (sort_rings_sorted rings) as Hs. rewrite E in Hp, Hs.
  inversion_clear Hs as [|? ? _ Hall]. rewrite Forall_forall in Hall.
  split; [rewrite <- Hp; by left|]. intros r Hr. rewrite <- Hp in Hr.
  apply elem_of_cons in Hr as [->|Hr]; [done|by apply Hall].
Qed.

Lemma best_rings_elem top l r :
  r ∈ best_rings top l -> r ∈ l /\ NonConflictRingNum top <= NonConflictRingNum r.
Proof.
  induction l as [|r0 l IH]; simpl; [set_solver|].
  destruct (Z.ltb_spec (NonConflictRingNum r0) (NonConflictRingNum top)); [set_solver|].
  intros [->|Hr]%elem_of_cons; [split; [by left|done]|]. apply IH in Hr as [? ?].
  split; [by right|done].
Qed.

Lemma best_rings_all top l r :
  StronglySorted (fun a b => NonConflictRingNum b <= NonConflictRingNum a) l ->
  r ∈ l -> NonConflictRingNum top <= NonConflictRingNum r -> r ∈ best_rings top l.
Proof.
  induction 1 as [|r0 l Hs IH Hall]; simpl; [set_solver|]. rewrite Forall_forall in Hall.
  intros Hr Hle. destruct (Z.ltb_spec (NonConflictRingNum r0) (NonConflictRingNum top)).
  - apply elem_of_cons in Hr as [->|Hr]; [lia|]. specialize (Hall r Hr). lia.
  - apply elem_of_cons in Hr as [->|Hr]; [by left|right; auto].
Qed.

Lemma best_rings_best rings top rest c :
  sort_rings rings = top :: rest ->
  c ∈ best_rings top (sort_rings rings) <-> best_of rings c.
Proof.
  intros E. pose proof (sort_rings_top _ _ _ E) as [Htop Hmax].
  pose proof (sort_perm (fun a b => NonConflictRingNum b <? NonConflictRingNum a) rings) as Hp.
  fold (sort_rings rings) in Hp. split.
  - intros [Hc Hle]%best_rings_elem. rewrite Hp in Hc. split; [done|]. intros r Hr.
    specialize (Hmax r Hr). lia.
  - intros [Hc Hbest]. apply best_rings_all; [apply sort_rings_sorted|by rewrite Hp|by apply Hbest].
Qed.

Lemma pick_ring_spec groups candidates r0 :
  r0 ∈ candidates ->
  exists c, c ∈ candidates /\ pick_ring groups candidates = Ret (Ordinals c, None) /\
    ((exists g r, g ∈ groups /\ r ∈ candidates /\ Ordinals r ⊆ g) ->
     exists g, g ∈ groups /\ Ordinals c ⊆ g).
Proof.
  intros Hr0. unfold pick_ring. set (inside := _ ≫= _).
  assert (forall c, c ∈ inside <-> exists g, g ∈ groups /\ c ∈ candidates /\ Ordinals c ⊆ g) as Hin.
  { intros c. unfold inside. rewrite list_elem_of_bind. setoid_rewrite list_elem_of_filter.
    setoid_rewrite containsAll_true. naive_solver. }
  destruct inside as [|c inside].
  - destruct candidates as [|c candidates]; [set_solver|]. exists c. split_and!; [by left|done|].
    intros (g & r & Hg & Hr & Hsub). assert (r ∈ []) as Hn by (apply Hin; eauto).
    by apply elem_of_nil in Hn.
  - destruct (proj1 (Hin c)) as (g & Hg & Hc & Hsub); [by left|]. exists c. split_and!; eauto.
Qed.
End rings.

(** ** The three implementations *)
Section implementations.
Context `{GoRuntime} (GetRings : list Z -> Z -> list Ring + error).
Context (policy : string) (devs : gmap string cndev.Device) (cpu_groups : list (list Z)).
#[local] Abbreviation allocate := (Allocate GetRings policy devs cpu_groups).

(** The sizes for which an implementation does not expect a ring. *)
Definition ringless (k : AllocatorKind) (size : Z) : bool :=
  match k with
  | Spider => spider_sizeAlwaysFailsToFormRing size
  | Board => board_sizeAlwaysFailsToFormRing size
  | Default => default_sizeAlwaysFailsToFormRing size
  end.

Lemma sort_rings_nil rings : sort_rings rings = [] <-> rings = [].
Proof.
  pose proof (sort_perm (fun a b => NonConflictRingNum b <? NonConflictRingNum a) rings) as Hp.
  fold (sort_rings rings) in Hp. split.
  - intros E. rewrite E in Hp. by apply Permutation_nil_l in Hp.
  - intros ->. by apply Permutation_nil_r in Hp.
Qed.

Lemma picks_best groups rings top rest :
  sort_rings rings = top :: rest ->
  exists c, best_of rings c /\
    pick_ring groups (best_rings top (top :: rest)) = Ret (Ordinals c, None) /\
    ((exists g r, g ∈ groups /\ best_of rings r /\ Ordinals r ⊆ g) ->
     exists g, g ∈ groups /\ Ordinals c ⊆ g).
Proof.
  intros E. pose proof (best_rings_best rings top rest) as Hb.
  destruct (pick_ring_spec groups (best_rings top (top :: rest)) top) as (c & Hc & Hp & Hg).
  { rewrite <- E. apply Hb; [done|]. by eapply sort_rings_top. }
  rewrite <- E in Hc, Hg. rewrite Hb in Hc by done. exists c. split_and!; [done|done|].
  intros (g & r & ? & Hr & ?). apply Hg. exists g, r. split_and!; [done| |done]. by apply Hb.
Qed.

(** With a ring: the best one, unless the policy refuses it. *)
Lemma Allocate_ring k available spare required size rings :
  GetRings available size = inl rings -> rings <> [] ->
  (exists c, best_of rings c /\ allocate k available spare required size = Ret (Ordinals c, None)) \/
  (exists err, allocate k available spare required size = Ret ([], Some err) /\
    policy = Restricted /\ (size = 2 \/ size = 4) /\ forall r, r ∈ rings -> NonConflictRingNum r < size).
Proof.
  intros HR Hne. destruct (sort_rings rings) as [|top rest] eqn:E; [by apply (proj1 (sort_rings_nil rings)) in E|].
  pose proof (sort_rings_top _ _ _ E) as [_ Hmax].
  assert (forall n, NonConflictRingNum top < n -> forall r, r ∈ rings -> NonConflictRingNum r < n) as Hlow.
  { intros n Hn r Hr. specialize (Hmax r Hr). lia. }
  destruct k; simpl; unfold spider_Allocate, board_Allocate, default_Allocate; rewrite HR, E.
  - case_goal; [|case_goal]; bool_to_prop; [right; eexists; split_and!; naive_solver..|].
    left. destruct (picks_best (splitByMotherBoards devs available) rings top rest E) as (c & Hc & Hp & _).
    eauto.
  - case_goal; bool_to_prop; [right; eexists; split_and!; naive_solver|].
    left. destruct (picks_best (default [] (filterAvaliableDevsByGroup cpu_groups available)) rings top rest E)
      as (c & Hc & Hp & _). eauto.
  - left. exists top. split; [by eapply sort_rings_top|done].
Qed.

(** Without a ring and under a strict policy: an error, for a size that
    could form a ring. *)
Lemma Allocate_strict k available spare required size :
  GetRings available size = inl [] -> policy <> BestEffort -> ringless k size = false ->
  exists err, allocate k available spare required size = Ret ([], Some err).
Proof.
  intros HR Hp Hs. assert (sort_rings [] = []) as E by by apply sort_rings_nil.
  destruct k; simpl in Hs |- *; unfold spider_Allocate, board_Allocate, default_Allocate;
    rewrite HR, E, Hs, bool_decide_false by done; simpl; eauto.
Qed.

Lemma board_order_sub available groups : concat (board_order groups (splitByBoards devs available)) ⊆ available.
Proof.
  pose proof (split_by_sub devs cndev.SN "splitByBoards" available) as Hs.
  destruct groups as [groups|]; [|done]. intros x (b & Hxb & Hb)%elem_of_concat. apply Hs.
  apply elem_of_concat. exists b. split; [done|].
  unfold board_order in Hb. apply list_elem_of_bind in Hb as (g & Hb & _).
  by apply list_elem_of_filter in Hb as [_ Hb].
Qed.

(** Every available slot is that of a known card. *)
Definition known_slots (available : list Z) : Prop :=
  forall x, x ∈ available -> exists uuid dev, devs !! uuid = Some dev /\ cndev.Slot dev = x.

(** Without a ring otherwise: exactly [size] of the available devices. *)
Lemma Allocate_fallback k available spare required size :
  GetRings available size = inl [] -> NoDup available ->
  0 <= size <= Z.of_nat (length available) ->
  policy = BestEffort \/ ringless k size = true ->
  (exists l, allocate k available spare required size = Ret (l, None) /\ exact_choice available size l) \/
  ((exists err, allocate k available spare required size = Ret ([], Some err)) /\
   (size = 0 \/ ~ known_slots available)).
Proof.
  intros HR Hnd Hsz Hp. assert (sort_rings [] = []) as E by by apply sort_rings_nil.
  assert (forall b, (policy = BestEffort \/ b = true) -> negb (bool_decide (policy = BestEffort)) && negb b = false) as Hpol.
  { intros b [->| ->]; [by rewrite bool_decide_true|by rewrite andb_false_r]. }
  destruct k; simpl in Hp |- *; unfold spider_Allocate, board_Allocate, default_Allocate;
    rewrite HR, E, Hpol by done.
  - destruct (allocate_from _ _ _) as [[b l] n] eqn:Ea.
    apply (allocate_from_fills available size) in Ea as (Hf & Ht & Hpos & Hall & _);
      [|apply split_by_sub|apply filling_start].
    destruct b.
    + left. exists l. rewrite (Ht eq_refl) in Hf. split; [done|by apply filling_done].
    + right. split; [eauto|]. destruct (decide (size = 0)); [by left|right]. intros Hk.
      enough (n <= 0) by (specialize (Hpos eq_refl); lia).
      apply (filling_complete available size l); [done| |done|lia].
      etransitivity; [|by apply Hall]. apply split_by_covers. intros x Hx.
      destruct (Hk x Hx) as (u & d & ? & ?). exists (cndev.MotherBoard d), u, d. done.
  - destruct (allocate_from _ _ _) as [[b l] n] eqn:Ea.
    apply (allocate_from_fills available size) in Ea as (Hf & Ht & Hpos & Hall & _);
      [|apply board_order_sub|apply filling_start].
    destruct b.
    { left. exists l. rewrite (Ht eq_refl) in Hf. split; [done|by apply filling_done]. }
    destruct (allocateRemainingFrom _ _ _) as [[b2 l2] n2] eqn:Ea2.
    apply (allocateRemainingFrom_fills available size) in Ea2 as (Hf2 & Ht2 & Hpos2 & Hall2 & _); [|done|done].
    destruct b2.
    + left. exists l2. rewrite (Ht2 eq_refl) in Hf2. split; [done|by apply filling_done].
    + right. split; [eauto|]. left. destruct (decide (size = 0)); [done|].
      assert (n2 <= 0); [|specialize (Hpos eq_refl); specialize (Hpos2 eq_refl); lia].
      apply (filling_complete available size l2); [done|by apply Hall2|done|lia].
  - left. unfold reslice.
    assert ((size <? 0) || (Z.of_nat (length available + length spare) <? size) = false) as ->.
    { apply orb_false_iff. split; apply Z.ltb_ge; lia. }
    exists (take (Z.to_nat size) available). rewrite take_app_le by lia. split; [done|].
    split_and!; [eapply sublist_NoDup; [done|apply sublist_take]|apply subseteq_take|rewrite length_take_le; lia].
Qed.
End implementations.

(** The policies and sizes with a fallback, decidably. *)
Lemma Allocate_cases `{GoRuntime} GetRings policy devs groups k available spare required size :
  rings_ok GetRings -> NoDup available -> 0 <= size <= Z.of_nat (length available) ->
  exists r, Allocate GetRings policy devs groups k available spare required size = Ret r /\
    (r.2 = None -> exact_choice available size r.1).
Proof.
  intros Hok Hnd Hsz. destruct (GetRings available size) as [[|r0 rings]|err] eqn:HR.
  - destruct (decide (policy = BestEffort \/ ringless k size = true)) as [Hp|Hp].
    + destruct (Allocate_fallback GetRings policy devs groups k available spare required size HR Hnd Hsz Hp)
        as [(l & -> & Hl)|[(e & ->) _]]; eexists; split; simpl; [done|done|done|done].
    + destruct (Allocate_strict GetRings policy devs groups k available spare required size HR) as [e ->].
      { naive_solver. } { destruct (ringless k size); naive_solver. }
      eexists. split; [done|]. simpl. done.
  - destruct (Allocate_ring GetRings policy devs groups k available spare required size _ HR)
      as [(c & [Hc _] & ->)|(e & -> & _)]; [done| |]; eexists; (split; [done|]); simpl; [|done].
    intros _. pose proof (Hok _ _ _ Hnd HR) as Hall. rewrite Forall_forall in Hall. by apply Hall.
  - exists ([], Some err). split; [|done].
    destruct k; simpl; unfold spider_Allocate, board_Allocate, default_Allocate; by rewrite HR.
Qed.

(** A negative size never gives devices. *)
Lemma Allocate_negative `{GoRuntime} GetRings policy devs groups k available spare required size l :
  rings_ok GetRings -> NoDup available -> size < 0 ->
  Allocate GetRings policy devs groups k available spare required size = Ret (l, None) -> False.
Proof.
  intros Hok Hnd Hneg E. destruct (GetRings available size) as [[|r0 rings]|err] eqn:HR.
  - assert (sort_rings [] = []) as Es by by apply sort_rings_nil.
    assert (forall boards, concat boards ⊆ available -> forall l n,
      allocate_from boards [] size = (true, l, n) -> False) as Hfrom.
    { intros boards Hb l' n Ea.
      apply (allocate_from_fills available size) in Ea as ([_ _ Hc] & Ht & _); [|done|apply filling_start].
      rewrite (Ht eq_refl) in Hc. lia. }
    destruct k; simpl in E; unfold spider_Allocate, board_Allocate, default_Allocate in E; rewrite HR, Es in E.
    + case_hyp E; [done|]. destruct (allocate_from _ _ _) as [[[] l'] n] eqn:Ea; [|done].
      eapply Hfrom; [|exact Ea]. apply split_by_sub.
    + case_hyp E; [done|]. destruct (allocate_from _ _ _) as [[[] l'] n] eqn:Ea.
      { eapply Hfrom; [|exact Ea]. apply board_order_sub. }
      apply (allocate_from_fills available size) in Ea as (Hf & _);
        [|apply board_order_sub|apply filling_start].
      destruct (allocateRemainingFrom _ _ _) as [[[] l2] n2] eqn:Ea2; [|done].
      apply (allocateRemainingFrom_fills available size) in Ea2 as ([_ _ Hc] & Ht & _); [|done|done].
      rewrite (Ht eq_refl) in Hc. lia.
    + case_hyp E; [done|]. unfold reslice in E.
      assert ((size <? 0) = true) as Hlt by by apply Z.ltb_lt. by rewrite Hlt in E.
  - pose proof (Hok _ _ _ Hnd HR) as Hall. apply Forall_cons in Hall as [(_ & _ & Hlen) _]. lia.
  - destruct k; simpl in E; unfold spider_Allocate, board_Allocate, default_Allocate in E; by rewrite HR in E.
Qed.

#[export] Instance Allocate_contract `{GoRuntime} GetRings policy devs groups k :
  rings_ok GetRings -> AllocatorContract (Allocate GetRings policy devs groups k).
Proof.
  intros Hok. split.
  - intros available spare required size Hnd Hsz.
    destruct (Allocate_cases GetRings policy devs groups k available spare required size Hok Hnd Hsz)
      as (r & -> & _). by exists r.
  - intros available spare required size l Hnd Hle E. destruct (decide (size < 0)) as [Hneg|Hneg].
    { by destruct (Allocate_negative _ _ _ _ _ _ _ _ _ _ Hok Hnd Hneg E). }
    destruct (Allocate_cases GetRings policy devs groups k available spare required size Hok Hnd ltac:(lia))
      as (r & Er & Hr). rewrite E in Er. injection Er as <-. by apply Hr.
Qed.

(** ** Examples: four cards on two mother boards *)
Definition mlu_card (slot : Z) (board : string) : cndev.Device :=
  cndev.mkDevice slot ("MLU-" +:+ itoa slot) ("SN-" +:+ board) ("/dev/cambricon_dev" +:+ itoa slot) board None.

Definition four_cards : gmap string cndev.Device :=
  {["MLU-0" := mlu_card 0 "a"; "MLU-1" := mlu_card 1 "a";
    "MLU-2" := mlu_card 2 "b"; "MLU-3" := mlu_card 3 "b"]}.

(** Rings of two cards: 0-1 and 2-3 with two non-conflicting rings, 1-2 with
    as many, 0-3 with one. *)
Definition card_rings (available : list Z) (size : Z) : list Ring + error :=
  inl (if size =? 2
       then filter (fun r => containsAll available (Ordinals r) = true)
              [mkRing [0; 3] 1; mkRing [1; 2] 2; mkRing [2; 3] 2; mkRing [0; 1] 2]
       else []).

Lemma card_rings_ok : rings_ok card_rings.
Proof.
  intros available size rings _ E. unfold card_rings in E. injection E as <-.
  destruct (Z.eqb_spec size 2) as [->|]; [|constructor].
  apply Forall_forall. intros r [Hsub Hr]%list_elem_of_filter. apply containsAll_true in Hsub.
  unfold ring_within. split_and!; [|done|]; revert Hr; rewrite !elem_of_cons, elem_of_nil;
    intros [->|[->|[->|[->|[]]]]]; simpl; try done; apply (bool_decide_unpack _); vm_compute; exact I.
Qed.

Module MLUAllocProps.

(** C29. What an MLU allocator ([New] picks one by the card model) returns, for
    distinct available devices and a size they can serve.  When the topology
    tool fails, its error.  When it answers with rings, the devices of one of
    its rings with the most non-conflicting rings, as the tool gave it (the
    plugin does not check it), or an error when the policy is "restricted", the
    size is 2 or 4 and every ring has too few.  When it answers with no ring:
    under a policy other than best-effort, an error, unless the size is one for
    which the board expects no ring; otherwise exactly [size] distinct devices,
    all of them available, or an error when the size is 0 or some available
    slot is that of no known card.  It never panics. *)
Theorem allocation_exact `{GoRuntime} GetRings policy devs groups model available spare required size :
  NoDup available -> 0 <= size <= Z.of_nat (length available) ->
  let alloc := Allocate GetRings policy devs groups (New_kind model) available spare required size in
  match GetRings available size with
  | inr err => alloc = Ret ([], Some err)
  | inl [] =>
      if decide (policy = BestEffort \/ ringless (New_kind model) size = true) then
        (exists l, alloc = Ret (l, None) /\ NoDup l /\ l ⊆ available /\ Z.of_nat (length l) = size) \/
        ((exists err, alloc = Ret ([], Some err)) /\ (size = 0 \/ ~ known_slots devs available))
      else exists err, alloc = Ret ([], Some err)
  | inl rings =>
      (exists c, best_of rings c /\ alloc = Ret (Ordinals c, None)) \/
      (exists err, alloc = Ret ([], Some err) /\ policy = Restricted /\ (size = 2 \/ size = 4) /\
        forall r, r ∈ rings -> NonConflictRingNum r < size)
  end.
Proof.
  intros Hnd Hsz alloc. unfold alloc. destruct (GetRings available size) as [[|r0 rings]|err] eqn:HR.
  - case_decide as Hp.
    + by apply Allocate_fallback.
    + apply Allocate_strict; [done|naive_solver|]. destruct (ringless (New_kind model) size); naive_solver.
  - by apply Allocate_ring.
  - destruct (New_kind model); simpl; unfold spider_Allocate, board_Allocate, default_Allocate; by rewrite HR.
Qed.

Lemma allocation_exact_witness :
  (exists l, @Allocate go_reference card_rings BestEffort four_cards [] (New_kind "MLU290") [0; 1; 2; 3] [] [] 3 = Ret (l, None)
     /\ NoDup l /\ l ⊆ [0; 1; 2; 3] /\ Z.of_nat (length l) = 3)
  \/ ((exists err, @Allocate go_reference card_rings BestEffort four_cards [] (New_kind "MLU290") [0; 1; 2; 3] [] [] 3
        = Ret ([], Some err)) /\ (3 = 0 \/ ~ known_slots four_cards [0; 1; 2; 3])).
Proof.
  assert (0 <= 3 <= Z.of_nat (length [0; 1; 2; 3])) as Hsz by (simpl; lia).
  pose proof (@allocation_exact go_reference card_rings BestEffort four_cards [] "MLU290" [0; 1; 2; 3] [] [] 3
    ltac:(apply (bool_decide_unpack _); vm_compute; exact I) Hsz) as Ha.
  cbv zeta in Ha. change (card_rings [0; 1; 2; 3] 3) with (inl [] : list Ring + error) in Ha.
  rewrite decide_True in Ha by by left. exact Ha.
Defined.

(** C30. Under the best-effort policy an allocation that fits never fails: when
    the topology tool answers and every available slot is a card of the node,
    each of the three allocators finds the devices (the two errors "should not
    be here" are unreachable). *)
Theorem best_effort_allocates `{GoRuntime} GetRings devs groups k available spare required size rings :
  GetRings available size = inl rings -> NoDup available ->
  (forall x, x ∈ available -> exists uuid dev, devs !! uuid = Some dev /\ cndev.Slot dev = x) ->
  0 < size <= Z.of_nat (length available) ->
  exists l, Allocate GetRings BestEffort devs groups k available spare required size = Ret (l, None).
Proof.
  intros HR Hnd Hk Hsz. destruct (decide (rings = [])) as [->|Hne].
  - destruct (Allocate_fallback GetRings BestEffort devs groups k available spare required size HR Hnd)
      as [(l & -> & _)|[_ [->|Hno]]]; [lia|by left|eauto|lia|]. by destruct Hno.
  - destruct (Allocate_ring GetRings BestEffort devs groups k available spare required size _ HR Hne)
      as [(c & _ & ->)|(e & _ & Hp & _)]; [eauto|done].
Qed.

Lemma best_effort_allocates_witness :
  exists l, @Allocate go_reference card_rings BestEffort four_cards [] Board [3; 1; 0] [] [] 3 = Ret (l, None).
Proof.
  apply (@best_effort_allocates go_reference card_rings four_cards [] Board [3; 1; 0] [] [] 3 []).
  - reflexivity.
  - apply (bool_decide_unpack _). vm_compute. exact I.
  - intros x. rewrite !elem_of_cons, elem_of_nil. intros [->|[->|[->|[]]]].
    + exists "MLU-3", (mlu_card 3 "b"). by split.
    + exists "MLU-1", (mlu_card 1 "a"). by split.
    + exists "MLU-0", (mlu_card 0 "a"). by split.
  - simpl. lia.
Defined.

(** A successful allocation follows the topology: when the tool found rings
    the devices are one of the rings with the most non-conflicting rings, and
    under a policy other than best-effort the tool did find one, unless the
    size is one for which no ring is expected. *)
Theorem allocation_follows_rings `{GoRuntime} GetRings policy devs groups k available spare required size rings l :
  GetRings available size = inl rings ->
  Allocate GetRings policy devs groups k available spare required size = Ret (l, None) ->
  (rings <> [] -> exists c, c ∈ rings /\ l = Ordinals c /\
     forall r, r ∈ rings -> NonConflictRingNum r <= NonConflictRingNum c) /\
  (policy <> BestEffort -> ringless k size = false -> rings <> []).
Proof.
  intros HR E. split.
  - intros Hne.
    destruct (Allocate_ring GetRings policy devs groups k available spare required size _ HR Hne)
      as [(c & [Hc Hb] & E')|(e & E' & _)]; rewrite E in E'; [|done].
    injection E' as ->. eauto.
  - intros Hp Hs ->.
    destruct (Allocate_strict GetRings policy devs groups k available spare required size HR Hp Hs) as [e E'].
    congruence.
Qed.

Lemma allocation_follows_rings_witness :
  ([mkRing [0; 3] 1; mkRing [1; 2] 2; mkRing [2; 3] 2; mkRing [0; 1] 2] <> [] ->
   exists c, c ∈ [mkRing [0; 3] 1; mkRing [1; 2] 2; mkRing [2; 3] 2; mkRing [0; 1] 2] /\ [0; 1] = Ordinals c /\
     forall r, r ∈ [mkRing [0; 3] 1; mkRing [1; 2] 2; mkRing [2; 3] 2; mkRing [0; 1] 2] ->
       NonConflictRingNum r <= NonConflictRingNum c) /\
  (Restricted <> BestEffort -> ringless Spider 2 = false ->
   [mkRing [0; 3] 1; mkRing [1; 2] 2; mkRing [2; 3] 2; mkRing [0; 1] 2] <> []).
Proof.
  apply (@allocation_follows_rings go_reference card_rings Restricted four_cards [] Spider [0; 1; 2; 3] [] [] 2).
  - vm_compute. reflexivity.
  - vm_compute. reflexivity.
Defined.

(** The spider allocator keeps a ring on one mother board when it can: if
    some ring with the most non-conflicting rings uses cards of a single mother
    board, the devices it returns are cards of a single mother board. *)
Theorem spider_keeps_mother_board `{GoRuntime} GetRings policy devs available spare required size rings r board l :
  rings_ok GetRings -> NoDup available -> 0 < size ->
  GetRings available size = inl rings ->
  best_of rings r -> (forall x, x ∈ Ordinals r -> card_with devs cndev.MotherBoard board x) ->
  spider_Allocate GetRings policy devs available spare required size = Ret (l, None) ->
  exists board', forall x, x ∈ l -> card_with devs cndev.MotherBoard board' x.
Proof.
  intros Hok Hnd Hsz HR Hr Hb E. pose proof (Hok _ _ _ Hnd HR) as Hall. rewrite Forall_forall in Hall.
  destruct (Hall r (proj1 Hr)) as (_ & Hsub & Hlen).
  destruct (Ordinals r) as [|x0 ords] eqn:Eo; [simpl in Hlen; lia|]. rewrite <- Eo in *.
  assert (x0 ∈ Ordinals r) as Hx0 by (rewrite Eo; by left).
  destruct (split_by_group devs cndev.MotherBoard "splitByMotherBoards" available board x0)
    as (g & Hg & Hgx); [by apply Hsub|by apply Hb|].
  unfold spider_Allocate in E. rewrite HR in E.
  destruct (sort_rings rings) as [|top rest] eqn:Es.
  { apply (proj1 (sort_rings_nil rings)) in Es as ->. destruct Hr as [Hr _]. by apply elem_of_nil in Hr. }
  case_hyp E; [done|]. case_hyp E; [done|].
  destruct (picks_best (splitByMotherBoards devs available) rings top rest Es) as (c & _ & Hp & Hin).
  rewrite Hp in E. injection E as <-. destruct Hin as (g' & Hg' & Hc).
  { exists g, r. split_and!; [done|done|]. intros x Hx. apply Hgx. auto. }
  apply split_by_groups in Hg' as [k Hk]. exists k. intros x Hx. apply Hc in Hx. by apply Hk in Hx as [_ Hx].
Qed.

Lemma spider_keeps_mother_board_witness :
  exists board', forall x, x ∈ [0; 1] -> card_with four_cards cndev.MotherBoard board' x.
Proof.
  apply (@spider_keeps_mother_board go_reference card_rings Restricted four_cards [0; 1; 2; 3] [] [] 2
    [mkRing [0; 3] 1; mkRing [1; 2] 2; mkRing [2; 3] 2; mkRing [0; 1] 2] (mkRing [2; 3] 2) "b").
  - exact card_rings_ok.
  - apply (bool_decide_unpack _). vm_compute. exact I.
  - lia.
  - vm_compute. reflexivity.
  - split; [by do 2 right; left|].
    intros r. rewrite !elem_of_cons, elem_of_nil. intros [->|[->|[->|[->|[]]]]]; simpl; lia.
  - intros x. simpl. rewrite !elem_of_cons, elem_of_nil. intros [->|[->|[]]].
    + exists "MLU-2", (mlu_card 2 "b"). by split.
    + exists "MLU-3", (mlu_card 3 "b"). by split.
  - vm_compute. reflexivity.
Defined.
End MLUAllocProps.
