(* ===== verification/MLU.v ===== *)
(** * The MLU device plugin ([pkg/device-plugin/mlu])

    The device list and its virtual devices ([cambricon.go]), the health
    check, the answers to the kubelet ([server.go]): preferred allocation
    through an [Allocator], allocation from the pod's annotations; the node
    annotations the plugin maintains ([server.go], [podutils.go]), the pods
    it looks for, and the registration with the scheduler ([register.go],
    [cache.go]).  The server, its restarts and the notifications are in
    [MLUServer]. *)

From Stdlib Require Import ZArith Lia Ascii String Sorted.
From stdpp Require Import base decidable option gmap strings numbers sorting list.
From S2P Require Import Prelude GoStrings GoTime GoRuntime Types Kube NodeLock Codec Devices Score Scheduler PodAlloc Cndev MLUAlloc.

#[local] Open Scope Z_scope.

(** ** const.go *)
Definition mluLinkPolicyUnsatisfied : string := "mluLinkPolicyUnsatisfied".
Definition retries : nat := 5.
Definition sriov : string := "sriov".
Definition envShare : string := "env-share".
Definition topologyAware : string := "topology-aware".
Definition mluShare : string := "mlu-share".
Definition mluMonitorDeviceName : string := "/dev/cambricon_ctl".
Definition mluDeviceName : string := "/dev/cambricon_dev".
Definition mluMsgqDeviceName : string := "/dev/cambr-msgq".
Definition mluRPCDeviceName : string := "/dev/cambr-rpc".
Definition mluCmsgDeviceName : string := "/dev/cmsg_ctrl".
Definition mluIpcmDeviceName : string := "/dev/cambricon_ipcm".
Definition mluCommuDeviceName : string := "/dev/commu".
Definition mluUARTConsoleDeviceName : string := "/dev/ttyMS".
Definition mluRPMsgDir : string := "/dev/cambricon/".
Definition mluSplitDeviceName : string := "/dev/cambricon-split".
Definition mluMemResourceName : string := "cambricon.com/mlumem".
Definition mluResourceCount : string := "cambricon.com/mlunum".
Definition mluMemResourceAssumeTime : string := "CAMBRICON_MEM_ASSUME_TIME".
Definition mluMemResourceAssigned : string := "CAMBRICON_MEM_ASSIGHED".
Definition mluMemSplitLimit : string := "CAMBRICON_SPLIT_MEMS".
Definition mluMemSplitIndex : string := "CAMBRICON_SPLIT_VISIBLE_DEVICES".
Definition mluMemSplitEnable : string := "CAMBRICON_SPLIT_ENABLE".
Definition mluMemLock : string := "cambricon.com/mlu-mem.lock".

(** ** State *)
Record Options := mkOptions {
  o_Mode : string;
  o_MLULinkPolicy : string;
  o_VirtualizationNum : Z;
  o_NodeName : string;
  o_EnableConsole : bool;
  o_CnmonPath : string;
  o_DisableHealthCheck : bool;
  o_EnableDeviceType : bool;
  o_SocketPath : string;
}.

Record deviceList := mkDeviceList {
  hasCtrlDev : bool;
  hasMsgqDev : bool;
  hasRPCDev : bool;
  hasCmsgDev : bool;
  hasIpcmDev : bool;
  hasCommuDev : bool;
  hasUARTConsoleDev : bool;
  hasSplitDev : bool;
}.

Record CambriconDevicePlugin := mkMLUPlugin {
  m_devs : list pluginapi.Device;
  m_devsInfo : gmap string cndev.Device;
  m_deviceList : deviceList;
  m_nodeHostname : string;
  m_options : Options;
}.

(** [filepath.Glob] is the parameter of [newDeviceList]. *)
Definition hostDeviceExistsWithPrefix (Glob : string -> list string + error) (prefix : string) : bool :=
  match Glob (prefix +:+ "*")%string with
  | inr _ => false
  | inl matches => (0 <? length matches)%nat
  end.

Definition newDeviceList (Glob : string -> list string + error) : deviceList :=
  let has := hostDeviceExistsWithPrefix Glob in {|
    hasCtrlDev := has mluMonitorDeviceName;
    hasMsgqDev := has mluMsgqDeviceName;
    hasRPCDev := has mluRPCDeviceName;
    hasCmsgDev := has mluCmsgDeviceName;
    hasCommuDev := has mluCommuDeviceName;
    hasIpcmDev := has mluIpcmDeviceName;
    hasUARTConsoleDev := has mluUARTConsoleDeviceName;
    hasSplitDev := has mluSplitDeviceName;
  |}.

(** ** cambricon.go: the devices offered to the kubelet *)
Definition fake_uuid (origin : cndev.Device) (sriovEnabled : bool) (i : nat) : string :=
  if sriovEnabled then cndev.UUID origin +:+ "--fake--" +:+ itoa (Z.of_nat i + 1)
  else cndev.UUID origin +:+ "-_-" +:+ itoa (Z.of_nat i + 1).

Definition fake_path (origin : cndev.Device) (sriovEnabled : bool) (i : nat) : string :=
  if sriovEnabled then cndev.Path origin +:+ "vf" +:+ itoa (Z.of_nat i + 1) else cndev.Path origin.

Definition generateFakeDevs (origin : cndev.Device) (num : Z) (sriovEnabled : bool)
    : list pluginapi.Device * gmap string cndev.Device :=
  foldl (fun '(devs, devsInfo) i =>
      let uuid := fake_uuid origin sriovEnabled i in
      (devs ++ [pluginapi.mkDevice uuid pluginapi.Healthy],
       <[uuid := cndev.mkDevice (cndev.Slot origin) uuid "" (fake_path origin sriovEnabled i) "" None]> devsInfo))
    ([], ∅) (seq 0 (Z.to_nat num)).

(** [check]: [log.Panicln]. *)
Definition log_panic {F A} : K F A := fun _ => Panic Fatal.
Definition check {F A} (r : A + error) : K F A :=
  match r with inl a => mret a | inr _ => log_panic end.

Section devices.
Context {F : Type} `{!Sysfs F}.
Context (getDeviceInfo : Z -> card_info + error) (getDevicePCIeInfo : Z -> pcie + error).
Context (GetDeviceMemory : Z -> Z + error).

(** One card: the branch of the mode. *)
Definition card_devices (mode : string) (fakeNum i : Z) : K F (list pluginapi.Device * gmap string cndev.Device) :=
  d ← check (NewDeviceLite getDeviceInfo getDevicePCIeInfo i (bool_decide (mode = sriov)));
  if decide (mode = envShare) then
    if fakeNum <? 1 then log_panic
    else mret ((generateFakeDevs d fakeNum false).1, <[cndev.UUID d := d]> (generateFakeDevs d fakeNum false).2)
  else if decide (mode = sriov) then
    (err ← EnableSriov d fakeNum;
     match err with
     | Some _ => log_panic
     | None => mret (generateFakeDevs d fakeNum true)
     end)
  else if decide (mode = mluShare) then
    (mem ← check (GetDeviceMemory i);
     mret (generateFakeDevs d (mem / 1024) false))
  else mret ([pluginapi.mkDevice (cndev.UUID d) pluginapi.Healthy], {[cndev.UUID d := d]}).

Fixpoint get_devices_loop (mode : string) (fakeNum : Z) (i : Z) (n : nat)
    (devs : list pluginapi.Device) (devsInfo : gmap string cndev.Device)
    : K F (list pluginapi.Device * gmap string cndev.Device) :=
  match n with
  | O => mret (devs, devsInfo)
  | S n' =>
      '(devices, infos) ← card_devices mode fakeNum i;
      get_devices_loop mode fakeNum (i + 1) n' (devs ++ devices) (infos ∪ devsInfo)
  end.

Definition getDevices (count : Z + error) (mode : string) (fakeNum : Z)
    : K F (list pluginapi.Device * gmap string cndev.Device) :=
  num ← check count;
  get_devices_loop mode fakeNum 0 (Z.to_nat num) [] ∅.

Definition NewCambriconDevicePlugin (count : Z + error) (Glob : string -> list string + error) (o : Options)
    : K F CambriconDevicePlugin :=
  '(devs, devsInfo) ← getDevices count (o_Mode o) (o_VirtualizationNum o);
  mret (mkMLUPlugin devs devsInfo (newDeviceList Glob) (o_NodeName o) o).
End devices.

Definition deviceExists (devs : list pluginapi.Device) (id : string) : bool :=
  existsb (fun d => bool_decide (pluginapi.ID d = id)) devs.

(** ** The health check: one card, one round *)
Definition health_card (state : Z + error) (uuid : string) (unhealthy : gset string)
    : gset string * list pluginapi.Device :=
  let ret := match state with inl ret => ret | inr _ => 0 end in
  if (ret =? 0) && negb (bool_decide (uuid ∈ unhealthy))
  then ({[uuid]} ∪ unhealthy, [pluginapi.mkDevice uuid pluginapi.Unhealthy])
  else if bool_decide (uuid ∈ unhealthy)
  then (unhealthy ∖ {[uuid]}, [pluginapi.mkDevice uuid pluginapi.Healthy])
  else (unhealthy, []).

Fixpoint health_round (GetHealth : Z -> Z + error) (cards : list cndev.Device) (unhealthy : gset string)
    : gset string * list pluginapi.Device :=
  match cards with
  | [] => (unhealthy, [])
  | dm :: cards' =>
      let '(unhealthy, msgs) := health_card (GetHealth (cndev.Slot dm)) (cndev.UUID dm) unhealthy in
      let '(unhealthy, msgs') := health_round GetHealth cards' unhealthy in
      (unhealthy, msgs ++ msgs')
  end.

(** [WatchUnhealthy] ranges over the cached cards, [watchUnhealthy] over the
    map of the plugin; round [n] of either. *)
Definition WatchUnhealthy_round (GetHealth : Z -> Z + error) (devsInfo : list cndev.Device) (unhealthy : gset string)
    : gset string * list pluginapi.Device :=
  health_round GetHealth devsInfo unhealthy.

Definition watchUnhealthy_round `{GoRuntime} (n : nat) (GetHealth : Z -> Z + error)
    (devsInfo : gmap string cndev.Device) (unhealthy : gset string) : gset string * list pluginapi.Device :=
  health_round GetHealth ((range ("watchUnhealthy"%string, n) devsInfo).*2) unhealthy.

(** [ListAndWatch]: a message sets the health of the first device of that ID. *)
Fixpoint set_health (d : pluginapi.Device) (devs : list pluginapi.Device) : list pluginapi.Device :=
  match devs with
  | [] => []
  | dev :: devs' =>
      if decide (pluginapi.ID dev = pluginapi.ID d)
      then pluginapi.mkDevice (pluginapi.ID dev) (pluginapi.Health d) :: devs'
      else dev :: set_health d devs'
  end.

Definition ListAndWatch_health (m : CambriconDevicePlugin) (d : pluginapi.Device) : CambriconDevicePlugin :=
  mkMLUPlugin (set_health d (m_devs m)) (m_devsInfo m) (m_deviceList m) (m_nodeHostname m) (m_options m).

(** ** server.go: what a container gets *)
Definition addDevice (car : ContainerAllocateResponse) (hostPath containerPath : string) : ContainerAllocateResponse :=
  mkCar (car_Envs car) (car_Mounts car) (car_Devices car ++ [mkDeviceSpec hostPath containerPath "rw"]).

Definition addMount (car : ContainerAllocateResponse) (mt : Mount) : ContainerAllocateResponse :=
  mkCar (car_Envs car) (car_Mounts car ++ [mt]) (car_Devices car).

Definition addDevice_if (b : bool) (car : ContainerAllocateResponse) (hostPath containerPath : string)
    : ContainerAllocateResponse :=
  if b then addDevice car hostPath containerPath else car.

(** [m.devsInfo[uuid].Path]: a missing card is a nil pointer. *)
Definition uuid_path (m : CambriconDevicePlugin) (uuid : string) : outcome string :=
  match m_devsInfo m !! uuid with Some dev => Ret (cndev.Path dev) | None => Panic NilDereference end.

Fixpoint uuidToPath (m : CambriconDevicePlugin) (uuids : list string) : outcome (list string) :=
  match uuids with
  | [] => Ret []
  | uuid :: uuids' => p ← uuid_path m uuid; ps ← uuidToPath m uuids'; Ret (p :: ps)
  end.

(** The devices of the [id]-th path. *)
Definition prepare_device (m : CambriconDevicePlugin) (id : nat) (devpath : string) (resp : ContainerAllocateResponse)
    : outcome ContainerAllocateResponse :=
  let dl := m_deviceList m in
  let nid := itoa (Z.of_nat id) in
  if decide (o_Mode (m_options m) = sriov) then
    vfid ← slice_get (split_on mluDeviceName 0 devpath) 1;
    let resp := addDevice_if (hasCommuDev dl) resp (mluCommuDeviceName +:+ vfid) (mluCommuDeviceName +:+ nid) in
    Ret (addDevice resp devpath (mluDeviceName +:+ nid))
  else
    match sscanf_int mluDeviceName devpath with
    | None => Ret resp
    | Some index =>
        let idx := itoa index in
        let resp := addDevice_if (hasMsgqDev dl) resp
          (mluMsgqDeviceName +:+ ":" +:+ idx) (mluMsgqDeviceName +:+ ":" +:+ nid) in
        let resp := addDevice_if (hasRPCDev dl) resp
          (mluRPCDeviceName +:+ ":" +:+ idx) (mluRPCDeviceName +:+ ":" +:+ nid) in
        let resp := addDevice_if (hasCmsgDev dl) resp (mluCmsgDeviceName +:+ idx) (mluCmsgDeviceName +:+ nid) in
        let resp := addDevice_if (hasCommuDev dl) resp (mluCommuDeviceName +:+ idx) (mluCommuDeviceName +:+ nid) in
        let resp := addDevice_if (hasIpcmDev dl) resp (mluIpcmDeviceName +:+ idx) (mluIpcmDeviceName +:+ nid) in
        let resp := addDevice_if (hasUARTConsoleDev dl && o_EnableConsole (m_options m)) resp
          (mluUARTConsoleDeviceName +:+ idx) (mluUARTConsoleDeviceName +:+ nid) in
        Ret (addDevice resp devpath (mluDeviceName +:+ nid))
    end.

Fixpoint prepare_loop (m : CambriconDevicePlugin) (id : nat) (devpaths : list string)
    (resp : ContainerAllocateResponse) : outcome ContainerAllocateResponse :=
  match devpaths with
  | [] => Ret resp
  | devpath :: devpaths' => resp ← prepare_device m id devpath resp; prepare_loop m (S id) devpaths' resp
  end.

Definition PrepareResponse (m : CambriconDevicePlugin) (uuids : list string) : outcome ContainerAllocateResponse :=
  let cnmon := o_CnmonPath (m_options m) in
  let resp := mkCar ∅ [mkMount mluRPMsgDir mluRPMsgDir false] [] in
  let resp := if decide (cnmon = "") then resp else addMount resp (mkMount cnmon cnmon true) in
  let resp := addDevice_if (hasSplitDev (m_deviceList m)) resp mluSplitDeviceName mluSplitDeviceName in
  devpaths ← uuidToPath m uuids;
  let resp := addDevice_if (hasCtrlDev (m_deviceList m)) resp mluMonitorDeviceName mluMonitorDeviceName in
  prepare_loop m 0 devpaths resp.

Definition GetDeviceIndexByUUID (m : CambriconDevicePlugin) (uuid : string) : Z * bool :=
  match m_devsInfo m !! uuid with Some info => (cndev.Slot info, true) | None => (0, false) end.

(** The first card of the slot the [range] meets. *)
Definition GetDeviceUUIDByIndex `{GoRuntime} (m : CambriconDevicePlugin) (index : Z) : string * bool :=
  match list_find (fun x => cndev.Slot x.2 = index) (range ("GetDeviceUUIDByIndex"%string, 0%nat) (m_devsInfo m)) with
  | Some (_, (uuid, _)) => (uuid, true)
  | None => (""%string, false)
  end.

(** The slots of the devices a request names, separated by commas; [inr] is
    the UUID that is not found. *)
Fixpoint split_index (m : CambriconDevicePlugin) (i : nat) (devreq : ContainerDevices) (idxval : string)
    : string + string :=
  match devreq with
  | [] => inl idxval
  | v :: devreq' =>
      let '(devidx, found) := GetDeviceIndexByUUID m (cd_UUID v) in
      if negb found then inr (cd_UUID v)
      else split_index m (S i) devreq'
             (if (i =? 0)%nat then itoa devidx else (idxval +:+ "," +:+ itoa devidx)%string)
  end.

Definition mlu_number_error : error := "device number not matched".
Definition uuid_not_found (uuid : string) : error := "device uuid" +:+ uuid +:+ "not found".

Section mlu_share.
Context `{GoRuntime} {W : Type} `{!KubeClient W}.
Context (m : CambriconDevicePlugin) (HOOK_PATH : string).

(** The response for one container whose devices were read and erased. *)
Definition share_response (devreq : ContainerDevices) : outcome (ContainerAllocateResponse + string) :=
  first ← slice_get devreq 0;
  let reqMem := Z.quot (cd_Usedmem first) 1024 in
  resp ← PrepareResponse m (cd_UUID <$> devreq);
  match split_index m 0 devreq "" with
  | inr uuid => Ret (inr uuid)
  | inl idxval =>
      let resp := mkCar {[mluMemSplitEnable := "1"%string; mluMemSplitIndex := idxval;
                          mluMemSplitLimit := itoa reqMem]} (car_Mounts resp) (car_Devices resp) in
      Ret (inl (if 0 <? reqMem
                then addMount resp (mkMount "/usr/bin/smlu-containerd" (HOOK_PATH +:+ "/smlu-containerd") true)
                else resp))
  end.

(** [reqs] are the numbers of device IDs per container. *)
Fixpoint share_loop (nodename : string) (current : Pod) (reqs : list nat) (responses : list ContainerAllocateResponse)
    : K W (list ContainerAllocateResponse * option error) :=
  match reqs with
  | [] => _ ← PodAllocationTrySuccess nodename current; mret (responses, None)
  | n :: reqs' =>
      '(_, devreq, err) ← lift (GetNextDeviceRequest cambricon.CambriconMLUDevice current);
      match err with
      | Some e => _ ← PodAllocationFailed nodename current; mret ([], Some e)
      | None =>
          if negb (length devreq =? n)%nat
          then _ ← PodAllocationFailed nodename current; mret ([], Some mlu_number_error)
          else
            err ← EraseNextDeviceTypeFromAnnotation cambricon.CambriconMLUDevice current;
            match err with
            | Some e => _ ← PodAllocationFailed nodename current; mret ([], Some e)
            | None =>
                r ← lift (share_response devreq);
                match r with
                | inr uuid => _ ← PodAllocationFailed nodename current; mret ([], Some (uuid_not_found uuid))
                | inl resp => share_loop nodename current reqs' (responses ++ [resp])
                end
            end
      end
  end.

Definition allocateMLUShare (nodename : string) (reqs : list nat)
    : K W (list ContainerAllocateResponse * option error) :=
  '(current, err) ← GetPendingPod nodename;
  match err, current with
  | Some e, _ => _ ← ReleaseNodeLock nodename; mret ([], Some e)
  | None, Some current => share_loop nodename current reqs []
  | None, None => lift (Panic NilDereference)
  end.
End mlu_share.

(** ** server.go: preferred allocation *)
Section preferred.
Context `{GoRuntime} {W : Type} `{!KubeClient W}.
Context (alloc : list Z -> list Z -> list Z -> Z -> outcome (list Z * option error)).
(** What [append] leaves in the backing array behind a slice. *)
Context (spare : list Z -> list Z).
Context (m : CambriconDevicePlugin).

Fixpoint getSlots (ids : list string) : outcome (list Z) :=
  match ids with
  | [] => Ret []
  | id :: ids' =>
      match m_devsInfo m !! id with
      | None => Panic NilDereference
      | Some mlu => slots ← getSlots ids'; Ret (cndev.Slot mlu :: slots)
      end
  end.

Definition get_node_error (e : error) : error := "get node err " +:+ e.
Definition update_node_error (e : error) : error := "update node err: " +:+ e.

(** The value of the annotation that asks the scheduler for another node. *)
Definition unsatisfied_text (size t : Z) : string :=
  itoa size +:+ "-" +:+ o_MLULinkPolicy (m_options m) +:+ "-" +:+ itoa (t / Second).

Definition createAnnotationWithTimestamp (size : Z) : K W (option error) :=
  '(node, err) ← call (api_GetNode (m_nodeHostname m));
  match err with
  | Some e => mret (Some (get_node_error e))
  | None =>
      node ← (if size =? 0 then
                mret (mkNode (node_Name node) (delete mluLinkPolicyUnsatisfied <$> node_Annotations node)
                        (node_ResourceVersion node))
              else
                t ← call api_Now;
                mret (mkNode (node_Name node)
                        (Some (<[mluLinkPolicyUnsatisfied := unsatisfied_text size t]> (node_annos node)))
                        (node_ResourceVersion node)));
      err ← call (api_UpdateNode node);
      mret (update_node_error <$> err)
  end.

Fixpoint annotation_retry (i : nat) (size : Z) (err : option error) : K W (option error) :=
  match i, err with
  | S i', Some _ => err ← createAnnotationWithTimestamp size; annotation_retry i' size err
  | _, _ => mret err
  end.

Definition updateNodeMLULinkAnnotation (size : Z) : K W (option error) :=
  err ← createAnnotationWithTimestamp size;
  annotation_retry retries size err.

Definition slot_not_found (dev : Z) : error := "uuid not found for dev " +:+ itoa dev.

Fixpoint slot_uuids (devs : list Z) (uuids : list string) : list string * option error :=
  match devs with
  | [] => (uuids, None)
  | dev :: devs' =>
      let '(uuid, found) := GetDeviceUUIDByIndex m dev in
      if negb found then ([], Some (slot_not_found dev)) else slot_uuids devs' (uuids ++ [uuid])
  end.

Definition GetPreferredAllocatedDeviceUUIDs (available required : list Z) (size : Z)
    : K W (list string * option error) :=
  '(devs, err) ← lift (alloc available (spare available) required size);
  match err with
  | Some e => _ ← updateNodeMLULinkAnnotation size; mret ([], Some e)
  | None => mret (slot_uuids devs [])
  end.

Record PreferredRequest := mkPreferred {
  AvailableDeviceIDs : list string;
  MustIncludeDeviceIDs : list string;
  AllocationSize : Z;
}.

Fixpoint preferred_loop (reqs : list PreferredRequest) (response : list (list string))
    : K W (list (list string) * option error) :=
  match reqs with
  | [] => mret (response, None)
  | req :: reqs' =>
      available ← lift (getSlots (AvailableDeviceIDs req));
      required ← lift (getSlots (MustIncludeDeviceIDs req));
      '(allocated, err) ← GetPreferredAllocatedDeviceUUIDs available required (AllocationSize req);
      match err with
      | Some e => mret (response, Some e)
      | None => preferred_loop reqs' (response ++ [allocated])
      end
  end.

Definition GetPreferredAllocation (reqs : list PreferredRequest) : K W (list (list string) * option error) :=
  preferred_loop reqs [].
End preferred.

(** ** podutils.go *)
Section podutils.
Context `{GoRuntime} {W : Type} `{!KubeClient W}.
Context (m : CambriconDevicePlugin).
(** The list call with the field selector "pending on this node". *)
Context (ListPending : string -> W -> (list Pod * option error) * W).

Definition requestsMLUMemory (pod : Pod) : bool :=
  existsb (fun c => bool_decide (is_Some (ctr_Limits c !! mluMemResourceName))) (pod_Containers pod).

Definition isMLUMemoryAssumedPod (pod : Pod) : bool :=
  if negb (requestsMLUMemory pod) then false
  else if negb (bool_decide (is_Some (pod_Annotations pod !! mluMemResourceAssumeTime))) then false
  else match pod_Annotations pod !! mluMemResourceAssigned with
       | Some assigned => bool_decide (assigned = "false"%string)
       | None => false
       end.

Definition getAssumeTimeFromPodAnnotation (pod : Pod) : Z :=
  match pod_Annotations pod !! mluMemResourceAssumeTime with
  | Some assumeTimeStr =>
      match parse_uint 10 64 assumeTimeStr with (u64, None) => u64 | (_, Some _) => 0 end
  | None => 0
  end.

(** The first pod of every UID. *)
Fixpoint dedup_pods (items : list Pod) (podMap : gset string) (pods : list Pod) : list Pod :=
  match items with
  | [] => pods
  | pod :: items' =>
      if decide (pod_UID pod ∈ podMap) then dedup_pods items' podMap pods
      else dedup_pods items' ({[pod_UID pod]} ∪ podMap) (pods ++ [pod])
  end.

Fixpoint list_retry (i : nat) (r : list Pod * option error) : K W (list Pod * option error) :=
  match i, r.2 with
  | S i', Some _ => r ← call (ListPending (m_nodeHostname m)); list_retry i' r
  | _, _ => mret r
  end.

Definition pending_error : error :=
  "failed to get pending pods assigned to node " +:+ m_nodeHostname m.

Definition getPendingPodsInNode : K W (list Pod * option error) :=
  r ← call (ListPending (m_nodeHostname m));
  '(items, err) ← list_retry retries r;
  mret match err with
       | Some _ => ([], Some pending_error)
       | None => (dedup_pods items ∅ [], None)
       end.

Definition getCandidatePods : K W (list Pod * option error) :=
  '(allPods, err) ← getPendingPodsInNode;
  mret match err with
       | Some e => ([], Some e)
       | None =>
           (sort_by (fun a b => getAssumeTimeFromPodAnnotation a <? getAssumeTimeFromPodAnnotation b)
              (filter (fun pod => isMLUMemoryAssumedPod pod = true) allPods), None)
       end.

Definition getIndexFromAnnotation (pod : Pod) : Z + error :=
  match pod_Annotations pod !! mluMemSplitIndex with
  | None => inr ("pod annotation " +:+ mluMemSplitIndex +:+ " not found")%string
  | Some value =>
      match atoi value with
      | (_, Some e) => inr ("strconv value " +:+ value +:+ ", " +:+ num_error_text e)%string
      | (index, None) =>
          if index <? 0 then inr ("index " +:+ itoa index +:+ " less than 0")%string else inl index
      end
  end.

Definition releaseNodeLock : K W (option error) :=
  '(node, err) ← call (api_GetNode (m_nodeHostname m));
  match err with
  | Some e => mret (Some e)
  | None =>
      match node_Annotations node with
      | Some annos =>
          if decide (is_Some (annos !! mluMemLock))
          then call (api_UpdateNode (mkNode (node_Name node) (Some (delete mluMemLock annos)) (node_ResourceVersion node)))
          else mret None
      | None => call (api_UpdateNode node)
      end
  end.

Definition patchMLUCount (count : Z) : K W (option error) :=
  call (api_PatchNode (m_nodeHostname m) {[mluResourceCount := itoa count]}).
End podutils.

(** ** cache.go and register.go *)
Record MLUDevice := mkMLUDevice { md_dev : pluginapi.Device; md_handle : cndev.Device }.

Section register.
Context {W : Type} `{!KubeClient W}.
Context (getDeviceInfo : Z -> card_info + error) (getDevicePCIeInfo : Z -> pcie + error).
Context (GetDeviceMemory : Z -> Z + error) (GetDeviceModel : Z -> string).

Fixpoint cache_loop (i : Z) (n : nat) : outcome (list MLUDevice) :=
  match n with
  | O => Ret []
  | S n' =>
      match NewDeviceLite getDeviceInfo getDevicePCIeInfo i false with
      | inr _ => Panic Fatal
      | inl d => rest ← cache_loop (i + 1) n'; Ret (mkMLUDevice (pluginapi.mkDevice (cndev.UUID d) "") d :: rest)
      end
  end.

(** [DeviceCache.Devices] *)
Definition cache_Devices (count : Z + error) : outcome (list MLUDevice) :=
  match count with
  | inr _ => Panic Fatal
  | inl n => cache_loop 0 (Z.to_nat (if DeviceLimit <? n then DeviceLimit else n))
  end.

(** [DeviceCache.notify]: what it passes on. *)
Definition notify_message (dev : pluginapi.Device) : pluginapi.Device :=
  pluginapi.mkDevice (pluginapi.ID dev) pluginapi.Unhealthy.

(** [memory, _ := GetDeviceMemory(i)] *)
Definition device_memory (i : Z) : Z := match GetDeviceMemory i with inl n => n | inr _ => 0 end.

Definition apiDevices (DeviceSplitCount : Z) (devs : list MLUDevice) : list api.DeviceInfo :=
  imap (fun i dev =>
      api.mkDeviceInfo 0 (pluginapi.ID (md_dev dev)) (i32 DeviceSplitCount) (i32 (device_memory (Z.of_nat i))) 0
        ("MLU-" +:+ GetDeviceModel (Z.of_nat i)) 0
        (bool_decide (pluginapi.Health (md_dev dev) = "healthy"%string))) devs.

(** [now] is [time.Now().String()]. *)
Definition RegistrInAnnotation (DeviceSplitCount : Z) (devs : list MLUDevice) (nodeName now : string)
    : K W (option error) :=
  '(node, err) ← call (api_GetNode nodeName);
  match err with
  | Some e => mret (Some e)
  | None =>
      PatchNodeAnnotations node
        {[cambricon.HandshakeAnnos := ("Reported " +:+ now)%string;
          cambricon.RegisterAnnos := EncodeNodeDevices (apiDevices DeviceSplitCount devs)]}
  end.
End register.
