(* ===== verification/MLUFacts.v ===== *)
(** * The MLU device plugin: facts and properties *)

From Stdlib Require Import ZArith Lia Ascii String Sorted.
From stdpp Require Import base decidable option gmap strings numbers sorting list.
From S2P Require Import Prelude GoStrings GoTime GoRuntime Types Kube NodeLock Codec Devices Score Scheduler PodAlloc Cndev MLUAlloc MLU.

#[local] Open Scope Z_scope.

(** ** The devices offered are known *)

(** Every device of the list is healthy and has a card in the table, and the
    cards are those of the node. *)
Record offered (num : Z) (devs : list pluginapi.Device) (infos : gmap string cndev.Device) : Prop := {
  of_known dev : dev ∈ devs -> pluginapi.Health dev = pluginapi.Healthy /\ is_Some (infos !! pluginapi.ID dev);
  of_slots id card : infos !! id = Some card -> 0 <= cndev.Slot card < num;
}.

Lemma offered_nil num : offered num [] ∅.
Proof. split; [intros dev Hd; by apply elem_of_nil in Hd|intros id card; by rewrite lookup_empty]. Qed.

Lemma offered_insert num devs infos id card :
  0 <= cndev.Slot card < num -> offered num devs infos -> offered num devs (<[id := card]> infos).
Proof.
  intros Hc [Hk Hs]. split.
  - intros dev Hd. destruct (Hk dev Hd) as [? ?]. split; [done|]. rewrite lookup_insert_is_Some'. by right.
  - intros id' card' [[_ <-]|[_ ?]]%lookup_insert_Some; [done|]. by eapply Hs.
Qed.

Lemma offered_app num devs1 infos1 devs2 infos2 :
  offered num devs1 infos1 -> offered num devs2 infos2 -> offered num (devs1 ++ devs2) (infos2 ∪ infos1).
Proof.
  intros [Hk1 Hs1] [Hk2 Hs2]. split.
  - intros dev [Hd|Hd]%elem_of_app; rewrite lookup_union_is_Some;
      [destruct (Hk1 dev Hd)|destruct (Hk2 dev Hd)]; eauto.
  - intros id card [?|[_ ?]]%lookup_union_Some_raw; eauto.
Qed.

Lemma offered_one num id card :
  0 <= cndev.Slot card < num -> offered num [pluginapi.mkDevice id pluginapi.Healthy] {[id := card]}.
Proof.
  intros Hc. split.
  - intros dev ->%list_elem_of_singleton. simpl. rewrite lookup_singleton_eq. eauto.
  - intros id' card' [_ <-]%lookup_singleton_Some. done.
Qed.

Lemma generateFakeDevs_offered num origin n b :
  0 <= cndev.Slot origin < num ->
  offered num (generateFakeDevs origin n b).1 (generateFakeDevs origin n b).2.
Proof.
  intros Hs. unfold generateFakeDevs. generalize (seq 0 (Z.to_nat n)) as l. intros l.
  assert (forall acc : list pluginapi.Device * gmap string cndev.Device, offered num acc.1 acc.2 ->
    forall f, (forall devs infos i, offered num devs infos -> offered num (f (devs, infos) i).1 (f (devs, infos) i).2) ->
    offered num (foldl f acc l).1 (foldl f acc l).2) as Hfold.
  { induction l as [|i l IH]; intros [devs infos] Hacc f Hf; [done|]. simpl. apply IH; [by apply Hf|done]. }
  apply Hfold; [apply offered_nil|]. intros devs infos i Ho. simpl.
  rewrite insert_union_singleton_l. apply offered_app; [done|]. by apply offered_one.
Qed.

Section offered.
Context `{!Sysfs F} (getDeviceInfo : Z -> card_info + error) (getDevicePCIeInfo : Z -> pcie + error).
Context (GetDeviceMemory : Z -> Z + error).

Lemma NewDeviceLite_slot i b d : NewDeviceLite getDeviceInfo getDevicePCIeInfo i b = inl d -> cndev.Slot d = i.
Proof. unfold NewDeviceLite. intros E. repeat case_hyp E; simplify_eq; done. Qed.

Lemma card_devices_offered num mode fakeNum i (f f' : F) devs infos :
  0 <= i < num ->
  card_devices getDeviceInfo getDevicePCIeInfo GetDeviceMemory mode fakeNum i f = Ret ((devs, infos), f') ->
  offered num devs infos.
Proof.
  intros Hi. unfold card_devices, mbind, K_bind, check.
  destruct (NewDeviceLite getDeviceInfo getDevicePCIeInfo i _) as [d|] eqn:Ed; [|done].
  apply NewDeviceLite_slot in Ed. unfold mret, K_ret, log_panic.
  assert (0 <= cndev.Slot d < num) as Hd by lia.
  destruct (decide (mode = envShare)).
  { destruct (fakeNum <? 1); [done|]. intros [= <- <- _]. apply offered_insert; [done|].
    by apply generateFakeDevs_offered. }
  destruct (decide (mode = sriov)).
  { destruct (EnableSriov d fakeNum f) as [[[err|] f1]|]; [done| |done]. intros [= E _].
    pose proof (generateFakeDevs_offered num d fakeNum true Hd) as Hg. by rewrite E in Hg. }
  destruct (decide (mode = mluShare)).
  { destruct (GetDeviceMemory i) as [mem|]; [|done]. intros [= E _].
    pose proof (generateFakeDevs_offered num d (mem / 1024) false Hd) as Hg. by rewrite E in Hg. }
  intros [= <- <- _]. by apply offered_one.
Qed.

Lemma get_devices_offered num mode fakeNum n : forall i devs infos (f f' : F) devs' infos',
  0 <= i -> i + Z.of_nat n <= num -> offered num devs infos ->
  get_devices_loop getDeviceInfo getDevicePCIeInfo GetDeviceMemory mode fakeNum i n devs infos f
  = Ret ((devs', infos'), f') -> offered num devs' infos'.
Proof.
  induction n as [|n IH]; intros i devs infos f f' devs' infos' Hi Hn Ho E; simpl in E.
  { unfold mret, K_ret in E. by injection E as <- <- _. }
  unfold mbind, K_bind in E.
  destruct (card_devices _ _ _ mode fakeNum i f) as [[[cd ci] f1]|] eqn:Ec; [|done].
  apply (card_devices_offered num) in Ec; [|lia]. apply IH in E; [done|lia|lia|]. by apply offered_app.
Qed.
End offered.

(** ** Preferred allocation *)

(** No two entries of the card table share a slot (the topology-aware mode has
    one entry per card). *)
Definition one_entry_per_slot (m : CambriconDevicePlugin) : Prop :=
  forall id1 id2 c1 c2, m_devsInfo m !! id1 = Some c1 -> m_devsInfo m !! id2 = Some c2 ->
    cndev.Slot c1 = cndev.Slot c2 -> id1 = id2.

Section preferred.
Context `{GoRuntime} (m : CambriconDevicePlugin) (Hslots : one_entry_per_slot m).

(** [id] is the entry of slot [s]. *)
Definition at_slot (id : string) (s : Z) : Prop :=
  exists c, m_devsInfo m !! id = Some c /\ cndev.Slot c = s.

Lemma at_slot_inj id1 id2 s : at_slot id1 s -> at_slot id2 s -> id1 = id2.
Proof. intros (c1 & ? & <-) (c2 & ? & E). eapply Hslots; eauto. Qed.

Lemma at_slot_fun id s1 s2 : at_slot id s1 -> at_slot id s2 -> s1 = s2.
Proof. intros (c1 & ? & <-) (c2 & ? & <-). congruence. Qed.

Lemma getSlots_at ids slots : getSlots m ids = Ret slots -> Forall2 at_slot ids slots.
Proof.
  revert slots. induction ids as [|id ids IH]; intros slots E; simpl in E; [injection E as <-; constructor|].
  destruct (m_devsInfo m !! id) as [c|] eqn:Ec; [|done].
  apply bind_Ret_inv in E as (rest & Er & [= <-]). constructor; [by exists c|by apply IH].
Qed.

Lemma at_slot_NoDup ids slots : Forall2 at_slot ids slots -> NoDup ids <-> NoDup slots.
Proof.
  induction 1 as [|id s ids slots Hs Hf IH]; [split; constructor|]. rewrite !NoDup_cons, IH.
  assert (id ∈ ids <-> s ∈ slots) as ->; [|done]. split; intros Hin.
  - apply list_elem_of_lookup in Hin as [i Hi]. destruct (Forall2_lookup_l _ _ _ _ _ Hf Hi) as (s' & Hi' & Hs').
    rewrite (at_slot_fun id s s' Hs Hs'). by eapply list_elem_of_lookup_2.
  - apply list_elem_of_lookup in Hin as [i Hi]. destruct (Forall2_lookup_r _ _ _ _ _ Hf Hi) as (id' & Hi' & Hs').
    rewrite (at_slot_inj id id' s Hs Hs'). by eapply list_elem_of_lookup_2.
Qed.

Lemma GetDeviceUUIDByIndex_at id s : at_slot id s -> GetDeviceUUIDByIndex m s = (id, true).
Proof.
  intros (c & Hc & Hs). unfold GetDeviceUUIDByIndex.
  destruct (list_find _ _) as [[i [id' c']]|] eqn:Ef.
  - apply list_find_Some in Ef as (Hl & Hs' & _). apply list_elem_of_lookup_2, elem_of_range in Hl.
    f_equal. eapply Hslots; [done|done|]. simpl in Hs'. congruence.
  - apply list_find_None in Ef. rewrite Forall_forall in Ef.
    destruct (Ef (id, c)); [by apply elem_of_range|done].
Qed.

Lemma slot_uuids_at devs acc ids :
  Forall2 at_slot ids devs -> slot_uuids m devs acc = (acc ++ ids, None).
Proof.
  intros Hf. revert acc. induction Hf as [|id s ids devs Hs _ IH]; intros acc; simpl; [by rewrite app_nil_r|].
  rewrite (GetDeviceUUIDByIndex_at id s Hs). simpl. rewrite IH. by rewrite <- app_assoc.
Qed.

(** Slots of the request map back to identifiers of the request. *)
Lemma slots_back ids slots devs :
  Forall2 at_slot ids slots -> devs ⊆ slots -> exists ids', Forall2 at_slot ids' devs /\ ids' ⊆ ids.
Proof.
  intros Hf. induction devs as [|s devs IH]; intros Hsub; [by exists []; split; [constructor|set_solver]|].
  destruct IH as (ids' & Hf' & Hsub'); [set_solver|].
  assert (s ∈ slots) as [i Hi]%list_elem_of_lookup by (apply Hsub; by left).
  destruct (Forall2_lookup_r _ _ _ _ _ Hf Hi) as (id & Hid & Hs).
  exists (id :: ids'). split; [by constructor|]. apply list_elem_of_lookup_2 in Hid. set_solver.
Qed.

Context {W : Type} `{!KubeClient W} (alloc : list Z -> list Z -> list Z -> Z -> outcome (list Z * option error)).
Context `{!AllocatorContract alloc} (spare : list Z -> list Z).

Definition preferred_answer (req : PreferredRequest) (ids : list string) : Prop :=
  NoDup ids /\ ids ⊆ AvailableDeviceIDs req /\ Z.of_nat (length ids) = AllocationSize req.

Definition preferred_sane (req : PreferredRequest) : Prop :=
  NoDup (AvailableDeviceIDs req) /\ AllocationSize req <= Z.of_nat (length (AvailableDeviceIDs req)).

Lemma preferred_one req available required ids (w w' : W) :
  preferred_sane req -> getSlots m (AvailableDeviceIDs req) = Ret available ->
  GetPreferredAllocatedDeviceUUIDs alloc spare m available required (AllocationSize req) w = Ret ((ids, None), w') ->
  preferred_answer req ids.
Proof.
  intros [Hnd Hle] Eav E. pose proof (getSlots_at _ _ Eav) as Hf.
  unfold GetPreferredAllocatedDeviceUUIDs, lift, mbind, K_bind, outcome_bind, mret, K_ret in E.
  destruct (alloc available (spare available) required (AllocationSize req)) as [[devs [err|]]|] eqn:Ea; [|  |done].
  { destruct (updateNodeMLULinkAnnotation m (AllocationSize req) w) as [[? ?]|]; done. }
  destruct (alloc_exact _ _ _ _ _ (proj1 (at_slot_NoDup _ _ Hf) Hnd)
    ltac:(by rewrite <- (Forall2_length _ _ _ Hf)) Ea) as (Hnd' & Hsub & Hlen).
  destruct (slots_back _ _ _ Hf Hsub) as (ids' & Hf' & Hsub'). rewrite (slot_uuids_at _ _ _ Hf') in E.
  injection E as <- _. simpl. split_and!; [by apply (at_slot_NoDup _ _ Hf')|done|].
  by rewrite (Forall2_length _ _ _ Hf').
Qed.

Lemma preferred_all reqs : forall acc resp (w w' : W),
  Forall preferred_sane reqs ->
  preferred_loop alloc spare m reqs acc w = Ret ((resp, None), w') ->
  exists answers, resp = acc ++ answers /\ Forall2 preferred_answer reqs answers.
Proof.
  induction reqs as [|req reqs IH]; intros acc resp w w' Hsane E; simpl in E.
  { unfold mret, K_ret in E. injection E as <- _. exists []. by rewrite app_nil_r. }
  apply Forall_cons in Hsane as [Hs Hsane]. unfold lift, mbind, K_bind, outcome_bind in E.
  destruct (getSlots m (AvailableDeviceIDs req)) as [available|] eqn:Eav; [|done].
  destruct (getSlots m (MustIncludeDeviceIDs req)) as [required|]; [|done].
  destruct (GetPreferredAllocatedDeviceUUIDs _ _ _ _ _ _ w) as [[[ids [err|]] w1]|] eqn:Eg; [done| |done].
  apply (preferred_one req) in Eg; [|done|done].
  apply IH in E as (answers & -> & Hf); [|done]. exists (ids :: answers).
  rewrite <- app_assoc. split; [done|by constructor].
Qed.
End preferred.

(** ** Health *)

(** The driver says the card is not healthy, or does not answer. *)
Definition reads_unhealthy (state : Z + error) : Prop :=
  match state with inl ret => ret = 0 | inr _ => True end.

#[export] Instance reads_unhealthy_dec state : Decision (reads_unhealthy state).
Proof. destruct state; simpl; apply _. Defined.

Lemma health_card_spec state uuid unhealthy :
  health_card state uuid unhealthy =
    if decide (uuid ∈ unhealthy) then (unhealthy ∖ {[uuid]}, [pluginapi.mkDevice uuid pluginapi.Healthy])
    else if decide (reads_unhealthy state) then ({[uuid]} ∪ unhealthy, [pluginapi.mkDevice uuid pluginapi.Unhealthy])
    else (unhealthy, []).
Proof.
  unfold health_card. destruct (decide (uuid ∈ unhealthy)) as [Hin|Hin].
  - rewrite bool_decide_true by done. by rewrite andb_false_r.
  - rewrite bool_decide_false by done. rewrite andb_true_r.
    destruct (decide (reads_unhealthy state)) as [Hr|Hr]; destruct state as [ret|e]; simpl in Hr; try done.
    + by rewrite Hr.
    + by destruct (Z.eqb_spec ret 0).
Qed.

Lemma health_round_spec GetHealth cards unhealthy u :
  NoDup (cndev.UUID <$> cards) ->
  u ∈ (health_round GetHealth cards unhealthy).1 <->
    (u ∈ unhealthy /\ ~ u ∈ cndev.UUID <$> cards) \/
    (~ u ∈ unhealthy /\ exists c, c ∈ cards /\ cndev.UUID c = u /\ reads_unhealthy (GetHealth (cndev.Slot c))).
Proof.
  revert unhealthy. induction cards as [|c cards IH]; intros unhealthy Hnd; cbn [health_round fmap list_fmap].
  { simpl. split; [intros; left; set_solver|]. intros [[? _]|[_ (? & Hn & _)]]; [done|by apply elem_of_nil in Hn]. }
  apply NoDup_cons in Hnd as [Hni Hnd]. rewrite health_card_spec.
  assert (forall c', c' ∈ cards -> cndev.UUID c' <> cndev.UUID c) as Hdist.
  { intros c' Hc' E. apply Hni. rewrite <- E. by apply list_elem_of_fmap_2. }
  destruct (decide (cndev.UUID c ∈ unhealthy)) as [Hin|Hin]; [|destruct (decide (reads_unhealthy _)) as [Hr|Hr]].
  - specialize (IH (unhealthy ∖ {[cndev.UUID c]}) Hnd).
    destruct (health_round GetHealth cards (unhealthy ∖ {[cndev.UUID c]})) as [un' msgs']. simpl in IH |- *.
    rewrite IH. setoid_rewrite elem_of_cons. set_solver.
  - specialize (IH ({[cndev.UUID c]} ∪ unhealthy) Hnd).
    destruct (health_round GetHealth cards ({[cndev.UUID c]} ∪ unhealthy)) as [un' msgs']. simpl in IH |- *.
    rewrite IH. setoid_rewrite elem_of_cons.
    destruct (decide (u = cndev.UUID c)) as [->|Hne]; [|set_solver].
    split; [|set_solver]. intros _. right. split; [done|]. exists c. auto.
  - specialize (IH unhealthy Hnd).
    destruct (health_round GetHealth cards unhealthy) as [un' msgs']. simpl in IH |- *.
    rewrite IH. setoid_rewrite elem_of_cons. set_solver.
Qed.

(** ** Registration *)
Lemma cache_loop_health getInfo getPCIe i n devs :
  cache_loop getInfo getPCIe i n = Ret devs -> Forall (fun d => pluginapi.Health (md_dev d) = ""%string) devs.
Proof.
  revert i devs. induction n as [|n IH]; intros i devs E; simpl in E; [by injection E as <-|].
  destruct (NewDeviceLite _ _ _ _) as [d|]; [|done].
  apply bind_Ret_inv in E as (rest & Er & [= <-]). constructor; [done|by eapply IH].
Qed.

(** ** Allocation *)
Lemma uuidToPath_unknown m uuids uuid :
  uuid ∈ uuids -> m_devsInfo m !! uuid = None -> uuidToPath m uuids = Panic NilDereference.
Proof.
  intros Hin Hm. induction uuids as [|u uuids IH]; [by apply elem_of_nil in Hin|]. simpl. unfold uuid_path.
  apply elem_of_cons in Hin as [<-|Hin]; [by rewrite Hm|]. rewrite (IH Hin).
  by destruct (m_devsInfo m !! u).
Qed.

(** The paths of known cards. *)
Lemma uuidToPath_known m cards :
  Forall (fun x => m_devsInfo m !! x.1 = Some x.2) cards ->
  uuidToPath m cards.*1 = Ret (cndev.Path <$> cards.*2).
Proof.
  induction 1 as [|[u c] cards Hc _ IH]; [done|].
  rewrite !fmap_cons. cbn [uuidToPath fst snd]. unfold uuid_path. simpl in Hc. rewrite Hc, IH. done.
Qed.

Lemma addDevice_if_mounts b car h c : car_Mounts (addDevice_if b car h c) = car_Mounts car.
Proof. by destruct b. Qed.

Lemma addDevice_if_devices b car h c : car_Devices car ⊆ car_Devices (addDevice_if b car h c).
Proof. destruct b; simpl; [|done]. intros d Hd. apply elem_of_app. by left. Qed.

Definition dev_path (n : Z) : string := mluDeviceName +:+ itoa n.

(** The device node of a card, under the container's number. *)
Definition container_node (path : string) (id : nat) : DeviceSpec :=
  mkDeviceSpec path (dev_path (Z.of_nat id)) "rw".

Lemma prepare_device_spec m id n resp :
  o_Mode (m_options m) <> sriov -> 0 <= n < 2 ^ 63 ->
  exists resp', prepare_device m id (dev_path n) resp = Ret resp' /\
    car_Mounts resp' = car_Mounts resp /\ car_Devices resp ⊆ car_Devices resp' /\
    container_node (dev_path n) id ∈ car_Devices resp'.
Proof.
  intros Hm Hn. unfold prepare_device. rewrite decide_False by done. unfold dev_path at 1. rewrite sscanf_itoa by done.
  eexists. split; [reflexivity|]. cbn [addDevice car_Mounts car_Devices]. rewrite !addDevice_if_mounts.
  split_and!; [done| |apply elem_of_app; right; by apply list_elem_of_singleton].
  intros d Hd. apply elem_of_app. left. by repeat apply addDevice_if_devices.
Qed.

Lemma prepare_loop_spec m numbers : forall id resp,
  o_Mode (m_options m) <> sriov -> Forall (fun n => 0 <= n < 2 ^ 63) numbers ->
  exists resp', prepare_loop m id (dev_path <$> numbers) resp = Ret resp' /\
    car_Mounts resp' = car_Mounts resp /\ car_Devices resp ⊆ car_Devices resp' /\
    forall k n, numbers !! k = Some n -> container_node (dev_path n) (id + k) ∈ car_Devices resp'.
Proof.
  induction numbers as [|n numbers IH]; intros id resp Hm Hall.
  { exists resp. split_and!; try done. }
  apply Forall_cons in Hall as [Hn Hall]. rewrite fmap_cons. cbn [prepare_loop].
  destruct (prepare_device_spec m id n resp Hm Hn) as (r1 & -> & Em & Hs & Hin). cbn [mbind outcome_bind].
  destruct (IH (S id) r1 Hm Hall) as (r2 & -> & Em2 & Hs2 & Hin2). exists r2.
  split_and!; [done|congruence|by etransitivity|].
  intros [|k] n' Hk; simpl in Hk.
  - injection Hk as <-. rewrite Nat.add_0_r. by apply Hs2.
  - replace (id + S k)%nat with (S id + k)%nat by lia. by apply Hin2.
Qed.

Lemma join_foldl a l : foldl (fun s x => (s +:+ "," +:+ x)%string) a l = join "," (a :: l).
Proof.
  revert a. induction l as [|b l IH]; intros a; [done|]. cbn [foldl]. rewrite IH. destruct l as [|c l].
  - done.
  - cbn [join]. by rewrite !str_app_assoc.
Qed.

Lemma split_index_known m (vals : ContainerDevices) slots i acc :
  Forall2 (fun v s => GetDeviceIndexByUUID m (cd_UUID v) = (s, true)) vals slots ->
  split_index m (S i) vals acc = inl (foldl (fun s x => (s +:+ "," +:+ x)%string) acc (itoa <$> slots)).
Proof.
  intros Hf. revert i acc. induction Hf as [|v s vals slots Hv _ IH]; intros i acc; [done|].
  cbn [split_index]. rewrite Hv. cbn [negb]. rewrite IH. done.
Qed.

(** A request whose devices are cards of the node: the cards, by number. *)
Definition cards_of (m : CambriconDevicePlugin) (devreq : ContainerDevices) (cards : list (Z * cndev.Device)) : Prop :=
  Forall2 (fun v x => m_devsInfo m !! cd_UUID v = Some x.2 /\ cndev.Path x.2 = dev_path x.1 /\ 0 <= x.1 < 2 ^ 63)
    devreq cards.

Lemma cards_of_paths m devreq cards :
  cards_of m devreq cards -> uuidToPath m (cd_UUID <$> devreq) = Ret (dev_path <$> cards.*1).
Proof.
  induction 1 as [|v [n c] devreq cards (Hl & Hp & _) _ IH]; [done|]. rewrite !fmap_cons. cbn [uuidToPath fst].
  simpl in Hl, Hp. unfold uuid_path. rewrite Hl. cbn [mbind outcome_bind]. rewrite IH. cbn. by rewrite Hp.
Qed.

Lemma share_response_known m HOOK_PATH v vals cards :
  o_Mode (m_options m) <> sriov -> cards_of m (v :: vals) cards ->
  exists resp, share_response m HOOK_PATH (v :: vals) = Ret (inl resp) /\
    car_Envs resp !! mluMemSplitIndex = Some (join "," (itoa <$> (cndev.Slot <$> cards.*2))) /\
    car_Envs resp !! mluMemSplitLimit = Some (itoa (Z.quot (cd_Usedmem v) 1024)) /\
    forall k n c, cards !! k = Some (n, c) -> container_node (cndev.Path c) k ∈ car_Devices resp.
Proof.
  intros Hm Hc. unfold share_response. cbn [slice_get lookup list_lookup mbind outcome_bind].
  unfold PrepareResponse. rewrite (cards_of_paths _ _ _ Hc). cbn [mbind outcome_bind].
  set (r0 := addDevice_if (hasCtrlDev _) _ _ _).
  destruct (prepare_loop_spec m cards.*1 0 r0 Hm) as (r1 & -> & _ & _ & Hin).
  { clear -Hc. induction Hc as [|? x ? ? (_ & _ & Hx) _ IH]; [constructor|]. rewrite fmap_cons. by constructor. }
  cbn [mbind outcome_bind].
  assert (split_index m 0 (v :: vals) "" = inl (join "," (itoa <$> (cndev.Slot <$> cards.*2)))) as ->.
  { inversion Hc as [|? [n c] ? cards' (Hl & _) Hf]; subst. cbn [split_index]. unfold GetDeviceIndexByUUID at 1.
    simpl in Hl. rewrite Hl. cbn [negb Nat.eqb].
    rewrite (split_index_known m vals (cndev.Slot <$> cards'.*2)); [by rewrite join_foldl|].
    clear -Hf. induction Hf as [|? x ? ? (Hl & _) _ IH]; [constructor|]. rewrite !fmap_cons. constructor; [|done].
    unfold GetDeviceIndexByUUID. by rewrite Hl. }
  eexists. split; [done|]. split_and!; [destruct (0 <? _); done..|].
  intros k n c Hk.
  assert (container_node (cndev.Path c) k ∈ car_Devices r1) as Hd; [|by destruct (0 <? _)].
  destruct (Forall2_lookup_r _ _ _ _ _ Hc Hk) as (v' & _ & _ & Hp & _). simpl in Hp. rewrite Hp.
  apply (Hin k n). rewrite list_lookup_fmap, Hk. done.
Qed.

(** ** Examples *)
Definition no_host_devices : deviceList := mkDeviceList true true false false false false false true.
Definition topo_plugin : CambriconDevicePlugin :=
  mkMLUPlugin ((fun id => pluginapi.mkDevice id pluginapi.Healthy) <$> ["MLU-0"; "MLU-1"; "MLU-2"; "MLU-3"]%string)
    four_cards no_host_devices "node1" (mkOptions topologyAware Restricted 1 "node1" false "" false false "").
Definition mlu_val (id : string) : ContainerDevice := mkContainerDevice 0 id "MLU" 4096 0.

Lemma four_cards_slots : one_entry_per_slot topo_plugin.
Proof.
  assert (forall id c, four_cards !! id = Some c -> cndev.UUID c = id /\ cndev.UUID c = ("MLU-" +:+ itoa (cndev.Slot c))%string)
    as Hk.
  { intros id c Hc. unfold four_cards in Hc.
    repeat (apply lookup_insert_Some in Hc as [[<- <-]|[_ Hc]]; [by split|]).
    apply lookup_singleton_Some in Hc as [<- <-]. by split. }
  intros id1 id2 c1 c2 H1%Hk H2%Hk E. destruct H1 as [<- ->], H2 as [<- ->]. by rewrite E.
Qed.

Module MLUProps.

(** The device list and the card table agree in every mode (default,
    env-share, sriov, mlu-share): each device offered to the kubelet is healthy
    and has an entry in the table, so the handlers that look a device up by the
    kubelet's identifier never meet a nil entry, and every entry is a card of
    the node. *)
Theorem offered_devices_known `{!Sysfs F} getDeviceInfo getDevicePCIeInfo GetDeviceMemory num Glob o (f f' : F) m :
  NewCambriconDevicePlugin getDeviceInfo getDevicePCIeInfo GetDeviceMemory (inl num) Glob o f = Ret (m, f') ->
  (forall dev, dev ∈ m_devs m ->
     pluginapi.Health dev = pluginapi.Healthy /\ is_Some (m_devsInfo m !! pluginapi.ID dev)) /\
  (forall id card, m_devsInfo m !! id = Some card -> 0 <= cndev.Slot card < num).
Proof.
  intros E. unfold NewCambriconDevicePlugin, getDevices, check, mbind, K_bind, mret, K_ret in E.
  destruct (get_devices_loop _ _ _ _ _ _ _ _ _ f) as [[[devs infos] f1]|] eqn:Eg; [|done].
  injection E as <- _. simpl. destruct (decide (num <= 0)) as [Hn|Hn].
  - assert (Z.to_nat num = 0%nat) as E0 by lia. rewrite E0 in Eg. injection Eg as <- <- _.
    split; [intros dev Hd; by apply elem_of_nil in Hd|intros id card; by rewrite lookup_empty].
  - apply (get_devices_offered _ _ _ num) in Eg as [Hk Hs]; [done|lia|lia|apply offered_nil].
Qed.

Definition demo_card (i : Z) : card_info + error :=
  inl (("MLU-" +:+ itoa i)%string, "1"%string, "2"%string, dev_path i).
Definition share_options : Options := mkOptions mluShare BestEffort 1 "node1" false "" false false "".

Lemma offered_devices_known_witness :
  let m := mkMLUPlugin
    ((fun id => pluginapi.mkDevice id pluginapi.Healthy) <$> ["MLU-0-_-1"; "MLU-0-_-2"]%string)
    {["MLU-0-_-1"%string := cndev.mkDevice 0 "MLU-0-_-1" "" (dev_path 0) "" None;
      "MLU-0-_-2"%string := cndev.mkDevice 0 "MLU-0-_-2" "" (dev_path 0) "" None]}
    (newDeviceList (fun _ => inl [])) "node1" share_options in
  (forall dev, dev ∈ m_devs m ->
     pluginapi.Health dev = pluginapi.Healthy /\ is_Some (m_devsInfo m !! pluginapi.ID dev)) /\
  (forall id card, m_devsInfo m !! id = Some card -> 0 <= cndev.Slot card < 1).
Proof.
  apply (@offered_devices_known Z CndevProps.one_card demo_card (fun _ => inr ""%string) (fun _ => inl 2048) 1
    (fun _ => inl []) share_options 0 0).
  vm_compute. reflexivity.
Defined.

(** C31. The preferred allocation is a valid choice: with any allocator that
    keeps its contract and one table entry per slot, a response without an
    error holds, for every container request, exactly the number of devices
    asked for, distinct, all among those the kubelet offered. *)
Theorem preferred_allocation_valid `{GoRuntime} {W} `{!KubeClient W}
    (alloc : list Z -> list Z -> list Z -> Z -> outcome (list Z * option error)) `{!AllocatorContract alloc}
    spare m reqs resp (w w' : W) :
  one_entry_per_slot m ->
  Forall (fun req => NoDup (AvailableDeviceIDs req) /\
                     AllocationSize req <= Z.of_nat (length (AvailableDeviceIDs req))) reqs ->
  GetPreferredAllocation alloc spare m reqs w = Ret ((resp, None), w') ->
  Forall2 (fun req ids => NoDup ids /\ ids ⊆ AvailableDeviceIDs req /\
                          Z.of_nat (length ids) = AllocationSize req) reqs resp.
Proof.
  intros Hm Hs E. eapply preferred_all in E as (answers & -> & Hf); done.
Qed.

Lemma preferred_allocation_valid_witness :
  Forall2 (fun req ids => NoDup ids /\ ids ⊆ AvailableDeviceIDs req /\
                          Z.of_nat (length ids) = AllocationSize req)
    [mkPreferred ["MLU-3"; "MLU-2"; "MLU-1"]%string [] 2] [["MLU-2"; "MLU-3"]%string].
Proof.
  apply (@preferred_allocation_valid go_reference Server _
    (@Allocate go_reference card_rings Restricted four_cards [] Spider)
    (@Allocate_contract go_reference card_rings Restricted four_cards [] Spider card_rings_ok)
    (fun _ => []) topo_plugin _ _ (one_node free_node []) (one_node free_node []) four_cards_slots).
  - constructor; [|constructor]. split; [|simpl; lia]. apply (bool_decide_unpack _). vm_compute. exact I.
  - vm_compute. reflexivity.
Defined.

(** What an MLU container is told: for a request whose devices are cards of
    the node (outside the SR-IOV mode) the response names the slots of the
    chosen cards in order, the memory limit is the first device's share in GiB,
    and the k-th card's device node appears in the container as number k. *)
Theorem share_response_names_cards m HOOK_PATH v vals cards :
  o_Mode (m_options m) <> sriov ->
  Forall2 (fun v x => m_devsInfo m !! cd_UUID v = Some x.2 /\ cndev.Path x.2 = dev_path x.1 /\ 0 <= x.1 < 2 ^ 63)
    (v :: vals) cards ->
  exists resp, share_response m HOOK_PATH (v :: vals) = Ret (inl resp) /\
    car_Envs resp !! mluMemSplitIndex = Some (join "," (itoa <$> (cndev.Slot <$> cards.*2))) /\
    car_Envs resp !! mluMemSplitLimit = Some (itoa (Z.quot (cd_Usedmem v) 1024)) /\
    forall k n c, cards !! k = Some (n, c) -> container_node (cndev.Path c) k ∈ car_Devices resp.
Proof. apply share_response_known. Qed.

Lemma share_response_names_cards_witness :
  exists resp, share_response topo_plugin "/hooks" [mlu_val "MLU-3"; mlu_val "MLU-1"] = Ret (inl resp) /\
    car_Envs resp !! mluMemSplitIndex
      = Some (join "," (itoa <$> (cndev.Slot <$> [(3, mlu_card 3 "b"); (1, mlu_card 1 "a")].*2))) /\
    car_Envs resp !! mluMemSplitLimit = Some (itoa (Z.quot (cd_Usedmem (mlu_val "MLU-3")) 1024)) /\
    forall k n c, [(3, mlu_card 3 "b"); (1, mlu_card 1 "a")] !! k = Some (n, c) ->
      container_node (cndev.Path c) k ∈ car_Devices resp.
Proof.
  apply (share_response_names_cards topo_plugin "/hooks" (mlu_val "MLU-3") [mlu_val "MLU-1"]).
  - vm_compute. intros E. discriminate E.
  - repeat constructor; vm_compute; try reflexivity; intros E; discriminate E.
Defined.

(** The error branch for an unknown device is never taken: when a device of
    the request is not a card of the node the handler panics with a nil
    dereference while it looks up the device's path, before the test that would
    report the unknown UUID. *)
Theorem unknown_mlu_panics m HOOK_PATH devreq v :
  v ∈ devreq -> m_devsInfo m !! cd_UUID v = None ->
  share_response m HOOK_PATH devreq = Panic NilDereference.
Proof.
  intros Hv Hm. destruct devreq as [|v0 devreq]; [by apply elem_of_nil in Hv|].
  unfold share_response, PrepareResponse. cbn [slice_get lookup list_lookup mbind outcome_bind].
  rewrite (uuidToPath_unknown m _ (cd_UUID v)); [done| |done]. by apply list_elem_of_fmap_2.
Qed.

Lemma unknown_mlu_panics_witness :
  share_response topo_plugin "/hooks" [mlu_val "MLU-1"; mlu_val "MLU-7"] = Panic NilDereference.
Proof.
  apply (unknown_mlu_panics topo_plugin "/hooks" _ (mlu_val "MLU-7")); [by right; left|reflexivity].
Defined.

(** One round of the MLU health check: afterwards exactly those cards count
    as unhealthy that read unhealthy and did not count as unhealthy before (and
    those that were not checked).  In particular a card that stays broken is
    reported healthy in every second round. *)
Theorem health_round_toggles GetHealth cards unhealthy u :
  NoDup (cndev.UUID <$> cards) ->
  u ∈ (WatchUnhealthy_round GetHealth cards unhealthy).1 <->
    (u ∈ unhealthy /\ ~ u ∈ cndev.UUID <$> cards) \/
    (~ u ∈ unhealthy /\ exists c, c ∈ cards /\ cndev.UUID c = u /\ reads_unhealthy (GetHealth (cndev.Slot c))).
Proof. apply health_round_spec. Qed.

(** The second round with a broken card. *)
Example broken_card_reported_healthy :
  WatchUnhealthy_round (fun _ => inl 0) [mlu_card 0 "a"]
    (WatchUnhealthy_round (fun _ => inl 0) [mlu_card 0 "a"] ∅).1
  = (∅, [pluginapi.mkDevice "MLU-0" pluginapi.Healthy]).
Proof. vm_compute. reflexivity. Qed.

Lemma health_round_toggles_witness :
  "MLU-0"%string ∈ (WatchUnhealthy_round (fun _ => inl 0) [mlu_card 0 "a"] {["MLU-0"%string]}).1 <->
    ("MLU-0"%string ∈ ({["MLU-0"%string]} : gset string) /\ ~ "MLU-0"%string ∈ cndev.UUID <$> [mlu_card 0 "a"]) \/
    (~ "MLU-0"%string ∈ ({["MLU-0"%string]} : gset string) /\
     exists c, c ∈ [mlu_card 0 "a"] /\ cndev.UUID c = "MLU-0"%string /\ reads_unhealthy (inl 0)).
Proof.
  apply (health_round_toggles (fun _ => inl 0) [mlu_card 0 "a"] {["MLU-0"%string]} "MLU-0").
  apply (bool_decide_unpack _). vm_compute. exact I.
Defined.

(** MLU cards are always registered as unhealthy: the cache never sets the
    health of a device and the registration compares it with "healthy" in lower
    case. *)
Theorem mlu_registered_unhealthy getDeviceInfo getDevicePCIeInfo GetDeviceMemory GetDeviceModel count split devs :
  cache_Devices getDeviceInfo getDevicePCIeInfo count = Ret devs ->
  Forall (fun d => api.Health d = false) (apiDevices GetDeviceMemory GetDeviceModel split devs).
Proof.
  intros E. unfold cache_Devices in E. destruct count as [n|]; [|done]. apply cache_loop_health in E.
  apply Forall_lookup. intros i d Hd. unfold apiDevices in Hd. rewrite list_lookup_imap in Hd.
  destruct (devs !! i) as [dev|] eqn:Ei; [|done]. injection Hd as <-. simpl.
  apply Forall_lookup_1 with (i := i) (x := dev) in E; [|done]. rewrite E. done.
Qed.

Lemma mlu_registered_unhealthy_witness :
  Forall (fun d => api.Health d = false)
    (apiDevices (fun _ => inl 24576) (fun _ => "MLU370-X8"%string) 4
       [mkMLUDevice (pluginapi.mkDevice "MLU-0" "") (cndev.mkDevice 0 "MLU-0" "1" (dev_path 0) "2" None)]).
Proof.
  apply (mlu_registered_unhealthy demo_card (fun _ => inr ""%string) (fun _ => inl 24576)
    (fun _ => "MLU370-X8"%string) (inl 1) 4).
  reflexivity.
Defined.
End MLUProps.
