(* ===== verification/MLUServer.v ===== *)
(** * The life of the MLU device plugin

    The gRPC server of the plugin ([Start], [Stop], [Register], [Serve],
    [ListAndWatch] of [mlu/server.go]), the restarts of
    [cmd/device-plugin/mlu/main.go], the flags ([options.go]), the device cache
    and its notifications ([cache.go], [register.go]) and the call of the
    topology tool ([cntopo/cntopo.go]).

    What the operating system, the kubelet and the tool answer are parameters;
    the goroutines that exchange messages over unbuffered channels are a step
    relation. *)

From Stdlib Require Import ZArith Lia Ascii String Sorted.
From stdpp Require Import base decidable option gmap strings numbers sorting list relations.
From S2P Require Import Prelude GoStrings GoTime GoRuntime Types Kube NodeLock Codec Devices Score Scheduler PodAlloc Cndev MLUAlloc MLU.

#[local] Open Scope Z_scope.

(** ** options.go *)

(** The loop over [os.Args]: the first argument that starts with [-mode] is
    given a second dash ([strings.Replace] of the first occurrence, which is
    that prefix). *)
Fixpoint dash_mode (args : list string) : list string :=
  match args with
  | [] => []
  | arg :: args' =>
      if String.prefix "-mode" arg then ("-" +:+ arg)%string :: args' else arg :: dash_mode args'
  end.

(** The errors of the flag parser: help was asked for, or another one. *)
Inductive flags_error := ErrHelp | OtherFlagsError.

(** The process exits with a code, or [ParseFlags] returns the options, with
    the split count and the socket of the runtime it stores in [util]. *)
Definition ParseFlags (parser : list string -> Options + flags_error) (DP_DISABLE_HEALTHCHECKS : string)
    (args : list string) : (Options * Z * string) + Z :=
  let args := dash_mode args in
  let args := if decide (DP_DISABLE_HEALTHCHECKS = "all"%string) then args ++ ["--disable-health-check"%string] else args in
  match parser args with
  | inr ErrHelp => inr 0
  | inr OtherFlagsError => inr 1
  | inl options => inl (options, o_VirtualizationNum options, o_SocketPath options)
  end.

(** ** server.go: the gRPC server *)

(** [s_server]: the field is not nil; [s_serving]: that server runs;
    [s_stop]: the stop channel is closed; [s_checks]: the health check was
    started; [s_allocator]: the allocator of the topology-aware mode, with the
    groups of a board allocator. *)
Record MLUServer := mkMLUServer {
  s_plugin : CambriconDevicePlugin;
  s_server : bool;
  s_serving : bool;
  s_stop : bool;
  s_checks : bool;
  s_allocator : option (AllocatorKind * list (list Z));
}.

Definition new_server (m : CambriconDevicePlugin) : MLUServer := mkMLUServer m false false false false None.

Record RegisterRequest := mkRegisterRequest {
  rq_Version : string;
  rq_Endpoint : string;
  rq_ResourceName : string;
  rq_GetPreferredAllocationAvailable : bool;
}.

(** The answers to one [Serve]: the removal of the socket, listening, dialling
    the own server, dialling the kubelet and its registration, and the removal
    of the socket by [Stop]. *)
Record serve_answers := mkServeAnswers {
  an_Remove : option error;
  an_Listen : option error;
  an_Dial : option error;
  an_DialKubelet : option error;
  an_Register : RegisterRequest -> option error;
  an_RemoveAgain : option error;
}.

Definition serverSock : string := "/var/lib/kubelet/device-plugins/cambricon.sock".
Definition KubeletSocket : string := "/var/lib/kubelet/device-plugins/kubelet.sock".

Definition GetDevicePluginOptions (m : CambriconDevicePlugin) : bool :=
  bool_decide (o_Mode (m_options m) = topologyAware).

(** [removed] is the answer of [cleanup]; a second [close] of the stop channel
    would panic. *)
Definition Stop (removed : option error) (s : MLUServer) : outcome (MLUServer * option error) :=
  if negb (s_server s) then Ret (s, None)
  else if s_stop s then Panic CloseClosed
  else Ret (mkMLUServer (s_plugin s) false false true (s_checks s) (s_allocator s), removed).

Definition Start (a : serve_answers) (s : MLUServer) : MLUServer * option error :=
  match an_Remove a, an_Listen a with
  | Some e, _ | None, Some e => (s, Some e)
  | None, None =>
      let s := mkMLUServer (s_plugin s) true true (s_stop s) (s_checks s) (s_allocator s) in
      match an_Dial a with
      | Some e => (s, Some e)
      | None =>
          (mkMLUServer (s_plugin s) true true (s_stop s)
             (s_checks s || negb (o_DisableHealthCheck (m_options (s_plugin s)))) (s_allocator s), None)
      end
  end.

Definition Register (a : serve_answers) (s : MLUServer) (resourceName : string) : option error :=
  match an_DialKubelet a with
  | Some e => Some e
  | None =>
      an_Register a (mkRegisterRequest "v1beta1" (path_base serverSock) resourceName
        (GetDevicePluginOptions (s_plugin s)))
  end.

(** [strings.EqualFold] on ASCII strings. *)
Definition equal_fold (a b : string) : bool := bool_decide (to_lower a = to_lower b).

(** The name of the resource; [None] when the driver gives no model. *)
Definition resource_name (o : Options) (model : string) : option string :=
  let byType :=
    if o_EnableDeviceType o then
      if bool_decide (model = ""%string) then None
      else if equal_fold model "MLU270-X5K" then Some ("cambricon.com/" +:+ to_lower model)%string
      else Some ("cambricon.com/" +:+ default ""%string (head (split "-" (to_lower model))))%string
    else Some mluResourceCount in
  match byType with
  | None => None
  | Some name => Some (if decide (o_Mode o = mluShare) then mluMemResourceName else name)
  end.

Definition start_error (e : error) : error := "start device plugin err: " +:+ e.
Definition register_error (name : string) (e : error) : error := "register resource " +:+ name +:+ " err: " +:+ e.
Definition no_model_error : error := "device type enabled, but got empty device model from cndev".

(** [path.IsAbs] *)
Definition is_abs (p : string) : bool := String.prefix "/" p.

Section serve.
Context `{GoRuntime} {W : Type} `{!KubeClient W}.
Context (count : Z + error) (GetDeviceModel : Z -> string).
(** The reply of [cndev.GetMLULinkGroups]. *)
Context (linked : list (list Z) + error).

(** [allocator.New] *)
Definition New : outcome (AllocatorKind * list (list Z)) :=
  let k := New_kind (GetDeviceModel 0) in
  match k with
  | Board => groups ← getCPUGroups linked; Ret (k, groups)
  | Spider | Default => Ret (k, [])
  end.

(** The prologue of the topology-aware mode. *)
Definition serve_topology (s : MLUServer) : K W (MLUServer * option error) :=
  let m := s_plugin s in
  if decide (o_Mode (m_options m) = topologyAware) then
    alloc ← lift New;
    let s := mkMLUServer m (s_server s) (s_serving s) (s_stop s) (s_checks s) (Some alloc) in
    if decide (o_MLULinkPolicy (m_options m) = BestEffort) then mret (s, None)
    else err ← updateNodeMLULinkAnnotation m 0; mret (s, err)
  else mret (s, None).

(** The prologue of the mlu-share mode. *)
Definition serve_share (s : MLUServer) : K W (option error) :=
  let m := s_plugin s in
  if decide (o_Mode (m_options m) = mluShare) then
    match count with
    | inr e => mret (Some e)
    | inl num =>
        err ← patchMLUCount m num;
        match err with
        | Some e => mret (Some e)
        | None => releaseNodeLock m
        end
    end
  else mret None.

(** [Start], the name of the resource and [Register]. *)
Definition serve_socket (a : serve_answers) (s : MLUServer) : outcome (MLUServer * option error) :=
  match Start a s with
  | (s, Some e) => Ret (s, Some (start_error e))
  | (s, None) =>
      match resource_name (m_options (s_plugin s)) (GetDeviceModel 0) with
      | None => '(s, _) ← Stop (an_RemoveAgain a) s; Ret (s, Some no_model_error)
      | Some name =>
          match Register a s name with
          | Some e => '(s, _) ← Stop (an_RemoveAgain a) s; Ret (s, Some (register_error name e))
          | None => Ret (s, None)
          end
      end
  end.

Definition Serve (a : serve_answers) (s : MLUServer) : K W (MLUServer * option error) :=
  let o := m_options (s_plugin s) in
  if negb (bool_decide (o_CnmonPath o = ""%string)) && negb (is_abs (o_CnmonPath o)) then log_panic
  else
    '(s, err) ← serve_topology s;
    match err with
    | Some e => mret (s, Some e)
    | None =>
        err ← serve_share s;
        match err with
        | Some e => mret (s, Some e)
        | None => lift (serve_socket a s)
        end
    end.
End serve.

(** [ListAndWatch]: the messages on the health channel until the stop channel
    is closed; the lists sent to the kubelet, in order. *)
Fixpoint watch_health (m : CambriconDevicePlugin) (msgs : list pluginapi.Device)
    : CambriconDevicePlugin * list (list pluginapi.Device) :=
  match msgs with
  | [] => (m, [])
  | d :: msgs' =>
      let m := ListAndWatch_health m d in
      let '(m', sent) := watch_health m msgs' in (m', m_devs m :: sent)
  end.

Definition ListAndWatch (m : CambriconDevicePlugin) (msgs : list pluginapi.Device)
    : CambriconDevicePlugin * list (list pluginapi.Device) :=
  let '(m', sent) := watch_health m msgs in (m', m_devs m :: sent).

(** ** main.go *)
Inductive main_event :=
| StartErr                (* the channel of the failed start is closed *)
| KubeletSocketCreated
| OtherFileEvent
| WatcherError
| SIGHUP
| OtherSignal.

(** [mm_current]: the plugin; [mm_old]: the plugins of earlier starts;
    [mm_startErr]: the channel of the last start is closed; [mm_done]: [main]
    has left the loop. *)
Record main_state := mkMainState {
  mm_current : MLUServer;
  mm_old : list MLUServer;
  mm_startErr : bool;
  mm_done : bool;
}.

Section main.
Context `{GoRuntime} {W : Type} `{!Sysfs W} `{!KubeClient W}.
Context (getDeviceInfo : Z -> card_info + error) (getDevicePCIeInfo : Z -> pcie + error).
Context (GetDeviceMemory : Z -> Z + error) (count : Z + error) (GetDeviceModel : Z -> string).
Context (linked : list (list Z) + error) (Glob : string -> list string + error) (options : Options).

(** From the label [restart], after the [Stop] of the plugin before. *)
Definition start_plugin (a : serve_answers) (old : list MLUServer) : K W main_state :=
  m ← NewCambriconDevicePlugin getDeviceInfo getDevicePCIeInfo GetDeviceMemory count Glob options;
  '(s, err) ← Serve count GetDeviceModel linked a (new_server m);
  mret (mkMainState s old (bool_decide (is_Some err)) false).

(** One turn of the loop at [events]; [removed] is the answer to the [Stop] it
    may call.  The case [startErr] is ready only when that channel is closed. *)
Definition main_step (removed : option error) (a : serve_answers) (ev : main_event) (st : main_state) : K W main_state :=
  if mm_done st then mret st
  else
    let restart :=
      '(s, _) ← lift (Stop removed (mm_current st)); start_plugin a (mm_old st ++ [s]) in
    match ev with
    | StartErr => if mm_startErr st then restart else mret st
    | KubeletSocketCreated | SIGHUP => restart
    | OtherFileEvent | WatcherError => mret st
    | OtherSignal =>
        '(s, _) ← lift (Stop removed (mm_current st));
        mret (mkMainState s (mm_old st) (mm_startErr st) true)
    end.

Fixpoint main_run (st : main_state) (l : list (main_event * serve_answers * option error)) : K W main_state :=
  match l with
  | [] => mret st
  | (ev, a, removed) :: l' => st ← main_step removed a ev st; main_run st l'
  end.

(** How [main] gets to the loop. *)
Inductive startup := WaitsForever | Exits (code : Z) | Runs (st : main_state).

(** [cndev.Init], [GetDeviceCount], the file watcher, the device cache, and
    the first start. *)
Definition main (Init : option error) (watcher : option error) (a : serve_answers) : K W startup :=
  match Init, count with
  | Some _, _ => mret WaitsForever
  | None, inr _ => log_panic
  | None, inl n =>
      if n =? 0 then mret WaitsForever
      else
        match watcher with
        | Some _ => mret (Exits 1)
        | None =>
            _ ← lift (cache_Devices getDeviceInfo getDevicePCIeInfo count);
            st ← start_plugin a []; mret (Runs st)
        end
  end.
End main.

(** ** cache.go and register.go: the notifications

    [CheckHealth] sends the devices whose health changed over the unbuffered
    channel [unhealthy]; [notify] receives each and, holding the mutex, sends it
    over every registered channel; [AddNotifyChannel] and [RemoveNotifyChannel]
    take the same mutex. *)
Inductive notify_pc :=
| Selecting                                              (* at the [select] *)
| Locking (dev : pluginapi.Device)                       (* at [mutex.Lock] *)
| Sending (dev : pluginapi.Device) (chs : list string)   (* [chs] are still to be served *)
| Returned.

(** [c_pending]: what the health check will send, in order; [c_delivered]: what
    was received from the registered channels. *)
Record DeviceCache := mkDeviceCache {
  c_cache : list MLUDevice;
  c_pending : list pluginapi.Device;
  c_notifyCh : gset string;
  c_mutex : bool;
  c_stopCh : bool;
  c_pc : notify_pc;
  c_delivered : list (string * pluginapi.Device);
}.

Definition with_pc (c : DeviceCache) (pc : notify_pc) (mutex : bool) : DeviceCache :=
  mkDeviceCache (c_cache c) (c_pending c) (c_notifyCh c) mutex (c_stopCh c) pc (c_delivered c).

Definition AddNotifyChannel (c : DeviceCache) (name : string) : DeviceCache :=
  mkDeviceCache (c_cache c) (c_pending c) ({[name]} ∪ c_notifyCh c) (c_mutex c) (c_stopCh c) (c_pc c) (c_delivered c).
Definition RemoveNotifyChannel (c : DeviceCache) (name : string) : DeviceCache :=
  mkDeviceCache (c_cache c) (c_pending c) (c_notifyCh c ∖ {[name]}) (c_mutex c) (c_stopCh c) (c_pc c) (c_delivered c).

(** [NewDeviceCache] and [Start], with what the health check will report. *)
Definition cache_Start (cache : list MLUDevice) (reports : list pluginapi.Device) : DeviceCache :=
  mkDeviceCache cache reports ∅ false false Selecting [].
Definition cache_Stop (c : DeviceCache) : DeviceCache :=
  mkDeviceCache (c_cache c) (c_pending c) (c_notifyCh c) (c_mutex c) true (c_pc c) (c_delivered c).

(** [DeviceRegister.Start]: [WatchAndRegister], which it starts, does not
    receive from the channel. *)
Definition register_Start (c : DeviceCache) : DeviceCache := AddNotifyChannel c "register".

(** One step of the goroutines; [listens] are the channels some goroutine
    receives from.  Nothing in the program calls [RemoveNotifyChannel], so the
    channel of the registration stays; other channels may come and go. *)
Inductive cache_step (listens : gset string) : DeviceCache -> DeviceCache -> Prop :=
| step_receive c d ds :
    c_pc c = Selecting -> c_pending c = d :: ds ->
    cache_step listens c
      (mkDeviceCache (c_cache c) ds (c_notifyCh c) (c_mutex c) (c_stopCh c) (Locking (notify_message d)) (c_delivered c))
| step_return c :
    c_pc c = Selecting -> c_stopCh c = true -> cache_step listens c (with_pc c Returned (c_mutex c))
| step_lock c d chs :
    c_pc c = Locking d -> c_mutex c = false -> Permutation chs (elements (c_notifyCh c)) ->
    cache_step listens c (with_pc c (Sending d chs) true)
| step_send c d ch chs :
    c_pc c = Sending d (ch :: chs) -> ch ∈ listens ->
    cache_step listens c
      (mkDeviceCache (c_cache c) (c_pending c) (c_notifyCh c) (c_mutex c) (c_stopCh c) (Sending d chs)
         (c_delivered c ++ [(ch, d)]))
| step_unlock c d :
    c_pc c = Sending d [] -> cache_step listens c (with_pc c Selecting false)
| step_add c name :
    c_mutex c = false -> cache_step listens c (AddNotifyChannel c name)
| step_remove c name :
    c_mutex c = false -> name <> "register"%string -> cache_step listens c (RemoveNotifyChannel c name)
| step_stop c :
    c_stopCh c = false -> cache_step listens c (cache_Stop c).

(** [WatchAndRegister]: one round; the seconds it sleeps afterwards. *)
Definition mlu_register_round {W : Type} `{!KubeClient W} (GetDeviceMemory : Z -> Z + error) (GetDeviceModel : Z -> string)
    (DeviceSplitCount : Z) (devs : list MLUDevice) (nodeName now : string) : K W Z :=
  err ← RegistrInAnnotation GetDeviceMemory GetDeviceModel DeviceSplitCount devs nodeName now;
  mret (match err with Some _ => 5 | None => 30 end).

(** ** cntopo/cntopo.go *)

(** The file [/tmp/cntopo_input.json] and the entries of the answer. *)
Record topo_input := mkTopoInput { ti_num_devices : Z; ti_white_dev_list : list Z }.
Record topo_output := mkTopoOutput { to_ordinal_list : list Z; to_nonconflict_rings_num : Z }.

(** Files and commands, and the JSON codec of these two types. *)
Class TopoTool (T : Type) := {
  tt_WriteFile : string -> string -> T -> option error * T;
  tt_Run : string -> T -> option error * T;
  tt_ReadFile : string -> T -> (string + error) * T;
  tt_Marshal : topo_input -> string + error;
  tt_Unmarshal : string -> list topo_output + error;
}.

Definition topo_in : string := "/tmp/cntopo_input.json".
Definition topo_out : string := "/tmp/cntopo_output.json".
Definition topo_command : string := "cntopo find -I /tmp/cntopo_input.json -O /tmp/cntopo_output.json -R 1000000 -C".

Section rings.
Context {T : Type} `{!TopoTool T}.

Definition GetRings (available : list Z) (size : Z) : K T (list Ring + error) :=
  match tt_Marshal (mkTopoInput size available) with
  | inr err => mret (inr err)
  | inl b =>
      err ← call (tt_WriteFile topo_in b);
      match err with
      | Some err => mret (inr err)
      | None =>
          err ← call (tt_Run topo_command);
          match err with
          | Some err => mret (inr err)
          | None =>
              j ← call (tt_ReadFile topo_out);
              match j with
              | inr err => mret (inr err)
              | inl j =>
                  match tt_Unmarshal j with
                  | inr err => mret (inr err)
                  | inl output =>
                      mret (inl (foldl (fun rings o => rings ++ [mkRing (to_ordinal_list o) (to_nonconflict_rings_num o)])
                                   [] output))
                  end
              end
          end
      end
  end.
End rings.
