(* ===== verification/MLUServerFacts.v ===== *)
(** * Properties of the life of the MLU plugin

    Restarts leave no server behind, a successful [Serve] has registered with
    the kubelet, the health of a card reaches the devices cut from it, and the
    notifications of the device cache stop at the first report. *)

From Stdlib Require Import ZArith Lia Ascii String Sorted.
From stdpp Require Import base decidable option gmap strings numbers sorting list relations.
From S2P Require Import Prelude GoStrings GoTime GoRuntime Types Kube NodeLock Codec Devices Score Scheduler PodAlloc Cndev MLUAlloc MLU MLUFacts MLUServer.

#[local] Open Scope Z_scope.

(** ** Servers *)

(** Nothing of the plugin runs any more. *)
Definition stopped (s : MLUServer) : Prop :=
  s_serving s = false /\ (s_checks s = true -> s_stop s = true).

(** A plugin without a server is stopped; with one, its stop channel is open. *)
Record server_ok (s : MLUServer) : Prop := {
  so_stopped : s_server s = false -> stopped s;
  so_open : s_server s = true -> s_stop s = false;
}.

Lemma new_server_ok m : server_ok (new_server m).
Proof. by split. Qed.

Lemma mlu_Stop_ok removed s : server_ok s -> exists s' err, Stop removed s = Ret (s', err) /\ server_ok s' /\ stopped s'.
Proof.
  intros [Hs Ho]. unfold Stop. destruct (s_server s) eqn:E; simpl.
  - rewrite Ho by done. eexists _, _. split; [done|]. by repeat split.
  - exists s, None. split; [done|]. repeat split; intros; by (apply Hs || congruence).
Qed.

Lemma Start_server_ok a s s' err : server_ok s -> s_stop s = false -> Start a s = (s', err) -> server_ok s' /\ s_stop s' = false.
Proof.
  intros Hok Hst. unfold Start. destruct (an_Remove a), (an_Listen a), (an_Dial a); intros [= <- <-]; by split.
Qed.

Lemma Stop_fresh removed s : s_stop s = false -> exists s' err, Stop removed s = Ret (s', err) /\ (server_ok s -> server_ok s').
Proof.
  intros Hs. unfold Stop. destruct (s_server s) eqn:E; simpl; [rewrite Hs|];
    (eexists _, _; split; [done|done]).
Qed.

Section serve.
Context `{GoRuntime} {W : Type} `{!KubeClient W}.
Context (count : Z + error) (GetDeviceModel : Z -> string) (linked : list (list Z) + error).

(** [serve_socket] never closes the stop channel twice. *)
Lemma serve_socket_returns a s :
  server_ok s -> s_stop s = false ->
  exists s' err, serve_socket GetDeviceModel a s = Ret (s', err) /\ server_ok s'.
Proof.
  intros Hok Hst. unfold serve_socket. destruct (Start a s) as [s1 err] eqn:E.
  destruct (Start_server_ok a s s1 err Hok Hst E) as [Hok1 Hst1].
  destruct err as [e|]; [by eexists _, _|].
  destruct (Stop_fresh (an_RemoveAgain a) s1 Hst1) as (s2 & err2 & E2 & Hok2).
  destruct (resource_name _ _) as [name|]; [destruct (Register a s1 name)|]; try rewrite E2; simpl;
    eexists _, _; (split; [reflexivity|]); auto.
Qed.

Lemma serve_topology_server s (w w' : W) s' err :
  serve_topology GetDeviceModel linked s w = Ret ((s', err), w') ->
  s_plugin s' = s_plugin s /\ (server_ok s -> server_ok s') /\ s_stop s' = s_stop s.
Proof.
  unfold serve_topology. destruct (decide _); [|intros [= <- _ _]; by split_and!].
  intros (alloc & w1 & _ & E)%K_bind_inv.
  assert (forall l, server_ok s -> server_ok (mkMLUServer (s_plugin s) (s_server s) (s_serving s) (s_stop s) (s_checks s) l)) as Hl.
  { intros l [Hs Ho]. by split. }
  destruct (decide _).
  - injection E as <- _ _. split_and!; auto.
  - apply K_bind_inv in E as (err' & w2 & _ & [= <- _ _]). split_and!; auto.
Qed.

Lemma Serve_server a m (w w' : W) s' err :
  Serve count GetDeviceModel linked a (new_server m) w = Ret ((s', err), w') -> server_ok s'.
Proof.
  unfold Serve. case_match; [done|].
  intros ([s1 err1] & w1 & E1 & E)%K_bind_inv.
  apply serve_topology_server in E1 as (_ & Hok & Hst). specialize (Hok (new_server_ok m)).
  destruct err1; [by injection E as <- _ _|].
  apply K_bind_inv in E as (err2 & w2 & _ & E). destruct err2; [by injection E as <- _ _|].
  apply lift_inv in E as [E _].
  destruct (serve_socket_returns a s1 Hok Hst) as (s2 & err2 & E2 & Hok2).
  rewrite E2 in E. by injection E as <- _.
Qed.

(** What a [Serve] without error has done. *)
Lemma Serve_success a m (w w' : W) s' :
  Serve count GetDeviceModel linked a (new_server m) w = Ret ((s', None), w') ->
  s_plugin s' = m /\ s_serving s' = true /\ s_checks s' = negb (o_DisableHealthCheck (m_options m)) /\
  exists name, resource_name (m_options m) (GetDeviceModel 0) = Some name /\
    an_DialKubelet a = None /\
    an_Register a (mkRegisterRequest "v1beta1" "cambricon.sock" name (GetDevicePluginOptions m)) = None.
Proof.
  unfold Serve. case_match; [done|].
  intros ([s1 err1] & w1 & E1 & E)%K_bind_inv.
  assert (s_checks s1 = false) as Hc.
  { clear E. unfold serve_topology in E1. destruct (decide _); [|by injection E1 as <- _ _].
    apply K_bind_inv in E1 as (? & ? & _ & E1). destruct (decide _); [by injection E1 as <- _ _|].
    by apply K_bind_inv in E1 as (? & ? & _ & [= <- _ _]). }
  apply serve_topology_server in E1 as (Hp & _ & Hst). simpl in Hp, Hst.
  destruct err1; [done|].
  apply K_bind_inv in E as (err2 & w2 & _ & E). destruct err2; [done|].
  apply lift_inv in E as [E _]. simpl in E. unfold serve_socket, Start, Stop in E.
  rewrite Hp, Hc, Hst in E.
  destruct (an_Remove a), (an_Listen a), (an_Dial a); try done. simpl in E.
  destruct (resource_name _ _) as [name|]; [|done].
  unfold Register in E. simpl in E. destruct (an_DialKubelet a) eqn:Ed; simpl in E; [done|].
  destruct (an_Register a _) eqn:Er; simpl in E; [done|]. injection E as <-. repeat split. exists name. done.
Qed.
End serve.

(** ** The restarts *)
Record mlu_main_ok (st : main_state) : Prop := {
  mo_current : server_ok (mm_current st);
  mo_old : Forall stopped (mm_old st);
  mo_done : mm_done st = true -> stopped (mm_current st);
}.

Section main.
Context `{GoRuntime} {W : Type} `{!Sysfs W} `{!KubeClient W}.
Context (getDeviceInfo : Z -> card_info + error) (getDevicePCIeInfo : Z -> pcie + error).
Context (GetDeviceMemory : Z -> Z + error) (count : Z + error) (GetDeviceModel : Z -> string).
Context (linked : list (list Z) + error) (Glob : string -> list string + error) (options : Options).
#[local] Abbreviation start := (start_plugin getDeviceInfo getDevicePCIeInfo GetDeviceMemory count GetDeviceModel linked Glob options).
#[local] Abbreviation step := (main_step getDeviceInfo getDevicePCIeInfo GetDeviceMemory count GetDeviceModel linked Glob options).
#[local] Abbreviation run := (main_run getDeviceInfo getDevicePCIeInfo GetDeviceMemory count GetDeviceModel linked Glob options).

Lemma start_plugin_ok a old (w w' : W) st : Forall stopped old -> start a old w = Ret (st, w') -> mlu_main_ok st.
Proof.
  intros Hold. unfold start_plugin. intros (m & w1 & _ & E)%K_bind_inv.
  apply K_bind_inv in E as ([s err] & w2 & Es & [= <- _]). split; simpl; [|done|done].
  by eapply Serve_server.
Qed.

Lemma restart_ok removed a st (w w' : W) st' :
  mlu_main_ok st ->
  ('(s, _) ← lift (Stop removed (mm_current st)); start a (mm_old st ++ [s])) w = Ret (st', w') -> mlu_main_ok st'.
Proof.
  intros [Hc Ho _] ([s err] & w1 & Es & E)%K_bind_inv. apply lift_inv in Es as [Es _]. simpl in Es.
  destruct (mlu_Stop_ok removed _ Hc) as (s2 & err2 & E2 & _ & Hst). rewrite E2 in Es. injection Es as <- <-.
  eapply start_plugin_ok; [|exact E]. apply Forall_app_2; [done|]. by constructor.
Qed.

Lemma mlu_main_step_ok removed a ev st (w w' : W) st' : mlu_main_ok st -> step removed a ev st w = Ret (st', w') -> mlu_main_ok st'.
Proof.
  intros Hok. unfold main_step. destruct (mm_done st); [by intros [= <- _]|].
  destruct ev; [destruct (mm_startErr st); [|by intros [= <- _]]| | | | |]; try (by apply restart_ok); try (by intros [= <- _]).
  intros ([s err] & w1 & Es & [= <- _])%K_bind_inv. apply lift_inv in Es as [Es _]. simpl in Es.
  destruct (mlu_Stop_ok removed _ (mo_current _ Hok)) as (s2 & err2 & E2 & Hs & Hst). rewrite E2 in Es.
  injection Es as <- <-. split; simpl; [done|apply Hok|done].
Qed.

Lemma mlu_main_run_ok l : forall st (w w' : W) st', mlu_main_ok st -> run st l w = Ret (st', w') -> mlu_main_ok st'.
Proof.
  induction l as [|[[ev a] removed] l IH]; intros st w w' st' Hok; simpl; [by intros [= <- _]|].
  intros (st1 & w1 & E1 & E)%K_bind_inv. eapply IH; [|exact E]. by eapply mlu_main_step_ok.
Qed.
End main.

(** ** Health *)
Lemma set_health_map d devs :
  NoDup (pluginapi.ID <$> devs) ->
  set_health d devs =
    (fun dev => if decide (pluginapi.ID dev = pluginapi.ID d) then pluginapi.mkDevice (pluginapi.ID dev) (pluginapi.Health d) else dev) <$> devs.
Proof.
  induction devs as [|dev devs IH]; [done|]. intros [Hni Hnd]%NoDup_cons. cbn [set_health fmap list_fmap].
  destruct (decide (pluginapi.ID dev = pluginapi.ID d)) as [E|E]; [|by rewrite IH].
  f_equal. symmetry. etransitivity; [|apply list_fmap_id]. apply list_fmap_ext. intros i x Hx.
  rewrite decide_False; [done|]. intros E'. apply Hni. rewrite E, <- E'.
  apply list_elem_of_fmap_2. by eapply list_elem_of_lookup_2.
Qed.

(** The device as the kubelet sees it once the devices of [ids] are unhealthy. *)
Definition marked (ids : list string) (dev : pluginapi.Device) : pluginapi.Device :=
  if decide (pluginapi.ID dev ∈ ids) then pluginapi.mkDevice (pluginapi.ID dev) pluginapi.Unhealthy else dev.

Lemma marked_ids ids (devs : list pluginapi.Device) : pluginapi.ID <$> (marked ids <$> devs) = pluginapi.ID <$> devs.
Proof. rewrite <- list_fmap_compose. apply list_fmap_ext. intros i x _. unfold marked. simpl. by case_decide. Qed.

Lemma watch_health_marks ids : forall m, NoDup (pluginapi.ID <$> m_devs m) ->
  let msgs := (fun id => pluginapi.mkDevice id pluginapi.Unhealthy) <$> ids in
  m_devs (watch_health m msgs).1 = marked ids <$> m_devs m /\
  last (m_devs m :: (watch_health m msgs).2) = Some (m_devs (watch_health m msgs).1).
Proof.
  induction ids as [|id ids IH]; intros m Hnd; cbn [fmap list_fmap watch_health].
  { split; [|done]. simpl. symmetry. etransitivity; [|apply list_fmap_id]. apply list_fmap_ext. intros i x _.
    unfold marked. by rewrite decide_False by apply not_elem_of_nil. }
  set (m1 := ListAndWatch_health m _).
  assert (m_devs m1 = marked [id] <$> m_devs m) as E1.
  { unfold m1. simpl. rewrite set_health_map by done. apply list_fmap_ext. intros i x _. unfold marked. simpl.
    destruct (decide (pluginapi.ID x = id)) as [->|Hne]; [by rewrite decide_True by by left|].
    rewrite decide_False; [done|]. by intros ?%list_elem_of_singleton. }
  clearbody m1. destruct (IH m1) as [Hd Hl]; [by rewrite E1, marked_ids|].
  destruct (watch_health m1 _) as [m' sent] eqn:E. simpl in Hd, Hl |- *. split; [|by destruct sent].
  rewrite Hd, E1, <- list_fmap_compose. apply list_fmap_ext. intros i x _. unfold marked, compose. simpl.
  destruct (decide (pluginapi.ID x = id)) as [->|Hne].
  - rewrite (decide_True (P := id ∈ id :: ids)) by by left. rewrite (decide_True (P := id ∈ [id])) by by left.
    simpl. by case_decide.
  - rewrite (decide_False (P := _ ∈ [id])) by by intros ?%list_elem_of_singleton.
    destruct (decide (pluginapi.ID x ∈ ids)) as [Hin|Hin].
    + by rewrite decide_True by by right.
    + rewrite decide_False; [done|]. by intros [?|?]%elem_of_cons.
Qed.

(** The first round reports each card that reads unhealthy. *)
Lemma first_round GetHealth cards unhealthy :
  NoDup (cndev.UUID <$> cards) -> (forall c, c ∈ cards -> cndev.UUID c ∉ unhealthy) ->
  (health_round GetHealth cards unhealthy).2 =
    (fun id => pluginapi.mkDevice id pluginapi.Unhealthy) <$>
      (cndev.UUID <$> filter (fun c => reads_unhealthy (GetHealth (cndev.Slot c))) cards).
Proof.
  revert unhealthy. induction cards as [|c cards IH]; intros unhealthy Hnd Hu; [done|].
  cbn [fmap list_fmap] in Hnd. apply NoDup_cons in Hnd as [Hni Hnd]. cbn [health_round]. rewrite health_card_spec.
  rewrite decide_False by (apply Hu; by left). rewrite filter_cons.
  assert (forall c', c' ∈ cards -> cndev.UUID c' <> cndev.UUID c) as Hdist.
  { intros c' Hc' E. apply Hni. rewrite <- E. by apply list_elem_of_fmap_2. }
  destruct (decide (reads_unhealthy _)) as [Hr|Hr].
  - specialize (IH ({[cndev.UUID c]} ∪ unhealthy) Hnd). destruct (health_round GetHealth cards _) as [un msgs].
    simpl in IH |- *. rewrite IH; [done|]. intros c' Hc' [E%elem_of_singleton|E]%elem_of_union;
      [by apply (Hdist c')|by apply (Hu c'); [right|]].
  - specialize (IH unhealthy Hnd). destruct (health_round GetHealth cards _) as [un msgs]. simpl in IH |- *.
    apply IH. intros c' Hc'. apply Hu. by right.
Qed.

(** ** Notifications *)

(** Nobody listens to the channel of the registration: [notify] has received
    at most one report, and once it holds the mutex it waits to pass it on. *)
Record notify_blocked (reports : list pluginapi.Device) (c : DeviceCache) : Prop := {
  nb_registered : "register"%string ∈ c_notifyCh c;
  nb_silent d : ("register"%string, d) ∉ c_delivered c;
  nb_pc : match c_pc c with
          | Selecting | Returned => c_pending c = reports /\ c_mutex c = false
          | Locking _ => c_pending c = tail reports /\ c_mutex c = false
          | Sending _ chs => c_pending c = tail reports /\ c_mutex c = true /\ "register"%string ∈ chs
          end;
}.

Lemma notify_blocked_step reports listens c c' :
  "register"%string ∉ listens ->
  notify_blocked reports c -> cache_step listens c c' -> notify_blocked reports c'.
Proof.
  intros Hl [Hr Hs Hpc] Hstep. destruct Hstep as
    [c d ds E Ep|c E Es|c d chs E Em Hp|c d ch chs E Hin|c d E|c name Em|c name Em Hn|c Es];
    try rewrite E in Hpc; constructor; simpl; try done.
  - destruct Hpc as [Hpend ?]. split; [|done]. by rewrite <- Hpend, Ep.
  - destruct Hpc as [? _]. repeat split; [done|]. rewrite Hp. by apply elem_of_elements.
  - intros d' [Hd|Hd]%elem_of_app; [by apply (Hs d')|]. apply list_elem_of_singleton in Hd. by injection Hd as <- _.
  - destruct Hpc as (? & ? & [<-|?]%elem_of_cons); done.
  - destruct Hpc as (_ & _ & Hn). by apply elem_of_nil in Hn.
  - set_solver.
  - set_solver.
Qed.

Lemma notify_blocked_run reports listens c c' :
  "register"%string ∉ listens ->
  notify_blocked reports c -> rtc (cache_step listens) c c' -> notify_blocked reports c'.
Proof. intros Hl Hb Hrun. induction Hrun; [done|]. eauto using notify_blocked_step. Qed.

Lemma mutex_kept reports listens c c' :
  "register"%string ∉ listens -> notify_blocked reports c -> c_mutex c = true ->
  cache_step listens c c' -> c_mutex c' = true.
Proof.
  intros Hl [Hr Hs Hpc] Hm Hstep. destruct (c_pc c) eqn:Epc; try (destruct Hpc; congruence).
  destruct Hpc as (_ & _ & Hin). destruct Hstep as
    [c d ds E Ep|c E Es|c d chs' E Em Hp|c d ch chs' E Hi|c d E|c name Em|c name Em Hn|c Es]; simpl; try congruence.
  rewrite E in Epc. injection Epc as <- <-. by apply elem_of_nil in Hin.
Qed.

(** ** The topology tool *)

(** What the tool promises about the file it writes, for the input that is on
    disk when it is run. *)
Class TopoToolSpec (T : Type) `{!TopoTool T} : Prop := {
  topo_rings i b t t1 t2 t3 j output o :
    tt_Marshal i = inl b -> tt_WriteFile topo_in b t = (None, t1) -> tt_Run topo_command t1 = (None, t2) ->
    tt_ReadFile topo_out t2 = (inl j, t3) -> tt_Unmarshal j = inl output -> o ∈ output ->
    NoDup (to_ordinal_list o) /\ to_ordinal_list o ⊆ ti_white_dev_list i /\
    Z.of_nat (length (to_ordinal_list o)) = ti_num_devices i;
}.

Lemma GetRings_returns {T} `{!TopoTool T} available size (t : T) : exists r t', GetRings available size t = Ret (r, t').
Proof.
  unfold GetRings, mbind, K_bind, call, mret, K_ret. destruct (tt_Marshal _); [|eauto].
  destruct (tt_WriteFile _ _ t) as [[e|] t1]; [eauto|]. destruct (tt_Run _ t1) as [[e|] t2]; [eauto|].
  destruct (tt_ReadFile _ t2) as [[j|e] t3]; [|eauto]. destruct (tt_Unmarshal j); eauto.
Qed.

(** The rings a call of the tool gives, as the allocators see them. *)
Definition tool_rings {T} `{!TopoTool T} (t : T) (available : list Z) (size : Z) : list Ring + error :=
  match GetRings available size t with Ret (r, _) => r | Panic _ => inr ""%string end.

(** The tool discharges what the allocators assume of [GetRings]. *)
Lemma tool_rings_ok {T} `{!TopoTool T} `{!TopoToolSpec T} (t : T) : rings_ok (tool_rings t).
Proof.
  intros available size rings _. unfold tool_rings, GetRings, mbind, K_bind, call, mret, K_ret.
  destruct (tt_Marshal _) as [b|] eqn:Em; [|done].
  destruct (tt_WriteFile _ b t) as [[e|] t1] eqn:Ew; [done|]. destruct (tt_Run _ t1) as [[e|] t2] eqn:Er; [done|].
  destruct (tt_ReadFile _ t2) as [[j|e] t3] eqn:Ef; [|done]. destruct (tt_Unmarshal j) as [output|] eqn:Eu; [|done].
  intros [= <-].
  assert (forall l acc, (forall o, o ∈ l -> o ∈ output) -> Forall (ring_within available size) acc ->
    Forall (ring_within available size)
      (foldl (fun rings o => rings ++ [mkRing (to_ordinal_list o) (to_nonconflict_rings_num o)]) acc l)) as Hfold.
  { induction l as [|o l IH]; intros acc Hl Hacc; simpl; [done|].
    apply IH; [intros o' ?; apply Hl; by right|]. apply Forall_app_2; [done|]. constructor; [|constructor].
    eapply (topo_rings _ b t t1 t2 t3 j output o) in Em; eauto. apply Hl. by left. }
  apply Hfold; [done|constructor].
Qed.

Module MLUServerProps.

(** C25. Restarting the MLU plugin leaves nothing behind: after any sequence of
    failed starts, kubelet restarts and signals, every earlier plugin has its
    server stopped and the channel closed that ends its health check, once
    [main] is told to end the current one has too, and the [Stop] that comes
    next never closes a channel twice. *)
Theorem restarts_leave_nothing `{GoRuntime} {W} `{!Sysfs W} `{!KubeClient W}
    getDeviceInfo getDevicePCIeInfo GetDeviceMemory count GetDeviceModel linked Glob options a l (w w1 w2 : W) st st' :
  start_plugin getDeviceInfo getDevicePCIeInfo GetDeviceMemory count GetDeviceModel linked Glob options a [] w = Ret (st, w1) ->
  main_run getDeviceInfo getDevicePCIeInfo GetDeviceMemory count GetDeviceModel linked Glob options st l w1 = Ret (st', w2) ->
  Forall stopped (mm_old st') /\ (mm_done st' = true -> stopped (mm_current st')) /\
  forall removed, exists s err, Stop removed (mm_current st') = Ret (s, err) /\ stopped s.
Proof.
  intros E0 E. apply start_plugin_ok in E0; [|constructor]. apply mlu_main_run_ok in E as [Hc Ho Hd]; [|done].
  split_and!; [done|done|]. intros removed. destruct (mlu_Stop_ok removed _ Hc) as (s & err & Es & _ & Hs). eauto.
Qed.

(** A node of one card, whose driver needs no sysfs. *)
Definition node_sysfs : Sysfs Server := {| os_ReadFile _ f := (inr "no file"%string, f); sh_echo _ _ f := (None, f) |}.
Definition node_info (i : Z) : card_info + error := inl (("MLU-" +:+ itoa i)%string, "1"%string, "2"%string, dev_path i).
Definition default_options : Options := mkOptions "default" BestEffort 1 "n1" false "" false false "".
Definition all_well : serve_answers := mkServeAnswers None None None None (fun _ => None) None.
Definition kubelet_down : serve_answers := mkServeAnswers None None None (Some "no kubelet"%string) (fun _ => None) None.
Definition one_node : Server := mkServer {["n1" := [Some ∅]]} [] [] epoch [].
Definition one_card_plugin : CambriconDevicePlugin :=
  mkMLUPlugin [pluginapi.mkDevice "MLU-0" pluginapi.Healthy]
    {["MLU-0"%string := cndev.mkDevice 0 "MLU-0" "1" (dev_path 0) "2" None]}
    (mkDeviceList false false false false false false false false) "n1" default_options.
Definition server_of (server stop : bool) : MLUServer := mkMLUServer one_card_plugin server server stop true None.

(** The kubelet is down at the first start, comes up, and restarts later. *)
Lemma restarts_leave_nothing_witness :
  Forall stopped [server_of false true; server_of false true] /\
  (false = true -> stopped (server_of true false)) /\
  forall removed, exists s err, Stop removed (server_of true false) = Ret (s, err) /\ stopped s.
Proof.
  apply (@restarts_leave_nothing go_reference Server node_sysfs _ node_info (fun _ => inr ""%string)
    (fun _ => inl 2048) (inl 1) (fun _ => "MLU370-X8"%string) (inl []) (fun _ => inl []) default_options
    kubelet_down [(StartErr, all_well, None); (KubeletSocketCreated, all_well, None)] one_node one_node one_node
    (mkMainState (server_of false true) [] true false)
    (mkMainState (server_of true false) [server_of false true; server_of false true] false false));
    vm_compute; reflexivity.
Defined.

(** A [Serve] that returns without error has the plugin's server running, its
    health check as the flag says, and the kubelet has accepted the
    registration of the plugin's socket under the resource name of the options
    (memory for mlu-share, the card model with the device-type flag). *)
Theorem Serve_registers `{GoRuntime} {W} `{!KubeClient W} count GetDeviceModel linked a m (w w' : W) s' :
  Serve count GetDeviceModel linked a (new_server m) w = Ret ((s', None), w') ->
  s_plugin s' = m /\ s_serving s' = true /\ s_checks s' = negb (o_DisableHealthCheck (m_options m)) /\
  exists name, resource_name (m_options m) (GetDeviceModel 0) = Some name /\
    an_DialKubelet a = None /\
    an_Register a (mkRegisterRequest "v1beta1" "cambricon.sock" name (GetDevicePluginOptions m)) = None.
Proof. apply Serve_success. Qed.

Lemma Serve_registers_witness :
  s_plugin (server_of true false) = one_card_plugin /\ s_serving (server_of true false) = true /\
  s_checks (server_of true false) = true /\
  exists name, resource_name default_options "MLU370-X8" = Some name /\
    an_DialKubelet all_well = None /\
    an_Register all_well (mkRegisterRequest "v1beta1" "cambricon.sock" name false) = None.
Proof.
  apply (@Serve_registers go_reference Server _ (inl 1) (fun _ => "MLU370-X8"%string) (inl []) all_well one_card_plugin
    one_node one_node (server_of true false)).
  vm_compute. reflexivity.
Defined.

(** A card that turns unhealthy reaches the kubelet on every device cut from
    it: when the first round of the health check finds cards that read
    unhealthy, the last list [ListAndWatch] sends is the list of the plugin
    with exactly the devices of those cards marked unhealthy, whatever order
    the map was walked in. *)
Theorem unhealthy_card_reaches_kubelet `{GoRuntime} n GetHealth m :
  NoDup (pluginapi.ID <$> m_devs m) ->
  (forall id card, m_devsInfo m !! id = Some card -> cndev.UUID card = id) ->
  last (ListAndWatch m (watchUnhealthy_round n GetHealth (m_devsInfo m) ∅).2).2 =
  Some ((fun dev =>
     match m_devsInfo m !! pluginapi.ID dev with
     | Some card =>
         if decide (reads_unhealthy (GetHealth (cndev.Slot card)))
         then pluginapi.mkDevice (pluginapi.ID dev) pluginapi.Unhealthy else dev
     | None => dev
     end) <$> m_devs m).
Proof.
  intros Hnd Huuid. unfold watchUnhealthy_round. set (t := (_, n)). set (cards := (range t (m_devsInfo m)).*2).
  assert (forall c, c ∈ cards <-> m_devsInfo m !! cndev.UUID c = Some c) as Hcards.
  { intros c. unfold cards. rewrite list_elem_of_fmap. split.
    - intros ([id c'] & -> & Hin%elem_of_range). simpl. by rewrite (Huuid id c').
    - intros Hc. exists (cndev.UUID c, c). split; [done|]. by apply elem_of_range. }
  assert (NoDup (cndev.UUID <$> cards)) as Hc.
  { replace (cndev.UUID <$> cards) with ((range t (m_devsInfo m)).*1); [apply range_NoDup|].
    unfold cards. rewrite <- list_fmap_compose. apply list_fmap_ext. intros i [id c] Hi. simpl. symmetry.
    apply (Huuid id c). apply (elem_of_range t (m_devsInfo m) id c). by eapply list_elem_of_lookup_2. }
  rewrite first_round; [|done|set_solver]. set (ids := cndev.UUID <$> _).
  destruct (watch_health_marks ids m Hnd) as [Hd Hl]. unfold ListAndWatch.
  destruct (watch_health m _) as [m' sent]. simpl in Hd, Hl |- *. rewrite Hl, Hd. f_equal.
  apply list_fmap_ext. intros i dev _. unfold marked.
  assert (pluginapi.ID dev ∈ ids <-> exists card, m_devsInfo m !! pluginapi.ID dev = Some card /\
    reads_unhealthy (GetHealth (cndev.Slot card))) as Hids.
  { unfold ids. rewrite list_elem_of_fmap. setoid_rewrite list_elem_of_filter. split.
    - intros (c & -> & Hr & Hin%Hcards). eauto.
    - intros (c & Hc' & Hr). exists c. rewrite Hcards, (Huuid _ _ Hc'). auto. }
  destruct (m_devsInfo m !! pluginapi.ID dev) as [card|] eqn:Ei.
  - destruct (decide (reads_unhealthy _)) as [Hr|Hr]; [rewrite decide_True; [done|]; apply Hids; eauto|].
    rewrite decide_False; [done|]. intros (c & [= <-] & ?)%Hids. done.
  - rewrite decide_False; [done|]. by intros (c & [=] & _)%Hids.
Qed.

(** Two devices cut from card 0 and one from card 1, of which card 0 breaks. *)
Definition cut_plugin : CambriconDevicePlugin :=
  mkMLUPlugin ((fun id => pluginapi.mkDevice id pluginapi.Healthy) <$> ["a-_-1"; "a-_-2"; "b-_-1"]%string)
    {["a-_-1"%string := cndev.mkDevice 0 "a-_-1" "" (dev_path 0) "" None;
      "a-_-2"%string := cndev.mkDevice 0 "a-_-2" "" (dev_path 0) "" None;
      "b-_-1"%string := cndev.mkDevice 1 "b-_-1" "" (dev_path 1) "" None]}
    (mkDeviceList false false false false false false false false) "n1" default_options.
Definition card0_broken (slot : Z) : Z + error := if slot =? 0 then inr "no answer"%string else inl 1.

Lemma unhealthy_card_reaches_kubelet_witness :
  last (@ListAndWatch cut_plugin (@watchUnhealthy_round go_reference 0 card0_broken (m_devsInfo cut_plugin) ∅).2).2 =
  Some [pluginapi.mkDevice "a-_-1" pluginapi.Unhealthy; pluginapi.mkDevice "a-_-2" pluginapi.Unhealthy;
        pluginapi.mkDevice "b-_-1" pluginapi.Healthy].
Proof.
  apply (@unhealthy_card_reaches_kubelet go_reference 0 card0_broken cut_plugin).
  - apply (bool_decide_unpack _). vm_compute. exact I.
  - intros id card. unfold cut_plugin. simpl.
    intros [[<- <-]|[_ [[<- <-]|[_ [<- <-]%lookup_singleton_Some]]%lookup_insert_Some]]%lookup_insert_Some; reflexivity.
Defined.

(** The notifications of the MLU device cache stop at the first report: no
    goroutine receives from the channel the registration adds, so [notify]
    takes at most one report from the health check, passes nothing to the
    registration, and keeps the mutex for ever once it has it. *)
Theorem notify_stops_at_first_report cache reports listens c :
  "register"%string ∉ listens ->
  rtc (cache_step listens) (register_Start (cache_Start cache reports)) c ->
  (c_pending c = reports \/ c_pending c = tail reports) /\
  (forall d, ("register"%string, d) ∉ c_delivered c) /\
  (c_mutex c = true -> forall c', rtc (cache_step listens) c c' -> c_mutex c' = true).
Proof.
  intros Hl Hrun.
  assert (notify_blocked reports c) as Hb.
  { eapply notify_blocked_run; [done| |done]. constructor; simpl; [set_solver|intros d; apply not_elem_of_nil|done]. }
  split_and!.
  - destruct Hb as [_ _ Hpc]. destruct (c_pc c); naive_solver.
  - apply Hb.
  - intros Hm c' Hrun'. clear Hrun. induction Hrun' as [|c1 c2 c3 Hstep _ IH]; [done|].
    apply IH; [by eapply notify_blocked_step|by eapply mutex_kept].
Qed.

Lemma notify_stops_at_first_report_witness :
  let d := pluginapi.mkDevice "MLU-0" pluginapi.Unhealthy in
  let c := with_pc (mkDeviceCache [] [d] {["register"%string]} false false (Locking d) [])
             (Sending d ["register"%string]) true in
  (c_pending c = [d; d] \/ c_pending c = [d]) /\
  (forall d', ("register"%string, d') ∉ c_delivered c) /\
  (c_mutex c = true -> forall c', rtc (cache_step ∅) c c' -> c_mutex c' = true).
Proof.
  intros d c. apply (notify_stops_at_first_report [] [d; d] ∅ c).
  - apply (bool_decide_unpack _). vm_compute. exact I.
  - eapply rtc_l; [by eapply (step_receive ∅ _ d [d])|]. eapply rtc_l; [|apply rtc_refl].
    apply (step_lock ∅ _ d ["register"%string]); [reflexivity|reflexivity|vm_compute; reflexivity].
Defined.
End MLUServerProps.
