(* ===== verification/Monitor.v ===== *)
(** * The vGPU monitor ([cmd/vGPUmonitor])

    Every container that uses a virtual GPU maps a shared region; the monitor
    reads and writes it.  [Observe] (feedback.go) lets a low-priority task
    wait while a high-priority one uses the same card and switches the
    utilization limit; [monitorpath] (pathmonitor.go) keeps the table of the
    regions in step with the directories of the containers;
    [getDeviceUsedMemory] (cudevshr.go) sums what the processes use.

    A region is the memory of one container: the monitor's table holds one
    pointer per container, modelled by the table's value.  What the container
    itself writes between two rounds is part of the next round's state. *)

From Stdlib Require Import ZArith Lia Ascii String.
From stdpp Require Import base decidable option gmap strings numbers sorting list.
From S2P Require Import Prelude GoStrings GoTime GoRuntime Types.

#[local] Open Scope Z_scope.

(** ** Shared regions *)

(** [uint64] *)
Definition u64 (z : Z) : Z := z mod 2 ^ 64.

Record deviceMemory := mkDeviceMemory {
  dm_contextSize : Z;
  dm_moduleSize : Z;
  dm_bufferSize : Z;
  dm_offset : Z;
  dm_total : Z;
}.

(** Of [shrregProcSlotT]: the fields the monitor reads. *)
Record procSlot := mkProc { proc_pid : Z; proc_hostpid : Z; proc_used : list deviceMemory }.

Definition proc_totals (p : procSlot) : list Z := dm_total <$> proc_used p.

(** Of [sharedRegionT]; a UUID is an array of 96 bytes, and a null device has
    a zero byte in front. *)
Record sharedRegionT := mkRegion {
  sr_num : Z;
  sr_uuids : list string;
  sr_limit : list Z;
  sr_procs : list procSlot;
  sr_utilizationSwitch : Z;
  sr_recentKernel : Z;
  sr_priority : Z;
}.

Record podusage := mkPodusage { pu_idstr : string; pu_sr : option sharedRegionT }.

#[export] Instance deviceMemory_eq_dec : EqDecision deviceMemory.
Proof. solve_decision. Defined.
#[export] Instance procSlot_eq_dec : EqDecision procSlot.
Proof. solve_decision. Defined.
#[export] Instance sharedRegionT_eq_dec : EqDecision sharedRegionT.
Proof. solve_decision. Defined.

Definition with_recentKernel (sr : sharedRegionT) (n : Z) : sharedRegionT :=
  mkRegion (sr_num sr) (sr_uuids sr) (sr_limit sr) (sr_procs sr) (sr_utilizationSwitch sr) n (sr_priority sr).
Definition with_switch (sr : sharedRegionT) (n : Z) : sharedRegionT :=
  mkRegion (sr_num sr) (sr_uuids sr) (sr_limit sr) (sr_procs sr) n (sr_recentKernel sr) (sr_priority sr).

Definition null_uuid (u : string) : bool :=
  match u with String c _ => (c =? "000")%char | EmptyString => true end.

(** ** cudevshr.go *)
Definition used_at (idx : Z) (p : procSlot) : outcome Z :=
  if idx <? 0 then Panic IndexOutOfRange else (m ← slice_get (proc_used p) (Z.to_nat idx); Ret (dm_total m)).

Fixpoint sum_used (idx : Z) (procs : list procSlot) (sum : Z) : outcome Z :=
  match procs with
  | [] => Ret sum
  | p :: procs' => n ← used_at idx p; sum_used idx procs' (u64 (sum + n))
  end.

Definition device_idx_error : error := "out of device idx".

Definition getDeviceUsedMemory (idx : Z) (sharedregion : sharedRegionT) : outcome (Z * option error) :=
  if (idx <? 0) || (16 <? idx) then Ret (0, Some device_idx_error)
  else (sum ← sum_used idx (sr_procs sharedregion) 0; Ret (sum, None)).

(** ** feedback.go *)
Abbreviation Utilization := (gmap string (list Z)).

Definition int_get (l : list Z) (i : Z) : outcome Z :=
  if i <? 0 then Panic IndexOutOfRange else slice_get l (Z.to_nat i).

(** [for i := 0; i < p; i++ { if l[i] > 0 { return true } }] *)
Fixpoint higher_active (l : list Z) (i : nat) (n : nat) : outcome bool :=
  match n with
  | O => Ret false
  | S n' => x ← slice_get l i; if 0 <? x then Ret true else higher_active l (S i) n'
  end.

Fixpoint CheckBlocking (utSwitchOn : Utilization) (p : Z) (uuids : list string) : outcome bool :=
  match uuids with
  | [] => Ret false
  | u :: uuids' =>
      match utSwitchOn !! u with
      | Some l => higher_active l 0 (Z.to_nat p)
      | None => CheckBlocking utSwitchOn p uuids'
      end
  end.

Fixpoint CheckPriority (utSwitchOn : Utilization) (p : Z) (uuids : list string) : outcome bool :=
  match uuids with
  | [] => Ret false
  | u :: uuids' =>
      match utSwitchOn !! u with
      | Some l =>
          b ← higher_active l 0 (Z.to_nat p);
          if (b : bool) then Ret true
          else (x ← int_get l p; if 1 <? x then Ret true else CheckPriority utSwitchOn p uuids')
      | None => CheckPriority utSwitchOn p uuids'
      end
  end.

(** [utSwitchOn[u][priority]++], the entry made first when it is empty. *)
Fixpoint count_uuids (priority : Z) (uuids : list string) (utSwitchOn : Utilization) : outcome Utilization :=
  match uuids with
  | [] => Ret utSwitchOn
  | u :: uuids' =>
      if null_uuid u then count_uuids priority uuids' utSwitchOn
      else
        let l := match default [] (utSwitchOn !! u) with [] => [0; 0] | l => l end in
        x ← int_get l priority;
        count_uuids priority uuids' (<[u := <[Z.to_nat priority := x + 1]> l]> utSwitchOn)
  end.

(** The first loop of [Observe]. *)
Fixpoint observe_active (l : list (string * podusage)) (srlist : gmap string podusage) (utSwitchOn : Utilization)
    : outcome (gmap string podusage * Utilization) :=
  match l with
  | [] => Ret (srlist, utSwitchOn)
  | (idx, val) :: l' =>
      match pu_sr val with
      | None => observe_active l' srlist utSwitchOn
      | Some sr =>
          if 0 <? sr_recentKernel sr then
            let sr := with_recentKernel sr (sr_recentKernel sr - 1) in
            let srlist := <[idx := mkPodusage (pu_idstr val) (Some sr)]> srlist in
            if 0 <? sr_recentKernel sr then
              utSwitchOn ← count_uuids (sr_priority sr) (sr_uuids sr) utSwitchOn;
              observe_active l' srlist utSwitchOn
            else observe_active l' srlist utSwitchOn
          else observe_active l' srlist utSwitchOn
      end
  end.

(** The body of the second loop. *)
Definition observe_region (utSwitchOn : Utilization) (sr : sharedRegionT) : outcome sharedRegionT :=
  blocking ← CheckBlocking utSwitchOn (sr_priority sr) (sr_uuids sr);
  let sr := if (blocking : bool) then if 0 <=? sr_recentKernel sr then with_recentKernel sr (-1) else sr
            else if sr_recentKernel sr <? 0 then with_recentKernel sr 0 else sr in
  limited ← CheckPriority utSwitchOn (sr_priority sr) (sr_uuids sr);
  Ret (if (limited : bool) then if negb (sr_utilizationSwitch sr =? 1) then with_switch sr 1 else sr
       else if negb (sr_utilizationSwitch sr =? 0) then with_switch sr 0 else sr).

Fixpoint observe_set (l : list (string * podusage)) (srlist : gmap string podusage) (utSwitchOn : Utilization)
    : outcome (gmap string podusage) :=
  match l with
  | [] => Ret srlist
  | (idx, val) :: l' =>
      match pu_sr val with
      | None => observe_set l' srlist utSwitchOn
      | Some sr =>
          sr ← observe_region utSwitchOn sr;
          observe_set l' (<[idx := mkPodusage (pu_idstr val) (Some sr)]> srlist) utSwitchOn
      end
  end.

Definition Observe `{GoRuntime} (srlist : gmap string podusage) : outcome (gmap string podusage) :=
  '(srlist, utSwitchOn) ← observe_active (range ("Observe"%string, 0%nat) srlist) srlist ∅;
  observe_set (range ("Observe"%string, 1%nat) srlist) srlist utSwitchOn.

(** ** pathmonitor.go *)
Record fileInfo := mkFileInfo { fi_Name : string; fi_ModTime : Z }.

Section paths.
(** The file system as [os] reports it, and the regions [getvGPUMemoryInfo]
    maps ([None]: a failed [mmap], whose error it drops). *)
Context (containerPath : string) (ReadDir : string -> list string + error).
Context (Stat : string -> fileInfo + error) (RemoveAll : string -> option error).
Context (mapped : string -> option sharedRegionT).

Definition cache_num_error : error := "cache num not matched".

(** [sr.utilizationSwitch] in the log line dereferences the region. *)
Fixpoint check_loop (fpath : string) (files : list string) : outcome (option sharedRegionT) :=
  match files with
  | [] => Ret None
  | name :: files' =>
      if contains name "libvgpu.so" then check_loop fpath files'
      else if negb (contains name ".cache") then check_loop fpath files'
      else match mapped (fpath +:+ "/" +:+ name)%string with
           | Some sr => Ret (Some sr)
           | None => Panic NilDereference
           end
  end.

Definition checkfiles (fpath : string) : outcome (option sharedRegionT * option error) :=
  match ReadDir fpath with
  | inr err => Ret (None, Some err)
  | inl files =>
      if (2 <? length files)%nat then Ret (None, Some cache_num_error)
      else if (length files =? 0)%nat then Ret (None, None)
      else (sr ← check_loop fpath files; Ret (sr, None))
  end.

Definition isVaildPod (name : string) (pods : list Pod) : bool :=
  existsb (fun val => contains name (pod_UID val)) pods.

(** The loop of [monitorpath]; [now] is the time at each directory, [removed] collects the directories it deletes. *)
Fixpoint monitor_loop (now : string -> Z) (pods : list Pod) (files : list string) (podmap : gmap string podusage)
    (removed : list string) : outcome (gmap string podusage * list string * option error) :=
  match files with
  | [] => Ret (podmap, removed, None)
  | name :: files' =>
      let dirname := (containerPath +:+ "/" +:+ name)%string in
      match Stat dirname with
      | inr _ => Panic NilDereference
      | inl info =>
          if negb (isVaildPod (fi_Name info) pods) then
            if fi_ModTime info + 300 * Second <? now dirname then
              let podmap := delete dirname podmap in
              match RemoveAll dirname with
              | Some err2 => Ret (podmap, removed ++ [dirname], Some err2)
              | None => monitor_loop now pods files' podmap (removed ++ [dirname])
              end
            else monitor_loop now pods files' podmap removed
          else
            match podmap !! dirname with
            | Some _ => monitor_loop now pods files' podmap removed
            | None =>
                '(sr, err2) ← checkfiles dirname;
                match err2, sr with
                | Some err2, _ => Ret (podmap, removed, Some err2)
                | None, None => monitor_loop now pods files' podmap removed
                | None, Some sr => monitor_loop now pods files' (<[dirname := mkPodusage name (Some sr)]> podmap) removed
                end
            end
      end
  end.

Definition monitorpath (now : string -> Z) (listed : list Pod + error) (podmap : gmap string podusage)
    : outcome (gmap string podusage * list string * option error) :=
  match ReadDir containerPath with
  | inr err => Ret (podmap, [], Some err)
  | inl files =>
      match listed with
      | inr _ => Ret (podmap, [], None)
      | inl pods => monitor_loop now pods files podmap []
      end
  end.
End paths.

(** ** What [Observe] computes *)

(** The uses of card [u] by active tasks of priority [q]: a task is active
    when it launched a kernel recently enough to stay so after this round. *)
Definition region_uses (q : Z) (u : string) (sr : sharedRegionT) : Z :=
  if (1 <? sr_recentKernel sr) && (sr_priority sr =? q) && negb (null_uuid u)
  then Z.of_nat (length (filter (fun v => v = u) (sr_uuids sr))) else 0.

Definition pod_uses (q : Z) (u : string) (val : podusage) : Z :=
  match pu_sr val with Some sr => region_uses q u sr | None => 0 end.

Definition active_uses (q : Z) (u : string) (srlist : gmap string podusage) : Z :=
  zsum ((fun x => pod_uses q u x.2) <$> map_to_list srlist).

(** A card some active task uses. *)
Definition in_use (srlist : gmap string podusage) (u : string) : Prop :=
  active_uses 0 u srlist + active_uses 1 u srlist <> 0.

#[export] Instance in_use_dec srlist u : Decision (in_use srlist u).
Proof. unfold in_use. apply _. Defined.

(** A low-priority task waits when, on the first of its cards that is in use,
    a high-priority task is active. *)
Definition must_wait (srlist : gmap string podusage) (sr : sharedRegionT) : bool :=
  bool_decide (sr_priority sr = 1) &&
  match list_find (in_use srlist) (sr_uuids sr) with
  | Some (_, u) => 0 <? active_uses 0 u srlist
  | None => false
  end.

(** A task is limited when on one of its cards a task of higher priority, or
    another of its own, is active. *)
Definition must_limit (srlist : gmap string podusage) (sr : sharedRegionT) : bool :=
  existsb (fun u => (bool_decide (sr_priority sr = 1) && (0 <? active_uses 0 u srlist))
                    || (1 <? active_uses (sr_priority sr) u srlist)) (sr_uuids sr).

Definition aged (sr : sharedRegionT) : Z :=
  if 0 <? sr_recentKernel sr then sr_recentKernel sr - 1 else sr_recentKernel sr.

Definition observed (srlist : gmap string podusage) (sr : sharedRegionT) : sharedRegionT :=
  mkRegion (sr_num sr) (sr_uuids sr) (sr_limit sr) (sr_procs sr) (if must_limit srlist sr then 1 else 0)
    (if must_wait srlist sr then Z.min (aged sr) (-1) else Z.max (aged sr) 0) (sr_priority sr).

(** Priorities are 0 (high) and 1 (low). *)
Definition priorities_ok (srlist : gmap string podusage) : Prop :=
  forall idx val sr, srlist !! idx = Some val -> pu_sr val = Some sr -> sr_priority sr = 0 \/ sr_priority sr = 1.
