(* ===== verification/MonitorFacts.v ===== *)
(** * The vGPU monitor: facts and properties *)

From Stdlib Require Import ZArith Lia Ascii String.
From stdpp Require Import base decidable option gmap strings numbers sorting list.
From S2P Require Import Prelude GoStrings GoTime GoRuntime Types Monitor.

#[local] Open Scope Z_scope.

(** ** Counting *)

(** The table holds the counts [n]. *)
Definition counts (ut : Utilization) (n : Z -> string -> Z) : Prop :=
  forall u, ut !! u = if decide (n 0 u + n 1 u = 0) then None else Some [n 0 u; n 1 u].

Definition nonneg_counts (n : Z -> string -> Z) : Prop := forall q u, 0 <= n q u.

Definition occurrences (q priority : Z) (uuids : list string) (u : string) : Z :=
  if (priority =? q) && negb (null_uuid u) then Z.of_nat (length (filter (fun v => v = u) uuids)) else 0.

Lemma occurrences_nonneg q priority uuids u : 0 <= occurrences q priority uuids u.
Proof. unfold occurrences. case_match; lia. Qed.

Lemma occurrences_cons q priority v uuids u :
  occurrences q priority (v :: uuids) u
  = (if (priority =? q) && negb (null_uuid u) && bool_decide (v = u) then 1 else 0) + occurrences q priority uuids u.
Proof.
  unfold occurrences. destruct ((priority =? q) && negb (null_uuid u)); [|done]. rewrite filter_cons.
  destruct (decide (v = u)) as [->|Hne]; [rewrite bool_decide_true by done|rewrite bool_decide_false by done];
    cbn [length andb]; lia.
Qed.

Lemma count_uuids_counts priority uuids : forall ut n,
  priority = 0 \/ priority = 1 -> nonneg_counts n -> counts ut n ->
  exists ut', count_uuids priority uuids ut = Ret ut' /\
    counts ut' (fun q u => n q u + occurrences q priority uuids u).
Proof.
  induction uuids as [|v uuids IH]; intros ut n Hp Hn Hc; cbn [count_uuids].
  { exists ut. split; [done|]. intros u. unfold occurrences. rewrite filter_nil. cbn [length].
    assert (forall b : bool, (if b then Z.of_nat 0 else 0) = 0) as E0 by by intros [].
    rewrite !E0, !Z.add_0_r. apply Hc. }
  destruct (null_uuid v) eqn:Ev.
  { destruct (IH ut n Hp Hn Hc) as (ut' & -> & Hc'). exists ut'. split; [done|]. intros u. rewrite Hc', !occurrences_cons.
    destruct (decide (v = u)) as [<-|Hne]; [rewrite Ev|rewrite bool_decide_false by done];
      rewrite !andb_false_r; rewrite ?Z.add_0_l; done. }
  set (l := match default [] (ut !! v) with [] => [0; 0] | l => l end).
  assert (l = [n 0 v; n 1 v]) as ->.
  { unfold l. rewrite (Hc v). pose proof (Hn 0 v). pose proof (Hn 1 v).
    destruct (decide (n 0 v + n 1 v = 0)); simpl; [|done]. f_equal; [lia|f_equal; lia]. }
  assert (int_get [n 0 v; n 1 v] priority = Ret (n priority v)) as -> by by destruct Hp as [-> | ->].
  cbn [mbind outcome_bind].
  set (n' := fun q u => n q u + (if (priority =? q) && bool_decide (v = u) then 1 else 0)).
  destruct (IH (<[v := <[Z.to_nat priority := n priority v + 1]> [n 0 v; n 1 v]]> ut) n') as (ut' & -> & Hc').
  - done.
  - intros q u. unfold n'. pose proof (Hn q u). case_match; lia.
  - intros u. unfold n'. destruct (decide (v = u)) as [<-|Hne].
    + rewrite lookup_insert_eq, bool_decide_true by done. pose proof (Hn 0 v). pose proof (Hn 1 v).
      destruct Hp as [-> | ->]; cbn [Z.eqb Pos.eqb andb]; rewrite decide_False by lia; cbn; rewrite ?Z.add_0_r; done.
    + rewrite lookup_insert_ne, bool_decide_false by done. rewrite !andb_false_r, !Z.add_0_r. apply Hc.
  - exists ut'. split; [done|]. intros u. rewrite Hc'. unfold n'. rewrite !occurrences_cons.
    assert (forall q, n q u + (if (priority =? q) && bool_decide (v = u) then 1 else 0) + occurrences q priority uuids u
      = n q u + ((if (priority =? q) && negb (null_uuid u) && bool_decide (v = u) then 1 else 0)
                 + occurrences q priority uuids u)) as E.
    { intros q. destruct (decide (v = u)) as [<-|Hne].
      - rewrite Ev. cbn [negb]. rewrite andb_true_r. lia.
      - rewrite bool_decide_false by done. rewrite !andb_false_r. lia. }
    by rewrite !E.
Qed.

(** ** The first loop *)
Definition list_uses (q : Z) (u : string) (l : list (string * podusage)) : Z := zsum ((fun x => pod_uses q u x.2) <$> l).

Definition age (val : podusage) : podusage :=
  mkPodusage (pu_idstr val) ((fun sr => with_recentKernel sr (aged sr)) <$> pu_sr val).

Lemma pod_uses_occurrences q u val sr :
  pu_sr val = Some sr -> 1 < sr_recentKernel sr ->
  pod_uses q u val = occurrences q (sr_priority sr) (sr_uuids sr) u.
Proof.
  intros E Hr. unfold pod_uses, region_uses, occurrences. rewrite E.
  destruct (Z.ltb_spec 1 (sr_recentKernel sr)); [done|lia].
Qed.

Lemma pod_uses_idle q u val sr : pu_sr val = Some sr -> sr_recentKernel sr <= 1 -> pod_uses q u val = 0.
Proof.
  intros E Hr. unfold pod_uses, region_uses. rewrite E. by destruct (Z.ltb_spec 1 (sr_recentKernel sr)); [lia|].
Qed.

Lemma counts_ext ut n n' : (forall q u, n q u = n' q u) -> counts ut n -> counts ut n'.
Proof. intros E Hc u. rewrite <- !E. apply Hc. Qed.

(** Entries of the list are aged in the table. *)
Definition age_in (l : list (string * podusage)) (m : gmap string podusage) : gmap string podusage :=
  foldl (fun m x => match pu_sr x.2 with
                    | Some sr => if 0 <? sr_recentKernel sr then <[x.1 := age x.2]> m else m
                    | None => m
                    end) m l.

Lemma observe_active_counts l : forall srlist ut n,
  (forall x sr, x ∈ l -> pu_sr x.2 = Some sr -> sr_priority sr = 0 \/ sr_priority sr = 1) ->
  nonneg_counts n -> counts ut n ->
  exists ut', observe_active l srlist ut = Ret (age_in l srlist, ut') /\
    counts ut' (fun q u => n q u + list_uses q u l).
Proof.
  induction l as [|[idx val] l IH]; intros srlist ut n Hp Hn Hc.
  { exists ut. split; [done|]. eapply counts_ext; [|exact Hc]. intros. unfold list_uses. cbn. lia. }
  assert (forall x sr, x ∈ l -> pu_sr x.2 = Some sr -> sr_priority sr = 0 \/ sr_priority sr = 1) as Hp'
    by (intros x sr Hx; apply Hp; by right).
  assert (forall ut1 n1, counts ut1 n1 -> nonneg_counts n1 -> (forall q u, n1 q u = n q u + pod_uses q u val) ->
    forall s, exists ut', observe_active l s ut1 = Ret (age_in l s, ut') /\
      counts ut' (fun q u => n q u + list_uses q u ((idx, val) :: l))) as Hstep.
  { intros ut1 n1 Hc1 Hn1 E1 s. destruct (IH s ut1 n1 Hp' Hn1 Hc1) as (ut' & -> & Hc'). exists ut'. split; [done|].
    eapply counts_ext; [|exact Hc']. intros q u. cbv beta. rewrite E1. unfold list_uses. rewrite fmap_cons, zsum_cons.
    cbn [snd]. lia. }
  cbn [observe_active]. destruct (pu_sr val) as [sr|] eqn:Es.
  - assert (sr_priority sr = 0 \/ sr_priority sr = 1) as Hpr by (apply (Hp (idx, val)); [by left|done]).
    unfold age_in. cbn [foldl snd fst]. rewrite Es.
    destruct (Z.ltb_spec 0 (sr_recentKernel sr)).
    + assert (mkPodusage (pu_idstr val) (Some (with_recentKernel sr (sr_recentKernel sr - 1))) = age val) as ->.
      { unfold age, aged. rewrite Es. cbn. destruct (Z.ltb_spec 0 (sr_recentKernel sr)); [done|lia]. }
      cbn [with_recentKernel sr_recentKernel sr_priority sr_uuids].
      destruct (Z.ltb_spec 0 (sr_recentKernel sr - 1)).
      * destruct (count_uuids_counts (sr_priority sr) (sr_uuids sr) ut n Hpr Hn Hc) as (ut1 & -> & Hc1).
        cbn [mbind outcome_bind]. apply (Hstep ut1 _ Hc1).
        -- intros q u. pose proof (Hn q u). pose proof (occurrences_nonneg q (sr_priority sr) (sr_uuids sr) u). lia.
        -- intros q u. rewrite (pod_uses_occurrences q u val sr); [done|done|lia].
      * apply (Hstep ut n Hc Hn). intros q u. rewrite (pod_uses_idle q u val sr); [lia|done|lia].
    + apply (Hstep ut n Hc Hn). intros q u. rewrite (pod_uses_idle q u val sr); [lia|done|lia].
  - unfold age_in. cbn [foldl snd fst]. rewrite Es. apply (Hstep ut n Hc Hn).
    intros q u. unfold pod_uses. rewrite Es. lia.
Qed.

Lemma age_idle val sr : pu_sr val = Some sr -> sr_recentKernel sr <= 0 -> age val = val.
Proof.
  destruct val as [id s]. simpl. intros -> Hr. unfold age. cbn. unfold aged.
  destruct (Z.ltb_spec 0 (sr_recentKernel sr)); [lia|]. by destruct sr.
Qed.

Lemma foldl_insert_all {A B} (f : A -> option B) (l : list (string * A)) (m : gmap string B) k :
  NoDup l.*1 ->
  foldl (fun m x => match f x.2 with Some b => <[x.1 := b]> m | None => m end) m l !! k
  = match list_to_map (M := gmap string A) l !! k ≫= f with Some b => Some b | None => m !! k end.
Proof.
  intros Hnd. rewrite <- foldl_insert_opt by done. f_equal. apply foldl_ext. by intros m' [k' a] _.
Qed.

Lemma age_in_all `{GoRuntime} t (m : gmap string podusage) : age_in (range t m) m = age <$> m.
Proof.
  apply map_eq. intros k. rewrite lookup_fmap.
  set (g := fun val => match pu_sr val with
                       | Some sr => if 0 <? sr_recentKernel sr then Some (age val) else None
                       | None => None
                       end).
  assert (age_in (range t m) m = foldl (fun m x => match g x.2 with Some b => <[x.1 := b]> m | None => m end) m (range t m)) as ->.
  { apply foldl_ext. intros m' [idx val] _. unfold g. cbn [fst snd]. destruct (pu_sr val); [|done]. by destruct (0 <? _). }
  rewrite foldl_insert_all by apply range_NoDup. rewrite range_list_to_map.
  destruct (m !! k) as [val|]; [|done]. cbn [mbind option_bind fmap option_fmap option_map]. unfold g.
  destruct (pu_sr val) as [sr|] eqn:Es.
  - destruct (Z.ltb_spec 0 (sr_recentKernel sr)); [done|]. rewrite (age_idle val sr); [done|done|lia].
  - f_equal. unfold age. rewrite Es. destruct val as [id s]. simpl in *. by rewrite Es.
Qed.

(** ** The second loop *)
Section checks.
Context (ut : Utilization) (n : Z -> string -> Z) (Hc : counts ut n) (Hn : nonneg_counts n).

Lemma higher_active_low a b : higher_active [a; b] 0 (Z.to_nat 1) = Ret (0 <? a).
Proof.
  change (Z.to_nat 1) with 1%nat. cbn [higher_active]. change (slice_get [a; b] 0) with (Ret a).
  cbn [mbind outcome_bind]. by destruct (0 <? a).
Qed.

Lemma CheckBlocking_spec p uuids :
  p = 0 \/ p = 1 ->
  CheckBlocking ut p uuids = Ret (bool_decide (p = 1) &&
    match list_find (fun u => n 0 u + n 1 u <> 0) uuids with Some (_, u) => 0 <? n 0 u | None => false end).
Proof.
  intros Hp. induction uuids as [|u uuids IH]; cbn [CheckBlocking list_find]; [by rewrite andb_false_r|].
  rewrite (Hc u). destruct (decide (n 0 u + n 1 u = 0)) as [E0|E0].
  - rewrite IH. rewrite decide_False by lia. destruct (list_find _ uuids) as [[i v]|]; done.
  - rewrite decide_True by done. destruct Hp as [-> | ->];
      [by rewrite bool_decide_false by done|rewrite bool_decide_true by done]. by rewrite higher_active_low.
Qed.

Lemma CheckPriority_spec p uuids :
  p = 0 \/ p = 1 ->
  CheckPriority ut p uuids
  = Ret (existsb (fun u => (bool_decide (p = 1) && (0 <? n 0 u)) || (1 <? n p u)) uuids).
Proof.
  intros Hp. induction uuids as [|u uuids IH]; cbn [CheckPriority existsb]; [done|].
  rewrite (Hc u). destruct (decide (n 0 u + n 1 u = 0)) as [E0|E0].
  - rewrite IH. pose proof (Hn 0 u). pose proof (Hn 1 u).
    assert (n 0 u = 0) as -> by lia. assert (n p u = 0) as -> by (destruct Hp as [-> | ->]; lia).
    by rewrite andb_false_r.
  - destruct Hp as [-> | ->].
    + rewrite bool_decide_false in IH |- * by done. change (higher_active _ 0 (Z.to_nat 0)) with (Ret false).
      change (int_get [n 0 u; n 1 u] 0) with (Ret (n 0 u)). cbn [mbind outcome_bind andb orb].
      destruct (1 <? n 0 u); [done|]. apply IH.
    + rewrite bool_decide_true in IH |- * by done. rewrite higher_active_low.
      cbn [mbind outcome_bind andb]. destruct (0 <? n 0 u); [done|]. change (int_get [n 0 u; n 1 u] 1) with (Ret (n 1 u)).
      cbn [mbind outcome_bind orb]. destruct (1 <? n 1 u); [done|]. apply IH.
Qed.
End checks.

Lemma active_uses_nonneg srlist q u : 0 <= active_uses q u srlist.
Proof.
  apply zsum_nonneg. apply Forall_fmap, Forall_forall. intros [idx val] _. simpl. unfold pod_uses, region_uses.
  destruct (pu_sr val); [|done]. case_match; lia.
Qed.

(** What the second loop makes of an aged region. *)
Definition settle (srlist : gmap string podusage) (sr : sharedRegionT) : sharedRegionT :=
  mkRegion (sr_num sr) (sr_uuids sr) (sr_limit sr) (sr_procs sr) (if must_limit srlist sr then 1 else 0)
    (if must_wait srlist sr then Z.min (sr_recentKernel sr) (-1) else Z.max (sr_recentKernel sr) 0) (sr_priority sr).

Lemma observe_region_spec srlist ut sr :
  counts ut (fun q u => active_uses q u srlist) -> sr_priority sr = 0 \/ sr_priority sr = 1 ->
  observe_region ut sr = Ret (settle srlist sr).
Proof.
  intros Hc Hp. assert (nonneg_counts (fun q u => active_uses q u srlist)) as Hn
    by (intros q u; apply active_uses_nonneg).
  unfold observe_region. rewrite (CheckBlocking_spec ut _ Hc) by done. cbn [mbind outcome_bind].
  change (bool_decide (sr_priority sr = 1) && _) with (must_wait srlist sr).
  set (sr1 := if must_wait srlist sr then _ else _).
  assert (sr1 = with_recentKernel sr
    (if must_wait srlist sr then Z.min (sr_recentKernel sr) (-1) else Z.max (sr_recentKernel sr) 0)) as ->.
  { unfold sr1, with_recentKernel. destruct (must_wait srlist sr);
      [destruct (Z.leb_spec 0 (sr_recentKernel sr))|destruct (Z.ltb_spec (sr_recentKernel sr) 0)];
      destruct sr; cbn in *; f_equal; lia. }
  cbn [with_recentKernel sr_priority sr_uuids]. rewrite (CheckPriority_spec ut _ Hc Hn) by done.
  cbn [mbind outcome_bind]. change (existsb _ (sr_uuids sr)) with (must_limit srlist sr). unfold settle. f_equal.
  unfold with_switch, with_recentKernel.
  cbn [sr_num sr_uuids sr_limit sr_procs sr_utilizationSwitch sr_recentKernel sr_priority]. destruct (must_limit srlist sr);
    [destruct (Z.eqb_spec (sr_utilizationSwitch sr) 1)|destruct (Z.eqb_spec (sr_utilizationSwitch sr) 0)];
    cbn [negb]; congruence.
Qed.

Lemma observe_set_spec f ut l : forall srlist,
  (forall x sr, x ∈ l -> pu_sr x.2 = Some sr -> observe_region ut sr = Ret (f sr)) ->
  observe_set l srlist ut = Ret (foldl (fun m x =>
    match (fun sr => mkPodusage (pu_idstr x.2) (Some (f sr))) <$> pu_sr x.2 with
    | Some b => <[x.1 := b]> m | None => m end) srlist l).
Proof.
  induction l as [|[idx val] l IH]; intros srlist Hf; [done|]. cbn [observe_set foldl fst snd].
  destruct (pu_sr val) as [sr|] eqn:Es; cbn [fmap option_fmap option_map].
  - rewrite (Hf (idx, val) sr); [|by left|done]. cbn [mbind outcome_bind]. apply IH. intros x sr' Hx. apply Hf. by right.
  - apply IH. intros x sr' Hx. apply Hf. by right.
Qed.

Lemma list_uses_range `{GoRuntime} t srlist q u : list_uses q u (range t srlist) = active_uses q u srlist.
Proof. unfold list_uses, active_uses. apply zsum_perm. by rewrite range_perm. Qed.

(** One round: every region is updated as specified. *)
Definition observe_pod (srlist : gmap string podusage) (val : podusage) : podusage :=
  mkPodusage (pu_idstr val) (observed srlist <$> pu_sr val).

Lemma Observe_spec `{GoRuntime} srlist :
  priorities_ok srlist -> Observe srlist = Ret (observe_pod srlist <$> srlist).
Proof.
  intros Hp. unfold Observe.
  destruct (observe_active_counts (range ("Observe"%string, 0%nat) srlist) srlist ∅ (fun _ _ => 0)) as (ut & -> & Hc).
  - intros [idx val] sr Hx%elem_of_range. simpl. by apply (Hp idx).
  - done.
  - intros u. by rewrite lookup_empty.
  - cbn [mbind outcome_bind]. rewrite age_in_all.
    assert (counts ut (fun q u => active_uses q u srlist)) as Hc'.
    { eapply counts_ext; [|exact Hc]. intros q u. cbv beta. rewrite list_uses_range. lia. }
    rewrite (observe_set_spec (settle srlist)).
    2:{ intros [idx val] sr Hx%elem_of_range Es. rewrite lookup_fmap_Some in Hx. destruct Hx as (val0 & <- & Hv).
        cbn [snd] in Es. unfold age in Es. cbn in Es. destruct (pu_sr val0) as [sr0|] eqn:E0; [|done].
        injection Es as <-. apply observe_region_spec; [done|]. by apply (Hp idx val0 sr0). }
    f_equal. apply map_eq. intros k.
    rewrite (foldl_insert_all (fun val => (fun sr => mkPodusage (pu_idstr val) (Some (settle srlist sr))) <$> pu_sr val))
      by apply range_NoDup.
    rewrite range_list_to_map, !lookup_fmap. destruct (srlist !! k) as [val|]; [|done].
    cbn. unfold observe_pod. destruct (pu_sr val) as [sr|] eqn:Es; [done|]. cbn. unfold age. by rewrite Es.
Qed.

(** ** Cards in use *)
Lemma null_not_in_use srlist u : null_uuid u = true -> ~ in_use srlist u.
Proof.
  intros Hu. unfold in_use. assert (forall q, active_uses q u srlist = 0) as E; [|rewrite !E; lia].
  intros q. unfold active_uses. induction (map_to_list srlist) as [|[i val] l IH]; [done|].
  rewrite fmap_cons, zsum_cons, IH. simpl. unfold pod_uses, region_uses. destruct (pu_sr val); [|done].
  rewrite Hu. by rewrite andb_false_r.
Qed.

Lemma active_in_use srlist idx val sr u :
  srlist !! idx = Some val -> pu_sr val = Some sr -> sr_priority sr = 1 -> 1 < sr_recentKernel sr ->
  u ∈ sr_uuids sr -> null_uuid u = false -> in_use srlist u.
Proof.
  intros Hl Hs Hp Hr Hu Hn. unfold in_use.
  assert (0 < active_uses 1 u srlist) as H1; [|pose proof (active_uses_nonneg srlist 0 u); lia].
  unfold active_uses. assert ((idx, val) ∈ map_to_list srlist) as Hin by by apply elem_of_map_to_list.
  apply list_elem_of_split in Hin as (l1 & l2 & ->). rewrite fmap_app, fmap_cons, zsum_app, zsum_cons.
  assert (forall l : list (string * podusage), 0 <= zsum ((fun x => pod_uses 1 u x.2) <$> l)) as Hnn.
  { intros l. apply zsum_nonneg, Forall_fmap, Forall_forall. intros [i v] _. simpl. unfold pod_uses, region_uses.
    destruct (pu_sr v); [|done]. case_match; lia. }
  pose proof (Hnn l1). pose proof (Hnn l2). cbn [snd].
  assert (0 < pod_uses 1 u val); [|lia].
  rewrite (pod_uses_occurrences 1 u val sr) by done. unfold occurrences. rewrite Hp, Hn. cbn.
  assert (u ∈ filter (fun v => v = u) (sr_uuids sr)) as Hf by by apply list_elem_of_filter.
  destruct (filter _ _) eqn:Ef; [by apply elem_of_nil in Hf|]. simpl. lia.
Qed.

Lemma list_find_only (P : string -> Prop) `{forall u, Decision (P u)} u l :
  u ∈ l -> (forall v, v ∈ l -> P v -> v = u) ->
  list_find P l = (if decide (P u) then (fun i => (i, u)) <$> (fst <$> list_find P l) else None).
Proof.
  intros Hu Hv. destruct (list_find P l) as [[i v]|] eqn:E.
  - apply list_find_Some in E as (Hi & Hp & _). apply list_elem_of_lookup_2 in Hi.
    rewrite (Hv v Hi Hp) in Hp |- *. by rewrite decide_True.
  - apply list_find_None in E. rewrite Forall_forall in E. by rewrite decide_False by by apply E.
Qed.

Lemma must_wait_single srlist sr u :
  sr_priority sr = 1 -> u ∈ sr_uuids sr -> (forall v, v ∈ sr_uuids sr -> v = u \/ null_uuid v = true) ->
  must_wait srlist sr = (0 <? active_uses 0 u srlist).
Proof.
  intros Hp Hu Hv. unfold must_wait. rewrite bool_decide_true by done. cbn [andb].
  rewrite (list_find_only (in_use srlist) u); [|done|].
  2:{ intros v Hin Huse. destruct (Hv v Hin) as [->|Hn]; [done|]. by destruct (null_not_in_use srlist v). }
  destruct (decide (in_use srlist u)) as [Hd|Hd].
  - destruct (list_find (in_use srlist) (sr_uuids sr)) as [[i v]|] eqn:E; [done|].
    apply list_find_None in E. rewrite Forall_forall in E. by destruct (E u).
  - unfold in_use in Hd. pose proof (active_uses_nonneg srlist 0 u). pose proof (active_uses_nonneg srlist 1 u).
    destruct (Z.ltb_spec 0 (active_uses 0 u srlist)); [lia|done].
Qed.

(** ** Memory *)
Lemma sum_used_spec idx procs : forall sum,
  0 <= idx -> Forall (fun p => idx < Z.of_nat (length (proc_used p))) procs -> 0 <= sum < 2 ^ 64 ->
  sum_used idx procs sum = Ret ((sum + zsum ((fun p => nth (Z.to_nat idx) (proc_totals p) 0) <$> procs)) mod 2 ^ 64).
Proof.
  induction procs as [|p procs IH]; intros sum Hi Hall Hs; cbn [sum_used].
  { cbn. rewrite Z.add_0_r, Z.mod_small by done. done. }
  apply Forall_cons in Hall as [Hp Hall]. unfold used_at. destruct (Z.ltb_spec idx 0); [lia|].
  unfold slice_get. destruct (proc_used p !! Z.to_nat idx) as [x|] eqn:Ex.
  2:{ apply lookup_ge_None in Ex. lia. }
  cbn [mbind outcome_bind]. rewrite IH; [|done|done|apply Z.mod_pos_bound; lia].
  rewrite fmap_cons, zsum_cons. unfold proc_totals at 2. rewrite (nth_lookup_Some _ _ _ (dm_total x)) by (by rewrite list_lookup_fmap, Ex).
  unfold u64.
  rewrite Zplus_mod_idemp_l. do 2 f_equal. lia.
Qed.

(** ** Directories *)
Section directories.
Context (containerPath : string) (ReadDir : string -> list string + error).
Context (Stat : string -> fileInfo + error) (RemoveAll : string -> option error).
Context (mapped : string -> option sharedRegionT) (now : string -> Z) (pods : list Pod).
#[local] Abbreviation loop := (monitor_loop containerPath ReadDir Stat RemoveAll mapped now pods).

(** The directory belongs to a pod that exists. *)
Definition live (dirname : string) : Prop :=
  exists info, Stat dirname = inl info /\ isVaildPod (fi_Name info) pods = true.

Lemma monitor_loop_live files dirname : forall podmap removed podmap' removed' err,
  live dirname -> loop files podmap removed = Ret (podmap', removed', err) ->
  (dirname ∈ removed' -> dirname ∈ removed) /\ (is_Some (podmap !! dirname) -> podmap' !! dirname = podmap !! dirname).
Proof.
  induction files as [|name files IH]; intros podmap removed podmap' removed' err (info & Hst & Hval) E;
    cbn [monitor_loop] in E; [by injection E as <- <- _|].
  assert (live dirname) as Hlive by (exists info; done).
  set (d := (containerPath +:+ "/" +:+ name)%string) in *.
  destruct (Stat d) as [info'|] eqn:Ed; [|done].
  destruct (isVaildPod (fi_Name info') pods) eqn:Ev; cbn [negb] in E.
  - destruct (podmap !! d) as [val|] eqn:Em; [by eapply IH in E|].
    apply bind_Ret_inv in E as ([sr err2] & _ & E). destruct err2 as [e2|]; [by injection E as <- <- _|].
    destruct sr as [sr|]; [|by eapply IH in E]. eapply IH in E as [Hr Hm]; [|done]. split; [done|].
    intros Hs. assert (d <> dirname) by (intros ->; rewrite Em in Hs; by apply is_Some_None in Hs).
    rewrite lookup_insert_ne in Hm by done. auto.
  - assert (d <> dirname) as Hne by (intros <-; rewrite Ed in Hst; congruence).
    destruct (_ <? _); [|by eapply IH in E].
    assert (forall r, (dirname ∈ r ++ [d] -> dirname ∈ r)) as Happ.
    { intros r [?|Hd]%elem_of_app; [done|]. apply list_elem_of_singleton in Hd. congruence. }
    destruct (RemoveAll d).
    + injection E as <- <- _. split; [apply Happ|]. intros _. by rewrite lookup_delete_ne.
    + eapply IH in E as [Hr Hm]; [|done]. rewrite lookup_delete_ne in Hm by done. split; [|done].
      intros Hin. apply Happ, Hr, Hin.
Qed.
End directories.

(** ** Examples *)
Definition nul : string := String "000" "".
Definition region (uuids : list string) (recent priority : Z) : sharedRegionT :=
  mkRegion 1 uuids [] [] 0 recent priority.

(** A low-priority task on cards A and B, a high-priority task on B. *)
Definition two_tasks : gmap string podusage :=
  {["low"%string := mkPodusage "low" (Some (region ["GPU-a"; "GPU-b"; nul]%string 5 1));
    "high"%string := mkPodusage "high" (Some (region ["GPU-b"; nul]%string 5 0))]}.
(** A low-priority task and a high-priority task on card A. *)
Definition one_card : gmap string podusage :=
  {["low"%string := mkPodusage "low" (Some (region ["GPU-a"; nul]%string 5 1));
    "high"%string := mkPodusage "high" (Some (region ["GPU-a"; nul]%string 5 0))]}.

Lemma two_tasks_ok : priorities_ok two_tasks.
Proof.
  intros idx val sr Hl. unfold two_tasks, one_card in Hl.
  apply lookup_insert_Some in Hl as [[_ <-]|[_ [_ <-]%lookup_singleton_Some]]; intros [= <-]; simpl; auto.
Qed.

Lemma one_card_ok : priorities_ok one_card.
Proof.
  intros idx val sr Hl. unfold two_tasks, one_card in Hl.
  apply lookup_insert_Some in Hl as [[_ <-]|[_ [_ <-]%lookup_singleton_Some]]; intros [= <-]; simpl; auto.
Qed.

Module MonitorProps.

(** C32. A round of [Observe] refines its specification, whatever order the map
    is visited in: with priorities 0 and 1 it never panics, and every region
    ends with its kernel counter aged by one round and then set to "waiting"
    (negative) or "free" (not negative) by [must_wait], and its utilization
    switch set by [must_limit], both computed from the active uses of all
    containers before the round. *)
Theorem Observe_refines `{GoRuntime} srlist :
  priorities_ok srlist ->
  Observe srlist = Ret ((fun val => mkPodusage (pu_idstr val) (observed srlist <$> pu_sr val)) <$> srlist).
Proof. apply Observe_spec. Qed.

Lemma Observe_refines_witness :
  @Observe go_reference one_card
  = Ret ((fun val => mkPodusage (pu_idstr val) (observed one_card <$> pu_sr val)) <$> one_card).
Proof. apply (@Observe_refines go_reference one_card). exact one_card_ok. Defined.

(** Priorities are respected on a single card: after a round, a low-priority
    task whose only card is [u] waits exactly when a high-priority task is
    active on [u]. *)
Theorem single_card_waits `{GoRuntime} srlist idx val sr u :
  priorities_ok srlist -> srlist !! idx = Some val -> pu_sr val = Some sr ->
  sr_priority sr = 1 -> u ∈ sr_uuids sr -> (forall v, v ∈ sr_uuids sr -> v = u \/ null_uuid v = true) ->
  exists srlist' val' sr', Observe srlist = Ret srlist' /\ srlist' !! idx = Some val' /\ pu_sr val' = Some sr' /\
    (sr_recentKernel sr' < 0 <-> 0 < active_uses 0 u srlist).
Proof.
  intros Hok Hl Hs Hp Hu Hv. rewrite (Observe_spec srlist Hok).
  exists (observe_pod srlist <$> srlist), (observe_pod srlist val), (observed srlist sr). split_and!.
  - done.
  - by rewrite lookup_fmap, Hl.
  - unfold observe_pod. by rewrite Hs.
  - unfold observed. cbn [sr_recentKernel]. rewrite (must_wait_single srlist sr u) by done.
    destruct (Z.ltb_spec 0 (active_uses 0 u srlist)); lia.
Qed.

Lemma single_card_waits_witness :
  exists srlist' val' sr', @Observe go_reference one_card = Ret srlist' /\
    srlist' !! "low"%string = Some val' /\ pu_sr val' = Some sr' /\
    (sr_recentKernel sr' < 0 <-> 0 < active_uses 0 "GPU-a" one_card).
Proof.
  apply (@single_card_waits go_reference one_card "low"%string
    (mkPodusage "low" (Some (region ["GPU-a"; nul]%string 5 1))) (region ["GPU-a"; nul]%string 5 1) "GPU-a"%string one_card_ok).
  - reflexivity.
  - reflexivity.
  - reflexivity.
  - by left.
  - intros v [->|[->|Hn]%elem_of_cons]%elem_of_cons; [by left|by right|by apply elem_of_nil in Hn].
Defined.

(** Only the first card counts: an active low-priority task whose first card
    is free of high-priority tasks is not made to wait, whatever high-priority
    tasks do on its other cards, although the check is meant to look at every
    card of the task. *)
Theorem later_cards_not_guarded `{GoRuntime} srlist idx val sr u rest :
  priorities_ok srlist -> srlist !! idx = Some val -> pu_sr val = Some sr ->
  sr_priority sr = 1 -> 1 < sr_recentKernel sr -> sr_uuids sr = u :: rest -> null_uuid u = false ->
  active_uses 0 u srlist = 0 ->
  exists srlist' val' sr', Observe srlist = Ret srlist' /\ srlist' !! idx = Some val' /\ pu_sr val' = Some sr' /\
    sr_recentKernel sr' = sr_recentKernel sr - 1.
Proof.
  intros Hok Hl Hs Hp Hr Hu Hn H0. rewrite (Observe_spec srlist Hok).
  exists (observe_pod srlist <$> srlist), (observe_pod srlist val), (observed srlist sr). split_and!.
  - done.
  - by rewrite lookup_fmap, Hl.
  - unfold observe_pod. by rewrite Hs.
  - unfold observed. cbn [sr_recentKernel]. unfold must_wait. rewrite Hu. cbn [list_find].
    rewrite decide_True by (eapply active_in_use; eauto; rewrite Hu; by left).
    rewrite H0. rewrite andb_false_r. unfold aged. destruct (Z.ltb_spec 0 (sr_recentKernel sr)); lia.
Qed.

Lemma later_cards_not_guarded_witness :
  exists srlist' val' sr', @Observe go_reference two_tasks = Ret srlist' /\
    srlist' !! "low"%string = Some val' /\ pu_sr val' = Some sr' /\
    sr_recentKernel sr' = sr_recentKernel (region ["GPU-a"; "GPU-b"; nul]%string 5 1) - 1.
Proof.
  apply (@later_cards_not_guarded go_reference two_tasks "low"%string
    (mkPodusage "low" (Some (region ["GPU-a"; "GPU-b"; nul]%string 5 1)))
    (region ["GPU-a"; "GPU-b"; nul]%string 5 1) "GPU-a"%string ["GPU-b"; nul]%string two_tasks_ok);
    first [reflexivity | vm_compute; reflexivity].
Defined.

(** Bounds of the memory report: for a region with 16 devices per process
    slot, an index in range gives the sum over the processes (in 64 bits), an
    index outside 0..16 an error; index 16 passes the check and panics. *)
Theorem getDeviceUsedMemory_bounds idx sr p procs :
  sr_procs sr = p :: procs -> Forall (fun p => length (proc_used p) = 16%nat) (sr_procs sr) ->
  getDeviceUsedMemory idx sr =
    if decide (0 <= idx < 16)
    then Ret (zsum ((fun p => nth (Z.to_nat idx) (proc_totals p) 0) <$> sr_procs sr) mod 2 ^ 64, None)
    else if decide (idx = 16) then Panic IndexOutOfRange
    else Ret (0, Some device_idx_error).
Proof.
  intros Hsr Hall. unfold getDeviceUsedMemory.
  destruct (decide (0 <= idx < 16)); [|destruct (decide (idx = 16)) as [->|]].
  - assert ((idx <? 0) || (16 <? idx) = false) as -> by (apply orb_false_iff; split; apply Z.ltb_ge; lia).
    rewrite sum_used_spec; [done|lia| |lia]. eapply Forall_impl; [exact Hall|]. simpl. intros q ->. lia.
  - rewrite Hsr in Hall |- *. apply Forall_cons in Hall as [Hp _].
    cbn [orb sum_used]. unfold used_at. change (16 <? 0) with false. change (16 <? 16) with false. cbn [orb].
    rewrite slice_get_Panic; [done|]. rewrite Hp. change (Z.to_nat 16) with 16%nat. lia.
  - assert ((idx <? 0) || (16 <? idx) = true) as ->; [|done]. apply orb_true_iff.
    destruct (Z.ltb_spec idx 0); [by left|right]. apply Z.ltb_lt. lia.
Qed.

Definition full_proc : procSlot := mkProc 1 1 (replicate 16 (mkDeviceMemory 1 2 4 0 7)).

Lemma getDeviceUsedMemory_bounds_witness :
  getDeviceUsedMemory 16 (mkRegion 1 [] [] [full_proc] 0 0 0) =
    if decide (0 <= 16 < 16)
    then Ret (zsum ((fun p => nth (Z.to_nat 16) (proc_totals p) 0) <$> [full_proc]) mod 2 ^ 64, None)
    else if decide (16 = 16) then Panic IndexOutOfRange
    else Ret (0, Some device_idx_error).
Proof.
  apply (getDeviceUsedMemory_bounds 16 (mkRegion 1 [] [] [full_proc] 0 0 0) full_proc []).
  - reflexivity.
  - repeat constructor.
Defined.

(** The monitor never drops a running container: while a directory belongs
    to an existing pod, [monitorpath] neither removes the directory nor changes
    an entry of the table for it. *)
Theorem monitorpath_keeps_live containerPath ReadDir Stat RemoveAll mapped now pods podmap podmap' removed err dirname :
  (exists info, Stat dirname = inl info /\ isVaildPod (fi_Name info) pods = true) ->
  monitorpath containerPath ReadDir Stat RemoveAll mapped now (inl pods) podmap = Ret (podmap', removed, err) ->
  (dirname ∉ removed) /\ (is_Some (podmap !! dirname) -> podmap' !! dirname = podmap !! dirname).
Proof.
  intros Hlive E. unfold monitorpath in E. destruct (ReadDir containerPath) as [files|e].
  - apply (monitor_loop_live containerPath ReadDir Stat RemoveAll mapped now pods files dirname) in E as [Hr Hm]; [|done].
    split; [|done]. intros Hin. apply Hr in Hin. by apply elem_of_nil in Hin.
  - injection E as <- <- _. split; [|done]. intros Hin. by apply elem_of_nil in Hin.
Qed.

Definition demo_stat (d : string) : fileInfo + error :=
  inl (mkFileInfo (if bool_decide (d = "/c/uid1_0"%string) then "uid1_0" else "uid2_0") 0).
Definition demo_pods : list Pod := [mkPod "p" "default" "uid1" ∅ [] "" ""].

Lemma monitorpath_keeps_live_witness :
  ("/c/uid1_0"%string ∉ ["/c/uid2_0"%string]) /\
  (is_Some (({["/c/uid1_0"%string := mkPodusage "a" None; "/c/uid2_0"%string := mkPodusage "b" None]}
             : gmap string podusage) !! "/c/uid1_0"%string) ->
   ({["/c/uid1_0"%string := mkPodusage "a" None]} : gmap string podusage) !! "/c/uid1_0"%string
   = ({["/c/uid1_0"%string := mkPodusage "a" None; "/c/uid2_0"%string := mkPodusage "b" None]}
      : gmap string podusage) !! "/c/uid1_0"%string).
Proof.
  apply (monitorpath_keeps_live "/c" (fun _ => inl ["uid1_0"; "uid2_0"]%string) demo_stat (fun _ => None)
    (fun _ => None) (fun _ => 1000 * Second) demo_pods _ _ _ None "/c/uid1_0").
  - exists (mkFileInfo "uid1_0" 0). split; reflexivity.
  - vm_compute. reflexivity.
Defined.
End MonitorProps.
