(* ===== verification/MonitorServer.v ===== *)
(** * The vGPU monitor as a process: host pids, metrics, the watch loop

    [setHostPid] of [cmd/vGPUmonitor/feedback.go] writes to a container's
    region the host pids of its processes that use a GPU; the collector of
    [metrics.go] reports the memory of the cards and of the containers;
    [watchAndFeedback] runs [monitorpath] and [Observe] in turn.

    Files, NVML and the pod lister are arguments, with their errors. *)

From Stdlib Require Import ZArith Lia Ascii String Sorted.
From stdpp Require Import base decidable option gmap strings numbers sorting list.
From S2P Require Import Prelude GoStrings GoScan GoTime GoRuntime Types Monitor.

#[local] Open Scope Z_scope.

(** ** feedback.go: host pids *)

(** 1 for cgroupfs, 2 for systemd, 0 when it cannot be told. *)
Definition setcGgroupDriver (kubeletconfig : string + error) : Z :=
  match kubeletconfig with
  | inr _ => 0
  | inl content =>
      if negb (contains content "cgroupDriver:") then 0
      else if contains content "systemd" then 2
      else if contains content "cgroupfs" then 1
      else 0
  end.

(** The processes of one card: the error of the handle or of the list. *)
Fixpoint gpu_processes (cards : list (list Z + error)) (tmp : list Z) : list Z + error :=
  match cards with
  | [] => inl tmp
  | inr err :: _ => inr err
  | inl ids :: cards' => gpu_processes cards' (tmp ++ ids)
  end.

(** The first occurrence of each pid. *)
Fixpoint first_pids (tmp : list Z) (seen : gset Z) (result : list Z) : list Z :=
  match tmp with
  | [] => result
  | pid :: tmp' =>
      if decide (pid ∈ seen) then first_pids tmp' seen result
      else first_pids tmp' ({[pid]} ∪ seen) (result ++ [pid])
  end.

(** [count]: what [nvml.DeviceGetCount] answers, with the cards. *)
Definition getUsedGPUPid (count : list (list Z + error) + error) : list Z + error :=
  match count with
  | inr err => inr err
  | inl cards => match gpu_processes cards [] with
                 | inr err => inr err
                 | inl tmp => inl (first_pids tmp ∅ [])
                 end
  end.

Record hostGPUPid := mkHostPid { hp_pid : Z; hp_mtime : Z }.

Definition tasks_file (cgroupDriver : Z) (QOSClass UID ContainerID : string) : string :=
  let qos := to_lower QOSClass in
  let id := trim_prefix ContainerID "docker://" in
  if cgroupDriver =? 1 then ("/sysinfo/fs/cgroup/memory/kubepods/" +:+ qos +:+ "/pod" +:+ UID +:+ "/" +:+ id +:+ "/tasks")%string
  else if cgroupDriver =? 2 then
    ("/sysinfo/fs/cgroup/systemd/kubepods.slice/kubepods-" +:+ qos +:+ ".slice/kubepods-" +:+ qos +:+ "-pod"
     +:+ replace_char "-" "_" UID +:+ ".slice/docker-" +:+ id +:+ ".scope/tasks")%string
  else ""%string.

(** [Lstat]: the modification time of the directory of a process. *)
Fixpoint host_pids (Lstat : Z -> Z + error) (pids : list string) (acc : list hostGPUPid) : list hostGPUPid + error :=
  match pids with
  | [] => inl acc
  | val :: pids' =>
      let tmp := (atoi val).1 in
      if tmp =? 0 then host_pids Lstat pids' acc
      else match Lstat tmp with
           | inr err => inr err
           | inl mtime => host_pids Lstat pids' (acc ++ [mkHostPid tmp mtime])
           end
  end.

(** The host processes of the container among those that use a GPU. *)
Definition container_gpu_pids (usedGPUArray : list Z) (hostPidArray : list hostGPUPid) : list hostGPUPid :=
  concat ((fun val => filter (fun h => u64 (hp_pid h) = val) hostPidArray) <$> usedGPUArray).

(** [usedGPUHostArray[i].mtime > usedGPUHostArray[j].mtime], as [uint64]s *)
Definition newer (a b : hostGPUPid) : bool := u64 (hp_mtime b) <? u64 (hp_mtime a).

Definition with_hostpid (p : procSlot) (pid : Z) : procSlot := mkProc (proc_pid p) pid (proc_used p).

(** The slots up to the first without a process. *)
Fixpoint assign_pids (procs : list procSlot) (l : list hostGPUPid) : list procSlot :=
  match procs with
  | [] => []
  | p :: procs' =>
      if proc_pid p =? 0 then procs
      else match l with
           | [] => p :: assign_pids procs' []
           | h :: l' =>
               (if (proc_hostpid p =? 0) || negb (proc_hostpid p =? i32 (hp_pid h)) then with_hostpid p (i32 (hp_pid h)) else p)
               :: assign_pids procs' l'
           end
  end.

Definition with_procs (sr : sharedRegionT) (procs : list procSlot) : sharedRegionT :=
  mkRegion (sr_num sr) (sr_uuids sr) (sr_limit sr) procs (sr_utilizationSwitch sr) (sr_recentKernel sr) (sr_priority sr).

Definition driver_error : error := "can not identify cgroup driver".

Section host_pid.
Context `{GoRuntime}.
Context (kubeletconfig : string + error) (ReadFile : string -> string + error) (Lstat : Z -> Z + error).
Context (count : list (list Z + error) + error).

(** The state is the global [cgroupDriver] and the region of the container. *)
Definition setHostPid (QOSClass UID ContainerID : string) (cgroupDriver : Z) (sr : option sharedRegionT)
    : Z * option sharedRegionT * option error :=
  let cgroupDriver := if cgroupDriver =? 0 then setcGgroupDriver kubeletconfig else cgroupDriver in
  if cgroupDriver =? 0 then (cgroupDriver, sr, Some driver_error)
  else
    match getUsedGPUPid count with
    | inr err => (cgroupDriver, sr, Some ("get usedGPUID failed, ret:" +:+ err)%string)
    | inl usedGPUArray =>
        if (length usedGPUArray =? 0)%nat then (cgroupDriver, sr, None)
        else
          match ReadFile (tasks_file cgroupDriver QOSClass UID ContainerID) with
          | inr ferr => (cgroupDriver, sr, Some ferr)
          | inl content =>
              match host_pids Lstat (split NL content) [] with
              | inr err => (cgroupDriver, sr, Some err)
              | inl hostPidArray =>
                  let usedGPUHostArray := sort_by newer (container_gpu_pids usedGPUArray hostPidArray) in
                  (cgroupDriver, (fun sr => with_procs sr (assign_pids (sr_procs sr) usedGPUHostArray)) <$> sr, None)
              end
          end
    end.
End host_pid.

(** ** metrics.go *)
Definition parseidstr (podusage : string) : (string * string) + error :=
  match split "_" podusage with
  | a :: b :: _ => inl (a, b)
  | _ => inr "parse error"%string
  end.

Definition add_memory (a b : deviceMemory) : deviceMemory :=
  mkDeviceMemory (u64 (dm_contextSize a + dm_contextSize b)) (u64 (dm_moduleSize a + dm_moduleSize b))
    (u64 (dm_bufferSize a + dm_bufferSize b)) (u64 (dm_offset a + dm_offset b)) (u64 (dm_total a + dm_total b)).

Fixpoint total_loop (vidx : nat) (procs : list procSlot) (added : deviceMemory) : outcome deviceMemory :=
  match procs with
  | [] => Ret added
  | val :: procs' => m ← slice_get (proc_used val) vidx; total_loop vidx procs' (add_memory added m)
  end.

Definition no_memory : deviceMemory := mkDeviceMemory 0 0 0 0 0.

Definition gettotalusage (usage : podusage) (vidx : nat) : outcome deviceMemory :=
  match pu_sr usage with
  | None => Panic NilDereference
  | Some sr => total_loop vidx (sr_procs sr) no_memory
  end.

Inductive monitor_desc := HostGPUMemoryUsage | HostCoreUtilization | VGPUMemoryUsage | VGPUMemoryLimit | ContainerDeviceMemory.

#[export] Instance monitor_desc_eq_dec : EqDecision monitor_desc.
Proof. solve_decision. Defined.

Record monitor_metric := mkMonitorMetric { mm_desc : monitor_desc; mm_value : float64; mm_labels : list string }.

(** What NVML answers for the card at an index. *)
Record host_card := mkHostCard {
  hc_memory : Z + error;
  hc_uuid : string + error;
  hc_utilization : Z + error;
}.

Definition card_metrics (ii : nat) (c : host_card) : list monitor_metric :=
  let memoryUsed := match hc_memory c with inl m => i64 m | inr _ => 0 end in
  let uuid := match hc_uuid c with inl u => u | inr _ => ""%string end in
  (match hc_uuid c with
   | inl uuid => [mkMonitorMetric HostGPUMemoryUsage (f64_of_Z memoryUsed) [itoa (Z.of_nat ii); uuid]]
   | inr _ => []
   end)
  ++ (match hc_utilization c with
      | inl u => [mkMonitorMetric HostCoreUtilization (f64_of_Z u) [itoa (Z.of_nat ii); uuid]]
      | inr _ => []
      end).

(** [string(uuid[:])[0:40]] of an array of 96 bytes *)
Definition uuid_label (u : string) : string := String.substring 0 40 u.

Definition device_metrics (ns name ctr : string) (usage : podusage) (sr : sharedRegionT) (i : nat) : outcome (list monitor_metric) :=
  value ← gettotalusage usage i;
  u ← slice_get (sr_uuids sr) i;
  let labels := [ns; name; ctr; itoa (Z.of_nat i); uuid_label u] in
  limit ← slice_get (sr_limit sr) i;
  Ret [mkMonitorMetric VGPUMemoryUsage (f64_of_Z (dm_total value)) labels;
       mkMonitorMetric VGPUMemoryLimit (f64_of_Z limit) labels;
       mkMonitorMetric ContainerDeviceMemory (f64_of_Z (dm_total value))
         (labels ++ [itoa (dm_contextSize value); itoa (dm_moduleSize value); itoa (dm_bufferSize value); itoa (dm_offset value)])].

(** Runs over a list and appends the metrics. *)
Fixpoint collect_each {A} (f : A -> outcome (list monitor_metric)) (l : list A) : outcome (list monitor_metric) :=
  match l with
  | [] => Ret []
  | a :: l' => ms ← f a; rest ← collect_each f l'; Ret (ms ++ rest)
  end.

(** The metrics of a region for a pod; a name without an underscore panics. *)
Definition region_metrics (val : Pod) (usage : podusage) : outcome (list monitor_metric) :=
  match pu_sr usage with
  | None => Ret []
  | Some sr =>
      let parts := split "_" (pu_idstr usage) in
      pod_uid ← slice_get parts 0;
      ctr_name ← slice_get parts 1;
      if decide (pod_UID val = pod_uid) then
        collect_each (fun ctr =>
            if decide (ctr_Name ctr = ctr_name)
            then collect_each (device_metrics (pod_Namespace val) (pod_Name val) ctr_name usage sr) (seq 0 (Z.to_nat (i64 (sr_num sr))))
            else Ret []) (pod_Containers val)
      else Ret []
  end.

Section collect.
Context `{GoRuntime}.

(** [clientset] is not nil; [devnum]: the cards, or the error of the count.
    The table is as [monitorpath] leaves it; an error of the lister gives no
    pods. *)
Definition monitor_Collect (devnum : list host_card + error) (pods : list Pod) (srPodList : gmap string podusage)
    : outcome (list monitor_metric) :=
  let host := match devnum with inl cards => concat (imap card_metrics cards) | inr _ => [] end in
  ctr ← collect_each (fun x => collect_each (fun y => region_metrics x.2 y.2) (range ("Collect"%string, x.1) srPodList))
          (imap pair pods);
  Ret (host ++ ctr).

(** ** One turn of [watchAndFeedback] *)
Definition watch_round containerPath ReadDir Stat RemoveAll mapped (now : string -> Z) (listed : list Pod + error)
    (srPodList : gmap string podusage) : outcome (gmap string podusage * list string) :=
  '(srPodList, removed, _) ← monitorpath containerPath ReadDir Stat RemoveAll mapped now listed srPodList;
  srPodList ← Observe srPodList;
  Ret (srPodList, removed).
End collect.

(** ** validation.go *)
Definition requiredEnvVars : gmap string bool := {["HOOK_PATH" := true; "OTHER_ENV_VAR" := false]}.

Definition ValidateEnvVars `{GoRuntime} (LookupEnv : string -> option string) : option error :=
  match list_find (fun x => (x.2 && negb (bool_decide (is_Some (LookupEnv x.1)))) = true)
          (range ("ValidateEnvVars"%string, 0%nat) requiredEnvVars) with
  | Some (_, (envVar, _)) => Some ("required environment variable " +:+ envVar +:+ " not set")%string
  | None => None
  end.
