(* ===== verification/MonitorServerFacts.v ===== *)
(** * Properties of the monitor's host pids and metrics *)

From Stdlib Require Import ZArith Lia Ascii String Sorted.
From stdpp Require Import base decidable option gmap strings numbers sorting list.
From S2P Require Import Prelude GoStrings GoScan GoTime GoRuntime Types Monitor MonitorFacts MonitorServer.

#[local] Open Scope Z_scope.

(** ** Host pids *)

(** The slots before the first without a process. *)
Fixpoint used_slots (procs : list procSlot) : nat :=
  match procs with
  | [] => 0
  | p :: procs' => if proc_pid p =? 0 then 0 else S (used_slots procs')
  end.

Lemma with_hostpid_id p : with_hostpid p (proc_hostpid p) = p.
Proof. by destruct p. Qed.

Lemma assign_pids_lookup procs : forall l i p,
  procs !! i = Some p ->
  assign_pids procs l !! i
  = Some (match l !! i with
          | Some h => if (i <? used_slots procs)%nat then with_hostpid p (i32 (hp_pid h)) else p
          | None => p
          end).
Proof.
  induction procs as [|q procs IH]; intros l i p Hi; [done|]. cbn [assign_pids used_slots].
  destruct (proc_pid q =? 0); [rewrite Hi; by destruct (l !! i)|].
  destruct i as [|i]; cbn in Hi.
  - injection Hi as ->. destruct l as [|h l]; [done|]. cbn. f_equal.
    destruct (Z.eqb_spec (proc_hostpid p) (i32 (hp_pid h))) as [E|]; [|by rewrite orb_true_r].
    rewrite <- E, with_hostpid_id. by destruct (proc_hostpid p =? 0).
  - destruct l as [|h l]; cbn; rewrite (IH _ i p Hi); [done|]. by destruct (l !! i).
Qed.

Lemma newer_sw : strict_weak_on (fun _ : hostGPUPid => True) newer.
Proof. unfold newer. split; intros; rewrite ?Z.ltb_lt, ?Z.ltb_ge in *; lia. Qed.

Lemma first_pids_elem tmp : forall seen result x,
  (forall y, y ∈ seen -> y ∈ result) -> x ∈ first_pids tmp seen result <-> x ∈ result \/ x ∈ tmp.
Proof.
  induction tmp as [|pid tmp IH]; intros seen result x Hs; cbn [first_pids].
  { split; [by left|]. intros [?|?%elem_of_nil]; done. }
  case_decide as Hd.
  - rewrite IH by done. rewrite elem_of_cons. split; [naive_solver|]. intros [?|[->|?]]; auto.
  - rewrite IH. { rewrite elem_of_app, list_elem_of_singleton, elem_of_cons. tauto. }
    intros y [Hy%elem_of_singleton|Hy]%elem_of_union; apply elem_of_app; [subst y; right; by left|left; auto].
Qed.

Lemma gpu_processes_elem cards : forall tmp l x,
  gpu_processes cards tmp = inl l -> x ∈ l <-> x ∈ tmp \/ exists ids, inl ids ∈ cards /\ x ∈ ids.
Proof.
  induction cards as [|[ids|e] cards IH]; intros tmp l x E; cbn in E; [| |done].
  - injection E as <-. split; [by left|]. intros [?|(ids & Hf & _)]; [done|]. by apply elem_of_nil in Hf.
  - rewrite (IH _ _ _ E), elem_of_app. setoid_rewrite elem_of_cons. naive_solver.
Qed.

(** A process of the container: its pid is a line of the tasks file, and the
    time is that of its directory. *)
Definition process_of (Lstat : Z -> Z + error) (pids : list string) (h : hostGPUPid) : Prop :=
  hp_pid h <> 0 /\ Lstat (hp_pid h) = inl (hp_mtime h) /\ exists s, s ∈ pids /\ hp_pid h = (atoi s).1.

Lemma host_pids_elem Lstat pids : forall acc l h,
  host_pids Lstat pids acc = inl l -> h ∈ l <-> h ∈ acc \/ process_of Lstat pids h.
Proof.
  unfold process_of. induction pids as [|s pids IH]; intros acc l h E; cbn in E.
  { injection E as <-. split; [by left|]. intros [?|(_ & _ & s & Hs & _)]; [done|by apply elem_of_nil in Hs]. }
  setoid_rewrite elem_of_cons. destruct (Z.eqb_spec (atoi s).1 0) as [E0|Hne].
  - rewrite (IH _ _ _ E). split; [naive_solver|]. intros [?|(Hn & Hl & s' & [->|?] & Ep)]; [by left|congruence|naive_solver].
  - destruct (Lstat (atoi s).1) as [m|] eqn:El; [|done]. rewrite (IH _ _ _ E), elem_of_app, list_elem_of_singleton.
    split; [intros [[?| ->]|?]; naive_solver|]. intros [?|(Hn & Hl & s' & [->|?] & Ep)]; [naive_solver| |naive_solver].
    left. right. destruct h as [pid mtime]. cbn in *. congruence.
Qed.

Lemma container_gpu_pids_elem used hosts h : h ∈ container_gpu_pids used hosts <-> u64 (hp_pid h) ∈ used /\ h ∈ hosts.
Proof.
  unfold container_gpu_pids. rewrite elem_of_concat. split.
  - intros (x & Hh & (val & -> & Hv)%list_elem_of_fmap). apply list_elem_of_filter in Hh as [E Hh]. by rewrite E.
  - intros [Hu Hh]. eexists. split; [|by apply list_elem_of_fmap_2, Hu]. by apply list_elem_of_filter.
Qed.

(** ** Metrics *)
Lemma total_loop_total vidx procs : forall added m,
  0 <= dm_total added < 2 ^ 64 -> total_loop vidx procs added = Ret m ->
  dm_total m = (dm_total added + zsum ((fun p => nth vidx (proc_totals p) 0) <$> procs)) mod 2 ^ 64.
Proof.
  induction procs as [|p procs IH]; intros added m Ha E; cbn [total_loop] in E.
  { injection E as <-. cbn. by rewrite Z.add_0_r, Z.mod_small. }
  unfold mbind, outcome_bind, slice_get in E. destruct (proc_used p !! vidx) as [x|] eqn:Ex; [|done].
  rewrite (IH (add_memory added x) m); [|apply Z.mod_pos_bound; lia|exact E]. cbn [add_memory dm_total].
  rewrite fmap_cons, zsum_cons. unfold proc_totals at 2.
  rewrite (nth_lookup_Some _ _ _ (dm_total x)) by (by rewrite list_lookup_fmap, Ex).
  unfold u64. rewrite Zplus_mod_idemp_l. f_equal. lia.
Qed.

Lemma collect_each_piece {A} (f : A -> outcome (list monitor_metric)) l ms a :
  collect_each f l = Ret ms -> a ∈ l -> exists ms', f a = Ret ms' /\ ms' ⊆ ms.
Proof.
  revert ms. induction l as [|b l IH]; intros ms E Ha; [by apply elem_of_nil in Ha|].
  cbn [collect_each] in E. unfold mbind, outcome_bind in E. destruct (f b) as [m1|] eqn:Ef; [|done].
  destruct (collect_each f l) as [m2|] eqn:Ec; [|done]. injection E as <-.
  apply elem_of_cons in Ha as [->|Ha]; [exists m1; split; [done|apply list_subseteq_app_l; done]|].
  destruct (IH _ eq_refl Ha) as (m3 & E3 & Hs). exists m3. split; [done|]. by apply list_subseteq_app_r.
Qed.

Module MonitorServerProps.

(** When the host pids of a container are set, the slots in front of the
    first free one get the host pids of the container's processes that use a
    GPU, all of them in the order of their start, the newest first; slots
    without such a process, the slots behind, and every slot when no process
    uses a GPU, are left as they are. *)
Theorem host_pids_assigned `{GoRuntime} kubeletconfig ReadFile Lstat count QOSClass UID ContainerID driver sr driver' sr' :
  setHostPid kubeletconfig ReadFile Lstat count QOSClass UID ContainerID driver (Some sr) = (driver', Some sr', None) ->
  exists used, getUsedGPUPid count = inl used /\
    (used = [] /\ sr' = sr \/
     exists l content, ReadFile (tasks_file driver' QOSClass UID ContainerID) = inl content
       /\ StronglySorted (fun a b => u64 (hp_mtime b) <= u64 (hp_mtime a)) l
       /\ (forall h, h ∈ l <-> u64 (hp_pid h) ∈ used /\ process_of Lstat (split NL content) h)
       /\ (forall i p, sr_procs sr !! i = Some p ->
            sr_procs sr' !! i = Some (match l !! i with
              | Some h => if (i <? used_slots (sr_procs sr))%nat then with_hostpid p (i32 (hp_pid h)) else p
              | None => p
              end))).
Proof.
  unfold setHostPid. set (driver1 := if driver =? 0 then _ else driver). destruct (driver1 =? 0); [done|].
  destruct (getUsedGPUPid count) as [used|]; [|done]. destruct used as [|u used']; cbn [length].
  { intros [= _ <-]. exists []. split; [done|by left]. }
  set (used := u :: used'). cbn [Nat.eqb].
  destruct (ReadFile _) as [content|] eqn:Er; [|done]. destruct (host_pids _ _ _) as [hosts|] eqn:Eh; [|done].
  intros [= <- <-]. exists used. split; [done|]. right.
  exists (sort_by newer (container_gpu_pids used hosts)), content. split_and!; [done| | |].
  - assert (StronglySorted (fun a b => newer b a = false) (sort_by newer (container_gpu_pids used hosts))) as Hs.
    { apply (sort_sorted (fun _ => True)); [apply newer_sw|by apply Forall_true]. }
    induction Hs as [|a l Hl IH Ha]; constructor; [done|]. eapply Forall_impl; [exact Ha|].
    intros b Hb. unfold newer in Hb. by apply Z.ltb_ge in Hb.
  - intros h. rewrite sort_perm, container_gpu_pids_elem, (host_pids_elem _ _ _ _ _ Eh).
    split; [intros [? [Hn|?]]; [by apply elem_of_nil in Hn|by split]|intros [? ?]; split; [done|by right]].
  - intros i p Hi. cbn [sr_procs with_procs]. by apply assign_pids_lookup.
Qed.

Definition demo_region : sharedRegionT :=
  mkRegion 1 ["GPU-a"%string] [1000] [mkProc 7 0 []; mkProc 8 0 []; mkProc 0 0 []] 0 0 0.
Definition demo_tasks : string := ("4001" +:+ String NL "4002" +:+ String NL "4003")%string.

Lemma host_pids_assigned_witness :
  let _ := go_reference in
  let r := setHostPid (inl "cgroupDriver: cgroupfs"%string) (fun _ => inl demo_tasks) (fun pid => inl (pid * 10)) (inl [inl [4001; 4003]])
    "Burstable" "uid" "docker://id" 0 (Some demo_region) in
  r.2 = None /\ match r.1.2 with
                | Some sr' => (exists (l : list hostGPUPid) content, demo_tasks = content
                    /\ forall h, h ∈ l <-> u64 (hp_pid h) ∈ [4001; 4003] /\ process_of (fun pid => inl (pid * 10)) (split NL content) h)
                    /\ (proc_hostpid <$> sr_procs sr') = [4003; 4001; 0]
                | None => False
                end.
Proof.
  intros rt r. split; [reflexivity|]. destruct r as [[driver' [sr'|]] [e|]] eqn:E; try (vm_compute in E; discriminate).
  split; [|by vm_compute in E; injection E as _ <-].
  unfold r in E. destruct (host_pids_assigned _ _ _ _ _ _ _ _ _ _ _ E) as (used & H0 & [[-> _]|(l & content & H1 & _ & H2 & _)]);
    vm_compute in H0; [done|]. injection H0 as <-. injection H1 as <-. exists l, demo_tasks. by split.
Defined.

(** A kubelet that uses cgroupfs is taken for one that uses systemd when
    its configuration mentions systemd anywhere, for instance in the path of
    the resolver's file: the search is over the whole file, not over the
    value of the setting; the monitor then reads a tasks file that is not
    there. *)
Theorem cgroup_driver_misread before after :
  contains (before +:+ "cgroupDriver: cgroupfs" +:+ after) "systemd" = true ->
  setcGgroupDriver (inl (before +:+ "cgroupDriver: cgroupfs" +:+ after)%string) = 2.
Proof.
  intros Hs. unfold setcGgroupDriver. rewrite Hs.
  assert (contains (before +:+ "cgroupDriver: cgroupfs" +:+ after) "cgroupDriver:" = true) as ->; [|done].
  apply contains_app_r. apply (contains_prefix "cgroupDriver:").
Qed.

Lemma cgroup_driver_misread_witness :
  setcGgroupDriver (inl ("cgroupDriver: cgroupfs" +:+ String NL "resolvConf: /run/systemd/resolve/resolv.conf")%string) = 2.
Proof. apply (cgroup_driver_misread "" (String NL "resolvConf: /run/systemd/resolve/resolv.conf")). reflexivity. Defined.

(** C34. What a scrape of the monitor says of a container: for every device of
    the region of one of its containers, the usage it reports is the sum of
    the processes' memory on the device, modulo 2^64, under the pod's
    namespace and name, the container's name and the device's index. *)
Theorem usage_reported `{GoRuntime} devnum pods table ms val dir usage sr ctr rest i :
  monitor_Collect devnum pods table = Ret ms -> val ∈ pods -> table !! dir = Some usage -> pu_sr usage = Some sr ->
  split "_" (pu_idstr usage) = pod_UID val :: ctr_Name ctr :: rest -> ctr ∈ pod_Containers val ->
  (i < Z.to_nat (i64 (sr_num sr)))%nat ->
  exists u, sr_uuids sr !! i = Some u
    /\ mkMonitorMetric VGPUMemoryUsage (f64_of_Z (zsum ((fun p => nth i (proc_totals p) 0) <$> sr_procs sr) mod 2 ^ 64))
         [pod_Namespace val; pod_Name val; ctr_Name ctr; itoa (Z.of_nat i); uuid_label u] ∈ ms.
Proof.
  intros E Hval Ht Hsr Hid Hctr Hi. unfold monitor_Collect, mbind, outcome_bind in E.
  destruct (collect_each _ (imap pair pods)) as [ctrs|] eqn:Ec; [|done]. injection E as <-.
  apply list_elem_of_lookup in Hval as [n Hval].
  destruct (collect_each_piece _ _ _ (n, val) Ec) as (m1 & E1 & S1).
  { apply list_elem_of_lookup. exists n. by rewrite list_lookup_imap, Hval. }
  destruct (collect_each_piece _ _ _ (dir, usage) E1) as (m2 & E2 & S2); [by apply elem_of_range|].
  cbn [snd] in E2. unfold region_metrics in E2. rewrite Hsr, Hid in E2. cbn in E2. rewrite decide_True in E2 by done.
  destruct (collect_each_piece _ _ _ ctr E2 Hctr) as (m3 & E3 & S3). cbn in E3. rewrite decide_True in E3 by done.
  destruct (collect_each_piece _ _ _ i E3) as (m4 & E4 & S4); [apply elem_of_seq; lia|].
  unfold device_metrics, gettotalusage, mbind, outcome_bind, slice_get in E4. rewrite Hsr in E4.
  destruct (total_loop i (sr_procs sr) no_memory) as [value|] eqn:Ev; [|done].
  destruct (sr_uuids sr !! i) as [u|]; [|done]. destruct (sr_limit sr !! i); [|done]. injection E4 as <-.
  apply total_loop_total in Ev; [|cbn; lia]. rewrite Z.add_0_l in Ev. exists u. split; [done|].
  apply elem_of_app. right. apply S1, S2, S3, S4. rewrite <- Ev. by left.
Qed.

Definition busy_region : sharedRegionT :=
  mkRegion 1 ["GPU-a"%string] [4096]
    [mkProc 7 0 [mkDeviceMemory 10 20 30 0 60]; mkProc 8 0 [mkDeviceMemory 1 2 3 0 6]] 0 0 0.
Definition busy_pod : Pod := mkPod "p" "default" "uid" ∅ [mkContainer "c" ∅ ∅ [] None None] "" "Running".
Definition busy_table : gmap string podusage := {["/usr/local/vgpu/containers/uid_c" := mkPodusage "uid_c" (Some busy_region)]}.

Lemma usage_reported_witness :
  let _ := go_reference in
  exists ms u, monitor_Collect (inl []) [busy_pod] busy_table = Ret ms /\ u = "GPU-a"%string
    /\ mkMonitorMetric VGPUMemoryUsage (f64_of_Z 66) ["default"; "p"; "c"; "0"; u]%string ∈ ms.
Proof.
  intros rt. destruct (monitor_Collect (inl []) [busy_pod] busy_table) as [ms|] eqn:E; [|vm_compute in E; discriminate].
  destruct (usage_reported (inl []) [busy_pod] busy_table ms busy_pod "/usr/local/vgpu/containers/uid_c"
    (mkPodusage "uid_c" (Some busy_region)) busy_region (mkContainer "c" ∅ ∅ [] None None) [] 0 E) as (u & Hu & Hm);
    [by left|reflexivity|reflexivity|reflexivity|by left|vm_compute; lia|].
  exists ms, u. split; [reflexivity|]. injection Hu as <-. split; [reflexivity|exact Hm].
Defined.
End MonitorServerProps.
