(* ===== verification/Region.v ===== *)
(** * The bytes of a shared region ([cmd/vGPUmonitor/cudevshr.go])

    A container and the monitor share a file of fixed size; the monitor maps
    it and casts the pointer to [*sharedRegionT], so the structure is the
    layout Go gives it.  Here: the layout rule of Go structures, codecs between
    bytes and values with their laws, the codec of the region, and the writes
    the monitor makes in place.  [region_view] is the part of the region the
    rest of the monitor's model works on (Monitor.v). *)

From Stdlib Require Import ZArith Lia Ascii String.
From stdpp Require Import base decidable option strings numbers list.
From S2P Require Import Prelude GoStrings GoRuntime Types Monitor.

#[local] Open Scope Z_scope.

(** ** Bytes *)
Definition byte_Z (b : ascii) : Z := Z.of_N (N_of_ascii b).
Definition Z_byte (z : Z) : ascii := ascii_of_N (Z.to_N z).

Lemma byte_Z_range b : 0 <= byte_Z b < 256.
Proof. unfold byte_Z. pose proof (N_ascii_bounded b). lia. Qed.
Lemma byte_Z_byte z : 0 <= z < 256 -> byte_Z (Z_byte z) = z.
Proof. intros Hz. unfold byte_Z, Z_byte. rewrite N_ascii_embedding by lia. lia. Qed.
Lemma Z_byte_Z b : Z_byte (byte_Z b) = b.
Proof. unfold byte_Z, Z_byte. by rewrite N2Z.id, ascii_N_embedding. Qed.

(** The bytes of a number, the lowest first. *)
Fixpoint le_dec (bs : list ascii) : Z :=
  match bs with [] => 0 | b :: bs' => byte_Z b + 256 * le_dec bs' end.
Fixpoint le_enc (n : nat) (z : Z) : list ascii :=
  match n with O => [] | S n' => Z_byte (z mod 256) :: le_enc n' (z / 256) end.

Definition bytes_top (n : nat) : Z := 256 ^ Z.of_nat n.

Lemma bytes_top_S n : bytes_top (S n) = 256 * bytes_top n.
Proof. unfold bytes_top. rewrite Nat2Z.inj_succ, Z.pow_succ_r by lia. done. Qed.

Lemma le_dec_range bs : 0 <= le_dec bs < bytes_top (length bs).
Proof.
  induction bs as [|b bs IH]; [cbn; unfold bytes_top; cbn; lia|].
  cbn [le_dec length]. rewrite bytes_top_S. pose proof (byte_Z_range b). lia.
Qed.

Lemma le_enc_length n z : length (le_enc n z) = n.
Proof. revert z. induction n as [|n IH]; intros z; cbn; [done|by rewrite IH]. Qed.

Lemma le_dec_enc n z : 0 <= z < bytes_top n -> le_dec (le_enc n z) = z.
Proof.
  revert z. induction n as [|n IH]; intros z Hz; cbn [le_enc le_dec]; [unfold bytes_top in Hz; cbn in Hz; lia|].
  rewrite bytes_top_S in Hz. pose proof (Z.mod_pos_bound z 256). rewrite byte_Z_byte by lia.
  rewrite IH; [pose proof (Z.div_mod z 256); lia|]. split; [apply Z.div_pos; lia|apply Z.div_lt_upper_bound; lia].
Qed.

Lemma le_enc_dec bs : le_enc (length bs) (le_dec bs) = bs.
Proof.
  induction bs as [|b bs IH]; cbn [length le_enc le_dec]; [done|]. pose proof (byte_Z_range b).
  rewrite (Z.mul_comm 256), Z.mod_add, Z.mod_small, Z_byte_Z, Z.div_add, Z.div_small by lia. by rewrite Z.add_0_l, IH.
Qed.

(** ** Codecs *)

(** Values of a fixed number of bytes. *)
Record codec (A : Type) := mkCodec {
  c_size : nat;
  c_ok : A -> Prop;
  c_dec : list ascii -> A;
  c_enc : A -> list ascii;
}.
Arguments mkCodec {A}.
Arguments c_size {A}.
Arguments c_ok {A}.
Arguments c_dec {A}.
Arguments c_enc {A}.

(** Bytes of the right number and values in range correspond. *)
Class Codec {A} (c : codec A) : Prop := {
  enc_length a : c_ok c a -> length (c_enc c a) = c_size c;
  dec_enc a : c_ok c a -> c_dec c (c_enc c a) = a;
  dec_ok bs : length bs = c_size c -> c_ok c (c_dec c bs);
  enc_dec bs : length bs = c_size c -> c_enc c (c_dec c bs) = bs;
}.

Definition uint (n : nat) : codec Z := mkCodec n (fun z => 0 <= z < bytes_top n) le_dec (le_enc n).
Definition uint64 : codec Z := uint 8.
Definition uint32 : codec Z := uint 4.
Definition int32 : codec Z :=
  mkCodec 4 (fun z => - 2 ^ 31 <= z < 2 ^ 31) (fun bs => i32 (le_dec bs)) (fun z => le_enc 4 (z mod 2 ^ 32)).
(** [[n]byte] *)
Definition chars (n : nat) : codec string :=
  mkCodec n (fun s => String.length s = n) string_of_list_ascii list_ascii_of_string.
Definition hole (n : nat) : codec (list ascii) := mkCodec n (fun l => length l = n) id id.

Definition cpair {A B} (c1 : codec A) (c2 : codec B) : codec (A * B) :=
  mkCodec (c_size c1 + c_size c2) (fun x => c_ok c1 x.1 /\ c_ok c2 x.2)
    (fun bs => (c_dec c1 (take (c_size c1) bs), c_dec c2 (drop (c_size c1) bs)))
    (fun x => c_enc c1 x.1 ++ c_enc c2 x.2).

Fixpoint dec_array {A} (c : codec A) (n : nat) (bs : list ascii) : list A :=
  match n with O => [] | S n' => c_dec c (take (c_size c) bs) :: dec_array c n' (drop (c_size c) bs) end.
Definition carray {A} (n : nat) (c : codec A) : codec (list A) :=
  mkCodec (n * c_size c) (fun l => length l = n /\ Forall (c_ok c) l) (dec_array c n) (fun l => concat (c_enc c <$> l)).

(** A structure from the tuple of its fields. *)
Definition cstruct {A B} (f : A -> B) (g : B -> A) (c : codec A) : codec B :=
  mkCodec (c_size c) (fun b => c_ok c (g b)) (fun bs => f (c_dec c bs)) (fun b => c_enc c (g b)).

#[export] Instance uint_laws n : Codec (uint n).
Proof.
  split; cbn; [intros; apply le_enc_length|apply le_dec_enc|intros bs <-; apply le_dec_range|intros bs <-; apply le_enc_dec].
Qed.

#[export] Instance int32_laws : Codec int32.
Proof.
  split; cbn [int32 c_size c_ok c_dec c_enc].
  - intros; apply le_enc_length.
  - intros z Hz. rewrite le_dec_enc by (apply (Z.mod_pos_bound z (2 ^ 32)); reflexivity).
    unfold wrap. change (2 ^ (32 - 1)) with 2147483648. change (2 ^ 31) with 2147483648 in *. change (2 ^ 32) with 4294967296.
    Z.div_mod_to_equations; lia.
  - intros bs _. unfold wrap. change (2 ^ (32 - 1)) with 2147483648. change (2 ^ 31) with 2147483648.
    change (2 ^ 32) with 4294967296. Z.div_mod_to_equations; lia.
  - intros bs Hl. pose proof (le_dec_range bs) as Hr. rewrite <- (le_enc_dec bs) at 2. rewrite Hl in *.
    f_equal. unfold wrap. change (bytes_top 4) with 4294967296 in Hr. change (2 ^ (32 - 1)) with 2147483648.
    change (2 ^ 32) with 4294967296. Z.div_mod_to_equations; lia.
Qed.

#[export] Instance chars_laws n : Codec (chars n).
Proof.
  split; cbn.
  - intros s <-. induction s as [|a s IH]; cbn; [done|by rewrite IH].
  - intros s _. apply string_of_list_ascii_of_string.
  - intros bs <-. induction bs as [|a bs IH]; cbn; [done|by rewrite IH].
  - intros bs _. apply list_ascii_of_string_of_list_ascii.
Qed.

#[export] Instance hole_laws n : Codec (hole n).
Proof. by split. Qed.

#[export] Instance cpair_laws {A B} (c1 : codec A) (c2 : codec B) : Codec c1 -> Codec c2 -> Codec (cpair c1 c2).
Proof.
  intros H1 H2. split; cbn.
  - intros [a b] [Ha Hb]. by rewrite length_app, !enc_length.
  - intros [a b] [Ha Hb]. cbn in *. rewrite take_app_length', drop_app_length' by (by rewrite enc_length).
    by rewrite !dec_enc.
  - intros bs Hl. split; apply dec_ok; [rewrite length_take|rewrite length_drop]; lia.
  - intros bs Hl. rewrite !enc_dec by (rewrite ?length_take, ?length_drop; lia). apply take_drop.
Qed.

#[export] Instance carray_laws {A} n (c : codec A) : Codec c -> Codec (carray n c).
Proof.
  intros Hc. split; cbn.
  - intros l [<- Hf]. induction Hf as [|a l Ha Hf IH]; cbn; [done|]. by rewrite length_app, IH, enc_length.
  - intros l [<- Hf]. induction Hf as [|a l Ha Hf IH]; cbn; [done|].
    rewrite take_app_length', drop_app_length', dec_enc by (done || by rewrite enc_length). by rewrite IH.
  - intros bs. revert bs. induction n as [|n IH]; intros bs Hl; cbn; [by split|].
    destruct (IH (drop (c_size c) bs)) as [H1 H2]; [rewrite length_drop; lia|]. split; [by rewrite H1|].
    constructor; [|done]. apply dec_ok. rewrite length_take. lia.
  - intros bs. revert bs. induction n as [|n IH]; intros bs Hl; cbn; [by destruct bs|].
    rewrite IH, enc_dec by (rewrite ?length_take, ?length_drop; lia). apply take_drop.
Qed.

Lemma cstruct_laws {A B} (f : A -> B) (g : B -> A) c :
  (forall a, g (f a) = a) -> (forall b, f (g b) = b) -> Codec c -> Codec (cstruct f g c).
Proof.
  intros Hgf Hfg Hc. split; cbn.
  - intros b Hb. by apply enc_length.
  - intros b Hb. by rewrite dec_enc.
  - intros bs Hl. rewrite Hgf. by apply dec_ok.
  - intros bs Hl. rewrite Hgf. by apply enc_dec.
Qed.

(** ** Fields *)

(** [copy] into the memory at an offset. *)
Definition write_at (off : nat) (new bs : list ascii) : list ascii := take off bs ++ new ++ drop (off + length new) bs.
#[global] Arguments write_at : simpl never.

Lemma write_at_length off new bs : (off + length new <= length bs)%nat -> length (write_at off new bs) = length bs.
Proof. intros Hl. unfold write_at. rewrite !length_app, length_take, length_drop. lia. Qed.

(** Bytes outside the field keep their value. *)
Lemma write_at_outside off new bs i :
  (off + length new <= length bs)%nat -> (i < off \/ off + length new <= i)%nat -> write_at off new bs !! i = bs !! i.
Proof.
  intros Hl [Hi|Hi]; unfold write_at.
  - rewrite lookup_app_l by (rewrite length_take; lia). by rewrite lookup_take_lt.
  - rewrite lookup_app_r, lookup_app_r, lookup_drop by (rewrite length_take; lia). f_equal. rewrite length_take. lia.
Qed.

Lemma write_at_app (x y z new : list ascii) : length y = length new -> write_at (length x) new (x ++ y ++ z) = x ++ new ++ z.
Proof.
  intros Hl. unfold write_at. rewrite take_app_length. f_equal. f_equal.
  rewrite <- Hl, <- length_app, app_assoc. apply drop_app_length.
Qed.

Lemma split_at (n : nat) (bs : list ascii) : (n <= length bs)%nat -> exists x y, bs = x ++ y /\ length x = n.
Proof. intros Hl. exists (take n bs), (drop n bs). rewrite take_drop, length_take. split; [done|lia]. Qed.

(** A write inside the part of [n] bytes at [off]. *)
Lemma write_at_nested off o n new bs :
  (o + length new <= n)%nat -> (off + n <= length bs)%nat ->
  write_at (off + o) new bs = write_at off (write_at o new (take n (drop off bs))) bs.
Proof.
  intros Ho Hn. destruct (split_at off bs) as (x & r & -> & Hx); [lia|]. rewrite length_app in Hn.
  destruct (split_at n r) as (y & z & -> & Hy); [lia|]. destruct (split_at o y) as (y1 & y' & -> & Hy1); [lia|].
  rewrite length_app in Hy. destruct (split_at (length new) y') as (y2 & y3 & -> & Hy2); [lia|]. rewrite length_app in Hy.
  rewrite drop_app_length' by done. rewrite take_app_length' by (rewrite !length_app; lia).
  rewrite <- Hy1, write_at_app by done. rewrite <- Hx, write_at_app by (rewrite !length_app; lia).
  rewrite <- length_app. replace (x ++ (y1 ++ y2 ++ y3) ++ z) with ((x ++ y1) ++ y2 ++ (y3 ++ z)) by (by rewrite <- !app_assoc).
  rewrite write_at_app by done. by rewrite <- !app_assoc.
Qed.

(** A field of a structure: its offset, how it is read and written. *)
Record field (A B : Type) := mkField { fld_off : nat; fld_get : A -> B; fld_set : B -> A -> A }.
Arguments mkField {A B}.
Arguments fld_off {A B}.
Arguments fld_get {A B}.
Arguments fld_set {A B}.

(** Reading and writing the bytes at the offset reads and writes the field. *)
Class Field {A B} (cA : codec A) (cB : codec B) (f : field A B) : Prop := {
  field_inside : (fld_off f + c_size cB <= c_size cA)%nat;
  field_read bs : length bs = c_size cA ->
    c_dec cB (take (c_size cB) (drop (fld_off f) bs)) = fld_get f (c_dec cA bs);
  field_write bs b : length bs = c_size cA -> c_ok cB b ->
    c_dec cA (write_at (fld_off f) (c_enc cB b) bs) = fld_set f b (c_dec cA bs);
}.

Definition fst_field {A B} : field (A * B) A := mkField 0 fst (fun a x => (a, x.2)).
Definition snd_field {A B} (n : nat) : field (A * B) B := mkField n snd (fun b x => (x.1, b)).
Definition at_index {A} (d : A) (size i : nat) : field (list A) A := mkField (i * size) (fun l => nth i l d) (fun a l => <[i := a]> l).
Definition field_comp {A B C} (f : field A B) (g : field B C) : field A C :=
  mkField (fld_off f + fld_off g) (fun a => fld_get g (fld_get f a)) (fun c a => fld_set f (fld_set g c (fld_get f a)) a).
Definition struct_field {A B} (f : A -> B) (g : B -> A) : field B A := mkField 0 g (fun a _ => f a).

#[export] Instance fst_field_ok {A B} (c1 : codec A) (c2 : codec B) : Codec c1 -> Field (cpair c1 c2) c1 fst_field.
Proof.
  intros H1. split; cbn; [lia|done|]. intros bs a Hl Ha. unfold write_at. rewrite take_0. cbn.
  by rewrite take_app_length', drop_app_length', dec_enc, enc_length by (done || by rewrite enc_length).
Qed.

#[export] Instance snd_field_ok {A B} (c1 : codec A) (c2 : codec B) :
  Codec c2 -> Field (cpair c1 c2) c2 (snd_field (c_size c1)).
Proof.
  intros H2. split; cbn; [lia| |].
  - intros bs Hl. by rewrite take_ge by (rewrite length_drop; lia).
  - intros bs b Hl Hb. unfold write_at. rewrite (drop_ge bs) by (rewrite enc_length by done; lia). rewrite app_nil_r.
    rewrite take_app_length', drop_app_length' by (rewrite length_take; lia). by rewrite dec_enc.
Qed.

Lemma dec_array_lookup {A} (c : codec A) n bs i d :
  (i < n)%nat -> nth i (dec_array c n bs) d = c_dec c (take (c_size c) (drop (i * c_size c) bs)).
Proof.
  revert bs i. induction n as [|n IH]; intros bs i Hi; [lia|]. destruct i as [|i]; cbn [dec_array nth]; [done|].
  rewrite IH, drop_drop by lia. done.
Qed.

Lemma dec_array_app {A} (c : codec A) n m x y :
  length x = (n * c_size c)%nat -> dec_array c (n + m) (x ++ y) = dec_array c n x ++ dec_array c m y.
Proof.
  revert x. induction n as [|n IH]; intros x Hl; cbn; [by destruct x|]. cbn in Hl.
  rewrite take_app_le, drop_app_le by lia. f_equal. apply IH. rewrite length_drop. lia.
Qed.

#[export] Instance at_index_ok {A} (c : codec A) n d i :
  TCEq (i <? n)%nat true -> Codec c -> Field (carray n c) c (at_index d (c_size c) i).
Proof.
  intros Hi%TCEq_eq%Nat.ltb_lt Hc. split; cbn; [nia| |].
  - intros bs Hl. symmetry. by apply dec_array_lookup.
  - intros bs a Hl Ha. assert (n = i + (1 + (n - i - 1)))%nat as -> by lia. set (m := (n - i - 1)%nat) in *.
    destruct (split_at (i * c_size c) bs) as (x & r & -> & Hx); [lia|]. rewrite length_app in Hl.
    destruct (split_at (c_size c) r) as (y & z & -> & Hy); [nia|].
    rewrite <- Hx, write_at_app by (by rewrite Hy, enc_length). rewrite !dec_array_app by (done || cbn; rewrite ?enc_length by done; lia).
    assert (length (dec_array c i x) = i) as Hi' by (pose proof (dec_ok (c := carray i c) x Hx) as [? _]; done).
    rewrite insert_app_r_alt by lia. rewrite Hi', Nat.sub_diag. cbn [dec_array app]. cbn.
    rewrite !take_ge by (rewrite ?enc_length by done; lia). by rewrite dec_enc.
Qed.

Lemma field_comp_ok {A B C} (cA : codec A) (cB : codec B) (cC : codec C) f g :
  Codec cB -> Codec cC -> Field cA cB f -> Field cB cC g -> Field cA cC (field_comp f g).
Proof.
  intros HB HC Hf Hg. pose proof (field_inside (cA := cA) (cB := cB) (f := f)) as Hfi.
  pose proof (field_inside (cA := cB) (cB := cC) (f := g)) as Hgi. split; cbn; [lia| |].
  - intros bs Hl. rewrite <- (field_read (cA := cA) bs Hl). rewrite <- (field_read (cA := cB)) by (rewrite length_take, length_drop; lia).
    f_equal. rewrite skipn_firstn_comm, take_take, drop_drop. f_equal. lia.
  - intros bs x Hl Hx. rewrite (write_at_nested _ _ (c_size cB)) by (rewrite ?enc_length by done; lia).
    set (sub := take (c_size cB) (drop (fld_off f) bs)).
    assert (length sub = c_size cB) as Hs by (unfold sub; rewrite length_take, length_drop; lia).
    rewrite <- (enc_dec (c := cB) (write_at _ _ sub)) by (rewrite write_at_length; [done|rewrite enc_length by done; lia]).
    rewrite field_write; [|done|apply dec_ok; rewrite write_at_length; [done|rewrite enc_length by done; lia]].
    rewrite field_write by done. unfold sub. by rewrite field_read.
Qed.

Lemma struct_field_ok {A B} (f : A -> B) (g : B -> A) c :
  (forall a, g (f a) = a) -> Codec c -> Field (cstruct f g c) c (struct_field f g).
Proof.
  intros Hgf Hc. split; cbn; [lia| |].
  - intros bs Hl. by rewrite drop_0, take_ge by lia.
  - intros bs b Hl Hb. unfold write_at. rewrite take_0, drop_ge by (rewrite enc_length by done; lia). cbn. rewrite app_nil_r. by rewrite dec_enc.
Qed.

(** Past the first component. *)
Definition skip {A B C} (c : codec A) (f : field B C) : field (A * B) C := field_comp (snd_field (c_size c)) f.
Definition whole {A} : field A A := mkField 0 id (fun b _ => b).

#[export] Instance skip_ok {A B C} (c1 : codec A) (c2 : codec B) (cC : codec C) f :
  Codec c2 -> Codec cC -> Field c2 cC f -> Field (cpair c1 c2) cC (skip c1 f).
Proof. intros. apply (field_comp_ok _ c2); [done..|apply _|done]. Qed.

#[export] Instance whole_ok {A} (c : codec A) : Codec c -> Field c c whole.
Proof.
  intros Hc. split; cbn; [lia| |].
  - intros bs Hl. by rewrite drop_0, take_ge by lia.
  - intros bs b Hl Hb. unfold write_at. rewrite take_0, drop_ge by (rewrite enc_length by done; lia). cbn. rewrite app_nil_r. by rewrite dec_enc.
Qed.

(** ** The layout of Go structures *)

(** A field starts at the next multiple of its alignment; the size is rounded
    up to the largest alignment. *)
Definition align_up (off a : Z) : Z := (off + a - 1) / a * a.

Fixpoint go_layout (off align : Z) (fields : list (Z * Z)) : list Z * Z :=
  match fields with
  | [] => ([], align_up off align)
  | (size, a) :: fields' =>
      let start := align_up off a in
      let '(offs, total) := go_layout (start + size) (Z.max align a) fields' in (start :: offs, total)
  end.

(** ** The structures of the region *)
Definition maxDevices : nat := 16.
Definition maxProcs : nat := 1024.

Definition memory_codec : codec deviceMemory :=
  cstruct (fun '(a, (b, (c, (d, e)))) => mkDeviceMemory a b c d e)
    (fun m => (dm_contextSize m, (dm_moduleSize m, (dm_bufferSize m, (dm_offset m, dm_total m)))))
    (cpair uint64 (cpair uint64 (cpair uint64 (cpair uint64 uint64)))).

(** [sps_pad]: the bytes that fill the slot up to its alignment. *)
Record shrregProcSlotT := mkSlot {
  sps_pid : Z;
  sps_hostpid : Z;
  sps_used : list deviceMemory;
  sps_monitorused : list Z;
  sps_status : Z;
  sps_pad : list ascii;
}.

Definition slot_of (x : Z * (Z * (list deviceMemory * (list Z * (Z * list ascii))))) : shrregProcSlotT :=
  let '(a, (b, (c, (d, (e, f))))) := x in mkSlot a b c d e f.
Definition slot_tuple (s : shrregProcSlotT) : Z * (Z * (list deviceMemory * (list Z * (Z * list ascii)))) :=
  (sps_pid s, (sps_hostpid s, (sps_used s, (sps_monitorused s, (sps_status s, sps_pad s))))).
Definition slot_fields := cpair int32 (cpair int32 (cpair (carray maxDevices memory_codec)
  (cpair (carray maxDevices uint64) (cpair int32 (hole 4))))).
Definition slot_codec : codec shrregProcSlotT := cstruct slot_of slot_tuple slot_fields.

(** [rr_pad]: the bytes between the semaphore and [num]. *)
Record rawRegion := mkRawRegion {
  rr_initializedFlag : Z;
  rr_smInitFlag : Z;
  rr_ownerPid : Z;
  rr_sem : string;
  rr_pad : list ascii;
  rr_num : Z;
  rr_uuids : list string;
  rr_limit : list Z;
  rr_sm_limit : list Z;
  rr_procs : list shrregProcSlotT;
  rr_procnum : Z;
  rr_utilizationSwitch : Z;
  rr_recentKernel : Z;
  rr_priority : Z;
}.

Abbreviation region_tuple_type :=
  (Z * (Z * (Z * (string * (list ascii * (Z * (list string * (list Z * (list Z * (list shrregProcSlotT
   * (Z * (Z * (Z * Z)))))))))))))%type.
Definition region_of (x : region_tuple_type) : rawRegion :=
  let '(a, (b, (c, (d, (e, (f, (g, (h, (i, (j, (k, (l, (m, n))))))))))))) := x in mkRawRegion a b c d e f g h i j k l m n.
Definition region_tuple (r : rawRegion) : region_tuple_type :=
  (rr_initializedFlag r, (rr_smInitFlag r, (rr_ownerPid r, (rr_sem r, (rr_pad r, (rr_num r, (rr_uuids r, (rr_limit r,
   (rr_sm_limit r, (rr_procs r, (rr_procnum r, (rr_utilizationSwitch r, (rr_recentKernel r, rr_priority r))))))))))))).
Definition region_fields : codec region_tuple_type :=
  cpair int32 (cpair int32 (cpair uint32 (cpair (chars 32) (cpair (hole 4) (cpair uint64 (cpair (carray maxDevices (chars 96))
  (cpair (carray maxDevices uint64) (cpair (carray maxDevices uint64) (cpair (carray maxProcs slot_codec)
  (cpair int32 (cpair int32 (cpair int32 int32)))))))))))).
Definition region_codec : codec rawRegion := cstruct region_of region_tuple region_fields.

#[export] Instance memory_codec_laws : Codec memory_codec.
Proof. apply cstruct_laws; [by intros (? & ? & ? & ? & ?)|by intros []|apply _]. Qed.
#[export] Instance slot_codec_laws : Codec slot_codec.
Proof. apply cstruct_laws; [by intros (? & ? & ? & ? & ? & ?)|by intros []|apply _]. Qed.

Lemma region_tuple_of x : region_tuple (region_of x) = x.
Proof. by destruct x as (? & ? & ? & ? & ? & ? & ? & ? & ? & ? & ? & ? & ? & ?). Qed.

#[export] Instance region_codec_laws : Codec region_codec.
Proof. apply cstruct_laws; [apply region_tuple_of|by intros []|apply _]. Qed.

(** ** The fields the monitor writes *)
Definition in_tail {C} (f : field (Z * (Z * (Z * Z))) C) : field rawRegion C :=
  field_comp (struct_field region_of region_tuple)
    (skip int32 (skip int32 (skip uint32 (skip (chars 32) (skip (hole 4) (skip uint64 (skip (carray maxDevices (chars 96))
    (skip (carray maxDevices uint64) (skip (carray maxDevices uint64) (skip (carray maxProcs slot_codec) f)))))))))).

Definition utilizationSwitch_field : field rawRegion Z := in_tail (skip int32 fst_field).
Definition recentKernel_field : field rawRegion Z := in_tail (skip int32 (skip int32 fst_field)).
Definition priority_field : field rawRegion Z := in_tail (skip int32 (skip int32 (skip int32 whole))).

Definition zero_slot : shrregProcSlotT := mkSlot 0 0 [] [] 0 [].
Definition slot_field (i : nat) : field rawRegion shrregProcSlotT :=
  field_comp (struct_field region_of region_tuple)
    (skip int32 (skip int32 (skip uint32 (skip (chars 32) (skip (hole 4) (skip uint64 (skip (carray maxDevices (chars 96))
    (skip (carray maxDevices uint64) (skip (carray maxDevices uint64)
       (field_comp fst_field (at_index zero_slot (c_size slot_codec) i))))))))))).
Definition hostpid_field (i : nat) : field rawRegion Z :=
  field_comp (slot_field i) (field_comp (struct_field slot_of slot_tuple) (skip int32 fst_field)).

Lemma in_tail_ok {C} (cC : codec C) f :
  Codec cC -> Field (cpair int32 (cpair int32 (cpair int32 int32))) cC f -> Field region_codec cC (in_tail f).
Proof. intros HC Hf. apply (field_comp_ok _ region_fields); [apply _|done|by apply struct_field_ok; [apply region_tuple_of|apply _]|apply _]. Qed.

#[export] Instance utilizationSwitch_ok : Field region_codec int32 utilizationSwitch_field.
Proof. apply in_tail_ok; apply _. Qed.
#[export] Instance recentKernel_ok : Field region_codec int32 recentKernel_field.
Proof. apply in_tail_ok; apply _. Qed.
#[export] Instance priority_ok : Field region_codec int32 priority_field.
Proof. apply in_tail_ok; apply _. Qed.
#[export] Instance slot_field_ok i : TCEq (i <? maxProcs)%nat true -> Field region_codec slot_codec (slot_field i).
Proof.
  intros Hi. apply (field_comp_ok _ region_fields); [apply _..|by apply struct_field_ok; [apply region_tuple_of|apply _]|].
  do 9 (apply skip_ok; [apply _..|]). apply (field_comp_ok _ (carray maxProcs slot_codec)); apply _.
Qed.
#[export] Instance hostpid_ok i : TCEq (i <? maxProcs)%nat true -> Field region_codec int32 (hostpid_field i).
Proof.
  intros Hi. apply (field_comp_ok _ slot_codec); [apply _..|].
  apply (field_comp_ok _ slot_fields); [apply _..| |apply _]. apply struct_field_ok; [|apply _]. by intros (? & ? & ? & ? & ? & ?).
Qed.

(** ** What the rest of the monitor reads *)
Definition proc_view (s : shrregProcSlotT) : procSlot := mkProc (sps_pid s) (sps_hostpid s) (sps_used s).
Definition region_view (r : rawRegion) : sharedRegionT :=
  mkRegion (rr_num r) (rr_uuids r) (rr_limit r) (proc_view <$> rr_procs r) (rr_utilizationSwitch r) (rr_recentKernel r)
    (rr_priority r).
Definition mem_region (mem : list ascii) : sharedRegionT := region_view (c_dec region_codec mem).

(** ** Mapping the file *)

(** [cudevshrPath] and [cudaCache]: the pointer is the mapped memory. *)
Record nvidiaCollector := mkCollector { nc_cudevshrPath : string; nc_cudaCache : option (list ascii) }.

Section mapping.
(** [os.OpenFile] and [syscall.Mmap] of the given number of bytes. *)
Context (OpenFile : string -> Z + error) (Mmap : Z -> nat -> list ascii + error).

Definition mmapcachefile (filename : string) (nc : nvidiaCollector) : nvidiaCollector * option error :=
  match OpenFile filename with
  | inr err => (nc, Some err)
  | inl f =>
      match Mmap f (c_size region_codec) with
      | inr err => (nc, Some err)
      | inl data => (mkCollector (nc_cudevshrPath nc) (Some data), None)
      end
  end.

Definition path_error : error := "not found path".

Definition getvGPUMemoryInfo (nc : nvidiaCollector) : nvidiaCollector * option (list ascii) * option error :=
  if (0 <? String.length (nc_cudevshrPath nc))%nat then
    let nc := match nc_cudaCache nc with
              | None => (mmapcachefile (nc_cudevshrPath nc) nc).1
              | Some _ => nc
              end in
    (nc, nc_cudaCache nc, None)
  else (nc, Some (replicate (c_size region_codec) Ascii.zero), Some path_error).

(** What [checkfiles] gets for a cache file. *)
Definition mapped_region (cachefile : string) : option sharedRegionT :=
  mem_region <$> (getvGPUMemoryInfo (mkCollector cachefile None)).1.2.
End mapping.

(** ** [setProcSlot] *)

(** [binary.Read] into a structure wants all its bytes; it cannot set fields
    that are not exported. *)
Definition binary_Read_memory (buff : list ascii) (old : deviceMemory) : outcome deviceMemory :=
  if (length buff <? c_size memory_codec)%nat then Ret old else Panic Explicit.
Definition binary_Read (c : codec Z) (buff : list ascii) (old : Z) : Z :=
  if (length buff <? c_size c)%nat then old else c_dec c (take (c_size c) buff).

Section proc_slot.
(** [at.ReadAt(buff, off)]: the buffer after the call. *)
Context (ReadAt : list ascii -> nat -> list ascii).

Fixpoint read_used (offset : nat) (idxs : list nat) (buff : list ascii) (used : list deviceMemory)
    : outcome (list ascii * list deviceMemory) :=
  match idxs with
  | [] => Ret (buff, used)
  | i :: idxs' =>
      let buff := ReadAt buff (offset + 8 + 8 * i) in
      old ← slice_get used i;
      m ← binary_Read_memory buff old;
      read_used offset idxs' buff (<[i := m]> used)
  end.

Definition with_total (m : deviceMemory) (total : Z) : deviceMemory :=
  mkDeviceMemory (dm_contextSize m) (dm_moduleSize m) (dm_bufferSize m) (dm_offset m) total.

Fixpoint read_monitorused (offset : nat) (idxs : list nat) (buff : list ascii) (monitorused : Z) (used : list deviceMemory)
    : outcome (list deviceMemory) :=
  match idxs with
  | [] => Ret used
  | i :: idxs' =>
      let buff := ReadAt buff (offset + 8 + 8 * 16 + 8 * i) in
      let monitorused := binary_Read uint64 buff monitorused in
      m ← slice_get used i;
      let used := if dm_total m <? monitorused then <[i := with_total m monitorused]> used else used in
      read_monitorused offset idxs' buff monitorused used
  end.

Definition setProcSlot (offset : nat) : outcome (shrregProcSlotT * option error) :=
  let buff := ReadAt (replicate 4 Ascii.zero) offset in
  let pid := binary_Read int32 buff 0 in
  let zeros := replicate maxDevices (mkDeviceMemory 0 0 0 0 0) in
  '(buff, used) ← read_used offset (seq 0 maxDevices) (replicate 8 Ascii.zero) zeros;
  used ← read_monitorused offset (seq 0 maxDevices) buff 0 used;
  Ret (mkSlot pid 0 used (replicate maxDevices 0) 0 [], None).
End proc_slot.
