(* ===== verification/RegionFacts.v ===== *)
(** * Properties of the region's bytes *)

From Stdlib Require Import ZArith Lia Ascii String.
From stdpp Require Import base decidable option gmap strings numbers sorting list.
From S2P Require Import Prelude GoStrings GoTime GoRuntime Types Monitor MonitorFacts MonitorServer Region.

#[local] Open Scope Z_scope.

(** ** Offsets *)
Definition off (n : nat) : Z := Z.of_nat n.

Ltac offsets := unfold off; cbn -[Nat.mul Nat.add Z.of_nat Z.mul Z.add maxProcs maxDevices]; unfold maxProcs, maxDevices; lia.

Lemma region_size : off (c_size region_codec) = 804680.
Proof. offsets. Qed.
Lemma recentKernel_off : off (fld_off recentKernel_field) = 804672.
Proof. offsets. Qed.
Lemma utilizationSwitch_off : off (fld_off utilizationSwitch_field) = 804668.
Proof. offsets. Qed.
Lemma hostpid_off i : off (fld_off (hostpid_field i)) = 1848 + 784 * off i + 4.
Proof. offsets. Qed.

(** ** Writes to the memory *)
Definition region_mem (mem : list ascii) : Prop := off (length mem) = 804680.

Lemma region_mem_size mem : region_mem mem -> length mem = c_size region_codec.
Proof. unfold region_mem, off. pose proof region_size as Hs. unfold off in Hs. lia. Qed.

Section write.
Context {B} (cB : codec B) (f : field rawRegion B) {HB : Codec cB} {Hf : Field region_codec cB f}.

(** [p.f = b] *)
Definition put (b : B) (mem : list ascii) : list ascii := write_at (fld_off f) (c_enc cB b) mem.

Lemma put_mem b mem : c_ok cB b -> region_mem mem -> region_mem (put b mem).
Proof.
  intros Hb Hm. unfold region_mem, put in *. rewrite write_at_length; [done|].
  rewrite enc_length, (region_mem_size mem) by done. apply field_inside.
Qed.

Lemma put_view b mem : c_ok cB b -> region_mem mem -> mem_region (put b mem) = region_view (fld_set f b (c_dec region_codec mem)).
Proof. intros Hb Hm. unfold mem_region, put. by rewrite field_write by (done || by apply region_mem_size). Qed.

Lemma put_outside b mem i : c_ok cB b -> region_mem mem ->
  off i < off (fld_off f) \/ off (fld_off f) + off (c_size cB) <= off i -> put b mem !! i = mem !! i.
Proof.
  intros Hb Hm Hi. unfold put. apply write_at_outside; rewrite enc_length by done; unfold off in Hi; [|lia].
  rewrite (region_mem_size mem) by done. apply field_inside.
Qed.
End write.

Definition put_recentKernel : Z -> list ascii -> list ascii := put int32 recentKernel_field.
Definition put_switch : Z -> list ascii -> list ascii := put int32 utilizationSwitch_field.
Definition put_hostpid (i : nat) : Z -> list ascii -> list ascii := put int32 (hostpid_field i).

Lemma put_recentKernel_view n mem :
  c_ok int32 n -> region_mem mem -> mem_region (put_recentKernel n mem) = with_recentKernel (mem_region mem) n.
Proof. intros Hn Hm. etransitivity; [exact (put_view int32 recentKernel_field n mem Hn Hm)|]. unfold mem_region. by destruct (c_dec region_codec mem). Qed.

Lemma put_switch_view n mem :
  c_ok int32 n -> region_mem mem -> mem_region (put_switch n mem) = with_switch (mem_region mem) n.
Proof. intros Hn Hm. etransitivity; [exact (put_view int32 utilizationSwitch_field n mem Hn Hm)|]. unfold mem_region. by destruct (c_dec region_codec mem). Qed.

Lemma region_procs_length mem : region_mem mem -> length (rr_procs (c_dec region_codec mem)) = maxProcs.
Proof.
  intros Hm%region_mem_size. pose proof (dec_ok (c := region_codec) mem Hm) as Hok.
  destruct (c_dec region_codec mem) as [? ? ? ? ? ? ? ? ? procs ? ? ? ?]. cbn in Hok |- *.
  by destruct Hok as (_ & _ & _ & _ & _ & _ & _ & _ & _ & (? & _) & _).
Qed.

Lemma region_view_procs r : length (sr_procs (region_view r)) = length (rr_procs r).
Proof. apply length_fmap. Qed.

Lemma mem_procs_length mem : region_mem mem -> length (sr_procs (mem_region mem)) = maxProcs.
Proof. intros Hm. unfold mem_region. rewrite region_view_procs. by apply region_procs_length. Qed.

Lemma alter_insert_at {A} (f : A -> A) (l : list A) (i : nat) x : l !! i = Some x -> alter f i l = <[i := f x]> l.
Proof.
  revert i. induction l as [|y l IH]; intros [|i] Hl; [done..| |].
  - by injection Hl as ->.
  - cbn. f_equal. by apply IH.
Qed.

Lemma hostpid_view i n r :
  (i < length (rr_procs r))%nat ->
  region_view (fld_set (hostpid_field i) n r)
  = with_procs (region_view r) (alter (fun p => with_hostpid p n) i (sr_procs (region_view r))).
Proof.
  destruct r as [a b c d e f g h k procs ut sw rk pr]. intros Hi. cbn [rr_procs] in Hi.
  unfold region_view, with_procs. cbn -[nth alter]. f_equal.
  destruct (lookup_lt_is_Some_2 procs i Hi) as [s Hs]. rewrite (nth_lookup_Some _ _ _ _ Hs), list_fmap_insert.
  rewrite (alter_insert_at _ _ i (proc_view s)) by (by rewrite list_lookup_fmap, Hs). by destruct s.
Qed.

Lemma put_hostpid_view i n mem :
  (i < maxProcs)%nat -> c_ok int32 n -> region_mem mem ->
  mem_region (put_hostpid i n mem)
  = with_procs (mem_region mem) (alter (fun p => with_hostpid p n) i (sr_procs (mem_region mem))).
Proof.
  intros Hi Hn Hm. assert (TCEq (i <? maxProcs)%nat true) by (apply TCEq_eq, Nat.ltb_lt, Hi).
  etransitivity; [exact (put_view int32 (hostpid_field i) n mem Hn Hm)|]. apply hostpid_view.
  by rewrite region_procs_length.
Qed.

(** ** A round of [Observe] on the mapped memory *)
Definition observe_bytes (srlist : gmap string podusage) (mem : list ascii) : list ascii :=
  let sr := observed srlist (mem_region mem) in
  put_switch (sr_utilizationSwitch sr) (put_recentKernel (sr_recentKernel sr) mem).

Lemma recentKernel_range mem : region_mem mem -> c_ok int32 (sr_recentKernel (mem_region mem)).
Proof.
  intros Hm%region_mem_size. pose proof (dec_ok (c := region_codec) mem Hm) as Hok. unfold mem_region.
  destruct (c_dec region_codec mem) as [? ? ? ? ? ? ? ? ? procs ? ? ? ?]. cbn in Hok |- *.
  by destruct Hok as (_ & _ & _ & _ & _ & _ & _ & _ & _ & _ & _ & _ & ? & _).
Qed.

Lemma observed_range srlist sr :
  c_ok int32 (sr_recentKernel sr) ->
  c_ok int32 (sr_recentKernel (observed srlist sr)) /\ c_ok int32 (sr_utilizationSwitch (observed srlist sr)).
Proof.
  intros Hm. cbn in Hm |- *. unfold aged. split; [|destruct (must_limit _ _); lia].
  destruct (must_wait _ _), (Z.ltb_spec 0 (sr_recentKernel sr)); lia.
Qed.

Lemma observe_bytes_view srlist mem :
  region_mem mem -> mem_region (observe_bytes srlist mem) = observed srlist (mem_region mem).
Proof.
  intros Hm. destruct (observed_range srlist _ (recentKernel_range mem Hm)) as [Hr Hs]. unfold observe_bytes.
  rewrite put_switch_view; [|exact Hs|]. 2: exact (put_mem int32 recentKernel_field _ mem Hr Hm).
  rewrite put_recentKernel_view; [done|exact Hr|exact Hm].
Qed.

Lemma observe_bytes_outside srlist mem i :
  region_mem mem -> ~ (804668 <= off i < 804676) -> observe_bytes srlist mem !! i = mem !! i.
Proof.
  intros Hm Hi. destruct (observed_range srlist _ (recentKernel_range mem Hm)) as [Hr Hs]. unfold observe_bytes, put_switch, put_recentKernel.
  assert (off (c_size int32) = 4) as E4 by done. etransitivity.
  - refine (put_outside int32 utilizationSwitch_field _ _ i Hs _ _); [exact (put_mem int32 recentKernel_field _ mem Hr Hm)|].
    rewrite utilizationSwitch_off, E4. lia.
  - refine (put_outside int32 recentKernel_field _ _ i Hr Hm _). rewrite recentKernel_off, E4. lia.
Qed.

(** ** What [setProcSlot] reads *)
Section reads.
Context (ReadAt : list ascii -> nat -> list ascii) (mem : list ascii) (offset : nat).
(** [io.ReaderAt]: a read inside the file fills the buffer. *)
Hypothesis reads : forall buff o, (o + length buff <= length mem)%nat -> ReadAt buff o = take (length buff) (drop o mem).
Hypothesis inside : (offset + c_size slot_codec <= length mem)%nat.

Definition word_at (o : nat) : Z := c_dec uint64 (take 8 (drop o mem)).

Lemma ReadAt_length buff o : (o + length buff <= length mem)%nat -> length (ReadAt buff o) = length buff.
Proof. intros Ho. rewrite reads by done. rewrite length_take, length_drop. lia. Qed.

Lemma slot_size : c_size slot_codec = 784%nat.
Proof. reflexivity. Qed.

Lemma read_used_zero idxs : forall buff used,
  length buff = 8%nat -> length used = maxDevices -> Forall (fun i => i < maxDevices)%nat idxs ->
  exists buff', read_used ReadAt offset idxs buff used = Ret (buff', used) /\ length buff' = 8%nat.
Proof.
  pose proof slot_size as Hz.
  induction idxs as [|i idxs IH]; intros buff used Hb Hu Hi; cbn [read_used]; [by exists buff|].
  apply Forall_cons in Hi as [Hi Hidx]. unfold maxDevices in *.
  assert (length (ReadAt buff (offset + 8 + 8 * i)) = 8%nat) as Hl by (rewrite ReadAt_length; lia).
  destruct (lookup_lt_is_Some_2 used i ltac:(lia)) as [m Hm].
  rewrite (proj2 (slice_get_Ret _ _ _) Hm). cbn [mbind outcome_bind]. unfold binary_Read_memory. rewrite Hl.
  change (8 <? c_size memory_codec)%nat with true. cbn [mbind outcome_bind]. rewrite list_insert_id by done. by apply IH.
Qed.

Definition read_total (i : nat) : deviceMemory := mkDeviceMemory 0 0 0 0 (word_at (offset + 8 + 8 * 16 + 8 * i)).

Lemma word_at_nonneg o : 0 <= word_at o.
Proof. apply le_dec_range. Qed.

Lemma binary_Read_word buff old o :
  length buff = 8%nat -> (o + 8 <= length mem)%nat -> binary_Read uint64 (ReadAt buff o) old = word_at o.
Proof.
  intros Hb Ho. unfold binary_Read. rewrite ReadAt_length by lia. rewrite Hb. change (8 <? c_size uint64)%nat with false.
  cbv iota. rewrite reads by lia. rewrite Hb. unfold word_at. change (c_size uint64) with 8%nat. by rewrite take_take.
Qed.

Lemma read_monitorused_total n : forall k buff mu,
  length buff = 8%nat -> (k + n)%nat = maxDevices ->
  read_monitorused ReadAt offset (seq k n) buff mu ((read_total <$> seq 0 k) ++ replicate n (mkDeviceMemory 0 0 0 0 0))
  = Ret (read_total <$> seq 0 maxDevices).
Proof.
  pose proof slot_size as Hz. induction n as [|n IH]; intros k buff mu Hb Hk; cbn [seq read_monitorused replicate].
  { rewrite app_nil_r. by replace maxDevices with k by lia. }
  assert (length (read_total <$> seq 0 k) = k) as Hlk by (by rewrite length_fmap, length_seq).
  unfold maxDevices in Hk. rewrite binary_Read_word by lia.
  set (l := (read_total <$> seq 0 k) ++ _). assert (l !! k = Some (mkDeviceMemory 0 0 0 0 0)) as Hl.
  { unfold l. rewrite lookup_app_r by lia. by rewrite Hlk, Nat.sub_diag. }
  rewrite (proj2 (slice_get_Ret _ _ _) Hl). cbn [mbind outcome_bind dm_total].
  assert ((if 0 <? word_at (offset + 8 + 8 * 16 + 8 * k)
           then <[k := with_total (mkDeviceMemory 0 0 0 0 0) (word_at (offset + 8 + 8 * 16 + 8 * k))]> l else l)
    = (read_total <$> seq 0 (S k)) ++ replicate n (mkDeviceMemory 0 0 0 0 0)) as ->.
  - rewrite seq_S, fmap_app, <- app_assoc. cbn [app fmap list_fmap Nat.add].
    pose proof (word_at_nonneg (offset + 8 + 8 * 16 + 8 * k)). destruct (Z.ltb_spec 0 (word_at (offset + 8 + 8 * 16 + 8 * k))).
    + unfold l. rewrite insert_app_r_alt by lia. by rewrite Hlk, Nat.sub_diag.
    + assert (read_total k = mkDeviceMemory 0 0 0 0 0) as -> by (unfold read_total; f_equal; lia). done.
  - apply IH; [rewrite ReadAt_length; lia|unfold maxDevices; lia].
Qed.

Lemma setProcSlot_spec :
  exists slot, setProcSlot ReadAt offset = Ret (slot, None) /\ sps_pid slot = c_dec int32 (take 4 (drop offset mem))
    /\ sps_used slot = read_total <$> seq 0 maxDevices.
Proof.
  pose proof slot_size as Hz. unfold setProcSlot.
  destruct (read_used_zero (seq 0 maxDevices) (replicate 8 Ascii.zero) (replicate maxDevices (mkDeviceMemory 0 0 0 0 0)))
    as (buff & -> & Hb); [done|done|by apply Forall_seq; intros; lia|]. cbn [mbind outcome_bind].
  pose proof (read_monitorused_total maxDevices 0 buff 0 Hb eq_refl) as Hm. cbn [fmap list_fmap app] in Hm.
  change (read_total <$> seq 0 0) with (@nil deviceMemory) in Hm. cbn [app] in Hm. rewrite Hm. cbn [mbind outcome_bind]. eexists. split; [done|]. split; [|done].
  cbn [sps_pid]. unfold binary_Read. rewrite ReadAt_length by (cbn; lia). cbn [length replicate Nat.ltb Nat.leb c_size int32].
  rewrite reads by (cbn; lia). cbn [length replicate]. by rewrite take_take.
Qed.
End reads.

(** The second word of the fourth device of a slot. *)
Definition module3_field : field shrregProcSlotT Z :=
  field_comp (struct_field slot_of slot_tuple) (skip int32 (skip int32 (field_comp fst_field
    (field_comp (at_index (mkDeviceMemory 0 0 0 0 0) (c_size memory_codec) 3)
      (field_comp (struct_field (fun '(a, (b, (c, (d, e)))) => mkDeviceMemory a b c d e)
        (fun m => (dm_contextSize m, (dm_moduleSize m, (dm_bufferSize m, (dm_offset m, dm_total m)))))) (skip uint64 fst_field)))))).

#[export] Instance module3_ok : Field slot_codec uint64 module3_field.
Proof.
  apply (field_comp_ok _ slot_fields); [apply _..|by apply struct_field_ok; [intros (? & ? & ? & ? & ? & ?)|apply _]|].
  apply skip_ok; [apply _..|]. apply skip_ok; [apply _..|]. apply (field_comp_ok _ (carray maxDevices memory_codec)); [apply _..|].
  apply (field_comp_ok _ memory_codec); [apply _..|]. eapply field_comp_ok; [| |apply struct_field_ok; [by intros (? & ? & ? & ? & ?)|]|]; apply _.
Qed.

(** ** The process numbers [setHostPid] writes *)
Definition hostpid_byte (j : Z) : Prop := exists i, 1848 + 784 * i + 4 <= j < 1848 + 784 * i + 8.

Lemma int32_wrap z : c_ok int32 (i32 z).
Proof.
  cbn [int32 c_ok]. unfold wrap. change (2 ^ (32 - 1)) with 2147483648. change (2 ^ 31) with 2147483648.
  change (2 ^ 32) with 4294967296. Z.div_mod_to_equations; lia.
Qed.

Lemma put_hostpid_mem i pid mem : (i < maxProcs)%nat -> c_ok int32 pid -> region_mem mem ->
  region_mem (put_hostpid i pid mem) /\ forall j, ~ hostpid_byte (off j) -> put_hostpid i pid mem !! j = mem !! j.
Proof.
  intros Hi Hp Hm. assert (TCEq (i <? maxProcs)%nat true) by (apply TCEq_eq, Nat.ltb_lt, Hi). split.
  - exact (put_mem int32 (hostpid_field i) pid mem Hp Hm).
  - intros j Hj. refine (put_outside int32 (hostpid_field i) pid mem j Hp Hm _). rewrite hostpid_off.
    change (off (c_size int32)) with 4. destruct (Z.lt_ge_cases (off j) (1848 + 784 * off i + 4)) as [|H1]; [by left|].
    right. destruct (Z.le_gt_cases (1848 + 784 * off i + 4 + 4) (off j)); [done|]. destruct Hj. exists (off i). lia.
Qed.

Lemma with_procs_twice sr p q : with_procs (with_procs sr p) q = with_procs sr q.
Proof. done. Qed.

Lemma with_procs_same sr : with_procs sr (sr_procs sr) = sr.
Proof. by destruct sr. Qed.

Lemma assign_in_place suf : forall pre l mem,
  region_mem mem -> sr_procs (mem_region mem) = pre ++ suf ->
  exists mem', region_mem mem' /\ mem_region mem' = with_procs (mem_region mem) (pre ++ assign_pids suf l)
    /\ forall j, ~ hostpid_byte (off j) -> mem' !! j = mem !! j.
Proof.
  induction suf as [|p suf IH]; intros pre l mem Hm Hp; cbn [assign_pids].
  { exists mem. by rewrite <- Hp, with_procs_same. }
  destruct (proc_pid p =? 0). { exists mem. by rewrite <- Hp, with_procs_same. }
  assert (forall q, pre ++ q :: suf = (pre ++ [q]) ++ suf) as Eapp by (intros q; by rewrite <- app_assoc).
  destruct l as [|h l].
  { destruct (IH (pre ++ [p]) [] mem Hm) as (mem' & H1 & H2 & H3); [by rewrite Hp, Eapp|].
    exists mem'. split_and!; [done| |done]. by rewrite H2, <- app_assoc. }
  destruct ((proc_hostpid p =? 0) || _).
  - assert (length pre < maxProcs)%nat as Hi.
    { pose proof (mem_procs_length mem Hm) as Hl. rewrite Hp, length_app in Hl. cbn [length] in Hl. lia. }
    destruct (put_hostpid_mem (length pre) (i32 (hp_pid h)) mem Hi (int32_wrap _) Hm) as [Hm1 Ho1].
    pose proof (put_hostpid_view (length pre) (i32 (hp_pid h)) mem Hi (int32_wrap _) Hm) as Hv.
    rewrite Hp in Hv. rewrite <- (Nat.add_0_r (length pre)), alter_app_r, Nat.add_0_r in Hv. cbn [alter list_alter] in Hv.
    destruct (IH (pre ++ [with_hostpid p (i32 (hp_pid h))]) l _ Hm1) as (mem' & H1 & H2 & H3).
    { rewrite Hv. cbn [with_procs sr_procs]. by rewrite Eapp. }
    exists mem'. split_and!; [done| |by intros j Hj; rewrite H3, Ho1]. rewrite H2, Hv, with_procs_twice. by rewrite <- app_assoc.
  - destruct (IH (pre ++ [p]) l mem Hm) as (mem' & H1 & H2 & H3); [by rewrite Hp, Eapp|].
    exists mem'. split_and!; [done| |done]. by rewrite H2, <- app_assoc.
Qed.

(** A fresh file: all bytes are zero. *)
Definition zero_mem : list ascii := replicate (c_size region_codec) Ascii.zero.

Lemma zero_mem_region : region_mem zero_mem.
Proof. unfold region_mem, zero_mem. rewrite length_replicate. apply region_size. Qed.

Lemma zero_mem_priority : sr_priority (mem_region zero_mem) = 0.
Proof.
  pose proof (field_read (f := priority_field) (cB := int32) zero_mem (region_mem_size _ zero_mem_region)) as Hr.
  unfold mem_region. transitivity (fld_get priority_field (c_dec region_codec zero_mem)); [by destruct (c_dec region_codec zero_mem)|].
  rewrite <- Hr. unfold zero_mem. rewrite drop_replicate, take_replicate.
  assert (off (fld_off priority_field) = 804676) as Ho by offsets. pose proof region_size as Hs. unfold off in *.
  replace (min (c_size int32) (c_size region_codec - fld_off priority_field)) with 4%nat; [done|]. change (c_size int32) with 4%nat. lia.
Qed.

(** The monitor's table over the mapped files. *)
Definition mapped_table (mems : gmap string (string * list ascii)) : gmap string podusage :=
  (fun x => mkPodusage x.1 (Some (mem_region x.2))) <$> mems.

Lemma fresh_table_ok : priorities_ok (mapped_table {["dir" := ("id"%string, zero_mem)]}).
Proof.
  intros idx val sr Hl Hs. unfold mapped_table in Hl. rewrite map_fmap_singleton in Hl.
  apply lookup_singleton_Some in Hl as [_ <-]. cbn [pu_sr snd] in Hs. injection Hs as <-. left. apply zero_mem_priority.
Qed.

Module RegionProps.

(** The layout: the offsets and sizes of the codec of a shared region are
    those the layout rule of Go gives to [sharedRegionT], its process slots
    and its device entries. *)
Theorem region_layout :
  go_layout 0 1 (replicate 5 (8, 8)) = ([0; 8; 16; 24; 32], off (c_size memory_codec)) /\
  go_layout 0 1 [(4, 4); (4, 4); (16 * off (c_size memory_codec), 8); (16 * 8, 8); (4, 4)]
    = ([0; 4; 8; 648; 776], off (c_size slot_codec)) /\
  go_layout 0 1 [(4, 4); (4, 4); (4, 4); (32, 1); (8, 8); (16 * 96, 1); (16 * 8, 8); (16 * 8, 8);
                 (1024 * off (c_size slot_codec), 8); (4, 4); (4, 4); (4, 4); (4, 4)]
    = ([0; 4; 8; 12; 48; 56; 1592; 1720; 1848; 804664; off (fld_off utilizationSwitch_field);
        off (fld_off recentKernel_field); off (fld_off priority_field)], off (c_size region_codec)) /\
  forall i, off (fld_off (slot_field i)) = 1848 + off i * off (c_size slot_codec)
    /\ off (fld_off (hostpid_field i)) = 1848 + off i * off (c_size slot_codec) + 4.
Proof.
  rewrite region_size, recentKernel_off, utilizationSwitch_off.
  assert (off (fld_off priority_field) = 804676) as -> by offsets.
  split_and!; [reflexivity..|]. intros i. rewrite hostpid_off. change (off (c_size slot_codec)) with 784. split; [offsets|lia].
Qed.

(** A region and its bytes determine each other: decoding the mapped bytes
    and encoding the structure again gives the same bytes, and a structure
    whose numbers fit their types is read back from its bytes as it was
    written. *)
Theorem region_bytes_roundtrip :
  (forall mem, region_mem mem -> c_ok region_codec (c_dec region_codec mem) /\ c_enc region_codec (c_dec region_codec mem) = mem) /\
  (forall r, c_ok region_codec r -> region_mem (c_enc region_codec r) /\ c_dec region_codec (c_enc region_codec r) = r).
Proof.
  split.
  - intros mem Hm%region_mem_size. split; [by apply dec_ok|by apply enc_dec].
  - intros r Hr. split; [|by apply dec_enc]. unfold region_mem. rewrite enc_length by exact Hr. apply region_size.
Qed.

(** C36. A round of [Observe] on the mapped files changes eight bytes of each:
    running it on the regions the memories hold gives the regions of memories
    that differ only in [utilizationSwitch] and [recentKernel], bytes 804668
    to 804675; the memory of the processes is not touched. *)
Theorem observe_in_place `{GoRuntime} mems :
  priorities_ok (mapped_table mems) -> map_Forall (fun _ x => region_mem x.2) mems ->
  exists mems', Observe (mapped_table mems) = Ret (mapped_table mems') /\ dom mems' = dom mems /\
    forall k id mem, mems !! k = Some (id, mem) ->
      exists mem', mems' !! k = Some (id, mem') /\ region_mem mem' /\
        forall i, ~ (804668 <= off i < 804676) -> mem' !! i = mem !! i.
Proof.
  intros Hp Hm. exists ((fun x => (x.1, observe_bytes (mapped_table mems) x.2)) <$> mems). split_and!.
  - rewrite Observe_spec by exact Hp. f_equal. unfold mapped_table at 2 3. rewrite <- !map_fmap_compose.
    apply map_fmap_ext. intros k [id mem] Hk. unfold observe_pod. cbn [compose pu_sr pu_idstr fst snd].
    rewrite observe_bytes_view by exact (Hm k _ Hk). done.
  - by rewrite dom_fmap_L.
  - intros k id mem Hk. exists (observe_bytes (mapped_table mems) mem). pose proof (Hm k _ Hk) as Hmem. cbn [snd] in Hmem.
    split_and!; [by rewrite lookup_fmap, Hk| |by intros i Hi; apply observe_bytes_outside].
    destruct (observed_range (mapped_table mems) _ (recentKernel_range mem Hmem)) as [Hr Hs]. unfold observe_bytes.
    apply (put_mem int32 utilizationSwitch_field); [exact Hs|]. exact (put_mem int32 recentKernel_field _ mem Hr Hmem).
Qed.

Lemma observe_in_place_witness :
  exists mems', @Observe go_reference (mapped_table {["dir"%string := ("id"%string, zero_mem)]}) = Ret (mapped_table mems')
    /\ exists mem', mems' !! "dir"%string = Some ("id"%string, mem') /\ mem' !! 0%nat = zero_mem !! 0%nat.
Proof.
  destruct (@observe_in_place go_reference {["dir"%string := ("id"%string, zero_mem)]} fresh_table_ok) as (mems' & E & _ & Hm).
  - apply map_Forall_singleton. exact zero_mem_region.
  - exists mems'. split; [exact E|]. destruct (Hm "dir"%string "id"%string zero_mem) as (mem' & Hk & _ & Ho).
    + apply lookup_singleton_eq.
    + exists mem'. split; [exact Hk|]. apply Ho. unfold off. lia.
Defined.

(** [setHostPid] writes process numbers only: the region it leaves is that of
    a memory that differs from the mapped one in the [hostpid] words of the
    slots. *)
Theorem set_host_pid_in_place `{GoRuntime} kubeletconfig ReadFile Lstat count QOSClass UID ContainerID driver mem :
  region_mem mem ->
  exists mem', (setHostPid kubeletconfig ReadFile Lstat count QOSClass UID ContainerID driver (Some (mem_region mem))).1.2
      = Some (mem_region mem')
    /\ region_mem mem' /\ forall j, ~ hostpid_byte (off j) -> mem' !! j = mem !! j.
Proof.
  intros Hm. unfold setHostPid. set (d := if driver =? 0 then _ else driver). destruct (d =? 0); [by exists mem|].
  destruct (getUsedGPUPid count) as [used|]; [|by exists mem]. destruct (length used =? 0)%nat; [by exists mem|].
  destruct (ReadFile _) as [content|]; [|by exists mem]. destruct (host_pids _ _ _) as [pids|]; [|by exists mem].
  destruct (assign_in_place (sr_procs (mem_region mem)) [] (sort_by newer (container_gpu_pids used pids)) mem Hm eq_refl)
    as (mem' & H1 & H2 & H3). rewrite app_nil_l in H2. exists mem'. rewrite H2. generalize (mem_region mem). intros sr.
  split; [reflexivity|]. split; [exact H1|exact H3].
Qed.

Lemma set_host_pid_in_place_witness :
  exists mem', (@setHostPid go_reference (inr "no"%string) (fun _ => inr "no"%string) (fun _ => inr "no"%string) (inr "no"%string)
    "besteffort" "u" "c" 1 (Some (mem_region zero_mem))).1.2 = Some (mem_region mem') /\ mem' !! 0%nat = zero_mem !! 0%nat.
Proof.
  destruct (@set_host_pid_in_place go_reference (inr "no"%string) (fun _ => inr "no"%string) (fun _ => inr "no"%string)
    (inr "no"%string) "besteffort"%string "u"%string "c"%string 1 zero_mem zero_mem_region) as (mem' & E & _ & Ho).
  exists mem'. split; [exact E|]. apply Ho. intros [i Hi]. unfold off in Hi. lia.
Defined.

(** [setProcSlot] expects an older layout: from a slot of a mapped region it
    reads the process number, but no use of memory, and the total it gives for
    the first device is the module size of the fourth. *)
Theorem setProcSlot_old_layout ReadAt mem offset :
  (forall buff o, (o + length buff <= length mem)%nat -> ReadAt buff o = take (length buff) (drop o mem)) ->
  (offset + c_size slot_codec <= length mem)%nat ->
  let actual := c_dec slot_codec (take (c_size slot_codec) (drop offset mem)) in
  exists slot m, setProcSlot ReadAt offset = Ret (slot, None) /\ sps_pid slot = c_dec int32 (take 4 (drop offset mem))
    /\ head (sps_used slot) = Some m /\ dm_contextSize m = 0
    /\ dm_total m = dm_moduleSize (nth 3 (sps_used actual) (mkDeviceMemory 0 0 0 0 0)).
Proof.
  intros Hr Hin actual. destruct (setProcSlot_spec ReadAt mem offset Hr Hin) as (slot & -> & Hpid & Hu).
  exists slot, (read_total mem offset 0). split_and!; [done|done|by rewrite Hu|done|]. unfold read_total, word_at. cbn [dm_total].
  pose proof (field_read (f := module3_field) (cA := slot_codec) (cB := uint64)
    (take (c_size slot_codec) (drop offset mem))) as Hf.
  rewrite length_take, length_drop in Hf. specialize (Hf ltac:(lia)). fold actual in Hf.
  assert (fld_get module3_field actual = dm_moduleSize (nth 3 (sps_used actual) (mkDeviceMemory 0 0 0 0 0))) as <-
    by (clearbody actual; by destruct actual).
  rewrite <- Hf. f_equal. change (fld_off module3_field) with 136%nat. change (c_size uint64) with 8%nat.
  change (c_size slot_codec) with 784%nat. rewrite skipn_firstn_comm, drop_drop, take_take. f_equal. f_equal. lia.
Qed.

(** A cache file that cannot be opened or mapped brings the monitor down:
    [getvGPUMemoryInfo] drops the error and returns a nil region, which
    [checkfiles] reads. *)
Theorem unmapped_cache_crashes OpenFile Mmap ReadDir fpath name :
  ReadDir fpath = inl [name] -> contains name "libvgpu.so" = false -> contains name ".cache" = true ->
  (exists e, OpenFile (fpath +:+ "/" +:+ name)%string = inr e) \/ (forall f n, exists e, Mmap f n = inr e) ->
  checkfiles ReadDir (mapped_region OpenFile Mmap) fpath = Panic NilDereference.
Proof.
  intros Hd Hl Hc Ho. unfold checkfiles. rewrite Hd. cbn [length Nat.ltb Nat.leb Nat.eqb check_loop]. rewrite Hl, Hc. cbn [negb].
  assert (mapped_region OpenFile Mmap (fpath +:+ "/" +:+ name)%string = None) as ->; [|done].
  unfold mapped_region, getvGPUMemoryInfo. cbn [nc_cudevshrPath nc_cudaCache].
  assert ((0 <? String.length (fpath +:+ "/" +:+ name))%nat = true) as ->
    by (destruct fpath; done).
  unfold mmapcachefile. destruct Ho as [[e ->]|Ho]; [done|]. destruct (OpenFile _) as [f|]; [|done].
  by destruct (Ho f (c_size region_codec)) as [e ->].
Qed.
End RegionProps.
