(* ===== verification/Nvidia.v ===== *)
(** * The NVIDIA device plugin

    [pkg/device-plugin/nvidiadevice/nvinternal]: the device table and its
    annotated identifiers (rm/devices.go), the distributed allocation
    (rm/allocate.go), the handler the kubelet calls (plugin/server.go), and
    the NUMA column of the registration (plugin/register.go).  NVML, the CDI
    library and the [gpuallocator] policy are not part of the repository:
    what they answer is a parameter. *)

From Stdlib Require Import ZArith Lia Ascii String Sorted.
From stdpp Require Import base decidable option gmap strings numbers sorting list.
From S2P Require Import Prelude GoStrings GoTime GoRuntime Types Kube NodeLock Codec Devices Score Scheduler PodAlloc.

#[local] Open Scope Z_scope.

(** ** rm/devices.go *)

Module rm.
(** [Device]: the plugin API device, its device files and its index. *)
Record Device := mkDevice {
  ID : string;
  Health : string;
  Topology : option Z;
  Paths : list string;
  Index : string;
}.
End rm.

Abbreviation rmDevices := (gmap string rm.Device).

(** [strings.SplitN(s, "::", 2)]: the text before and after the first "::",
    or [None]. *)
Fixpoint splitN_colons (s : string) : option (string * string) :=
  match s with
  | EmptyString => None
  | String a s' =>
      if String.prefix "::" s then
        match s' with String _ s'' => Some (""%string, s'') | EmptyString => None end
      else '(x, y) ← splitN_colons s'; Some (String a x, y)
  end.

Definition NewAnnotatedID (id : string) (replica : Z) : string := id +:+ "::" +:+ itoa replica.
Definition HasAnnotations (r : string) : bool := bool_decide (is_Some (splitN_colons r)).
Definition Split (r : string) : string * Z :=
  match splitN_colons r with
  | None => (r, 0)
  | Some (id, replica) => (id, (parse_int 10 64 replica).1)
  end.
Definition GetID (r : string) : string := (Split r).1.
Definition AnyHasAnnotations (rs : list string) : bool := existsb HasAnnotations rs.
Definition AnnotatedIDs_GetIDs (rs : list string) : list string := GetID <$> rs.

(** The interface [deviceInfo]: what NVML says of a device. *)
Record deviceInfo := mkDeviceInfo_ {
  info_UUID : string + error;
  info_Paths : list string + error;
  info_NumaNode : (bool * Z) + error;
}.

Definition BuildDevice (index : string) (d : deviceInfo) : rm.Device + error :=
  match info_UUID d with
  | inr err => inr ("error getting UUID device: " +:+ err)%string
  | inl uuid =>
      match info_Paths d with
      | inr err => inr ("error getting device paths: " +:+ err)%string
      | inl paths =>
          match info_NumaNode d with
          | inr err => inr ("error getting device NUMA node: " +:+ err)%string
          | inl (hasNuma, numa) =>
              inl (rm.mkDevice uuid pluginapi.Healthy (if hasNuma : bool then Some numa else None) paths index)
          end
      end
  end.

(** The [struct{ total, available int }] of a card. *)
Abbreviation Replicas := (gmap string (Z * Z)).

Section devices.
Context `{GoRuntime}.

Definition Contains (ds : rmDevices) (ids : list string) : bool :=
  forallb (fun id => bool_decide (is_Some (ds !! id))) ids.

Definition GetByID (ds : rmDevices) (id : string) : option rm.Device := ds !! id.

Definition GetByIndex (t : loop_id) (ds : rmDevices) (index : string) : option rm.Device :=
  snd ∘ snd <$> list_find (fun x => rm.Index x.2 = index) (range t ds).

Definition Subset (ds : rmDevices) (ids : list string) : rmDevices :=
  foldl (fun res id => match ds !! id with Some d => <[id := d]> res | None => res end) ∅ ids.

Definition Difference (ds ods : rmDevices) : rmDevices :=
  foldl (fun res '(id, d) => if Contains ods [id] then res else <[id := d]> res) ∅
    (range ("Difference"%string, 0%nat) ds).

Definition GetIDs (t : loop_id) (ds : rmDevices) : list string := (fun x => rm.ID x.2) <$> range t ds.
Definition GetIndices (ds : rmDevices) : list string :=
  (fun x => rm.Index x.2) <$> range ("GetIndices"%string, 0%nat) ds.
Definition GetPaths (ds : rmDevices) : list string :=
  concat ((fun x => rm.Paths x.2) <$> range ("GetPaths"%string, 0%nat) ds).

Definition IsMigDevice (d : rm.Device) : bool := contains (rm.Index d) ":".

Definition Device_AlignedAllocationSupported (d : rm.Device) : bool :=
  if IsMigDevice d then false
  else negb (existsb (fun p => bool_decide (p = "/dev/dxg"%string)) (rm.Paths d)).

Definition AlignedAllocationSupported (ds : rmDevices) : bool :=
  forallb (fun x => Device_AlignedAllocationSupported x.2) (range ("Aligned"%string, 0%nat) ds).

(** The devices offered to the kubelet: [DeviceSplitCount] per card. *)
Definition GetPluginDevices (DeviceSplitCount : Z) (ds : rmDevices) : outcome (list pluginapi.Device) :=
  first ← slice_get (GetIDs ("GetPluginDevices"%string, 1%nat) ds) 0;
  let l := (range ("GetPluginDevices"%string, 0%nat) ds).*2 in
  Ret (if negb (contains first "MIG") then
         concat ((fun dev => (fun i => pluginapi.mkDevice (rm.ID dev +:+ "-" +:+ itoa (Z.of_nat i)) (rm.Health dev))
                               <$> seq 0 (Z.to_nat DeviceSplitCount)) <$> l)
       else (fun d => pluginapi.mkDevice (rm.ID d) (rm.Health d)) <$> l).

(** ** rm/allocate.go *)

Definition replica_of (replicas : Replicas) (c : string) : Z * Z := default (0, 0) (replicas !! GetID c).
(** The replicas of the candidate's card that are taken. *)
Definition taken (replicas : Replicas) (c : string) : Z := (replica_of replicas c).1 - (replica_of replicas c).2.

Definition count_available (candidates : list string) : Replicas :=
  foldl (fun m c => let '(t, a) := default (0, 0) (m !! GetID c) in <[GetID c := (t, a + 1)]> m) ∅ candidates.

Definition count_total (ds : list string) (replicas : Replicas) : Replicas :=
  foldl (fun m d => match m !! GetID d with Some (t, a) => <[GetID d := (t + 1, a)]> m | None => m end) replicas ds.

Fixpoint distribute (needed : nat) (candidates : list string) (replicas : Replicas) (devices : list string)
    : outcome (list string) :=
  match needed with
  | O => Ret devices
  | S needed' =>
      match sort_by (fun a b => taken replicas a <? taken replicas b) candidates with
      | [] => Panic IndexOutOfRange
      | c :: candidates' =>
          let '(t, a) := replica_of replicas c in
          distribute needed' candidates' (<[GetID c := (t, a - 1)]> replicas) (devices ++ [c])
      end
  end.

Definition not_enough_error : error := "not enough available devices to satisfy allocation".

Definition distributedAlloc (ds : rmDevices) (available required : list string) (size : Z)
    : outcome (list string * option error) :=
  let candidates := GetIDs ("distributedAlloc"%string, 1%nat) (Difference (Subset ds available) (Subset ds required)) in
  let needed := size - Z.of_nat (length required) in
  if Z.of_nat (length candidates) <? needed then Ret ([], Some not_enough_error)
  else
    let replicas := count_total ((range ("distributedAlloc"%string, 0%nat) ds).*1) (count_available candidates) in
    devices ← distribute (Z.to_nat needed) candidates replicas [];
    Ret (required ++ devices, None).

(** [alignedAlloc] asks the [gpuallocator] library. *)
Definition getPreferredAllocation
    (alignedAlloc : list string -> list string -> Z -> outcome (list string * option error))
    (ds : rmDevices) (available required : list string) (size : Z) : outcome (list string * option error) :=
  if AlignedAllocationSupported ds && negb (AnyHasAnnotations available)
  then alignedAlloc available required size
  else distributedAlloc ds available required size.
End devices.

(** ** plugin/register.go: the NUMA column of [nvidia-smi topo -m] *)
Definition TAB : ascii := "009".

(** [strings.ReplaceAll(s, "\t\t", "\t")] *)
Fixpoint single_tabs (s : string) : string :=
  match s with
  | String a (String b s' as t) =>
      if (a =? TAB)%char && (b =? TAB)%char then String TAB (single_tabs s') else String a (single_tabs t)
  | _ => s
  end.

Definition numa_column (words : list string) : nat :=
  foldl (fun col '(i, w) => if contains w "NUMA Affinity" then i else col) 0%nat (imap pair words).

(** [result] of the loop body shadows the outer one. *)
Fixpoint numa_loop (idx : Z) (index col : nat) (lines : list string) : outcome (Z * option num_error) :=
  match lines with
  | [] => Ret (0, None)
  | val :: lines' =>
      if negb (contains val "GPU") then numa_loop idx (S index) col lines'
      else
        let words := split TAB (single_tabs val) in
        if (index =? 0)%nat then numa_loop idx (S index) (numa_column words) lines'
        else
          w0 ← slice_get words 0;
          if contains w0 (itoa idx) then
            w ← slice_get words col;
            if decide (w = "N/A"%string) then Ret (0, None)
            else match atoi w with
                 | (result, Some err) => Ret (result, Some err)
                 | (_, None) => numa_loop idx (S index) col lines'
                 end
          else numa_loop idx (S index) col lines'
  end.

Definition parseNvidiaNumaInfo (idx : Z) (nvidiaTopoStr : string) : outcome (Z * option num_error) :=
  numa_loop idx 0 0 (split "010" nvidiaTopoStr).

(** ** plugin/server.go *)

(** [filepath.Clean] and [filepath.Join] *)
Fixpoint clean_loop (rooted : bool) (parts out : list string) : list string :=
  match parts with
  | [] => reverse out
  | p :: parts' =>
      if decide (p = "" \/ p = ".") then clean_loop rooted parts' out
      else if decide (p = "..") then
        match out with
        | [] => clean_loop rooted parts' (if rooted then [] else [".."%string])
        | o :: out' => if decide (o = "..") then clean_loop rooted parts' (".."%string :: out)
                       else clean_loop rooted parts' out'
        end
      else clean_loop rooted parts' (p :: out)
  end.

Definition filepath_Clean (path : string) : string :=
  let rooted := match path with String c _ => (c =? "/")%char | EmptyString => false end in
  let body := join "/" (clean_loop rooted (split "/" path) []) in
  if rooted then ("/" +:+ body)%string else if decide (body = "") then "."%string else body.

Definition filepath_Join (a b : string) : string :=
  if decide (a = "") then if decide (b = "") then ""%string else filepath_Clean b
  else if decide (b = "") then filepath_Clean a else filepath_Clean (a +:+ "/" +:+ b)%string.

(** The flags of the plugin the handler reads. *)
Record NvidiaConfig := mkNvidiaConfig {
  nc_Resource : string;
  nc_FailRequestsGreaterThanOne : bool;
  nc_DeviceIDStrategy : string;
  nc_PassDeviceSpecs : bool;
  nc_NvidiaDriverRoot : string;
  nc_GDSEnabled : bool;
  nc_MOFEDEnabled : bool;
  nc_cdiEnabled : bool;
  nc_CDIAnnotations : bool;        (* the list strategies include it *)
  nc_cdiAnnotationPrefix : string;
  nc_MemoryScalingAboveOne : bool; (* *util.DeviceMemoryScaling > 1 *)
  nc_DisableCoreLimit : bool;
}.

Definition DefaultCDIAnnotationPrefix : string := "cdi.k8s.io/".
Definition DeviceIDStrategyUUID : string := "uuid".
Definition DeviceIDStrategyIndex : string := "index".

(** A response and its CDI annotations. *)
Record NvidiaResponse := mkNvidiaResponse { nr_car : ContainerAllocateResponse; nr_Annotations : gmap string string }.

Definition set_env (r : NvidiaResponse) (k v : string) : NvidiaResponse :=
  mkNvidiaResponse (mkCar (<[k := v]> (car_Envs (nr_car r))) (car_Mounts (nr_car r)) (car_Devices (nr_car r)))
    (nr_Annotations r).
Definition add_mounts (r : NvidiaResponse) (ms : list Mount) : NvidiaResponse :=
  mkNvidiaResponse (mkCar (car_Envs (nr_car r)) (car_Mounts (nr_car r) ++ ms) (car_Devices (nr_car r)))
    (nr_Annotations r).

Section nvidia_plugin.
Context `{GoRuntime} {W : Type} `{!KubeClient W}.
Context (cfg : NvidiaConfig) (ds : rmDevices).
(** The CDI library: [QualifiedName] and [cdiapi.UpdateAnnotations]. *)
Context (QualifiedName : string -> string -> string).
Context (UpdateAnnotations : string -> list string -> gmap string string + error).
(** [uuid.New()], the files that exist, and HOOK_PATH. *)
Context (uuid_New : nat -> string) (exists_ : string -> bool) (hostHookPath : string).

Definition deviceIDsFromAnnotatedDeviceIDs (ids : list string) : list string :=
  if decide (nc_DeviceIDStrategy cfg = DeviceIDStrategyUUID) then AnnotatedIDs_GetIDs ids
  else if decide (nc_DeviceIDStrategy cfg = DeviceIDStrategyIndex) then GetIndices (Subset ds ids)
  else [].

Definition apiEnvs (envvar : string) (deviceIDs : list string) : gmap string string :=
  {[envvar := join "," deviceIDs]}.

Definition GetDevicePaths (ids : list string) : list string :=
  ["/dev/nvidiactl"; "/dev/nvidia-uvm"; "/dev/nvidia-uvm-tools"; "/dev/nvidia-modeset"]%string
  ++ GetPaths (Subset ds ids).

Definition optional_path (p : string) : bool :=
  bool_decide (p ∈ ["/dev/nvidiactl"; "/dev/nvidia-uvm"; "/dev/nvidia-uvm-tools"; "/dev/nvidia-modeset"]%string).

Definition apiDeviceSpecs (driverRoot : string) (ids : list string) : list DeviceSpec :=
  (fun p => mkDeviceSpec (filepath_Join driverRoot p) p "rw") <$>
    filter (fun p => (negb (optional_path p) || exists_ p) = true) (GetDevicePaths ids).

Definition getCDIDeviceAnnotations (id : string) (devices : list string) : gmap string string + error :=
  match UpdateAnnotations id devices with
  | inr err => inr ("failed to add CDI annotations: " +:+ err)%string
  | inl annotations =>
      if decide (nc_cdiAnnotationPrefix cfg = DefaultCDIAnnotationPrefix) then inl annotations
      else inl (foldl (fun m '(k, v) =>
             <[(nc_cdiAnnotationPrefix cfg +:+ trim_prefix k DefaultCDIAnnotationPrefix)%string := v]> m)
           ∅ (range ("getCDIDeviceAnnotations"%string, 0%nat) annotations))
  end.

Definition getAllocateResponseForCDI (responseID : string) (deviceIDs : list string) : gmap string string + error :=
  if negb (nc_cdiEnabled cfg) then inl ∅
  else
    let devices := (QualifiedName "gpu" <$> deviceIDs)
      ++ (if nc_GDSEnabled cfg then [QualifiedName "gds" "all"] else [])
      ++ (if nc_MOFEDEnabled cfg then [QualifiedName "mofed" "all"] else []) in
    if (length devices =? 0)%nat then inl ∅
    else if nc_CDIAnnotations cfg then getCDIDeviceAnnotations responseID devices else inl ∅.

Definition getAllocateResponse (responseID : string) (requestIds : list string) : NvidiaResponse + error :=
  let deviceIDs := deviceIDsFromAnnotatedDeviceIDs requestIds in
  match getAllocateResponseForCDI responseID deviceIDs with
  | inr err => inr ("failed to get allocate response for CDI: " +:+ err)%string
  | inl annotations =>
      let response := mkNvidiaResponse
        (mkCar (apiEnvs "NVIDIA_VISIBLE_DEVICES" deviceIDs) []
           (if nc_PassDeviceSpecs cfg then apiDeviceSpecs (nc_NvidiaDriverRoot cfg) requestIds else [])) annotations in
      let response := if nc_GDSEnabled cfg then set_env response "NVIDIA_GDS" "enabled" else response in
      inl (if nc_MOFEDEnabled cfg then set_env response "NVIDIA_MOFED" "enabled" else response)
  end.

(** The environment and the mounts of a container with virtual GPUs; [cache]
    is the fresh name of its cache file. *)
Fixpoint memory_limits (i : nat) (devreq : ContainerDevices) (response : NvidiaResponse) : NvidiaResponse :=
  match devreq with
  | [] => response
  | dev :: devreq' =>
      memory_limits (S i) devreq'
        (set_env response ("CUDA_DEVICE_MEMORY_LIMIT_" +:+ itoa (Z.of_nat i)) (itoa (cd_Usedmem dev) +:+ "m"))
  end.

Definition vgpu_response (current : Pod) (currentCtr : Container) (devreq : ContainerDevices) (cache : string)
    (response : NvidiaResponse) : outcome NvidiaResponse :=
  let response := memory_limits 0 devreq response in
  first ← slice_get devreq 0;
  let response := set_env response "CUDA_DEVICE_SM_LIMIT" (itoa (cd_Usedcores first)) in
  let response := set_env response "CUDA_DEVICE_MEMORY_SHARED_CACHE"
    (hostHookPath +:+ "/vgpu/" +:+ cache +:+ ".cache") in
  let response := if nc_MemoryScalingAboveOne cfg then set_env response "CUDA_OVERSUBSCRIBE" "true" else response in
  let response := if nc_DisableCoreLimit cfg then set_env response api.CoreLimitSwitch "disable" else response in
  let cacheFileHostDirectory :=
    (hostHookPath +:+ "/vgpu/containers/" +:+ pod_UID current +:+ "_" +:+ ctr_Name currentCtr)%string in
  let response := add_mounts response
    [mkMount (hostHookPath +:+ "/vgpu/libvgpu.so") (hostHookPath +:+ "/vgpu/libvgpu.so") true;
     mkMount (hostHookPath +:+ "/vgpu") cacheFileHostDirectory false;
     mkMount "/tmp/vgpulock" "/tmp/vgpulock" false] in
  let response :=
    if existsb (fun val => bool_decide (val.1 = "CUDA_DISABLE_CONTROL"%string)) (ctr_Env currentCtr) then response
    else add_mounts response [mkMount "/etc/ld.so.preload" (hostHookPath +:+ "/vgpu/ld.so.preload") true] in
  Ret (if exists_ (hostHookPath +:+ "/vgpu/license")%string
       then add_mounts response
              [mkMount "/vgpu/" (hostHookPath +:+ "/vgpu/license") true;
               mkMount "/usr/bin/vgpuvalidator" (hostHookPath +:+ "/vgpu/vgpuvalidator") true]
       else response).

Definition nv_number_error : error := "device allocate number not matched".
Definition too_large_error (n : nat) : error :=
  "request for '" +:+ nc_Resource cfg +:+ ": " +:+ itoa (Z.of_nat n)
  +:+ "' too large: maximum request size for shared resources is 1".
Definition unknown_device_error (id : string) : error :=
  "invalid allocation request for '" +:+ nc_Resource cfg +:+ "': unknown device: " +:+ id.
Definition response_error (e : error) : error := "failed to get allocate response: " +:+ e.

(** The branch for MIG devices. *)
Definition mig_response (idx : nat) (DevicesIDs : list string) : NvidiaResponse + error :=
  if nc_FailRequestsGreaterThanOne cfg && AnyHasAnnotations DevicesIDs && (1 <? length DevicesIDs)%nat
  then inr (too_large_error (length DevicesIDs))
  else match list_find (fun id => Contains ds [id] = false) DevicesIDs with
       | Some (_, id) => inr (unknown_device_error id)
       | None =>
           match getAllocateResponse (uuid_New (2 * idx)) DevicesIDs with
           | inr e => inr (response_error e)
           | inl r => inl r
           end
       end.

Fixpoint nvidia_loop (nodename : string) (current : Pod) (idx : nat) (reqs : list (list string))
    (responses : list NvidiaResponse) : K W (list NvidiaResponse * option error) :=
  match reqs with
  | [] => _ ← PodAllocationTrySuccess nodename current; mret (responses, None)
  | DevicesIDs :: reqs' =>
      first ← lift (slice_get DevicesIDs 0);
      if contains first "MIG" then
        match mig_response idx DevicesIDs with
        | inr e => mret ([], Some e)
        | inl r => nvidia_loop nodename current (S idx) reqs' (responses ++ [r])
        end
      else
        '(currentCtr, devreq, err) ← lift (GetNextDeviceRequest nvidia.NvidiaGPUDevice current);
        match err with
        | Some e => _ ← PodAllocationFailed nodename current; mret ([], Some e)
        | None =>
            if negb (length devreq =? length DevicesIDs)%nat
            then _ ← PodAllocationFailed nodename current; mret ([], Some nv_number_error)
            else
              match getAllocateResponse (uuid_New (2 * idx)) (GetContainerDeviceStrArray devreq) with
              | inr e => mret ([], Some (response_error e))
              | inl response =>
                  err ← EraseNextDeviceTypeFromAnnotation nvidia.NvidiaGPUDevice current;
                  match err with
                  | Some e => _ ← PodAllocationFailed nodename current; mret ([], Some e)
                  | None =>
                      r ← lift (vgpu_response current currentCtr devreq (uuid_New (2 * idx + 1)) response);
                      nvidia_loop nodename current (S idx) reqs' (responses ++ [r])
                  end
              end
        end
  end.

Definition nvidia_Allocate (nodename : string) (reqs : list (list string))
    : K W (list NvidiaResponse * option error) :=
  '(current, err) ← GetPendingPod nodename;
  match err, current with
  | Some e, _ => _ ← ReleaseNodeLock nodename; mret ([], Some e)
  | None, Some current => nvidia_loop nodename current 0 reqs []
  | None, None => lift (Panic NilDereference)
  end.
End nvidia_plugin.
