(* ===== verification/NvidiaFacts.v ===== *)
(** * The NVIDIA device plugin: facts and properties *)

From Stdlib Require Import ZArith Lia Ascii String Sorted.
From stdpp Require Import base decidable option gmap strings numbers sorting list.
From S2P Require Import Prelude GoStrings GoTime GoRuntime Types Kube NodeLock Codec Devices Score Scheduler FilterFacts PodAlloc Nvidia.

#[local] Open Scope Z_scope.

(** ** Annotated identifiers *)
Lemma prefix_colons_app a s t :
  String.prefix "::" (String a (s +:+ ":")) = false ->
  String.prefix "::" (String a (s +:+ "::" +:+ t)) = false.
Proof.
  destruct s as [|b s]; cbn [String.append String.prefix]; repeat case_match; try done.
  intros E. destruct s; done.
Qed.

Lemma splitN_colons_app id s :
  contains (id +:+ ":") "::" = false -> splitN_colons (id +:+ "::" +:+ s) = Some (id, s).
Proof.
  induction id as [|a id IH]; intros Hc; [by destruct s|].
  cbn [String.append] in Hc |- *. cbn [contains] in Hc. apply orb_false_iff in Hc as [Hp Hc].
  assert (String.prefix "::" (String a (id +:+ "::" +:+ s)) = false) as Hp'.
  { by apply prefix_colons_app. }
  assert (forall t, splitN_colons (String a t) = if String.prefix "::" (String a t)
    then match t with String _ s'' => Some (""%string, s'') | EmptyString => None end
    else '(x, y) ← splitN_colons t; Some (String a x, y)) as -> by done.
  specialize (IH Hc). cbn [String.append] in Hp', IH. rewrite Hp', IH. done.
Qed.

(** ** Counting replicas *)
Definition card_count (id : string) (l : list string) : Z :=
  Z.of_nat (length (filter (fun d => GetID d = id) l)).

Lemma card_count_cons id d l : card_count id (d :: l) = (if decide (GetID d = id) then 1 else 0) + card_count id l.
Proof. unfold card_count. rewrite filter_cons. case_decide; cbn [length]; lia. Qed.

Lemma card_count_nonneg id l : 0 <= card_count id l.
Proof. unfold card_count. lia. Qed.

Lemma card_count_perm id l k : l ≡ₚ k -> card_count id l = card_count id k.
Proof. intros E. unfold card_count. by rewrite E. Qed.

Lemma card_count_app id l k : card_count id (l ++ k) = card_count id l + card_count id k.
Proof. unfold card_count. rewrite filter_app, length_app. lia. Qed.

Lemma count_available_spec l : forall (m : Replicas) id,
  default (0, 0) (foldl (fun m c => let '(t, a) := default (0, 0) (m !! GetID c) in <[GetID c := (t, a + 1)]> m) m l !! id)
  = ((default (0, 0) (m !! id)).1, (default (0, 0) (m !! id)).2 + card_count id l).
Proof.
  induction l as [|c l IH]; intros m id; cbn [foldl].
  { unfold card_count. cbn. rewrite Z.add_0_r. by destruct (default (0, 0) (m !! id)). }
  rewrite IH, card_count_cons. destruct (default (0, 0) (m !! GetID c)) as [t a] eqn:E.
  destruct (decide (GetID c = id)) as [<-|Hne].
  - rewrite lookup_insert_eq, E. cbn. f_equal. lia.
  - by rewrite lookup_insert_ne.
Qed.

Lemma count_available_some l : forall (m : Replicas) id,
  is_Some (m !! id) \/ (exists c, c ∈ l /\ GetID c = id) ->
  is_Some (foldl (fun m c => let '(t, a) := default (0, 0) (m !! GetID c) in <[GetID c := (t, a + 1)]> m) m l !! id).
Proof.
  induction l as [|c l IH]; intros m id Hs; cbn [foldl].
  { destruct Hs as [?|(c & Hc & _)]; [done|by apply elem_of_nil in Hc]. }
  apply IH. destruct (default (0, 0) (m !! GetID c)) as [t a].
  rewrite lookup_insert_is_Some'. destruct Hs as [Hs|(c' & [->|Hc]%elem_of_cons & E)]; [auto|auto|eauto].
Qed.

Lemma count_total_spec l : forall (m : Replicas) id,
  is_Some (m !! id) ->
  is_Some (count_total l m !! id) /\
  default (0, 0) (count_total l m !! id)
  = ((default (0, 0) (m !! id)).1 + card_count id l, (default (0, 0) (m !! id)).2).
Proof.
  induction l as [|d l IH]; intros m id Hs; cbn [count_total foldl].
  { split; [done|]. unfold card_count. cbn. rewrite Z.add_0_r. by destruct (default (0, 0) (m !! id)). }
  rewrite card_count_cons. destruct (decide (GetID d = id)) as [<-|Hne].
  - destruct Hs as [[t a] E]. rewrite E. destruct (IH (<[GetID d := (t + 1, a)]> m) (GetID d)) as [Hs' Hd].
    { rewrite lookup_insert_eq. eauto. }
    split; [exact Hs'|]. unfold count_total in Hd. rewrite Hd, lookup_insert_eq. cbn. f_equal. lia.
  - assert (forall t a, <[GetID d := (t, a)]> m !! id = m !! id) as Hl by (intros; by rewrite lookup_insert_ne).
    destruct (m !! GetID d) as [[t a]|]; [|by rewrite Z.add_0_l; apply IH].
    destruct (IH (<[GetID d := (t + 1, a)]> m) id) as [Hs' Hd]; [by rewrite Hl|].
    rewrite Hl in Hd. split; [exact Hs'|]. unfold count_total in Hd. rewrite Hd. by rewrite Z.add_0_l.
Qed.

(** ** Distribution *)
Section distribution.
Context `{GoRuntime}.

Lemma taken_same replicas a b : GetID a = GetID b -> taken replicas a = taken replicas b.
Proof. intros E. unfold taken, replica_of. by rewrite E. Qed.

Lemma taken_take replicas c x t a :
  replica_of replicas c = (t, a) ->
  taken (<[GetID c := (t, a - 1)]> replicas) x = taken replicas x + (if decide (GetID c = GetID x) then 1 else 0).
Proof.
  intros E. destruct (decide (GetID c = GetID x)) as [Ex|Hne].
  - rewrite <- (taken_same replicas c x Ex). unfold taken. rewrite E. unfold replica_of. rewrite <- Ex, lookup_insert_eq.
    cbn. lia.
  - unfold taken, replica_of. rewrite lookup_insert_ne by done. lia.
Qed.

(** The chosen candidates: the cards stay within one replica of every card
    that still has a free candidate. *)
Lemma distribute_spec n : forall candidates replicas devices,
  (n <= length candidates)%nat ->
  exists chosen rest, distribute n candidates replicas devices = Ret (devices ++ chosen) /\
    chosen ++ rest ≡ₚ candidates /\ length chosen = n /\
    forall a b, a ∈ chosen -> b ∈ rest ->
      taken replicas a + card_count (GetID a) chosen <= taken replicas b + card_count (GetID b) chosen + 1.
Proof.
  induction n as [|n IH]; intros candidates replicas devices Hn; cbn [distribute].
  { exists [], candidates. rewrite app_nil_r. split_and!; try done. intros a b Ha. by apply elem_of_nil in Ha. }
  pose proof (sort_perm (fun a b => taken replicas a <? taken replicas b) candidates) as Hp.
  pose proof (sort_sorted (fun _ => True) (fun a b => taken replicas a <? taken replicas b) candidates) as Hs.
  destruct (sort_by _ candidates) as [|c cands] eqn:Es.
  { apply Permutation_length in Hp. simpl in Hp. lia. }
  assert (Forall (fun b => taken replicas c <= taken replicas b) cands) as Hmin.
  { assert (StronglySorted (fun a b => (taken replicas b <? taken replicas a) = false) (c :: cands)) as Hss.
    { apply Hs; [split; intros *; rewrite ?Z.ltb_lt, ?Z.ltb_ge; lia|by apply Forall_forall]. }
    inversion_clear Hss as [|? ? _ Hall]. eapply Forall_impl; [exact Hall|]. simpl. intros b E. by apply Z.ltb_ge in E. }
  rewrite Forall_forall in Hmin. destruct (replica_of replicas c) as [t a] eqn:Er.
  destruct (IH cands (<[GetID c := (t, a - 1)]> replicas) (devices ++ [c])) as (chosen & rest & -> & Hperm & Hlen & Hbal).
  { apply Permutation_length in Hp. simpl in Hp. lia. }
  exists (c :: chosen), rest. rewrite <- app_assoc. split_and!; [done| |simpl; lia|].
  { cbn [app]. by rewrite Hperm. }
  assert (forall x, taken (<[GetID c := (t, a - 1)]> replicas) x + card_count (GetID x) chosen
    = taken replicas x + card_count (GetID x) (c :: chosen)) as Eload.
  { intros x. rewrite (taken_take replicas c x t a Er), card_count_cons. lia. }
  assert (forall x b, x ∈ chosen -> b ∈ rest ->
    taken replicas x + card_count (GetID x) (c :: chosen) <= taken replicas b + card_count (GetID b) (c :: chosen) + 1) as Hch.
  { intros x b Hx Hb. rewrite <- !Eload. by apply Hbal. }
  intros x b [->|Hx]%elem_of_cons Hb; [|by apply Hch].
  destruct (decide (Exists (fun y => GetID y = GetID c) chosen)) as [Hex|Hno].
  - apply Exists_exists in Hex as (y & Hy & Ey). rewrite <- Ey, <- (taken_same replicas y c Ey). by apply Hch.
  - assert (card_count (GetID c) chosen = 0) as E0.
    { clear -Hno. induction chosen as [|y chosen IHc]; [done|]. rewrite card_count_cons.
      rewrite decide_False by (intros E; apply Hno; by left). rewrite IHc; [done|]. intros Hex. apply Hno. by right. }
    rewrite card_count_cons, decide_True by done. rewrite E0.
    assert (b ∈ cands) as Hbc by (rewrite <- Hperm; apply elem_of_app; by right).
    pose proof (Hmin b Hbc). pose proof (card_count_nonneg (GetID b) (c :: chosen)). lia.
Qed.
End distribution.

(** ** Candidates *)
Section candidates.
Context `{GoRuntime} (ds : rmDevices).

(** The table is keyed by the devices' identifiers. *)
Definition keyed : Prop := forall k d, ds !! k = Some d -> rm.ID d = k.

Lemma Subset_lookup ids k : Subset ds ids !! k = if decide (k ∈ ids) then ds !! k else None.
Proof.
  unfold Subset. cut (forall m : rmDevices,
    foldl (fun res id => match ds !! id with Some d => <[id := d]> res | None => res end) m ids !! k
    = if decide (k ∈ ids) then match ds !! k with Some d => Some d | None => m !! k end else m !! k).
  { intros Hm. rewrite Hm, lookup_empty. case_decide; [|done]. by destruct (ds !! k). }
  induction ids as [|id ids IH]; intros m; cbn [foldl]; [by rewrite decide_False by apply not_elem_of_nil|].
  rewrite IH. destruct (decide (id = k)) as [->|Hne].
  - rewrite (decide_True (P := k ∈ k :: ids)) by by left.
    destruct (ds !! k) as [d|]; [rewrite lookup_insert_eq|]; by case_decide.
  - assert (match ds !! id with Some d => <[id := d]> m | None => m end !! k = m !! k) as ->.
    { destruct (ds !! id); [by rewrite lookup_insert_ne|done]. }
    destruct (decide (k ∈ ids)) as [Hin|Hin].
    + by rewrite decide_True by by right.
    + rewrite decide_False; [done|]. rewrite elem_of_cons. naive_solver.
Qed.

Lemma Difference_lookup (a b : rmDevices) k :
  Difference a b !! k = if decide (is_Some (b !! k)) then None else a !! k.
Proof.
  unfold Difference.
  assert (forall l (m : rmDevices), NoDup l.*1 ->
    foldl (fun res '(id, d) => if Contains b [id] then res else <[id := d]> res) m l !! k
    = if decide (is_Some (b !! k)) then m !! k
      else match list_to_map (M := rmDevices) l !! k with Some d => Some d | None => m !! k end) as Hl.
  { induction l as [|[id d] l IH]; intros m Hnd; cbn [foldl list_to_map foldr].
    { rewrite lookup_empty. by case_decide. }
    apply NoDup_cons in Hnd as [Hni Hnd]. cbn [fst snd] in *. rewrite (IH _ Hnd).
    unfold Contains. cbn [forallb]. rewrite andb_true_r. change (list_to_map ((id, d) :: l)) with (<[id := d]> (list_to_map (M := rmDevices) l)).
    destruct (decide (id = k)) as [->|Hne].
    - rewrite lookup_insert_eq. case_decide; [by rewrite bool_decide_true|]. rewrite bool_decide_false by done.
      rewrite lookup_insert_eq. by rewrite not_elem_of_list_to_map_1.
    - rewrite lookup_insert_ne by done.
      assert ((if bool_decide (is_Some (b !! id)) then m else <[id := d]> m) !! k = m !! k) as ->; [|done].
      destruct (bool_decide _); [done|]. by rewrite lookup_insert_ne. }
  rewrite Hl by apply range_NoDup. rewrite lookup_empty, range_list_to_map. case_decide; [done|]. by destruct (a !! k).
Qed.

Lemma difference_Some available required k d :
  Difference (Subset ds available) (Subset ds required) !! k = Some d <->
  k ∈ available /\ (k ∉ required) /\ ds !! k = Some d.
Proof.
  rewrite Difference_lookup, !Subset_lookup.
  destruct (decide (k ∈ required)) as [Hr|Hr].
  - destruct (decide (is_Some (ds !! k))) as [Hs|Hs]; [naive_solver|].
    destruct (decide (k ∈ available)); [|naive_solver]. split; [|naive_solver]. intros E. destruct Hs. eauto.
  - rewrite (decide_False (P := is_Some None)) by (by intros ?%is_Some_None).
    destruct (decide (k ∈ available)); naive_solver.
Qed.

Context (Hkey : keyed).

Definition candidates_of (available required : list string) : list string :=
  GetIDs ("distributedAlloc"%string, 1%nat) (Difference (Subset ds available) (Subset ds required)).

Lemma candidates_keys available required :
  candidates_of available required
  = (range ("distributedAlloc"%string, 1%nat) (Difference (Subset ds available) (Subset ds required))).*1.
Proof.
  unfold candidates_of, GetIDs. apply list_fmap_ext. intros i [k d] Hi. cbn [fst snd].
  apply list_elem_of_lookup_2, elem_of_range, difference_Some in Hi as (_ & _ & Hd). by apply Hkey.
Qed.

Lemma candidates_NoDup available required : NoDup (candidates_of available required).
Proof. rewrite candidates_keys. apply range_NoDup. Qed.

Lemma elem_of_candidates available required c :
  c ∈ candidates_of available required <-> c ∈ available /\ (c ∉ required) /\ is_Some (ds !! c).
Proof.
  rewrite candidates_keys, list_elem_of_fmap. split.
  - intros ([k d] & -> & Hk%elem_of_range). apply difference_Some in Hk as (? & ? & ?). eauto.
  - intros (Ha & Hr & [d Hd]). exists (c, d). split; [done|]. by apply elem_of_range, difference_Some.
Qed.
End candidates.

(** ** The distributed allocation *)
Lemma distributedAlloc_spec `{GoRuntime} ds available required size :
  keyed ds ->
  let candidates := candidates_of ds available required in
  let needed := size - Z.of_nat (length required) in
  (Z.of_nat (length candidates) < needed ->
   distributedAlloc ds available required size = Ret ([], Some not_enough_error)) /\
  (needed <= Z.of_nat (length candidates) ->
   exists chosen rest, distributedAlloc ds available required size = Ret (required ++ chosen, None) /\
     chosen ++ rest ≡ₚ candidates /\ length chosen = Z.to_nat needed /\
     forall a b, a ∈ chosen -> b ∈ rest ->
       card_count (GetID a) (map_to_list ds).*1 - card_count (GetID a) rest
       <= card_count (GetID b) (map_to_list ds).*1 - card_count (GetID b) rest + 1).
Proof.
  intros Hkey candidates needed. unfold distributedAlloc. fold (candidates_of ds available required).
  fold candidates. fold needed. split.
  - intros Hlt. destruct (Z.ltb_spec (Z.of_nat (length candidates)) needed); [done|lia].
  - intros Hle. destruct (Z.ltb_spec (Z.of_nat (length candidates)) needed); [lia|].
    set (replicas := count_total _ _).
    destruct (distribute_spec (Z.to_nat needed) candidates replicas []) as (chosen & rest & -> & Hp & Hl & Hbal); [lia|].
    exists chosen, rest. split_and!; [done|done|done|]. intros a b Ha Hb.
    assert (forall x, x ∈ candidates ->
      taken replicas x + card_count (GetID x) chosen
      = card_count (GetID x) (map_to_list ds).*1 - card_count (GetID x) rest) as Ht.
    { intros x Hx.
      assert (card_count (GetID x) (range ("distributedAlloc"%string, 0%nat) ds).*1
              = card_count (GetID x) (map_to_list ds).*1) as <- by (apply card_count_perm; by rewrite range_perm).
      assert (card_count (GetID x) candidates = card_count (GetID x) chosen + card_count (GetID x) rest) as Ec.
      { by rewrite <- card_count_app, (card_count_perm _ _ _ Hp). }
      unfold taken, replica_of, replicas.
      destruct (count_total_spec (range ("distributedAlloc"%string, 0%nat) ds).*1 (count_available candidates) (GetID x)) as [_ ->].
      { apply count_available_some. right. eauto. }
      unfold count_available. rewrite count_available_spec, lookup_empty. cbn [default from_option id fst snd]. lia. }
    assert (a ∈ candidates) by (rewrite <- Hp; apply elem_of_app; by left).
    assert (b ∈ candidates) by (rewrite <- Hp; apply elem_of_app; by right).
    rewrite <- !Ht by done. by apply Hbal.
Qed.

(** ** NUMA *)
Lemma numa_loop_zero idx lines : forall index col r,
  numa_loop idx index col lines = Ret (r, None) -> r = 0.
Proof.
  induction lines as [|val lines IH]; intros index col r E; cbn [numa_loop] in E; [by injection E as <-|].
  destruct (negb (contains val "GPU")); [by apply IH in E|].
  destruct (index =? 0)%nat; [by apply IH in E|].
  apply bind_Ret_inv in E as (w0 & _ & E). destruct (contains w0 (itoa idx)); [|by apply IH in E].
  apply bind_Ret_inv in E as (w & _ & E). destruct (decide (w = "N/A"%string)); [by injection E as <-|].
  destruct (atoi w) as [v [err|]]; [done|by apply IH in E].
Qed.

Lemma StrArray_fmap c : GetContainerDeviceStrArray c = cd_UUID <$> c.
Proof.
  unfold GetContainerDeviceStrArray.
  assert (forall acc, foldl (fun tmp val => tmp ++ [cd_UUID val]) acc c = acc ++ (cd_UUID <$> c)) as ->; [|done].
  induction c as [|v c IH]; intros acc; cbn [foldl]; [by rewrite app_nil_r|]. rewrite IH, <- app_assoc. done.
Qed.

(** ** The environment of a container *)
Definition limit_key (i : nat) : string := "CUDA_DEVICE_MEMORY_LIMIT_" +:+ itoa (Z.of_nat i).

Lemma str_app_inj_l a b c : a +:+ b = a +:+ c -> b = c.
Proof. induction a as [|x a IH]; [done|]. cbn. intros E. injection E as E. by apply IH. Qed.

Lemma limit_key_inj i j :
  Z.of_nat i <= max_i64 -> Z.of_nat j <= max_i64 -> limit_key i = limit_key j -> i = j.
Proof.
  unfold max_i64. intros Hi Hj E%str_app_inj_l.
  pose proof (parse_int_itoa 64 (Z.of_nat i) ltac:(lia) ltac:(lia)) as Pi.
  pose proof (parse_int_itoa 64 (Z.of_nat j) ltac:(lia) ltac:(lia)) as Pj.
  rewrite E in Pi. rewrite Pi in Pj. injection Pj. lia.
Qed.

Definition envs (r : NvidiaResponse) : gmap string string := car_Envs (nr_car r).

Lemma memory_limits_other devreq : forall i r key,
  (forall j, (i <= j < i + length devreq)%nat -> key <> limit_key j) ->
  envs (memory_limits i devreq r) !! key = envs r !! key.
Proof.
  induction devreq as [|dev devreq IH]; intros i r key Hk; cbn [memory_limits]; [done|].
  rewrite IH by (intros j Hj; apply Hk; simpl; lia). unfold envs, set_env. cbn [nr_car car_Envs].
  apply lookup_insert_ne. intros E. apply (Hk i); [simpl; lia|]. by rewrite <- E.
Qed.

Lemma memory_limits_env devreq : forall i r k dev,
  Z.of_nat (i + length devreq) <= max_i64 -> devreq !! k = Some dev ->
  envs (memory_limits i devreq r) !! limit_key (i + k) = Some (itoa (cd_Usedmem dev) +:+ "m")%string.
Proof.
  induction devreq as [|d devreq IH]; intros i r k dev Hb Hk; [done|]. cbn [memory_limits].
  simpl in Hb. destruct k as [|k]; cbn in Hk.
  - injection Hk as <-. rewrite Nat.add_0_r. rewrite memory_limits_other.
    + unfold envs, set_env. cbn [nr_car car_Envs]. apply lookup_insert_eq.
    + intros j Hj E. apply limit_key_inj in E; lia.
  - replace (i + S k)%nat with (S i + k)%nat by lia. apply IH; [lia|done].
Qed.

(** A step that leaves a key of the environment alone. *)
Lemma set_env_other r k v key : k <> key -> envs (set_env r k v) !! key = envs r !! key.
Proof. intros Hne. unfold envs, set_env. cbn [nr_car car_Envs]. by apply lookup_insert_ne. Qed.

Lemma add_mounts_envs r ms : envs (add_mounts r ms) = envs r.
Proof. done. Qed.

Section handler.
Context `{GoRuntime} (cfg : NvidiaConfig) (ds : rmDevices).
Context (QualifiedName : string -> string -> string).
Context (UpdateAnnotations : string -> list string -> gmap string string + error).
Context (exists_ : string -> bool) (hostHookPath : string).

(** The variables the handler sets besides the memory limits. *)
Definition handler_keys : list string :=
  ["CUDA_DEVICE_SM_LIMIT"; "CUDA_DEVICE_MEMORY_SHARED_CACHE"; "CUDA_OVERSUBSCRIBE"; api.CoreLimitSwitch]%string.

Lemma vgpu_response_envs current ctr devreq cache r first :
  devreq !! 0%nat = Some first ->
  exists r', vgpu_response cfg exists_ hostHookPath current ctr devreq cache r = Ret r' /\
    envs r' !! "CUDA_DEVICE_SM_LIMIT"%string = Some (itoa (cd_Usedcores first)) /\
    forall key, key ∉ handler_keys -> envs r' !! key = envs (memory_limits 0 devreq r) !! key.
Proof.
  intros Hf. unfold vgpu_response, slice_get. rewrite Hf. cbn [mbind outcome_bind]. eexists. split; [reflexivity|].
  set (r1 := set_env (set_env (memory_limits 0 devreq r) _ _) _ _).
  set (r2 := if nc_MemoryScalingAboveOne cfg then _ else _).
  set (r3 := if nc_DisableCoreLimit cfg then _ else _).
  set (r4 := add_mounts r3 _).
  assert (forall key, envs (if exists_ (hostHookPath +:+ "/vgpu/license")%string
      then add_mounts (if existsb (fun val => bool_decide (val.1 = "CUDA_DISABLE_CONTROL"%string)) (ctr_Env ctr) then r4
        else add_mounts r4 [mkMount "/etc/ld.so.preload" (hostHookPath +:+ "/vgpu/ld.so.preload") true])
        [mkMount "/vgpu/" (hostHookPath +:+ "/vgpu/license") true;
         mkMount "/usr/bin/vgpuvalidator" (hostHookPath +:+ "/vgpu/vgpuvalidator") true]
      else if existsb (fun val => bool_decide (val.1 = "CUDA_DISABLE_CONTROL"%string)) (ctr_Env ctr) then r4
        else add_mounts r4 [mkMount "/etc/ld.so.preload" (hostHookPath +:+ "/vgpu/ld.so.preload") true]) !! key
    = envs r3 !! key) as Hm by (intros key; destruct (exists_ _), (existsb _ _); done).
  assert (forall key, key <> "CUDA_OVERSUBSCRIBE"%string -> key <> api.CoreLimitSwitch -> envs r3 !! key = envs r1 !! key) as H3.
  { intros key H1 H2. unfold r3. assert (envs r2 !! key = envs r1 !! key) as E2.
    { unfold r2. destruct (nc_MemoryScalingAboveOne cfg); [by rewrite set_env_other|done]. }
    destruct (nc_DisableCoreLimit cfg); [by rewrite set_env_other|done]. }
  split.
  - rewrite Hm, H3 by done. unfold r1. rewrite set_env_other by done. unfold envs, set_env. apply lookup_insert_eq.
  - intros key Hk. unfold handler_keys in Hk. rewrite !not_elem_of_cons in Hk. destruct Hk as (K1 & K2 & K3 & K4 & _).
    rewrite Hm, H3 by done. unfold r1. by rewrite !set_env_other.
Qed.

Lemma limit_key_free k : limit_key k ∉ handler_keys.
Proof.
  unfold handler_keys. rewrite !not_elem_of_cons. unfold limit_key, api.CoreLimitSwitch.
  split_and!; try (cbn; discriminate). apply not_elem_of_nil.
Qed.

Lemma visible_free : "NVIDIA_VISIBLE_DEVICES"%string ∉ handler_keys.
Proof. apply (bool_decide_unpack _). vm_compute. exact I. Qed.

Lemma getAllocateResponse_visible id ids r :
  getAllocateResponse cfg ds QualifiedName UpdateAnnotations exists_ id ids = inl r ->
  envs r !! "NVIDIA_VISIBLE_DEVICES"%string = Some (join "," (deviceIDsFromAnnotatedDeviceIDs cfg ds ids)).
Proof.
  unfold getAllocateResponse. destruct (getAllocateResponseForCDI _ _ _ _ _) as [annos|]; [|done].
  set (r0 := mkNvidiaResponse _ _).
  assert (envs r0 !! "NVIDIA_VISIBLE_DEVICES"%string = Some (join "," (deviceIDsFromAnnotatedDeviceIDs cfg ds ids))) as E0.
  { unfold r0, envs, apiEnvs. cbn [nr_car car_Envs]. apply lookup_singleton_eq. }
  intros [= <-]. destruct (nc_MOFEDEnabled cfg), (nc_GDSEnabled cfg); rewrite ?set_env_other by done; done.
Qed.

(** What the container is told of its devices. *)
Record told (devreq : ContainerDevices) (r : NvidiaResponse) : Prop := {
  told_visible : envs r !! "NVIDIA_VISIBLE_DEVICES"%string
    = Some (join "," (deviceIDsFromAnnotatedDeviceIDs cfg ds (cd_UUID <$> devreq)));
  told_memory k dev : devreq !! k = Some dev ->
    envs r !! limit_key k = Some (itoa (cd_Usedmem dev) +:+ "m")%string;
  told_cores first : devreq !! 0%nat = Some first ->
    envs r !! "CUDA_DEVICE_SM_LIMIT"%string = Some (itoa (cd_Usedcores first));
}.

Lemma vgpu_response_told id current ctr devreq cache r r' :
  Z.of_nat (length devreq) <= max_i64 ->
  getAllocateResponse cfg ds QualifiedName UpdateAnnotations exists_ id (GetContainerDeviceStrArray devreq) = inl r ->
  vgpu_response cfg exists_ hostHookPath current ctr devreq cache r = Ret r' -> told devreq r'.
Proof.
  intros Hb Hg E. rewrite StrArray_fmap in Hg. pose proof (getAllocateResponse_visible _ _ _ Hg) as Hv.
  destruct devreq as [|first devreq]; [done|].
  destruct (vgpu_response_envs current ctr (first :: devreq) cache r first eq_refl) as (r1 & E1 & Hsm & Hrest).
  rewrite E in E1. injection E1 as <-. split.
  - rewrite Hrest by apply visible_free. rewrite memory_limits_other; [exact Hv|]. intros j _. unfold limit_key. cbn. discriminate.
  - intros k dev Hk. rewrite Hrest by apply limit_key_free. by apply (memory_limits_env (first :: devreq) 0).
  - intros f [= <-]. exact Hsm.
Qed.
End handler.

(** ** Examples *)
Definition plain_config : NvidiaConfig :=
  mkNvidiaConfig "nvidia.com/gpu" false DeviceIDStrategyUUID false "/" false false false false
    DefaultCDIAnnotationPrefix false false.
Definition cdi_config : NvidiaConfig :=
  mkNvidiaConfig "nvidia.com/gpu" false DeviceIDStrategyUUID false "/" false false true true
    DefaultCDIAnnotationPrefix false false.
Definition replica (card : string) (n : Z) : rm.Device :=
  rm.mkDevice (NewAnnotatedID card n) pluginapi.Healthy None [] "0".
(** Two replicas of each of two cards. *)
Definition shared_cards : rmDevices :=
  {["a::0"%string := replica "a" 0; "a::1"%string := replica "a" 1;
    "b::0"%string := replica "b" 0; "b::1"%string := replica "b" 1]}.

Lemma shared_cards_keyed : keyed shared_cards.
Proof.
  intros k d Hl. unfold shared_cards in Hl.
  repeat (apply lookup_insert_Some in Hl as [[<- <-]|[_ Hl]]; [done|]).
  by apply lookup_singleton_Some in Hl as [<- <-].
Qed.

Definition bound_pod : Pod :=
  mkPod "p" "default" "uid"
    (<["hami.sh/vgpu-devices-to-allocate"%string := EncodePodSingleDevice [[gpu_alloc "GPU-1"]]]>
     {[BindTimeAnnotations := "1"%string; DeviceBindPhase := DeviceBindAllocating; AssignedNodeAnnotations := "n1"%string]})
    [named_ctr "c0"] "" "Pending".
Definition bound_cluster : Server := mkServer ∅ [bound_pod] [] epoch [].

(** [Allocate] for one container of whole GPUs. *)
Lemma nvidia_Allocate_one `{GoRuntime} {W} `{!KubeClient W} cfg ds QualifiedName UpdateAnnotations uuid_New exists_
    hook nodename id ids resps (w w' : W) :
  contains id "MIG" = false -> Z.of_nat (length (id :: ids)) <= max_i64 ->
  nvidia_Allocate cfg ds QualifiedName UpdateAnnotations uuid_New exists_ hook nodename [id :: ids] w
  = Ret ((resps, None), w') ->
  exists podlist w1 current ctr devreq r,
    api_ListPods w = ((podlist, None), w1) /\ current ∈ podlist /\
    is_pending nodename current = true /\
    GetNextDeviceRequest nvidia.NvidiaGPUDevice current = Ret (ctr, devreq, None) /\
    length devreq = length (id :: ids) /\ resps = [r] /\
    car_Envs (nr_car r) !! "NVIDIA_VISIBLE_DEVICES"%string
      = Some (join "," (deviceIDsFromAnnotatedDeviceIDs cfg ds (cd_UUID <$> devreq))) /\
    (forall k dev, devreq !! k = Some dev ->
       car_Envs (nr_car r) !! ("CUDA_DEVICE_MEMORY_LIMIT_" +:+ itoa (Z.of_nat k))%string
       = Some (itoa (cd_Usedmem dev) +:+ "m")%string) /\
    (forall first, devreq !! 0%nat = Some first ->
       car_Envs (nr_car r) !! "CUDA_DEVICE_SM_LIMIT"%string = Some (itoa (cd_Usedcores first))).
Proof.
  intros Hmig Hb. unfold nvidia_Allocate, GetPendingPod, call, mbind, K_bind, mret, K_ret.
  destruct (api_ListPods w) as [[podlist lerr] w1]. destruct lerr as [e|].
  { destruct (ReleaseNodeLock nodename w1) as [[? ?]|]; done. }
  destruct (list_find (fun p => is_pending nodename p = true) podlist) as [[k current]|] eqn:Ef.
  2:{ destruct (ReleaseNodeLock nodename w1) as [[? ?]|]; done. }
  apply list_find_Some in Ef as (Hin & Hpend & _). apply list_elem_of_lookup_2 in Hin.
  cbn [nvidia_loop]. unfold lift, mbind, K_bind, outcome_bind, mret, K_ret.
  change (slice_get (id :: ids) 0) with (Ret id). cbv beta iota. rewrite Hmig.
  destruct (GetNextDeviceRequest nvidia.NvidiaGPUDevice current) as [[[ctr devreq] [e|]]|] eqn:Eg; [| |done].
  { destruct (PodAllocationFailed nodename current w1) as [[? ?]|]; done. }
  destruct (length devreq =? length (id :: ids))%nat eqn:El; cbn [negb].
  2:{ destruct (PodAllocationFailed nodename current w1) as [[? ?]|]; done. }
  apply Nat.eqb_eq in El.
  destruct (getAllocateResponse _ _ _ _ _ _ _) as [r0|] eqn:Er; [|done].
  destruct (EraseNextDeviceTypeFromAnnotation _ current w1) as [[[e|] w2]|]; [| |done].
  { destruct (PodAllocationFailed nodename current w2) as [[? ?]|]; done. }
  destruct (vgpu_response _ _ _ _ _ _ _ _) as [r|] eqn:Ev; [|done].
  destruct (PodAllocationTrySuccess nodename current w2) as [[? w3]|]; [|done]. intros [= <- _].
  apply (vgpu_response_told cfg ds QualifiedName UpdateAnnotations) with (id := uuid_New 0%nat) in Ev as [Hv Hm Hc];
    [|rewrite El; done|exact Er].
  exists podlist, w1, current, ctr, devreq, r. split_and!; try done.
Qed.

Module NvidiaProps.

(** Annotated identifiers round-trip: a replica's identifier gives back the
    device and the replica number, for a device name in which, followed by a
    colon, "::" does not occur. *)
Theorem annotated_id_roundtrip id n :
  contains (id +:+ ":") "::" = false -> - 2 ^ 63 <= n < 2 ^ 63 ->
  Split (NewAnnotatedID id n) = (id, n) /\ HasAnnotations (NewAnnotatedID id n) = true.
Proof.
  intros Hc Hn. unfold Split, HasAnnotations, NewAnnotatedID. rewrite (splitN_colons_app id (itoa n) Hc).
  split; [|by rewrite bool_decide_true by eauto]. by rewrite (parse_int_itoa 64 n) by lia.
Qed.

Lemma annotated_id_roundtrip_witness :
  Split (NewAnnotatedID "GPU-8dcd427f:1" 7) = ("GPU-8dcd427f:1"%string, 7) /\
  HasAnnotations (NewAnnotatedID "GPU-8dcd427f:1" 7) = true.
Proof. apply annotated_id_roundtrip; [vm_compute; reflexivity|lia]. Defined.

(** The distributed allocation serves a request exactly when it can: with
    fewer free candidates than needed it is an error; otherwise the answer is
    the required devices followed by exactly the missing number of distinct
    devices, all of them known, available and not already required. *)
Theorem distributedAlloc_exact `{GoRuntime} ds available required size :
  keyed ds ->
  exists l err, distributedAlloc ds available required size = Ret (l, err) /\
    match err with
    | Some _ =>
        forall free, NoDup free -> (forall c, c ∈ free -> c ∈ available /\ (c ∉ required) /\ is_Some (ds !! c)) ->
        Z.of_nat (length free) < size - Z.of_nat (length required)
    | None =>
        exists chosen, l = required ++ chosen /\ NoDup chosen /\
          Z.of_nat (length chosen) = Z.max 0 (size - Z.of_nat (length required)) /\
          forall c, c ∈ chosen -> c ∈ available /\ (c ∉ required) /\ is_Some (ds !! c)
    end.
Proof.
  intros Hkey. destruct (distributedAlloc_spec ds available required size Hkey) as [Hno Hyes].
  set (candidates := candidates_of ds available required) in *.
  set (needed := size - Z.of_nat (length required)) in *.
  destruct (decide (needed <= Z.of_nat (length candidates))) as [Hle|Hlt].
  - destruct (Hyes Hle) as (chosen & rest & -> & Hp & Hl & _).
    exists (required ++ chosen), None. split; [done|]. exists chosen. split_and!; [done| |lia|].
    + pose proof (candidates_NoDup ds Hkey available required) as Hnd. fold candidates in Hnd. rewrite <- Hp in Hnd.
      by apply NoDup_app in Hnd as [Hnd _].
    + intros c Hc. apply (elem_of_candidates ds Hkey). fold candidates. rewrite <- Hp. apply elem_of_app. by left.
  - exists [], (Some not_enough_error). rewrite Hno by lia. split; [done|]. intros free Hnd Hf.
    assert (length free <= length candidates)%nat; [|lia]. apply submseteq_length, NoDup_submseteq; [done|].
    intros c Hc. by apply (elem_of_candidates ds Hkey), Hf.
Qed.

Lemma distributedAlloc_exact_witness :
  exists l err, @distributedAlloc go_reference shared_cards ["a::0"; "a::1"; "b::1"]%string ["a::1"%string] 3 = Ret (l, err) /\
    match err with
    | Some _ =>
        forall free, NoDup free ->
        (forall c, c ∈ free -> c ∈ ["a::0"; "a::1"; "b::1"]%string /\ (c ∉ ["a::1"%string]) /\ is_Some (shared_cards !! c)) ->
        Z.of_nat (length free) < 3 - Z.of_nat (length ["a::1"%string])
    | None =>
        exists chosen, l = ["a::1"%string] ++ chosen /\ NoDup chosen /\
          Z.of_nat (length chosen) = Z.max 0 (3 - Z.of_nat (length ["a::1"%string])) /\
          forall c, c ∈ chosen -> c ∈ ["a::0"; "a::1"; "b::1"]%string /\ (c ∉ ["a::1"%string]) /\ is_Some (shared_cards !! c)
    end.
Proof.
  apply (@distributedAlloc_exact go_reference shared_cards ["a::0"; "a::1"; "b::1"]%string ["a::1"%string] 3).
  exact shared_cards_keyed.
Defined.

(** The distributed allocation balances the cards: when it succeeds, a card
    that received a replica has at most one more replica in use than any card
    that still has a free candidate ([rest] are the candidates left over). *)
Theorem distributedAlloc_balanced `{GoRuntime} ds available required size l :
  keyed ds -> distributedAlloc ds available required size = Ret (l, None) ->
  exists chosen rest, l = required ++ chosen /\ chosen ++ rest ≡ₚ candidates_of ds available required /\
    forall a b, a ∈ chosen -> b ∈ rest ->
      card_count (GetID a) (map_to_list ds).*1 - card_count (GetID a) rest
      <= card_count (GetID b) (map_to_list ds).*1 - card_count (GetID b) rest + 1.
Proof.
  intros Hkey E. destruct (distributedAlloc_spec ds available required size Hkey) as [Hno Hyes].
  destruct (decide (size - Z.of_nat (length required) <= Z.of_nat (length (candidates_of ds available required)))) as [Hle|Hlt].
  - destruct (Hyes Hle) as (chosen & rest & E' & Hp & _ & Hbal). rewrite E in E'. injection E' as ->. eauto.
  - rewrite Hno in E by lia. done.
Qed.

Lemma distributedAlloc_balanced_witness :
  exists chosen rest l, l = [] ++ chosen /\
    chosen ++ rest ≡ₚ @candidates_of go_reference shared_cards ["a::0"; "a::1"; "b::0"; "b::1"]%string [] /\
    forall a b, a ∈ chosen -> b ∈ rest ->
      card_count (GetID a) (map_to_list shared_cards).*1 - card_count (GetID a) rest
      <= card_count (GetID b) (map_to_list shared_cards).*1 - card_count (GetID b) rest + 1.
Proof.
  assert (exists l, @distributedAlloc go_reference shared_cards ["a::0"; "a::1"; "b::0"; "b::1"]%string [] 2 = Ret (l, None))
    as (l & E) by (eexists; vm_compute; reflexivity).
  destruct (@distributedAlloc_balanced go_reference shared_cards ["a::0"; "a::1"; "b::0"; "b::1"]%string [] 2 l
    shared_cards_keyed E) as (chosen & rest & Hl & Hp & Hb).
  exists chosen, rest, l. split; [exact Hl|]. split; [exact Hp|exact Hb].
Defined.

(** What a GPU container is told: when [Allocate] serves one container of
    whole GPUs without an error, the response is for the pod being bound to the
    node and the devices its annotation names next, as many as the kubelet
    asked for; the visible devices are those devices, the memory limit of the
    k-th one and the core limit are the scheduler's. *)
Theorem nvidia_Allocate_tells `{GoRuntime} {W} `{!KubeClient W} cfg ds QualifiedName UpdateAnnotations uuid_New exists_
    hook nodename id ids resps (w w' : W) :
  contains id "MIG" = false -> Z.of_nat (length (id :: ids)) <= max_i64 ->
  nvidia_Allocate cfg ds QualifiedName UpdateAnnotations uuid_New exists_ hook nodename [id :: ids] w
  = Ret ((resps, None), w') ->
  exists current ctr devreq r,
    is_pending nodename current = true /\
    GetNextDeviceRequest nvidia.NvidiaGPUDevice current = Ret (ctr, devreq, None) /\
    length devreq = length (id :: ids) /\ resps = [r] /\
    car_Envs (nr_car r) !! "NVIDIA_VISIBLE_DEVICES"%string
      = Some (join "," (deviceIDsFromAnnotatedDeviceIDs cfg ds (cd_UUID <$> devreq))) /\
    (forall k dev, devreq !! k = Some dev ->
       car_Envs (nr_car r) !! ("CUDA_DEVICE_MEMORY_LIMIT_" +:+ itoa (Z.of_nat k))%string
       = Some (itoa (cd_Usedmem dev) +:+ "m")%string) /\
    (forall first, devreq !! 0%nat = Some first ->
       car_Envs (nr_car r) !! "CUDA_DEVICE_SM_LIMIT"%string = Some (itoa (cd_Usedcores first))).
Proof.
  intros Hmig Hb E. apply nvidia_Allocate_one in E as (? & ? & current & ctr & devreq & r & _ & _ & Ht); [|done..].
  by exists current, ctr, devreq, r.
Qed.

Lemma nvidia_Allocate_tells_witness :
  exists current ctr devreq r,
    is_pending "n1" current = true /\
    @GetNextDeviceRequest go_reference nvidia.NvidiaGPUDevice current = Ret (ctr, devreq, None) /\
    length devreq = 1%nat /\
    car_Envs (nr_car r) !! "NVIDIA_VISIBLE_DEVICES"%string
      = Some (join "," (@deviceIDsFromAnnotatedDeviceIDs go_reference plain_config ∅ (cd_UUID <$> devreq))).
Proof.
  assert (exists resps w', @nvidia_Allocate go_reference Server server plain_config ∅ (fun _ x => x) (fun _ _ => inl ∅)
    (fun _ => "u"%string) (fun _ => false) "/hook" "n1" [["GPU-1-0"%string]] bound_cluster = Ret ((resps, None), w'))
    as (resps & w' & E) by (do 2 eexists; vm_compute; reflexivity).
  eapply (@nvidia_Allocate_tells go_reference Server server) in E
    as (current & ctr & devreq & r & Hp & Hg & Hl & _ & Hv & _); [|reflexivity|vm_compute; discriminate].
  exists current, ctr, devreq, r. split; [exact Hp|]. split; [exact Hg|]. split; [exact Hl|exact Hv].
Defined.

(** A failed response keeps the node locked: when the response for the
    devices cannot be built (a CDI error), the handler returns the error
    without reporting the failure, so the pod's phase stays "allocating" and
    nothing releases the node (the cluster is as the handler found it). *)
Theorem response_error_keeps_lock `{GoRuntime} {W} `{!KubeClient W} cfg ds QualifiedName UpdateAnnotations uuid_New exists_
    hook nodename current idx id ids reqs resps ctr devreq e (w : W) :
  contains id "MIG" = false ->
  GetNextDeviceRequest nvidia.NvidiaGPUDevice current = Ret (ctr, devreq, None) ->
  length devreq = length (id :: ids) ->
  getAllocateResponse cfg ds QualifiedName UpdateAnnotations exists_ (uuid_New (2 * idx)%nat)
    (GetContainerDeviceStrArray devreq) = inr e ->
  nvidia_loop cfg ds QualifiedName UpdateAnnotations uuid_New exists_ hook nodename current idx ((id :: ids) :: reqs) resps w
  = Ret (([], Some (response_error e)), w).
Proof.
  intros Hmig Hg Hl Her. cbn [nvidia_loop]. unfold lift, mbind, K_bind, outcome_bind, mret, K_ret.
  change (slice_get (id :: ids) 0) with (Ret id). cbv beta iota. rewrite Hmig, Hg. cbv beta iota.
  rewrite Hl, Nat.eqb_refl. cbn [negb]. by rewrite Her.
Qed.

Lemma response_error_keeps_lock_witness :
  exists e, @nvidia_loop go_reference Server server cdi_config ∅ (fun _ x => x) (fun _ _ => inr "no"%string)
    (fun _ => "u"%string) (fun _ => false) "/hook" "n1" bound_pod 0 [["GPU-1-0"%string]] [] bound_cluster
  = Ret (([], Some (response_error e)), bound_cluster).
Proof.
  assert (exists ctr devreq, @GetNextDeviceRequest go_reference nvidia.NvidiaGPUDevice bound_pod = Ret (ctr, devreq, None)
    /\ devreq = [gpu_alloc "GPU-1"]) as (ctr & devreq & Eg & ->)
    by (do 2 eexists; split; vm_compute; reflexivity).
  eexists. apply (@response_error_keeps_lock go_reference Server server cdi_config ∅ (fun _ x => x) (fun _ _ => inr "no"%string)
    (fun _ => "u"%string) (fun _ => false) "/hook" "n1" bound_pod 0 "GPU-1-0"%string [] [] [] ctr [gpu_alloc "GPU-1"]).
  - reflexivity.
  - exact Eg.
  - reflexivity.
  - reflexivity.
Defined.

(** The NUMA node of a GPU is never read: whenever the parser of the
    topology table returns without an error the answer is 0, whatever the table
    says, because the value it reads is assigned to a new variable. *)
Theorem numa_always_zero idx text r : parseNvidiaNumaInfo idx text = Ret (r, None) -> r = 0.
Proof. apply numa_loop_zero. Qed.

Definition topo_text : string :=
  (String TAB "" +:+ "GPU0" +:+ String TAB "" +:+ "CPU Affinity" +:+ String TAB "" +:+ "NUMA Affinity" +:+ String "010" ""
   +:+ "GPU0" +:+ String TAB "" +:+ " X " +:+ String TAB "" +:+ "0-7" +:+ String TAB "" +:+ "1" +:+ String "010" "")%string.

Lemma numa_always_zero_witness : exists r, parseNvidiaNumaInfo 0 topo_text = Ret (r, None) /\ r = 0.
Proof.
  assert (exists r, parseNvidiaNumaInfo 0 topo_text = Ret (r, None)) as [r E] by (eexists; vm_compute; reflexivity).
  exists r. split; [exact E|]. exact (numa_always_zero 0 topo_text r E).
Defined.
End NvidiaProps.
