(* ===== verification/EndToEnd.v ===== *)
(** * From the extender to the container

    The composition of [Filter] (pkg/scheduler), the annotations of the pod
    and the plugin's [Allocate] (nvinternal/plugin): what the scheduler has
    put on its books is what the container is told to see and to keep to. *)

From Stdlib Require Import ZArith Lia Ascii String Sorted.
From stdpp Require Import base decidable option gmap strings numbers sorting list.
From S2P Require Import Prelude GoStrings GoTime GoRuntime Types Kube NodeLock Codec Devices Score FitFacts BookFacts ScoreFacts CalcFacts Scheduler UsageFacts FilterFacts FilterProps PodAlloc Nvidia NvidiaFacts.

#[local] Open Scope Z_scope.

(** The devices of a record, all containers together. *)
Definition recorded_devices (p : podInfo) (dtype : string) : ContainerDevices := concat (default [] (pi_Devices p !! dtype)).

(** A record of whole NVIDIA cards whose names survive the annotation. *)
Definition gpu_record (p : podInfo) : Prop :=
  dom (pi_Devices p) = {["NVIDIA"%string]} /\ map_Forall (fun _ ps => Forall (Forall wire_device) ps) (pi_Devices p)
  /\ recorded_devices p "NVIDIA" <> [].

Section chain.
Context `{GoRuntime}.

(** [Filter] writes the devices under the request annotation. *)
Lemma filter_annotations_request t m ps :
  dom (ns_devices m) = {["NVIDIA"%string]} -> ns_devices m !! "NVIDIA"%string = Some ps ->
  filter_annotations t m !! "hami.sh/vgpu-devices-to-allocate"%string = Some (EncodePodSingleDevice ps).
Proof.
  intros Hdom Hps. unfold filter_annotations. rewrite lookup_union_r.
  - apply lookup_union_Some_l. rewrite (EncodePodDevices_lookup _ _ "NVIDIA"%string); [by rewrite Hps| |done|].
    + apply covers_of_inj; unfold InRequestDevices.
      * by intros ? ? ? [<- _]%lookup_singleton_Some [<- _]%lookup_singleton_Some.
      * by rewrite Hdom, dom_singleton_L.
    + unfold InRequestDevices. by intros t' _ [<- _]%lookup_singleton_Some.
  - apply EncodePodDevices_keys. intros ty _. unfold SupportDevices. rewrite str_lookup_single. by case_decide.
Qed.

(** What a plugin reads from a pod that carries the request of a record. *)
Lemma request_of_record p annos psd pod ctr devreq :
  gpu_record p -> pi_Devices p !! "NVIDIA"%string = Some psd ->
  annos !! "hami.sh/vgpu-devices-to-allocate"%string = Some (EncodePodSingleDevice psd) -> pod_Annotations pod = annos ->
  GetNextDeviceRequest "NVIDIA" pod = Ret (ctr, devreq, None) -> devreq = drop_idx <$> recorded_devices p "NVIDIA".
Proof.
  intros (_ & Hw & Hne) Hps Ha Epod. unfold GetNextDeviceRequest. rewrite Epod, (decode_requests annos psd Ha) by (by apply (Hw "NVIDIA"%string)).
  rewrite lookup_singleton_eq. assert (recorded_devices p "NVIDIA" = concat psd) as Er by (unfold recorded_devices; by rewrite Hps).
  rewrite Er in *. unfold merged.
  destruct (concat psd) as [|x xs]; [done|]. cbn [fmap list_fmap next_request].
  destruct (slice_get (pod_Containers pod) 0) as [c|]; cbn; [|done]. by intros [= <- <-].
Qed.
End chain.

(** The calls for [one_gpu_pod]: [Filter], then [Bind] to the node it chose. *)
Definition filtered : outcome (Scheduler * option ExtenderFilterResult * option error * Server) :=
  @Filter go_reference Server server default_config two_nodes one_gpu_pod ["n1"; "n2"; "n3"]%string cluster.
Definition filtered_world : Server := match filtered with Ret (_, w) => w | Panic _ => cluster end.
Definition bound_world : Server :=
  match @Bind Server server 0 "p" "default" "uid-p" "n1" filtered_world with Ret (_, w) => w | Panic _ => cluster end.
Definition filtered_record : podInfo :=
  mkPodInfo "default" "p" "uid-p" "n1" {["NVIDIA"%string := [[mkContainerDevice 1 "g1" "NVIDIA" 3000 0]]]}.

Lemma filtered_record_gpu : gpu_record filtered_record.
Proof.
  split_and!; [by cbn; rewrite dom_singleton_L|apply map_Forall_singleton|done].
  repeat constructor; vm_compute; intuition congruence.
Qed.

Module EndToEndProps.

(** C3. What the container gets is what the scheduler has recorded.  [Filter]
    places a pod; later the kubelet asks the NVIDIA plugin of that node for
    the devices of a container, while the pods being bound to the node carry
    the request as [Filter] left it.  When the plugin serves the call, the
    container sees exactly the devices of the scheduler's record, as many as
    the kubelet asked for, with the memory limit of each and the core limit
    the scheduler has booked. *)
Theorem placed_devices_reach_container `{GoRuntime} {W} `{!KubeClient W, !KubeServer W} cfg s pod names (w0 w1 : W) s' l failed e rec
    ncfg ds QualifiedName UpdateAnnotations uuid_New exists_ hook id ids resps (w2 w3 : W) :
  state_ok s -> total_nums (Resourcereqs cfg pod) <> 0 ->
  Filter cfg s pod names w0 = Ret ((s', Some (mkFilterResult (Some l) failed e), None), w1) ->
  s_pods s' !! pod_UID pod = Some rec -> gpu_record rec ->
  (forall view podlist w2' p, pod_view w1 (pod_Namespace pod) (pod_Name pod) = Some view ->
     api_ListPods w2 = ((podlist, None), w2') -> p ∈ podlist -> is_pending (pi_NodeID rec) p = true ->
     pod_Annotations p !! "hami.sh/vgpu-devices-to-allocate"%string
     = pod_Annotations view !! "hami.sh/vgpu-devices-to-allocate"%string) ->
  contains id "MIG" = false -> Z.of_nat (length (id :: ids)) <= max_i64 ->
  nvidia_Allocate ncfg ds QualifiedName UpdateAnnotations uuid_New exists_ hook (pi_NodeID rec) [id :: ids] w2
  = Ret ((resps, None), w3) ->
  let devs := recorded_devices rec "NVIDIA" in
  l = [pi_NodeID rec] /\ length devs = length (id :: ids) /\ exists r, resps = [r] /\
    car_Envs (nr_car r) !! "NVIDIA_VISIBLE_DEVICES"%string
      = Some (join "," (deviceIDsFromAnnotatedDeviceIDs ncfg ds (cd_UUID <$> devs))) /\
    (forall k dev, devs !! k = Some dev ->
       car_Envs (nr_car r) !! ("CUDA_DEVICE_MEMORY_LIMIT_" +:+ itoa (Z.of_nat k))%string
       = Some (itoa (cd_Usedmem dev) +:+ "m")%string) /\
    (forall first, devs !! 0%nat = Some first ->
       car_Envs (nr_car r) !! "CUDA_DEVICE_SM_LIMIT"%string = Some (itoa (cd_Usedcores first))).
Proof.
  intros Hs Hz E Hrec Hgpu Hcarry Hmig Hb Hal devs. apply Filter_outcome in E.
  remember (s', Some (mkFilterResult (Some l) failed e), None) as r0 eqn:Er.
  destruct E as [Hz'|nodes' _ Ec|nodes' scores m t w0' err w1 _ Ec Em En Ep]; [done|done|].
  destruct err as [er|]; [done|]. injection Er as <- <- <- <-.
  rewrite (filter_state_added s pod names nodes' m Hs), lookup_insert_eq in Hrec. injection Hrec as <-.
  cbn [pi_NodeID] in *. pose proof Hgpu as (Hdom & _ & _). cbn [pi_Devices] in Hdom.
  assert (exists ps, ns_devices m !! "NVIDIA"%string = Some ps) as [ps Hps] by (apply elem_of_dom; rewrite Hdom; set_solver).
  apply patch_pod_applied in Ep as (view & Hview & Hsub).
  apply nvidia_Allocate_one in Hal as (podlist & w2' & current & ctr & devreq & r & Hlist & Hin & Hpend & Hnext & Hlen & -> & Hv & Hm & Hc);
    [|done..].
  pose proof (Hcarry view podlist w2' current Hview Hlist Hin Hpend) as Ha.
  rewrite (lookup_weaken _ _ _ _ (filter_annotations_request t m ps Hdom Hps) Hsub) in Ha.
  apply (request_of_record _ _ ps current ctr devreq Hgpu Hps Ha eq_refl) in Hnext as ->. fold devs in Hlen, Hv, Hm, Hc.
  rewrite length_fmap in Hlen. rewrite <- list_fmap_compose in Hv. split_and!; [done|done|]. exists r. split_and!; [done|exact Hv| |].
  - intros k dev Hk. apply (Hm k (drop_idx dev)). by rewrite list_lookup_fmap, Hk.
  - intros first Hf. apply (Hc (drop_idx first)). by rewrite list_lookup_fmap, Hf.
Qed.
Lemma placed_devices_reach_container_witness :
  exists s' res r w3, filtered = Ret (s', res, None, filtered_world) /\
    s_pods s' !! "uid-p"%string = Some filtered_record /\
    @nvidia_Allocate go_reference Server server plain_config ∅ (fun _ x => x) (fun _ _ => inl ∅)
      (fun _ => "u"%string) (fun _ => false) "/hook" "n1" [["g1-0"%string]] bound_world = Ret (([r], None), w3) /\
    car_Envs (nr_car r) !! "NVIDIA_VISIBLE_DEVICES"%string = Some "g1"%string.
Proof.
  assert (exists s' l failed e, filtered = Ret (s', Some (mkFilterResult (Some l) failed e), None, filtered_world)
    /\ s_pods s' !! "uid-p"%string = Some filtered_record) as (s' & l & failed & e & E & Hrec)
    by (do 4 eexists; split; vm_compute; reflexivity).
  assert (exists resps w3, @nvidia_Allocate go_reference Server server plain_config ∅ (fun _ x => x) (fun _ _ => inl ∅)
    (fun _ => "u"%string) (fun _ => false) "/hook" "n1" [["g1-0"%string]] bound_world = Ret ((resps, None), w3))
    as (resps & w3 & Hal) by (do 2 eexists; vm_compute; reflexivity).
  destruct (@placed_devices_reach_container go_reference Server server server_laws default_config two_nodes one_gpu_pod
    _ _ _ _ _ _ _ _ plain_config ∅ (fun _ x => x) (fun _ _ => inl ∅) (fun _ => "u"%string) (fun _ => false) "/hook"%string
    "g1-0"%string [] resps bound_world w3 two_nodes_ok ltac:(rewrite one_gpu_pod_requests; vm_compute; discriminate)
    E Hrec filtered_record_gpu) as (_ & _ & r & -> & Hv & _).
  - intros view podlist w2' p Hview Hlist Hin _. vm_compute in Hview. injection Hview as <-. vm_compute in Hlist.
    injection Hlist as <- <-. apply list_elem_of_singleton in Hin as ->. reflexivity.
  - reflexivity.
  - vm_compute. discriminate.
  - exact Hal.
  - do 4 eexists. split; [exact E|]. split; [exact Hrec|]. split; [exact Hal|exact Hv].
Defined.
End EndToEndProps.
