(* ===== verification/NvidiaMap.v ===== *)
(** * The devices of the NVIDIA plugin: [nvinternal/rm] and [nvinternal/mig]

    At start, the plugin asks NVML for the GPUs and MIG devices of the node
    and builds a map from resource names to devices (rm/device_map.go), then
    replaces the devices of the time-sliced resources by replicas.  Each
    resource becomes a resource manager (rm/rm.go, nvml_manager.go,
    tegra_manager.go).

    NVML and go-nvlib are not part of the repository.  What a device answers
    is a record of answers; the iteration over the devices is the class
    [DeviceLib], whose law [DeviceLibSpec] says that the callback is called on
    each device in turn until it fails.  The configuration package of the
    upstream plugin provides the matching of names and the classification of
    device references, which are parameters. *)

From Stdlib Require Import ZArith Lia Ascii String Sorted.
From stdpp Require Import base decidable option gmap strings numbers sorting list.
From S2P Require Import Prelude GoStrings GoScan GoTime GoRuntime Types Kube NodeLock Codec Devices Score Scheduler PodAlloc Nvidia.

#[local] Open Scope Z_scope.

(** ** Configuration *)
Module spec.
Definition MigStrategyNone : string := "none".
Definition MigStrategySingle : string := "single".
Definition MigStrategyMixed : string := "mixed".

Record Resource := mkResource { Pattern : string; Name : string }.
Record ReplicatedDevices := mkReplicatedDevices { All : bool; Count : Z; List : list string }.
Record ReplicatedResource := mkReplicatedResource {
  rr_Name : string;
  rr_Rename : string;
  rr_Devices : ReplicatedDevices;
  rr_Replicas : Z;
}.
End spec.

(** The fields of [util.DeviceConfig] the package reads. *)
Record DeviceConfig := mkDeviceConfig {
  dc_MigStrategy : string;
  dc_FailOnInitError : bool;
  dc_GPUs : list spec.Resource;
  dc_MIGs : list spec.Resource;
  dc_RenameByDefault : bool;
  dc_TimeSlicing : list spec.ReplicatedResource;
  dc_ResourceName : string;
}.

(** What the configuration package decides of names and references. *)
Class SpecLib := {
  Matches : string -> string -> bool;
  IsUUID : string -> bool;
  IsGPUIndex : string -> bool;
  IsMigIndex : string -> bool;
  DefaultSharedRename : string -> string;
  AddMIGResource : string -> string -> list spec.Resource -> list spec.Resource + error;
}.

(** ** What NVML answers *)
Record nvmlDevice := mkNvmlDevice {
  nd_UUID : string + error;
  nd_MinorNumber : Z + error;
  nd_BusId : list Z + error;       (* [PciInfo.BusId], int8 *)
}.

Record MigDevice := mkMigDevice {
  mig_dev : nvmlDevice;
  mig_GpuInstanceId : Z + error;
  mig_ComputeInstanceId : Z + error;
  mig_Parent : nvmlDevice + error;
  mig_Profile : string + error;
  mig_Attributes : list Z + error;
}.

Record Gpu := mkGpu {
  gpu_dev : nvmlDevice;
  gpu_Name : string + error;
  gpu_MigEnabled : bool + error;
  gpu_MigDevices : list MigDevice + error;
}.

(** A callback over a list until it fails. *)
Fixpoint visit {A S} (f : A -> S -> S * option error) (l : list A) (s : S) : S * option error :=
  match l with
  | [] => (s, None)
  | a :: l' => match f a s with
               | (s, Some e) => (s, Some e)
               | (s, None) => visit f l' s
               end
  end.

Class DeviceLib := {
  VisitDevices {S : Type} : (Z -> Gpu -> S -> S * option error) -> S -> S * option error;
  VisitMigDevices {S : Type} : (Z -> Gpu -> Z -> MigDevice -> S -> S * option error) -> S -> S * option error;
  (** a profile is its text and whether its compute and GPU slices differ *)
  VisitMigProfiles {S : Type} : (string * bool -> S -> S * option error) -> S -> S * option error;
}.

(** The devices found, and whether the library could go through all of them. *)
Class DeviceLibSpec `{DeviceLib} := {
  Gpus : list Gpu;
  gpus_complete : bool;
  Migs : list (Z * Gpu * Z * MigDevice);
  migs_complete : bool;
  visit_devices {S : Type} (f : Z -> Gpu -> S -> S * option error) (s : S) :
    let walk := visit (fun x => f (Z.of_nat x.1) x.2) (imap pair Gpus) s in
    (VisitDevices f s).1 = walk.1 /\
    ((VisitDevices f s).2 = None <-> walk.2 = None /\ gpus_complete = true);
  visit_mig_devices {S : Type} (f : Z -> Gpu -> Z -> MigDevice -> S -> S * option error) (s : S) :
    let walk := visit (fun '(i, d, j, m) => f i d j m) Migs s in
    (VisitMigDevices f s).1 = walk.1 /\
    ((VisitMigDevices f s).2 = None <-> walk.2 = None /\ migs_complete = true);
}.

(** ** mig/mig.go *)

Definition nvidiaCapabilitiesPath : string := "/proc/driver/nvidia/capabilities".
Definition nvcapsDevicePath : string := "/dev/nvidia-caps".

(** [fmt.Sprintf(nvidiaCapabilitiesPath+"/gpu%d/mig/gi%d/access", ...)] and the
    path of a compute instance *)
Definition gi_cap_path (gpu gi : Z) : string :=
  nvidiaCapabilitiesPath +:+ "/gpu" +:+ itoa gpu +:+ "/mig/gi" +:+ itoa gi +:+ "/access".
Definition ci_cap_path (gpu gi ci : Z) : string :=
  nvidiaCapabilitiesPath +:+ "/gpu" +:+ itoa gpu +:+ "/mig/gi" +:+ itoa gi +:+ "/ci" +:+ itoa ci +:+ "/access".

Definition unparsable (line : string) : error := ("unparsable line: " +:+ line)%string.

(** The closure [processLine]: the four formats in turn. *)
Definition processLine (line : string) : (string * Z) + error :=
  match (Sscanf line "gpu%d/gi%d/ci%d/access %d").1 with
  | [SInt gpu; SInt gi; SInt ci; SInt migMinor] => inl (ci_cap_path gpu gi ci, migMinor)
  | _ =>
      match (Sscanf line "gpu%d/gi%d/access %d").1 with
      | [SInt gpu; SInt gi; SInt migMinor] => inl (gi_cap_path gpu gi, migMinor)
      | _ =>
          match (Sscanf line "config %d").1 with
          | [SInt migMinor] => inl ((nvidiaCapabilitiesPath +:+ "/mig/config")%string, migMinor)
          | _ =>
              match (Sscanf line "monitor %d").1 with
              | [SInt migMinor] => inl ((nvidiaCapabilitiesPath +:+ "/mig/monitor")%string, migMinor)
              | _ => inr (unparsable line)
              end
          end
      end
  end.

(** What opening a file gives. *)
Inductive opened :=
| NotExist
| OpenError (e : error)
| Content (s : string).

Definition cap_device (migMinor : Z) : string := nvcapsDevicePath +:+ "/nvidia-cap" +:+ itoa migMinor.

(** The nil map of a missing file reads as the empty map. *)
Definition GetMigCapabilityDevicePaths (minors : opened) : gmap string string + error :=
  match minors with
  | NotExist => inl ∅
  | OpenError e => inr ("error opening MIG minors file: " +:+ e)%string
  | Content s =>
      inl (foldl (fun m line => match processLine line with
                                | inl (capPath, migMinor) => <[capPath := cap_device migMinor]> m
                                | inr _ => m
                                end) ∅ (scan_lines s))
  end.

(** ** rm/helper.go, nvml_devices.go, wsl_devices.go, tegra_devices.go *)

(** [int8Slice.String] *)
Fixpoint int8Slice_String (s : list Z) : string :=
  match s with
  | [] => ""
  | c :: s' => if c =? 0 then ""%string else String (ascii_of_N (Z.to_N (c mod 256))) (int8Slice_String s')
  end.

Section devices.
(** [os.ReadFile], the MIG minors file, and whether the node is a WSL one. *)
Context (ReadFile : string -> string + error) (minors : opened) (isWsl : bool).

Definition nvmlDevice_GetPaths (d : nvmlDevice) : list string + error :=
  match nd_MinorNumber d with
  | inr ret => inr ("error getting GPU device minor number: " +:+ ret)%string
  | inl minor => inl ["/dev/nvidia" +:+ itoa minor]%string
  end.

Definition nvmlDevice_GetNumaNode (d : nvmlDevice) : (bool * Z) + error :=
  match nd_BusId d with
  | inr ret => inr ("error getting PCI Bus Info of device: " +:+ ret)%string
  | inl BusId =>
      let busID := to_lower (trim_prefix (int8Slice_String BusId) "0000") in
      match ReadFile ("/sys/bus/pci/devices/" +:+ busID +:+ "/numa_node")%string with
      | inr _ => inl (false, 0)
      | inl b =>
          match atoi (trim_space b) with
          | (_, Some _) => inr "eror parsing value for NUMA node"%string
          | (node, None) => if node <? 0 then inl (false, 0) else inl (true, node)
          end
      end
  end.

Definition nvmlMigDevice_GetPaths (d : MigDevice) : list string + error :=
  match GetMigCapabilityDevicePaths minors with
  | inr err => inr ("error getting MIG capability device paths: " +:+ err)%string
  | inl capDevicePaths =>
      match mig_GpuInstanceId d with
      | inr ret => inr ("error getting GPU Instance ID: " +:+ ret)%string
      | inl gi =>
          match mig_ComputeInstanceId d with
          | inr ret => inr ("error getting Compute Instance ID: " +:+ ret)%string
          | inl ci =>
              match mig_Parent d with
              | inr ret => inr ("error getting parent device: " +:+ ret)%string
              | inl parent =>
                  match nd_MinorNumber parent with
                  | inr ret => inr ("error getting GPU device minor number: " +:+ ret)%string
                  | inl minor =>
                      match capDevicePaths !! gi_cap_path minor gi with
                      | None => inr ("missing MIG GPU instance capability path: " +:+ gi_cap_path minor gi)%string
                      | Some giPath =>
                          match capDevicePaths !! ci_cap_path minor gi ci with
                          | None => inr ("missing MIG GPU instance capability path: " +:+ gi_cap_path minor gi)%string
                          | Some ciPath => inl ["/dev/nvidia" +:+ itoa minor; giPath; ciPath]%string
                          end
                      end
                  end
              end
          end
      end
  end.

Definition nvmlMigDevice_GetNumaNode (d : MigDevice) : (bool * Z) + error :=
  match mig_Parent d with
  | inr ret => inr ("error getting parent GPU device from MIG device: " +:+ ret)%string
  | inl parent => nvmlDevice_GetNumaNode parent
  end.

Definition newGPUDevice (i : Z) (gpu : nvmlDevice) : string * deviceInfo :=
  (itoa i, mkDeviceInfo_ (nd_UUID gpu)
     (if isWsl then inl ["/dev/dxg"%string] else nvmlDevice_GetPaths gpu) (nvmlDevice_GetNumaNode gpu)).

Definition newMigDevice (i j : Z) (mig : MigDevice) : string * deviceInfo :=
  ((itoa i +:+ ":" +:+ itoa j)%string,
   mkDeviceInfo_ (nd_UUID (mig_dev mig)) (nvmlMigDevice_GetPaths mig) (nvmlMigDevice_GetNumaNode mig)).

Definition tegraDevice : deviceInfo := mkDeviceInfo_ (inl "tegra"%string) (inl []) (inl (false, -1)).

(** ** rm/device_map.go *)
Abbreviation DeviceMap := (gmap string rmDevices).

Definition DeviceMap_insert (d : DeviceMap) (name : string) (dev : rm.Device) : DeviceMap :=
  <[name := <[rm.ID dev := dev]> (default ∅ (d !! name))]> d.

Definition setEntry (d : DeviceMap) (name index : string) (device : deviceInfo) : DeviceMap * option error :=
  match BuildDevice index device with
  | inr err => (d, Some ("error building Device: " +:+ err)%string)
  | inl dev => (DeviceMap_insert d name dev, None)
  end.

Section with_runtime.
Context `{GoRuntime, SpecLib}.

Definition DeviceMap_merge (d o : DeviceMap) : DeviceMap :=
  foldl (fun d '(name, devices) =>
      foldl (fun d '(_, device) => DeviceMap_insert d name device) d (range ("merge " +:+ name, 1%nat)%string devices))
    d (range ("merge"%string, 0%nat) o).

Definition isEmpty (d : DeviceMap) : bool :=
  forallb (fun x => (size x.2 =? 0)%nat) (range ("isEmpty"%string, 0%nat) d).

(** The resource of the first pattern that matches. *)
Definition first_match (l : list spec.Resource) (name : string) : option spec.Resource :=
  snd <$> list_find (fun r => Matches (spec.Pattern r) name = true) l.

Section build.
Context `{DeviceLib} (cfg : DeviceConfig).

(** The callback of [buildGPUDeviceMap]. *)
Definition visit_gpu (i : Z) (gpu : Gpu) (devices : DeviceMap) : DeviceMap * option error :=
  match gpu_Name gpu with
  | inr ret => (devices, Some ("error getting product name for GPU: " +:+ ret)%string)
  | inl name =>
      match gpu_MigEnabled gpu with
      | inr err => (devices, Some ("error checking if MIG is enabled on GPU: " +:+ err)%string)
      | inl migEnabled =>
          if migEnabled && negb (bool_decide (dc_MigStrategy cfg = spec.MigStrategyNone)) then (devices, None)
          else
            match first_match (dc_GPUs cfg) name with
            | Some resource =>
                let '(index, info) := newGPUDevice i (gpu_dev gpu) in
                setEntry devices (spec.Name resource) index info
            | None => (devices, Some ("GPU name '" +:+ name +:+ "' does not match any resource patterns")%string)
            end
      end
  end.

(** The error of [VisitDevices] is dropped. *)
Definition buildGPUDeviceMap : DeviceMap := (VisitDevices visit_gpu ∅).1.

Definition visit_mig (i : Z) (d : Gpu) (j : Z) (mig : MigDevice) (devices : DeviceMap) : DeviceMap * option error :=
  match mig_Profile mig with
  | inr err => (devices, Some ("error getting MIG profile for MIG device at index '(" +:+ itoa i +:+ ", " +:+ itoa j +:+ ")': " +:+ err)%string)
  | inl migProfile =>
      match first_match (dc_MIGs cfg) migProfile with
      | Some resource =>
          let '(index, info) := newMigDevice i j mig in
          setEntry devices (spec.Name resource) index info
      | None => (devices, Some ("MIG profile '" +:+ migProfile +:+ "' does not match any resource patterns")%string)
      end
  end.

Definition buildMigDeviceMap : DeviceMap * option error := VisitMigDevices visit_mig ∅.

Definition assert_gpu (i : Z) (d : Gpu) (u : unit) : unit * option error :=
  match gpu_MigEnabled d with
  | inr err => (u, Some err)
  | inl false => (u, None)
  | inl true =>
      match gpu_MigDevices d with
      | inr err => (u, Some err)
      | inl [] => (u, Some "device 0 has an invalid MIG configuration"%string)
      | inl _ => (u, None)
      end
  end.

Definition assert_uniform (i : Z) (d : Gpu) (j : Z) (m : MigDevice) (previous : option (list Z))
    : option (list Z) * option error :=
  match mig_Attributes m with
  | inr ret => (previous, Some ("error getting device attributes: " +:+ ret)%string)
  | inl attrs =>
      match previous with
      | None => (Some attrs, None)
      | Some p => if decide (attrs = p) then (previous, None)
                  else (previous, Some "more than one MIG device type present on node"%string)
      end
  end.

Definition assertAllMigDevicesAreValid (uniform : bool) : option error :=
  match (VisitDevices assert_gpu tt).2 with
  | Some err => Some ("At least one device with migEnabled=true was not configured correctly: " +:+ err)%string
  | None => if negb uniform then None else (VisitMigDevices assert_uniform None).2
  end.

Definition mixed_error : error := "all devices on the node must be configured with the same migEnabled value".

Definition buildDeviceMapFromConfigResources : DeviceMap + error :=
  let deviceMap := buildGPUDeviceMap in
  if decide (dc_MigStrategy cfg = spec.MigStrategyNone) then inl deviceMap
  else
    match buildMigDeviceMap with
    | (_, Some err) => inr ("error building MIG device map: " +:+ err)%string
    | (migDeviceMap, None) =>
        let requireUniformMIGDevices := bool_decide (dc_MigStrategy cfg = spec.MigStrategySingle) in
        match assertAllMigDevicesAreValid requireUniformMIGDevices with
        | Some err => inr ("invalid MIG configuration: " +:+ err)%string
        | None =>
            if requireUniformMIGDevices && negb (isEmpty deviceMap) && negb (isEmpty migDeviceMap)
            then inr mixed_error
            else inl (DeviceMap_merge deviceMap migDeviceMap)
        end
    end.
End build.

(** ** Replicas *)

(** The devices a list of references names; [k] counts the references. *)
Fixpoint ids_of_refs (t : string) (devices : rmDevices) (k : nat) (refs : list string) (ids : list string)
    : list string + error :=
  match refs with
  | [] => inl ids
  | ref :: refs' =>
      match (if IsUUID ref then
               match GetByID devices ref with
               | None => inr ("no matching device with UUID: " +:+ ref)%string
               | Some d => inl (ids ++ [rm.ID d])
               end
             else inl ids) with
      | inr e => inr e
      | inl ids =>
          match (if IsGPUIndex ref || IsMigIndex ref then
                   match GetByIndex (t, k) devices ref with
                   | None => inr ("no matching device at index: " +:+ ref)%string
                   | Some d => inl (ids ++ [rm.ID d])
                   end
                 else inl ids) with
          | inr e => inr e
          | inl ids => ids_of_refs t devices (S k) refs' ids
          end
      end
  end.

(** [n] is the position of the resource in the configuration. *)
Definition getIDsOfDevicesToReplicate (d : DeviceMap) (n : nat) (r : spec.ReplicatedResource) : list string + error :=
  match d !! spec.rr_Name r with
  | None => inl []
  | Some devices =>
      let ds := spec.rr_Devices r in
      if spec.All ds then inl (GetIDs ("getIDsOfDevicesToReplicate"%string, n) devices)
      else if 0 <? spec.Count ds then
        if Z.of_nat (size devices) <? spec.Count ds
        then inr ("requested " +:+ itoa (spec.Count ds) +:+ " devices to be replicated, but only "
                  +:+ itoa (Z.of_nat (size devices)) +:+ " devices available")%string
        else inl (take (Z.to_nat (spec.Count ds)) (GetIDs ("getIDsOfDevicesToReplicate"%string, n) devices))
      else if (0 <? length (spec.List ds))%nat
      then ids_of_refs ("getIDsOfDevicesToReplicate " +:+ itoa (Z.of_nat n)) devices 0 (spec.List ds) []
      else inr "unexpected error"%string
  end.

(** [replicatedDevice := *d; replicatedDevice.ID = id] *)
Definition with_ID (d : rm.Device) (id : string) : rm.Device :=
  rm.mkDevice id (rm.Health d) (rm.Topology d) (rm.Paths d) (rm.Index d).

(** The replicas of one device. *)
Definition replicate_one (name : string) (Replicas : Z) (d : rm.Device) (id : string) (devices : DeviceMap) : DeviceMap :=
  foldl (fun devices i => DeviceMap_insert devices name (with_ID d (NewAnnotatedID id i)))
    devices (Z.of_nat <$> seq 0 (Z.to_nat Replicas)).

(** [*(oDevices[r.Name][id])] panics for an identifier that is not there. *)
Fixpoint replicate_ids (name : string) (Replicas : Z) (ds : rmDevices) (ids : list string) (devices : DeviceMap)
    : outcome DeviceMap :=
  match ids with
  | [] => Ret devices
  | id :: ids' =>
      if Replicas <=? 0 then replicate_ids name Replicas ds ids' devices
      else match ds !! id with
           | None => Panic NilDereference
           | Some d => replicate_ids name Replicas ds ids' (replicate_one name Replicas d id devices)
           end
  end.

Definition replica_name (r : spec.ReplicatedResource) : string :=
  if decide (spec.rr_Rename r = "") then spec.rr_Name r else spec.rr_Rename r.

Fixpoint replicate_resources (oDevices : DeviceMap) (n : nat) (rs : list spec.ReplicatedResource) (devices : DeviceMap)
    : outcome (DeviceMap + error) :=
  match rs with
  | [] => Ret (inl devices)
  | r :: rs' =>
      match getIDsOfDevicesToReplicate oDevices n r with
      | inr err => Ret (inr ("unable to get IDs of devices to replicate for '" +:+ spec.rr_Name r +:+ "' resource: " +:+ err)%string)
      | inl [] => replicate_resources oDevices (S n) rs' devices
      | inl ids =>
          let ds := default ∅ (oDevices !! spec.rr_Name r) in
          let devices := foldl (fun devices '(_, d) => DeviceMap_insert devices (spec.rr_Name r) d) devices
            (range ("updateDeviceMapWithReplicas"%string, S n) (Difference ds (Subset ds ids))) in
          devices ← replicate_ids (replica_name r) (spec.rr_Replicas r) ds ids devices;
          replicate_resources oDevices (S n) rs' devices
      end
  end.

(** The copy of the resources that are not shared keeps their maps; the maps
    the loop reads later belong to other names. *)
Definition updateDeviceMapWithReplicas (cfg : DeviceConfig) (oDevices : DeviceMap) : outcome (DeviceMap + error) :=
  let names := spec.rr_Name <$> dc_TimeSlicing cfg in
  let devices := foldl (fun devices '(r, ds) => if decide (r ∈ names) then devices else <[r := ds]> devices)
    ∅ (range ("updateDeviceMapWithReplicas"%string, 0%nat) oDevices) in
  replicate_resources oDevices 0 (dc_TimeSlicing cfg) devices.

Definition NewDeviceMap `{DeviceLib} (cfg : DeviceConfig) : outcome (DeviceMap + error) :=
  match buildDeviceMapFromConfigResources cfg with
  | inr err => Ret (inr ("error building device map from config.resources: " +:+ err)%string)
  | inl devices =>
      r ← updateDeviceMapWithReplicas cfg devices;
      Ret (match r with
           | inr err => inr ("error updating device map with replicas from config.sharing.timeSlicing.resources: " +:+ err)%string
           | inl devices => inl devices
           end)
  end.

(** ** rm/nvml_manager.go, tegra_manager.go, rm.go: the resource managers *)
Inductive manager_kind := NvmlManager | TegraManager.

Record resourceManager := mkResourceManager {
  rmg_kind : manager_kind;
  rmg_resource : string;
  rmg_devices : rmDevices;
}.

Definition managers_of (k : manager_kind) (deviceMap : DeviceMap) : list resourceManager :=
  concat ((fun '(resourceName, devices) =>
      if (size devices =? 0)%nat then [] else [mkResourceManager k resourceName devices])
    <$> range ("NewResourceManagers"%string, 0%nat) deviceMap).

(** [Init] is what [nvmllib.Init] answers. *)
Definition NewNVMLResourceManagers `{DeviceLib} (Init : option error) (cfg : DeviceConfig)
    : outcome (list resourceManager + error) :=
  match Init with
  | Some ret => Ret (inr ("failed to initialize NVML: " +:+ ret)%string)
  | None =>
      m ← NewDeviceMap cfg;
      Ret (match m with
           | inr err => inr ("error building device map: " +:+ err)%string
           | inl deviceMap => inl (managers_of NvmlManager deviceMap)
           end)
  end.

Fixpoint tegra_loop (i : Z) (rs : list spec.Resource) (devices : DeviceMap) : DeviceMap + error :=
  match rs with
  | [] => inl devices
  | resource :: rs' =>
      if Matches (spec.Pattern resource) "tegra" then
        match setEntry devices (spec.Name resource) (itoa i) tegraDevice with
        | (_, Some err) => inr err
        | (devices, None) => tegra_loop (i + 1) rs' devices
        end
      else tegra_loop i rs' devices
  end.

Definition buildTegraDeviceMap (cfg : DeviceConfig) : DeviceMap + error := tegra_loop 0 (dc_GPUs cfg) ∅.

Definition NewTegraResourceManagers (cfg : DeviceConfig) : outcome (list resourceManager + error) :=
  match buildTegraDeviceMap cfg with
  | inr err => Ret (inr ("error building Tegra device map: " +:+ err)%string)
  | inl deviceMap =>
      m ← updateDeviceMapWithReplicas cfg deviceMap;
      Ret (match m with
           | inr err => inr ("error updating device map with replicas from config.sharing.timeSlicing.resources: " +:+ err)%string
           | inl deviceMap => inl (managers_of TegraManager deviceMap)
           end)
  end.

(** The platform: [infolib.HasNvml] and [infolib.IsTegraSystem]. *)
Definition NewResourceManagers `{DeviceLib} (hasNVML isTegra : bool) (Init : option error) (cfg : DeviceConfig)
    : outcome (list resourceManager + error) :=
  if negb hasNVML && negb isTegra then
    Ret (if dc_FailOnInitError cfg then inr "platform detection failed"%string else inl [])
  else
    let isTegra := if hasNVML && isTegra then false else isTegra in
    nvml ← (if hasNVML then NewNVMLResourceManagers Init cfg else Ret (inl []));
    match nvml with
    | inr err => Ret (inr ("failed to construct NVML resource managers: " +:+ err)%string)
    | inl nvmlManagers =>
        tegra ← (if isTegra then NewTegraResourceManagers cfg else Ret (inl []));
        Ret (match tegra with
             | inr err => inr ("failed to construct Tegra resource managers: " +:+ err)%string
             | inl tegraManagers => inl (nvmlManagers ++ tegraManagers)
             end)
    end.

Definition with_resources (cfg : DeviceConfig) (gpus migs : list spec.Resource) : DeviceConfig :=
  mkDeviceConfig (dc_MigStrategy cfg) (dc_FailOnInitError cfg) gpus migs (dc_RenameByDefault cfg)
    (dc_TimeSlicing cfg) (dc_ResourceName cfg).

(** The callback of [VisitMigProfiles]. *)
Definition add_profile (p : string * bool) (migs : list spec.Resource) : list spec.Resource * option error :=
  let '(profile, partial) := p in
  if partial : bool then (migs, None)
  else match AddMIGResource profile (replace_char "+" "." ("mig-" +:+ profile)) migs with
       | inr err => (migs, Some err)
       | inl migs => (migs, None)
       end.

Definition AddDefaultResourcesToConfig `{DeviceLib} (hasNVML : bool) (Init : option error)
    (cfg : DeviceConfig) : DeviceConfig * option error :=
  let gpus := dc_GPUs cfg ++ [spec.mkResource "*" (dc_ResourceName cfg)] in
  let cfg := with_resources cfg gpus (dc_MIGs cfg) in
  if decide (dc_MigStrategy cfg = spec.MigStrategySingle) then
    match AddMIGResource "*" "gpu" (dc_MIGs cfg) with
    | inr err => (cfg, Some err)
    | inl migs => (with_resources cfg gpus migs, None)
    end
  else if decide (dc_MigStrategy cfg = spec.MigStrategyMixed) then
    if negb hasNVML then (cfg, None)
    else match Init with
         | Some ret => (cfg, if dc_FailOnInitError cfg then Some ("failed to initialize NVML: " +:+ ret)%string else None)
         | None =>
             let '(migs, err) := VisitMigProfiles add_profile (dc_MIGs cfg) in
             (with_resources cfg gpus migs, err)
         end
  else (cfg, None).
End with_runtime.
End devices.

Abbreviation DeviceMap := (gmap string rmDevices).
