(* ===== verification/NvidiaMapFacts.v ===== *)
(** * The device map of the NVIDIA plugin: facts and properties

    A device map is read through [has]: the devices under a name.  The loops
    of rm/device_map.go are sequences of writes of devices under names; as
    long as no two writes disagree, the result has exactly what was there and
    what was written. *)

From Stdlib Require Import ZArith Lia Ascii String Sorted.
From stdpp Require Import base decidable option gmap strings numbers sorting list.
From S2P Require Import Prelude GoStrings GoScan GoTime GoRuntime Types Kube NodeLock Codec Devices Score Scheduler PodAlloc Nvidia NvidiaFacts NvidiaMap.

#[local] Open Scope Z_scope.

(** ** Writes *)

(** The map has the device under the name and the key. *)
Definition has (m : DeviceMap) (name key : string) (d : rm.Device) : Prop :=
  exists ds, m !! name = Some ds /\ ds !! key = Some d.

Abbreviation ins := (fun (m : DeviceMap) (w : string * rm.Device) => DeviceMap_insert m w.1 w.2).

Lemma has_insert m name dev n k d :
  has (DeviceMap_insert m name dev) n k d <->
  (n = name /\ k = rm.ID dev /\ d = dev) \/ (~ (n = name /\ k = rm.ID dev) /\ has m n k d).
Proof.
  unfold has, DeviceMap_insert. destruct (decide (n = name)) as [->|Hn].
  - rewrite lookup_insert_eq. destruct (decide (k = rm.ID dev)) as [->|Hk].
    + split.
      * intros (ds & [= <-] & E). rewrite lookup_insert_eq in E. injection E as <-. by left.
      * intros [(_ & _ & ->)|[Hf _]]; [|by destruct Hf]. eexists. split; [done|]. by rewrite lookup_insert_eq.
    + split.
      * intros (ds & [= <-] & E). rewrite lookup_insert_ne in E by done. right. split; [naive_solver|].
        destruct (m !! name) as [ds|]; cbn in E; [eauto|by rewrite lookup_empty in E].
      * intros [(_ & Hf & _)|(_ & ds & E & Ed)]; [done|]. eexists. split; [done|].
        rewrite lookup_insert_ne by done. by rewrite E.
  - rewrite lookup_insert_ne by done. naive_solver.
Qed.

(** Every device is under its identifier. *)
Definition keyed (m : DeviceMap) : Prop := forall n k d, has m n k d -> rm.ID d = k.

Lemma keyed_empty : keyed ∅.
Proof. intros n k d (ds & E & _). by rewrite lookup_empty in E. Qed.

Lemma keyed_insert m name dev : keyed m -> keyed (DeviceMap_insert m name dev).
Proof. intros Hm n k d [(_ & -> & ->)|[_ Hh]]%has_insert; [done|by apply (Hm n)]. Qed.

(** The writes agree with one another and with the map. *)
Record consistent (m : DeviceMap) (ws : list (string * rm.Device)) : Prop := {
  cons_writes n d1 d2 : (n, d1) ∈ ws -> (n, d2) ∈ ws -> rm.ID d1 = rm.ID d2 -> d1 = d2;
  cons_map n d d' : (n, d) ∈ ws -> has m n (rm.ID d) d' -> d = d';
}.

Lemma has_writes ws : forall m n k d,
  consistent m ws ->
  has (foldl ins m ws) n k d <-> has m n k d \/ ((n, d) ∈ ws /\ k = rm.ID d).
Proof.
  induction ws as [|[n0 d0] ws IH]; intros m n k d Hc; cbn [foldl].
  { split; [by left|]. intros [?|[Hf _]]; [done|]. by apply elem_of_nil in Hf. }
  rewrite IH.
  - rewrite has_insert. cbn [fst snd]. rewrite elem_of_cons. split.
    + intros [[(-> & -> & ->)|[_ ?]]|[? ->]]; auto.
    + intros [Hm|[[[= -> ->]|Hw] ->]]; [|by auto|by auto].
      destruct (decide (n = n0 /\ k = rm.ID d0)) as [[-> ->]|Hne]; [|by auto].
      left. left. split_and!; try done. symmetry. eapply (cons_map _ _ Hc); [by left|done].
  - split.
    + intros n' d1 d2 H1 H2. apply (cons_writes _ _ Hc n'); by right.
    + intros n' d1 d' H1. rewrite has_insert. intros [(-> & E & ->)|[_ Hm]].
      * apply (cons_writes _ _ Hc n0); [by right|by left|done].
      * eapply (cons_map _ _ Hc); [by right|done].
Qed.

(** ** Annotated identifiers *)
Lemma last_colon_inj a b x y :
  has_char ":" x = false -> has_char ":" y = false ->
  (a +:+ String ":" x = b +:+ String ":" y)%string -> a = b /\ x = y.
Proof.
  intros Hx Hy. revert b. induction a as [|c a IH]; intros [|c' b]; cbn [String.append]; intros E.
  - by injection E.
  - injection E as <- ->. rewrite has_char_app in Hx. cbn in Hx. by rewrite orb_true_r in Hx.
  - injection E as -> <-. rewrite has_char_app in Hy. cbn in Hy. by rewrite orb_true_r in Hy.
  - injection E as -> E. by destruct (IH b E) as [-> ->].
Qed.

Lemma itoa_no_colon i : has_char ":" (itoa i) = false.
Proof. by apply itoa_has_char. Qed.

Lemma NewAnnotatedID_inj id1 id2 i j :
  in_i64 i -> in_i64 j -> NewAnnotatedID id1 i = NewAnnotatedID id2 j -> id1 = id2 /\ i = j.
Proof.
  unfold NewAnnotatedID. intros Hi Hj E.
  change ("::" +:+ itoa i)%string with (String ":" "" +:+ String ":" (itoa i))%string in E.
  change ("::" +:+ itoa j)%string with (String ":" "" +:+ String ":" (itoa j))%string in E.
  rewrite <- !str_app_assoc in E. apply last_colon_inj in E as [E ->%itoa_inj]; try apply itoa_no_colon; try done.
  apply (last_colon_inj id1 id2 "" "") in E as [-> _]; done.
Qed.

Lemma splitN_colons_new id s : is_Some (splitN_colons (id +:+ String ":" (String ":" s))).
Proof.
  induction id as [|c id IH]; [by destruct s; eexists|]. cbn [String.append].
  remember (id +:+ String ":" (String ":" s))%string as rest eqn:Er. cbn [splitN_colons].
  destruct (String.prefix "::" (String c rest)).
  - destruct rest; [by destruct id|by eexists].
  - destruct IH as [[x y] ->]. by eexists.
Qed.

Lemma HasAnnotations_new id i : HasAnnotations (NewAnnotatedID id i) = true.
Proof. apply bool_decide_eq_true, splitN_colons_new. Qed.

(** ** Replicas *)
Section replicas.
Context `{GoRuntime, SpecLib}.
Implicit Types (o m : DeviceMap) (r : spec.ReplicatedResource) (ws : list (string * rm.Device)).

(** A map of devices as [insert] builds it: keyed by the identifiers, which
    are plain, and each under one name. *)
Record device_map_ok o : Prop := {
  dm_keyed : keyed o;
  dm_plain n k d : has o n k d -> HasAnnotations k = false;
  dm_exclusive n1 n2 k d1 d2 : has o n1 k d1 -> has o n2 k d2 -> n1 = n2;
}.

Lemma has_fun o n k d1 d2 : has o n k d1 -> has o n k d2 -> d1 = d2.
Proof. intros (ds & E1 & E2) (ds' & E3 & E4). congruence. Qed.

Lemma GetIDs_elem t (ds : rmDevices) id :
  (forall k d, ds !! k = Some d -> rm.ID d = k) ->
  id ∈ GetIDs t ds <-> is_Some (ds !! id).
Proof.
  intros Hk. unfold GetIDs. rewrite list_elem_of_fmap. split.
  - intros ([k d] & -> & Hin). apply elem_of_range in Hin. cbn; rewrite (Hk k d Hin). by eexists.
  - intros [d E]. exists (id, d). split; [cbn; by rewrite (Hk id d E)|by apply elem_of_range].
Qed.

Lemma ids_of_refs_elem t (ds : rmDevices) refs : forall k ids ids',
  (forall k d, ds !! k = Some d -> rm.ID d = k) ->
  ids_of_refs t ds k refs ids = inl ids' ->
  Forall (fun id => is_Some (ds !! id)) ids -> Forall (fun id => is_Some (ds !! id)) ids'.
Proof.
  induction refs as [|ref refs IH]; intros k ids ids' Hk E Hids; cbn [ids_of_refs] in E.
  { by injection E as <-. }
  destruct (if IsUUID ref then _ else _) as [ids1|] eqn:E1; [|done].
  assert (Forall (fun id => is_Some (ds !! id)) ids1) as H1.
  { destruct (IsUUID ref); [|by injection E1 as <-]. unfold GetByID in E1.
    destruct (ds !! ref) as [d|] eqn:Ed; [|done]. injection E1 as <-.
    apply Forall_app. split; [done|]. constructor; [|done]. rewrite (Hk ref d Ed). by eexists. }
  destruct (if IsGPUIndex ref || IsMigIndex ref then _ else _) as [ids2|] eqn:E2; [|done].
  apply (IH _ _ _ Hk E). destruct (IsGPUIndex ref || IsMigIndex ref); [|by injection E2 as <-].
  unfold GetByIndex in E2. destruct (list_find _ _) as [[j [k' d]]|] eqn:Ef; [|done].
  injection E2 as <-. apply Forall_app. split; [done|]. constructor; [|done]. cbn.
  apply list_find_Some in Ef as (Ef & _ & _). apply list_elem_of_lookup_2, elem_of_range in Ef.
  rewrite (Hk _ _ Ef). by eexists.
Qed.

(** Only devices of the resource are replicated. *)
Lemma getIDs_known o n r ids id :
  keyed o -> getIDsOfDevicesToReplicate o n r = inl ids -> id ∈ ids ->
  exists d, has o (spec.rr_Name r) id d.
Proof.
  intros Ho E Hin. unfold getIDsOfDevicesToReplicate in E.
  destruct (o !! spec.rr_Name r) as [ds|] eqn:Eo; [|injection E as <-; by apply elem_of_nil in Hin].
  assert (forall k d, ds !! k = Some d -> rm.ID d = k) as Hk.
  { intros k d Ed. apply (Ho (spec.rr_Name r)). exists ds. done. }
  assert (is_Some (ds !! id)) as [d Ed]; [|exists d, ds; done].
  destruct (spec.All _). { injection E as <-. by apply GetIDs_elem in Hin. }
  destruct (0 <? spec.Count _).
  - destruct (_ <? _); [done|]. injection E as <-. apply elem_of_take in Hin as (j & Hj & _).
    apply list_elem_of_lookup_2 in Hj. by apply GetIDs_elem in Hj.
  - destruct (0 <? _)%nat; [|done]. apply ids_of_refs_elem in E; [|done|done].
    rewrite Forall_forall in E. by apply E.
Qed.

(** What one resource writes: the devices left alone, then the replicas. *)
Definition kept_writes o (n : nat) r (ids : list string) : list (string * rm.Device) :=
  let ds := default ∅ (o !! spec.rr_Name r) in
  (fun x => (spec.rr_Name r, x.2)) <$> range ("updateDeviceMapWithReplicas"%string, S n) (Difference ds (Subset ds ids)).

Definition replica_writes o r (ids : list string) : list (string * rm.Device) :=
  concat ((fun id => match default ∅ (o !! spec.rr_Name r) !! id with
                     | None => []
                     | Some d => (fun i => (replica_name r, with_ID d (NewAnnotatedID id i)))
                                   <$> (Z.of_nat <$> seq 0 (Z.to_nat (spec.rr_Replicas r)))
                     end) <$> ids).

Lemma replicate_ids_writes o r ids : forall m,
  Forall (fun id => is_Some (default ∅ (o !! spec.rr_Name r) !! id)) ids ->
  replicate_ids (replica_name r) (spec.rr_Replicas r) (default ∅ (o !! spec.rr_Name r)) ids m
  = Ret (foldl ins m (replica_writes o r ids)).
Proof.
  unfold replica_writes. induction ids as [|id ids IH]; intros m Hids; [done|].
  apply Forall_cons in Hids as [[d Ed] Hids]. cbn [replicate_ids fmap list_fmap concat]. rewrite Ed, foldl_app.
  destruct (Z.leb_spec (spec.rr_Replicas r) 0) as [Hr|Hr].
  - rewrite (Z2Nat.nonpos (spec.rr_Replicas r)) by lia. cbn [seq fmap list_fmap foldl]. rewrite IH by done.
    by rewrite (Z2Nat.nonpos (spec.rr_Replicas r)).
  - rewrite IH by done. do 2 f_equal. unfold replicate_one. symmetry. etransitivity; [apply foldl_fmap|done].
Qed.

Lemma elem_of_replica_writes o r ids n d :
  (n, d) ∈ replica_writes o r ids <->
  exists id d0 i, id ∈ ids /\ has o (spec.rr_Name r) id d0 /\ 0 <= i < spec.rr_Replicas r
    /\ n = replica_name r /\ d = with_ID d0 (NewAnnotatedID id i).
Proof.
  unfold replica_writes. rewrite elem_of_concat. setoid_rewrite list_elem_of_fmap. split.
  - intros (l & Hl & id & -> & Hid). exists id.
    destruct (o !! spec.rr_Name r) as [ds|] eqn:Eo; cbn [default Datatypes.id] in Hl; [|by rewrite lookup_empty in Hl; apply elem_of_nil in Hl].
    destruct (ds !! id) as [d0|] eqn:Ed; [|by apply elem_of_nil in Hl].
    apply list_elem_of_fmap in Hl as (i & [= -> ->] & Hi). apply list_elem_of_fmap in Hi as (j & -> & Hj).
    apply elem_of_seq in Hj. exists d0, (Z.of_nat j). split_and!; try done; [exists ds; done|lia..].
  - intros (id & d0 & i & Hid & (ds & Eo & Ed) & Hi & -> & ->). eexists. split; [|by exists id].
    rewrite Eo. cbn [default Datatypes.id]. rewrite Ed. apply list_elem_of_fmap. exists i. split; [done|].
    apply list_elem_of_fmap. exists (Z.to_nat i). split; [lia|]. apply elem_of_seq. lia.
Qed.

Lemma elem_of_kept_writes o k r ids n d :
  device_map_ok o ->
  (n, d) ∈ kept_writes o k r ids <->
  n = spec.rr_Name r /\ has o n (rm.ID d) d /\ rm.ID d ∉ ids.
Proof.
  intros Ho. unfold kept_writes. rewrite list_elem_of_fmap. split.
  - intros ([key d'] & [= -> ->] & Hin). apply elem_of_range in Hin. cbn [snd].
    rewrite Difference_lookup in Hin. destruct (decide _) as [|Hn]; [done|].
    destruct (o !! spec.rr_Name r) as [ds|] eqn:Eo; cbn [default Datatypes.id] in *; [|by rewrite lookup_empty in Hin].
    assert (has o (spec.rr_Name r) key d') as Hh by (exists ds; done).
    pose proof (dm_keyed o Ho _ _ _ Hh) as E. rewrite E. split_and!; try done.
    intros Hids. apply Hn. rewrite Subset_lookup. rewrite decide_True by done. by eexists.
  - intros (-> & Hh & Hn). exists (rm.ID d, d). split; [done|]. apply elem_of_range.
    destruct Hh as (ds & Eo & Ed). rewrite Eo. cbn [default Datatypes.id]. rewrite Difference_lookup, Subset_lookup.
    rewrite decide_False; [done|]. rewrite decide_False by done. by intros [? ?].
Qed.
(** The loop over the shared resources is a sequence of writes. *)
Definition resource_write o n r (w : string * rm.Device) : Prop :=
  exists ids, getIDsOfDevicesToReplicate o n r = inl ids /\ ids <> []
    /\ (w ∈ kept_writes o n r ids \/ w ∈ replica_writes o r ids).

Lemma replicate_resources_writes o rs : forall n m,
  device_map_ok o ->
  (forall j r, rs !! j = Some r -> exists ids, getIDsOfDevicesToReplicate o (n + j) r = inl ids) ->
  exists ws, replicate_resources o n rs m = Ret (inl (foldl ins m ws))
    /\ forall w, w ∈ ws <-> exists j r, rs !! j = Some r /\ resource_write o (n + j) r w.
Proof.
  induction rs as [|r rs IH]; intros n m Ho Hids.
  { exists []. split; [done|]. intros w. split; [by intros ?%elem_of_nil|]. by intros (j & r & E & _). }
  destruct (Hids 0%nat r eq_refl) as [ids Eids]. rewrite Nat.add_0_r in Eids.
  assert (forall j r', rs !! j = Some r' -> exists ids, getIDsOfDevicesToReplicate o (S n + j) r' = inl ids) as Hrest.
  { intros j r' Hj. destruct (Hids (S j) r' Hj) as [ids' E]. exists ids'. by rewrite Nat.add_succ_r in E. }
  assert (forall w, (exists j r', (r :: rs) !! j = Some r' /\ resource_write o (n + j) r' w) <->
    resource_write o n r w \/ exists j r', rs !! j = Some r' /\ resource_write o (S n + j) r' w) as Hsplit.
  { intros w. split.
    - intros ([|j] & r' & E & Hw); [left; injection E as <-; by rewrite Nat.add_0_r in Hw|].
      right. exists j, r'. split; [done|]. by rewrite Nat.add_succ_r in Hw.
    - intros [Hw|(j & r' & E & Hw)]; [exists 0%nat, r; by rewrite Nat.add_0_r|].
      exists (S j), r'. split; [done|]. by rewrite Nat.add_succ_r. }
  cbn [replicate_resources]. rewrite Eids. destruct ids as [|id ids].
  - destruct (IH (S n) m Ho Hrest) as (ws & -> & Hws). exists ws. split; [done|].
    intros w. rewrite Hws, Hsplit. split; [by right|]. intros [(ids' & E & Hne & _)|?]; [congruence|done].
  - rewrite replicate_ids_writes.
    2:{ apply Forall_forall. intros x Hx. destruct (getIDs_known o n r _ x (dm_keyed o Ho) Eids Hx) as (d & ds & E & Ed).
        rewrite E. by eexists. }
    cbn [mbind outcome_bind].
    replace (foldl (fun devices '(_, d) => DeviceMap_insert devices (spec.rr_Name r) d) m _)
      with (foldl ins m (kept_writes o n r (id :: ids))).
    2:{ unfold kept_writes. etransitivity; [apply foldl_fmap|]. apply foldl_ext. by intros ? [? ?] _. }
    rewrite <- foldl_app.
    edestruct (IH (S n)) as (ws & -> & Hws); [exact Ho|exact Hrest|].
    exists ((kept_writes o n r (id :: ids) ++ replica_writes o r (id :: ids)) ++ ws).
    rewrite <- foldl_app. split; [done|]. intros w. rewrite !elem_of_app, Hws, Hsplit. unfold resource_write at 2.
    split; [|intros [(ids' & E & _ & Hw)|?]; [|by right]; rewrite Eids in E; injection E as <-; by left].
    intros [Hw|?]; [left; by exists (id :: ids)|by right].
Qed.

(** The copy of the resources that are not shared. *)
Lemma copied_has o (names : list string) n k d :
  has (foldl (fun devices '(r, ds) => if decide (r ∈ names) then devices else <[r := ds]> devices)
    ∅ (range ("updateDeviceMapWithReplicas"%string, 0%nat) o)) n k d <-> (n ∉ names) /\ has o n k d.
Proof.
  assert (forall l m, NoDup l.*1 ->
    foldl (fun (devices : DeviceMap) '(r, ds) => if decide (r ∈ names) then devices else <[r := ds]> devices) m l !! n
    = if decide (n ∈ names) then m !! n
      else match list_to_map (M := DeviceMap) l !! n with Some ds => Some ds | None => m !! n end) as Hl.
  { induction l as [|[r ds] l IH]; intros m Hnd; cbn [foldl].
    { rewrite list_to_map_nil, lookup_empty. by case_decide. }
    apply NoDup_cons in Hnd as [Hni Hnd]. rewrite (IH _ Hnd), list_to_map_cons. cbn [fst snd] in *.
    destruct (decide (r = n)) as [->|Hne].
    - rewrite lookup_insert_eq. destruct (decide (n ∈ names)); [done|].
      rewrite not_elem_of_list_to_map_1 by done. by rewrite lookup_insert_eq.
    - rewrite lookup_insert_ne by done. assert ((if decide (r ∈ names) then m else <[r := ds]> m) !! n = m !! n) as ->; [|done].
      destruct (decide (r ∈ names)); [done|]. by rewrite lookup_insert_ne. }
  unfold has. rewrite Hl by apply range_NoDup. rewrite range_list_to_map, lookup_empty.
  destruct (decide (n ∈ names)); [naive_solver|]. destruct (o !! n); naive_solver.
Qed.

Lemma resource_write_cases o n r w :
  device_map_ok o -> resource_write o n r w ->
  (w.1 = spec.rr_Name r /\ has o w.1 (rm.ID w.2) w.2) \/
  (exists id d0 i, has o (spec.rr_Name r) id d0 /\ 0 <= i < spec.rr_Replicas r /\ w = (replica_name r, with_ID d0 (NewAnnotatedID id i))).
Proof.
  intros Ho (ids & _ & _ & [Hw|Hw]); destruct w as [nm d].
  - apply elem_of_kept_writes in Hw as (-> & Hh & _); [|done]. by left.
  - apply elem_of_replica_writes in Hw as (id & d0 & i & _ & Hh & Hi & -> & ->). right. by exists id, d0, i.
Qed.

(** Plain and annotated identifiers never meet, and an annotated one names
    its device and number, so no two writes disagree. *)
Lemma writes_consistent o (L : list spec.ReplicatedResource) m ws :
  device_map_ok o -> Forall (fun r => spec.rr_Replicas r <= max_i64) L ->
  (forall w, w ∈ ws -> exists n r, L !! n = Some r /\ resource_write o n r w) ->
  (forall n k d, has m n k d -> (n ∉ spec.rr_Name <$> L) /\ has o n k d) ->
  consistent m ws.
Proof.
  intros Ho HL Hws Hm. rewrite Forall_forall in HL.
  assert (forall w, w ∈ ws ->
    (w.1 ∈ spec.rr_Name <$> L /\ has o w.1 (rm.ID w.2) w.2) \/
    (exists n id d0 i, has o n id d0 /\ 0 <= i < max_i64 /\ w.2 = with_ID d0 (NewAnnotatedID id i))) as Hc.
  { intros w Hw. destruct (Hws w Hw) as (j & r & Er & Hr). apply list_elem_of_lookup_2 in Er.
    destruct (resource_write_cases o j r w Ho Hr) as [[-> Hh]|(id & d0 & i & Hh & Hi & ->)].
    - left. split; [|done]. apply list_elem_of_fmap. by exists r.
    - right. exists (spec.rr_Name r), id, d0, i. specialize (HL r Er). split_and!; [done|lia..|done]. }
  split.
  - intros n d1 d2 H1 H2 E. destruct (Hc _ H1) as [[_ Hh1]|(n1 & id1 & e1 & i1 & Hh1 & Hi1 & E1)];
      destruct (Hc _ H2) as [[_ Hh2]|(n2 & id2 & e2 & i2 & Hh2 & Hi2 & E2)]; cbn [fst snd] in *.
    + rewrite E in Hh1. by eapply has_fun.
    + apply dm_plain in Hh1; [|done]. rewrite E, E2 in Hh1. cbn in Hh1. by rewrite HasAnnotations_new in Hh1.
    + apply dm_plain in Hh2; [|done]. rewrite <- E, E1 in Hh2. cbn in Hh2. by rewrite HasAnnotations_new in Hh2.
    + subst d1 d2. cbn in E. apply NewAnnotatedID_inj in E as [-> ->]; [|unfold in_i64, min_i64 in *; lia..].
      assert (n1 = n2) as -> by by eapply dm_exclusive. by rewrite (has_fun o n2 id2 e1 e2).
  - intros n d d' Hw Hh. apply Hm in Hh as [Hn Hh].
    destruct (Hc _ Hw) as [[Hin _]|(n1 & id1 & e1 & i1 & _ & _ & E1)]; [done|]. cbn in E1. subst d.
    apply dm_plain in Hh; [|done]. cbn in Hh. by rewrite HasAnnotations_new in Hh.
Qed.

(** The devices of a resource after sharing, from the devices before. *)
Definition shared_devices (cfg : DeviceConfig) o (name key : string) (d : rm.Device) : Prop :=
  ((name ∉ spec.rr_Name <$> dc_TimeSlicing cfg) /\ has o name key d)
  \/ exists n r ids, dc_TimeSlicing cfg !! n = Some r /\ getIDsOfDevicesToReplicate o n r = inl ids /\ ids <> []
     /\ ((name = spec.rr_Name r /\ has o name key d /\ key ∉ ids)
         \/ exists id d0 i, id ∈ ids /\ has o (spec.rr_Name r) id d0 /\ 0 <= i < spec.rr_Replicas r
              /\ name = replica_name r /\ key = NewAnnotatedID id i /\ d = with_ID d0 key).

Lemma update_shared cfg o :
  device_map_ok o -> Forall (fun r => spec.rr_Replicas r <= max_i64) (dc_TimeSlicing cfg) ->
  (forall n r, dc_TimeSlicing cfg !! n = Some r -> exists ids, getIDsOfDevicesToReplicate o n r = inl ids) ->
  exists result, updateDeviceMapWithReplicas cfg o = Ret (inl result)
    /\ forall name key d, has result name key d <-> shared_devices cfg o name key d.
Proof.
  intros Ho HL Hids. unfold updateDeviceMapWithReplicas.
  edestruct (replicate_resources_writes o (dc_TimeSlicing cfg) 0) as (ws & -> & Hws); [done|exact Hids|].
  eexists. split; [done|]. intros name key d. rewrite has_writes.
  2:{ eapply writes_consistent; [done|exact HL| |]; [intros w Hw; by apply Hws in Hw|intros *; by rewrite copied_has]. }
  rewrite copied_has, Hws. unfold shared_devices. apply or_iff_compat_l. split.
  - intros ((j & r & Er & ids & Ei & Hne & Hw) & ->). exists j, r, ids. split_and!; try done.
    destruct Hw as [Hw|Hw]; [left; by apply elem_of_kept_writes in Hw|right].
    apply elem_of_replica_writes in Hw as (id & d0 & i & Hid & Hh & Hi & -> & ->). by exists id, d0, i.
  - intros (j & r & ids & Er & Ei & Hne & [(-> & Hh & Hn)|(id & d0 & i & Hid & Hh & Hi & -> & -> & ->)]).
    + pose proof (dm_keyed o Ho _ _ _ Hh) as <-. split; [|done]. exists j, r. split; [done|]. exists ids.
      split_and!; try done. left. by apply elem_of_kept_writes.
    + split; [|done]. exists j, r. split; [done|]. exists ids. split_and!; try done. right.
      apply elem_of_replica_writes. by exists id, d0, i.
Qed.
End replicas.

(** ** Building the map *)
Section build.
Context `{GoRuntime, SpecLib}.
Context (ReadFile : string -> string + error) (minors : opened) (isWsl : bool).
Implicit Types (ws : list (string * rm.Device)).

(** A walk over the devices is a sequence of writes that ends at the first
    device that fails. *)
Lemma visit_writes {A} (f : A -> DeviceMap -> DeviceMap * option error) (entry : A -> option (list (string * rm.Device))) :
  (forall a m, match entry a with Some ws => f a m = (foldl ins m ws, None) | None => exists e, f a m = (m, Some e) end) ->
  forall l m, exists k, Forall (fun a => is_Some (entry a)) (take k l)
    /\ (visit f l m).1 = foldl ins m (concat ((fun a => default [] (entry a)) <$> take k l))
    /\ ((k = length l /\ (visit f l m).2 = None) \/
        exists a, l !! k = Some a /\ entry a = None /\ is_Some (visit f l m).2).
Proof.
  intros Hf. induction l as [|a l IH]; intros m.
  { exists 0%nat. split_and!; try done. left. done. }
  specialize (Hf a). destruct (entry a) as [ws|] eqn:Ea.
  - destruct (IH (foldl ins m ws)) as (k & Hall & E & Hend). exists (S k). cbn [visit take fmap list_fmap concat].
    rewrite Hf, Ea, foldl_app. split_and!; [by constructor; [rewrite Ea; eexists|]|done|].
    destruct Hend as [[-> ?]|?]; [left; done|right; done].
  - destruct (Hf m) as [e Ee]. exists 0%nat. cbn [visit]. rewrite Ee. split_and!; [done|done|].
    right. exists a. split_and!; [done|done|by eexists].
Qed.

(** What a GPU adds to the map; [None] when NVML fails or nothing matches. *)
Definition gpu_entry (cfg : DeviceConfig) (i : Z) (gpu : Gpu) : option (list (string * rm.Device)) :=
  match gpu_Name gpu, gpu_MigEnabled gpu with
  | inl name, inl migEnabled =>
      if migEnabled && negb (bool_decide (dc_MigStrategy cfg = spec.MigStrategyNone)) then Some []
      else match first_match (dc_GPUs cfg) name with
           | Some resource =>
               match BuildDevice (itoa i) (newGPUDevice ReadFile isWsl i (gpu_dev gpu)).2 with
               | inl dev => Some [(spec.Name resource, dev)]
               | inr _ => None
               end
           | None => None
           end
  | _, _ => None
  end.

Lemma visit_gpu_entry cfg i gpu m :
  match gpu_entry cfg i gpu with
  | Some ws => visit_gpu ReadFile isWsl cfg i gpu m = (foldl ins m ws, None)
  | None => exists e, visit_gpu ReadFile isWsl cfg i gpu m = (m, Some e)
  end.
Proof.
  unfold gpu_entry, visit_gpu. destruct (gpu_Name gpu) as [name|]; [|by eexists].
  destruct (gpu_MigEnabled gpu) as [mig|]; [|by eexists]. destruct (mig && _); [done|].
  destruct (first_match (dc_GPUs cfg) name) as [res|]; [|by eexists].
  cbn [newGPUDevice]. unfold setEntry, newGPUDevice. cbn [snd]. destruct (BuildDevice _ _); [done|by eexists].
Qed.

Context `{DeviceLib, !DeviceLibSpec}.

(** The GPUs with their entries, up to the first that fails. *)
Lemma gpu_map_writes cfg :
  exists k, (forall i gpu, Gpus !! i = Some gpu -> (i < k)%nat -> is_Some (gpu_entry cfg (Z.of_nat i) gpu))
    /\ (k = length Gpus \/ exists gpu, Gpus !! k = Some gpu /\ gpu_entry cfg (Z.of_nat k) gpu = None)
    /\ buildGPUDeviceMap ReadFile isWsl cfg
       = foldl ins ∅ (concat ((fun x => default [] (gpu_entry cfg (Z.of_nat x.1) x.2)) <$> take k (imap pair Gpus))).
Proof.
  unfold buildGPUDeviceMap. destruct (visit_devices (visit_gpu ReadFile isWsl cfg) ∅) as [-> _].
  destruct (visit_writes (fun x : nat * Gpu => visit_gpu ReadFile isWsl cfg (Z.of_nat x.1) x.2)
    (fun x => gpu_entry cfg (Z.of_nat x.1) x.2) (fun x m => visit_gpu_entry cfg (Z.of_nat x.1) x.2 m)
    (imap pair Gpus) ∅) as (k & Hall & E & Hend).
  exists k. split_and!; [| |exact E].
  - intros i gpu Hi Hk. rewrite Forall_forall in Hall. apply (Hall (i, gpu)), elem_of_take. exists i.
    rewrite list_lookup_imap, Hi. done.
  - destruct Hend as [[-> _]|(a & Ha & En & _)]; [left; by rewrite length_imap|right].
    rewrite list_lookup_imap in Ha. destruct (Gpus !! k) as [gpu|]; [|done]. injection Ha as <-. by exists gpu.
Qed.

(** Every GPU before the first failing one, and no other, is in the map. *)
Definition gpu_listed (cfg : DeviceConfig) (k : nat) (name key : string) (d : rm.Device) : Prop :=
  exists i gpu, (i < k)%nat /\ Gpus !! i = Some gpu
    /\ gpu_entry cfg (Z.of_nat i) gpu = Some [(name, d)] /\ key = rm.ID d.

(** NVML gives every device its own plain identifier. *)
Record uuids_ok (cfg : DeviceConfig) : Prop := {
  uuid_distinct i j gi gj ni nj di dj :
    Gpus !! i = Some gi -> Gpus !! j = Some gj ->
    gpu_entry cfg (Z.of_nat i) gi = Some [(ni, di)] -> gpu_entry cfg (Z.of_nat j) gj = Some [(nj, dj)] ->
    rm.ID di = rm.ID dj -> i = j;
  uuid_plain i gi ni di :
    Gpus !! i = Some gi -> gpu_entry cfg (Z.of_nat i) gi = Some [(ni, di)] -> HasAnnotations (rm.ID di) = false;
}.

Lemma gpu_entry_single cfg i gpu ws w : gpu_entry cfg i gpu = Some ws -> w ∈ ws -> ws = [w].
Proof.
  unfold gpu_entry. intros E Hw. destruct (gpu_Name gpu), (gpu_MigEnabled gpu); try done.
  destruct (_ && _); [injection E as <-; by apply elem_of_nil in Hw|].
  destruct (first_match _ _); [|done]. destruct (BuildDevice _ _); [|done]. injection E as <-.
  by apply list_elem_of_singleton in Hw as ->.
Qed.

Lemma gpu_map_has cfg :
  uuids_ok cfg ->
  exists k, (forall i gpu, Gpus !! i = Some gpu -> (i < k)%nat -> is_Some (gpu_entry cfg (Z.of_nat i) gpu))
    /\ (k = length Gpus \/ exists gpu, Gpus !! k = Some gpu /\ gpu_entry cfg (Z.of_nat k) gpu = None)
    /\ forall name key d, has (buildGPUDeviceMap ReadFile isWsl cfg) name key d <-> gpu_listed cfg k name key d.
Proof.
  intros Hu. destruct (gpu_map_writes cfg) as (k & Hok & Hend & E). exists k. split; [done|]. split; [done|].
  assert (forall w, w ∈ concat ((fun x => default [] (gpu_entry cfg (Z.of_nat x.1) x.2)) <$> take k (imap pair Gpus))
    <-> exists i gpu, (i < k)%nat /\ Gpus !! i = Some gpu /\ gpu_entry cfg (Z.of_nat i) gpu = Some [w]) as Hws.
  { intros w. rewrite elem_of_concat. setoid_rewrite list_elem_of_fmap. split.
    - intros (l & Hl & [i gpu] & -> & Hin). apply elem_of_take in Hin as (j & Hj & Hk).
      rewrite list_lookup_imap in Hj. destruct (Gpus !! j) as [g|] eqn:Eg; [|done]. injection Hj as <- <-.
      destruct (Hok j g Eg Hk) as [ws Ews]. cbn [fst snd] in Hl. rewrite Ews in Hl. cbn in Hl.
      exists j, g. rewrite Ews, (gpu_entry_single cfg _ _ _ w Ews Hl). done.
    - intros (i & gpu & Hi & Eg & Ee). exists [w]. split; [by left|]. exists (i, gpu). cbn [fst snd]. rewrite Ee.
      split; [done|]. apply elem_of_take. exists i. rewrite list_lookup_imap, Eg. done. }
  intros name key d. rewrite E, has_writes.
  - rewrite Hws. unfold gpu_listed. split; [|naive_solver].
    intros [(ds & Hd & _)|((i & gpu & ? & ? & ?) & ->)]; [by rewrite lookup_empty in Hd|]. by exists i, gpu.
  - split; [|intros n d0 d' _ (ds & Hd & _); by rewrite lookup_empty in Hd].
    intros n d1 d2 (i & gi & _ & Hi & Ei)%Hws (j & gj & _ & Hj & Ej)%Hws Eid.
    assert (i = j) as <- by by eapply uuid_distinct. congruence.
Qed.

Lemma gpu_map_ok cfg : uuids_ok cfg -> device_map_ok (buildGPUDeviceMap ReadFile isWsl cfg).
Proof.
  intros Hu. destruct (gpu_map_has cfg Hu) as (k & _ & _ & Hhas). split.
  - intros n key d (i & gpu & _ & _ & _ & ->)%Hhas. done.
  - intros n key d (i & gpu & _ & Hi & Ei & ->)%Hhas. by eapply uuid_plain.
  - intros n1 n2 key d1 d2 (i & gi & _ & Hi & Ei & E1)%Hhas (j & gj & _ & Hj & Ej & E2)%Hhas. subst key.
    assert (i = j) as <- by by eapply uuid_distinct. congruence.
Qed.
End build.

(** ** The MIG minors file *)

(** A line of /proc/driver/nvidia-caps/mig-minors and what it stands for. *)
Inductive mig_minor :=
| GiAccess (gpu gi minor : Z)
| CiAccess (gpu gi ci minor : Z)
| MigConfig (minor : Z)
| MigMonitor (minor : Z).

Definition minor_line (e : mig_minor) : string :=
  match e with
  | GiAccess gpu gi m => "gpu" +:+ itoa gpu +:+ "/gi" +:+ itoa gi +:+ "/access " +:+ itoa m
  | CiAccess gpu gi ci m => "gpu" +:+ itoa gpu +:+ "/gi" +:+ itoa gi +:+ "/ci" +:+ itoa ci +:+ "/access " +:+ itoa m
  | MigConfig m => "config " +:+ itoa m
  | MigMonitor m => "monitor " +:+ itoa m
  end.

Definition minor_path (e : mig_minor) : string :=
  match e with
  | GiAccess gpu gi _ => gi_cap_path gpu gi
  | CiAccess gpu gi ci _ => ci_cap_path gpu gi ci
  | MigConfig _ => nvidiaCapabilitiesPath +:+ "/mig/config"
  | MigMonitor _ => nvidiaCapabilitiesPath +:+ "/mig/monitor"
  end.

Definition minor_of (e : mig_minor) : Z :=
  match e with GiAccess _ _ m | CiAccess _ _ _ m | MigConfig m | MigMonitor m => m end.

Definition minor_ok (e : mig_minor) : Prop :=
  match e with
  | GiAccess gpu gi m => printable gpu /\ printable gi /\ printable m
  | CiAccess gpu gi ci m => printable gpu /\ printable gi /\ printable ci /\ printable m
  | MigConfig m | MigMonitor m => printable m
  end.

Lemma scan_gi_as_ci gpu gi m :
  printable gpu -> printable gi -> printable m ->
  (Sscanf (minor_line (GiAccess gpu gi m)) "gpu%d/gi%d/ci%d/access %d").1 = [SInt gpu; SInt gi].
Proof. unfold printable. intros Hg Hi Hm. cbn [minor_line]. scan_line. reflexivity. Qed.

Lemma scan_gi gpu gi m :
  printable gpu -> printable gi -> printable m ->
  (Sscanf (minor_line (GiAccess gpu gi m)) "gpu%d/gi%d/access %d").1 = [SInt gpu; SInt gi; SInt m].
Proof.
  unfold printable. intros Hg Hi Hm. cbn [minor_line]. rewrite <- (str_app_nil_r (itoa m)). scan_line. reflexivity.
Qed.

Lemma scan_ci gpu gi ci m :
  printable gpu -> printable gi -> printable ci -> printable m ->
  (Sscanf (minor_line (CiAccess gpu gi ci m)) "gpu%d/gi%d/ci%d/access %d").1 = [SInt gpu; SInt gi; SInt ci; SInt m].
Proof.
  unfold printable. intros Hg Hi Hc Hm. cbn [minor_line]. rewrite <- (str_app_nil_r (itoa m)). scan_line. reflexivity.
Qed.

Lemma scan_config m : printable m -> (Sscanf (minor_line (MigConfig m)) "config %d").1 = [SInt m].
Proof. unfold printable. intros Hm. cbn [minor_line]. rewrite <- (str_app_nil_r (itoa m)). scan_line. reflexivity. Qed.

Lemma scan_monitor m : printable m -> (Sscanf (minor_line (MigMonitor m)) "monitor %d").1 = [SInt m].
Proof. unfold printable. intros Hm. cbn [minor_line]. rewrite <- (str_app_nil_r (itoa m)). scan_line. reflexivity. Qed.

Lemma processLine_minor e : minor_ok e -> processLine (minor_line e) = inl (minor_path e, minor_of e).
Proof.
  intros He. unfold processLine. destruct e as [gpu gi m|gpu gi ci m|m|m]; cbn [minor_ok minor_path minor_of] in *.
  - destruct He as (Hg & Hi & Hm). by rewrite scan_gi_as_ci, scan_gi.
  - destruct He as (Hg & Hi & Hc & Hm). by rewrite scan_ci.
  - by rewrite scan_config.
  - by rewrite scan_monitor.
Qed.

(** ** The lines of a file *)
Lemma drop_CR_id s : has_char "013" s = false -> drop_CR s = s.
Proof.
  induction s as [|c s IH]; [done|]. cbn [has_char]. intros [Hc Hs]%orb_false_iff.
  destruct s as [|c' s]; cbn [drop_CR]; [by rewrite Hc|]. f_equal. by apply IH.
Qed.

Definition unlines (l : list string) : string := foldr (fun w s => w +:+ String NL s) "" l.

Definition line_ok (s : string) : Prop := has_char NL s = false /\ has_char "013" s = false.

Lemma scan_lines_unlines l : Forall line_ok l -> scan_lines (unlines l) = l.
Proof.
  intros Hl. unfold scan_lines.
  assert (drop_last_empty (split NL (unlines l)) = l) as ->.
  { induction Hl as [|w l [Hw _] Hl IH]; [done|]. cbn [unlines foldr]. fold (unlines l).
    rewrite split_app by done. destruct (split NL (unlines l)) as [|s ss] eqn:E; [by apply split_nonempty in E|].
    change (drop_last_empty (w :: s :: ss)) with (w :: drop_last_empty (s :: ss)). by rewrite IH. }
  induction Hl as [|w l [_ Hw] Hl IH]; [done|]. by rewrite fmap_cons, IH, drop_CR_id.
Qed.

Lemma minor_line_ok e : line_ok (minor_line e).
Proof.
  split; destruct e; cbn [minor_line]; rewrite ?has_char_app; rewrite ?itoa_has_char by done; done.
Qed.

(** The table of a file of distinct entries. *)
Lemma minors_table (es : list mig_minor) :
  Forall minor_ok es -> NoDup (minor_path <$> es) ->
  GetMigCapabilityDevicePaths (Content (unlines (minor_line <$> es)))
  = inl (list_to_map ((fun e => (minor_path e, cap_device (minor_of e))) <$> es)).
Proof.
  intros Hok Hnd. unfold GetMigCapabilityDevicePaths. f_equal.
  rewrite scan_lines_unlines by (apply Forall_fmap, Forall_true; intros e; apply minor_line_ok).
  rewrite foldl_fmap, <- foldl_insert_list_to_map by done. apply foldl_ext.
  intros m e He. rewrite Forall_forall in Hok. by rewrite processLine_minor by auto.
Qed.

Lemma minors_lookup (es : list mig_minor) e caps :
  Forall minor_ok es -> NoDup (minor_path <$> es) ->
  GetMigCapabilityDevicePaths (Content (unlines (minor_line <$> es))) = inl caps -> e ∈ es ->
  caps !! minor_path e = Some (cap_device (minor_of e)).
Proof.
  intros Hok Hnd. rewrite minors_table by done. intros [= <-] He. apply elem_of_list_to_map.
  - rewrite <- list_fmap_compose. exact Hnd.
  - apply list_elem_of_fmap. by exists e.
Qed.

(** ** A node to instantiate the properties *)

(** A configuration library in which only ["*"] is a pattern. *)
Definition star_lib : SpecLib := {|
  Matches p n := bool_decide (p = "*" \/ p = n)%string;
  IsUUID r := String.prefix "GPU-" r;
  IsGPUIndex r := bool_decide (r = "0" \/ r = "1")%string;
  IsMigIndex r := false;
  DefaultSharedRename n := (n +:+ ".shared")%string;
  AddMIGResource p n l := inl (l ++ [spec.mkResource p n]);
|}.

(** A library that visits the given devices. *)
Definition visiting (gpus : list Gpu) : DeviceLib := {|
  VisitDevices S f s := visit (fun x => f (Z.of_nat x.1) x.2) (imap pair gpus) s;
  VisitMigDevices S f s := (s, None);
  VisitMigProfiles S f s := (s, None);
|}.

Definition visiting_spec (gpus : list Gpu) : @DeviceLibSpec (visiting gpus).
Proof.
  refine {| Gpus := gpus; gpus_complete := true; Migs := []; migs_complete := true |}.
  - intros S f s. cbn. split; [done|]. naive_solver.
  - intros S f s. cbn. done.
Defined.

Definition demo_gpu (uuid : string) (minor : Z) : Gpu :=
  mkGpu (mkNvmlDevice (inl uuid) (inl minor) (inl [48; 0])) (inl "Tesla V100"%string) (inl false) (inl []).

Definition broken_gpu : Gpu :=
  mkGpu (mkNvmlDevice (inl "GPU-x"%string) (inl 7) (inl [48; 0])) (inr "GPU is lost"%string) (inl false) (inl []).

Definition no_file (p : string) : string + error := inr "no such file"%string.

Definition shared_gpus : DeviceConfig :=
  mkDeviceConfig "none" true [spec.mkResource "*" "nvidia.com/gpu"] [] false
    [spec.mkReplicatedResource "nvidia.com/gpu" "" (spec.mkReplicatedDevices true 0 []) 2] "nvidia.com/gpu".

Definition unshared_gpus : DeviceConfig :=
  mkDeviceConfig "none" true [spec.mkResource "*" "nvidia.com/gpu"] [] false [] "nvidia.com/gpu".

Definition demo_node : list Gpu := [demo_gpu "GPU-a" 0; demo_gpu "GPU-b" 1].
Definition lossy_node : list Gpu := [demo_gpu "GPU-a" 0; broken_gpu; demo_gpu "GPU-b" 1].

Lemma demo_uuids gpus cfg :
  gpus = demo_node \/ gpus = lossy_node -> cfg = shared_gpus \/ cfg = unshared_gpus ->
  @uuids_ok star_lib no_file false (visiting gpus) (visiting_spec gpus) cfg.
Proof.
  intros Hg Hc. split.
  - intros i j gi gj ni nj di dj Hi Hj Ei Ej Eid. destruct Hg as [->| ->], Hc as [->| ->]; cbn in Hi, Hj;
      destruct i as [|[|[|i]]]; destruct j as [|[|[|j]]]; cbn in *; simplify_eq; try done;
      vm_compute in Ei; vm_compute in Ej; simplify_eq; done.
  - intros i gi ni di Hi Ei. destruct Hg as [->| ->], Hc as [->| ->]; cbn in Hi;
      destruct i as [|[|[|i]]]; cbn in *; simplify_eq; vm_compute in Ei; by simplify_eq.
Qed.

Module NvidiaMapProps.
#[local] Existing Instance go_reference.

(** C19. The device map of a node without MIG: every GPU that NVML describes
    before the first failure is a device of its resource, and sharing
    replaces the selected devices of a resource by exactly [Replicas]
    devices each, numbered from 0 under the resource's (new) name, leaves
    the other devices of the resource and all other resources as they are,
    and adds nothing else. *)
Theorem resources_shared `{GoRuntime, SpecLib, DeviceLib, !DeviceLibSpec} ReadFile minors isWsl cfg :
  dc_MigStrategy cfg = spec.MigStrategyNone -> uuids_ok ReadFile isWsl cfg ->
  Forall (fun r => spec.rr_Replicas r <= max_i64) (dc_TimeSlicing cfg) ->
  (forall n r, dc_TimeSlicing cfg !! n = Some r ->
     exists ids, getIDsOfDevicesToReplicate (buildGPUDeviceMap ReadFile isWsl cfg) n r = inl ids) ->
  exists k result, NewDeviceMap ReadFile minors isWsl cfg = Ret (inl result)
    /\ (forall name key d, has result name key d
         <-> shared_devices cfg (buildGPUDeviceMap ReadFile isWsl cfg) name key d)
    /\ (forall name key d, has (buildGPUDeviceMap ReadFile isWsl cfg) name key d
         <-> gpu_listed ReadFile isWsl cfg k name key d)
    /\ (k = length Gpus \/ exists gpu, Gpus !! k = Some gpu /\ gpu_entry ReadFile isWsl cfg (Z.of_nat k) gpu = None).
Proof.
  intros Hs Hu Hr Hids. destruct (gpu_map_has ReadFile isWsl cfg Hu) as (k & _ & Hend & Hhas).
  destruct (update_shared cfg (buildGPUDeviceMap ReadFile isWsl cfg)) as (result & E & Hres);
    [by eapply gpu_map_ok|done|done|].
  exists k, result. unfold NewDeviceMap, buildDeviceMapFromConfigResources. rewrite decide_True by done.
  rewrite E. split_and!; done.
Qed.

Lemma resources_shared_witness :
  exists result, @NewDeviceMap no_file NotExist false _ star_lib (visiting demo_node) shared_gpus = Ret (inl result)
    /\ forall name key d, has result name key d
         <-> @shared_devices _ star_lib shared_gpus (@buildGPUDeviceMap no_file false star_lib (visiting demo_node) shared_gpus) name key d.
Proof.
  destruct (@resources_shared _ star_lib (visiting demo_node) (visiting_spec demo_node) no_file NotExist false shared_gpus)
    as (k & result & E & Hres & _ & _).
  - reflexivity.
  - apply demo_uuids; by left.
  - repeat constructor. vm_compute. done.
  - intros [|n] r Hr; [|by destruct n]. injection Hr as <-. eexists. vm_compute. reflexivity.
  - exists result. split; [exact E|exact Hres].
Defined.

(** A GPU that NVML cannot describe, or that no pattern matches, ends the
    construction without an error: this GPU and all GPUs after it are
    missing from the map, and the plugin starts with the ones before. *)
Theorem gpu_failure_hides_rest `{GoRuntime, SpecLib, DeviceLib, !DeviceLibSpec} ReadFile minors isWsl cfg k gpu :
  dc_MigStrategy cfg = spec.MigStrategyNone -> dc_TimeSlicing cfg = [] -> uuids_ok ReadFile isWsl cfg ->
  Gpus !! k = Some gpu -> gpu_entry ReadFile isWsl cfg (Z.of_nat k) gpu = None ->
  exists result, NewDeviceMap ReadFile minors isWsl cfg = Ret (inl result)
    /\ forall name key d, has result name key d -> exists i gpu', (i < k)%nat /\ Gpus !! i = Some gpu'
         /\ gpu_entry ReadFile isWsl cfg (Z.of_nat i) gpu' = Some [(name, d)].
Proof.
  intros Hs Ht Hu Hk Hf. destruct (gpu_map_has ReadFile isWsl cfg Hu) as (k0 & Hok & _ & Hhas).
  destruct (update_shared cfg (buildGPUDeviceMap ReadFile isWsl cfg)) as (result & E & Hres);
    [by eapply gpu_map_ok|by rewrite Ht|by rewrite Ht|].
  exists result. unfold NewDeviceMap, buildDeviceMapFromConfigResources. rewrite decide_True by done. rewrite E.
  split; [done|]. intros name key d [[_ Hh]|(n & r & ids & Hr & _)]%Hres; [|by rewrite Ht in Hr].
  apply Hhas in Hh as (i & gi & Hi & Eg & Ee & _). exists i, gi. split_and!; [|done|done].
  destruct (decide (k < k0)%nat) as [Hlt|]; [|lia]. destruct (Hok k gpu Hk Hlt) as [ws Ews]. congruence.
Qed.

Lemma gpu_failure_hides_rest_witness :
  exists result, @NewDeviceMap no_file NotExist false _ star_lib (visiting lossy_node) unshared_gpus = Ret (inl result)
    /\ forall name key d, has result name key d -> exists i gpu, (i < 1)%nat /\ lossy_node !! i = Some gpu
         /\ @gpu_entry star_lib no_file false unshared_gpus (Z.of_nat i) gpu = Some [(name, d)].
Proof.
  destruct (@gpu_failure_hides_rest _ star_lib (visiting lossy_node) (visiting_spec lossy_node) no_file NotExist false
    unshared_gpus 1%nat broken_gpu) as (result & E & Hres); [done|done|apply demo_uuids; by right|done|done|].
  exists result. split; [exact E|exact Hres].
Defined.

(** A MIG device is given the device files of its GPU instance and its
    compute instance: when the kernel's table of MIG minors lists their
    capabilities, each once, the plugin reads back exactly their minors. *)
Theorem mig_paths_found (es : list mig_minor) d parent gi ci minor gm cm :
  Forall minor_ok es -> NoDup (minor_path <$> es) ->
  mig_GpuInstanceId d = inl gi -> mig_ComputeInstanceId d = inl ci -> mig_Parent d = inl parent ->
  nd_MinorNumber parent = inl minor -> GiAccess minor gi gm ∈ es -> CiAccess minor gi ci cm ∈ es ->
  nvmlMigDevice_GetPaths (Content (unlines (minor_line <$> es))) d
  = inl ["/dev/nvidia" +:+ itoa minor; cap_device gm; cap_device cm]%string.
Proof.
  intros Hok Hnd Hgi Hci Hp Hm Hg Hc. unfold nvmlMigDevice_GetPaths.
  destruct (GetMigCapabilityDevicePaths _) as [caps|e] eqn:E; [|by rewrite minors_table in E].
  rewrite Hgi, Hci, Hp, Hm.
  pose proof (minors_lookup es _ caps Hok Hnd E Hg) as Eg. pose proof (minors_lookup es _ caps Hok Hnd E Hc) as Ec.
  cbn [minor_path minor_of] in Eg, Ec. by rewrite Eg, Ec.
Qed.

Definition demo_minors : list mig_minor := [MigConfig 1; MigMonitor 2; GiAccess 0 1 12; CiAccess 0 1 0 13].

Lemma mig_paths_found_witness :
  nvmlMigDevice_GetPaths (Content (unlines (minor_line <$> demo_minors)))
    (mkMigDevice (mkNvmlDevice (inl "MIG-1"%string) (inr "none"%string) (inr "none"%string)) (inl 1) (inl 0)
       (inl (mkNvmlDevice (inl "GPU-a"%string) (inl 0) (inl [48; 0]))) (inl "1g.5gb"%string) (inl []))
  = inl ["/dev/nvidia0"; "/dev/nvidia-caps/nvidia-cap12"; "/dev/nvidia-caps/nvidia-cap13"]%string.
Proof.
  apply (mig_paths_found demo_minors _ (mkNvmlDevice (inl "GPU-a"%string) (inl 0) (inl [48; 0])) 1 0 0 12 13);
    try reflexivity.
  - repeat constructor; vm_compute; done.
  - vm_compute. repeat constructor; set_solver.
  - do 2 right. by left.
  - do 3 right. by left.
Defined.
End NvidiaMapProps.
