(* ===== verification/NvidiaHealth.v ===== *)
(** * Health of the NVIDIA devices: [rm/health.go] and [ListAndWatch]

    [checkHealth] registers every device for NVML events and then waits for
    events for ever, sending the devices that became unhealthy over an
    unbuffered channel to [ListAndWatch], which marks them and sends the list
    to the kubelet again.  What NVML answers is a record; the events are the
    sequence of answers of [eventSet.Wait] until the plugin is stopped. *)

From Stdlib Require Import ZArith Lia Ascii String Sorted.
From stdpp Require Import base decidable option gmap strings numbers sorting list.
From S2P Require Import Prelude GoStrings GoScan GoTime GoRuntime Types Kube NodeLock Codec Devices Score Scheduler PodAlloc Nvidia.

#[local] Open Scope Z_scope.

(** ** NVML *)

(** [nvml.Return] of the registration of events. *)
Inductive register_ret := RegisterSuccess | RegisterNotSupported | RegisterError (e : error).

(** The calls made on the handle of a UUID. *)
Record HealthLib := mkHealthLib {
  hl_Handle : string -> bool;                 (* [DeviceGetHandleByUUID] succeeds *)
  hl_MigParent : string -> option error;      (* [GetDeviceHandleFromMigDeviceHandle] *)
  hl_MigParentUUID : string -> string + error;
  hl_MigGi : string -> Z + error;
  hl_MigCi : string -> Z + error;
  hl_SupportedEvents : string -> Z + error;
  hl_RegisterEvents : string -> Z -> register_ret;
}.

Definition EventTypeSingleBitEccError : Z := 1.
Definition EventTypeDoubleBitEccError : Z := 2.
Definition EventTypeXidCriticalError : Z := 8.

Record EventData := mkEventData {
  ev_UUID : string + error;     (* [e.Device.GetUUID()] *)
  ev_EventType : Z;
  ev_EventData : Z;
  ev_GpuInstanceId : Z;
  ev_ComputeInstanceId : Z;
}.

Inductive wait_result :=
| WaitTimeout
| WaitError (e : error)
| WaitEvent (e : EventData).

(** ** Placement *)

(** [strings.SplitN(s, "/", 3)] with all three parts, or [None]. *)
Definition split_three (s : string) : option (string * string * string) :=
  '(a, rest) ← cut "/" s; '(b, c) ← cut "/" rest; Some (a, b, c).

Definition mig_uuid_error : error := "Unable to parse UUID as MIG device".

Definition parseMigDeviceUUID (mig : string) : (string * Z * Z) + error :=
  match cut "-" mig with
  | Some (t0, t1) =>
      if decide (t0 <> "MIG"%string) then inr mig_uuid_error
      else match split_three t1 with
           | None => inr mig_uuid_error
           | Some (gpu, gis, cis) =>
               if negb (String.prefix "GPU-" gpu) then inr mig_uuid_error
               else match atoi gis with
                    | (_, Some _) => inr mig_uuid_error
                    | (gi, None) =>
                        match atoi cis with
                        | (_, Some _) => inr mig_uuid_error
                        | (ci, None) => inl (gpu, gi, ci)
                        end
                    end
           end
  | None => inr mig_uuid_error
  end.

(** [Device.GetUUID] *)
Definition GetUUID (d : rm.Device) : string := GetID (rm.ID d).

Section placement.
Context (lib : HealthLib).

Definition getMigDeviceParts (d : rm.Device) : (string * Z * Z) + error :=
  if negb (IsMigDevice d) then inr "cannot get GI and CI of full device"%string
  else
    let uuid := GetUUID d in
    if hl_Handle lib uuid then
      match hl_MigParent lib uuid with
      | Some ret => inr ("failed to get parent device handle: " +:+ ret)%string
      | None =>
          match hl_MigParentUUID lib uuid with
          | inr ret => inr ("failed to get parent uuid: " +:+ ret)%string
          | inl parentUUID =>
              match hl_MigGi lib uuid with
              | inr ret => inr ("failed to get GPU Instance ID: " +:+ ret)%string
              | inl gi =>
                  match hl_MigCi lib uuid with
                  | inr ret => inr ("failed to get Compute Instance ID: " +:+ ret)%string
                  | inl ci => inl (parentUUID, gi, ci)
                  end
              end
          end
      end
    else parseMigDeviceUUID uuid.

Definition NoInstance : Z := 4294967295.    (* 0xFFFFFFFF *)

Definition getDevicePlacement (d : rm.Device) : (string * Z * Z) + error :=
  if negb (IsMigDevice d) then inl (GetUUID d, NoInstance, NoInstance) else getMigDeviceParts d.

(** ** The health check *)

Fixpoint xids_loop (l : list string) : list Z :=
  match l with
  | [] => []
  | additionalXid :: l' =>
      let trimmed := trim_space additionalXid in
      if decide (trimmed = ""%string) then xids_loop l'
      else match parse_uint 10 64 trimmed with
           | (_, Some _) => xids_loop l'
           | (xid, None) => xid :: xids_loop l'
           end
  end.

Definition getAdditionalXids (input : string) : list Z :=
  if decide (input = ""%string) then [] else xids_loop (split "," input).

Definition applicationErrorXids : list Z := [13; 31; 43; 45; 68].

(** The tables of [checkHealth]. *)
Record health_tables := mkTables {
  ht_parent : gmap string rm.Device;   (* [parentToDeviceMap] *)
  ht_gi : gmap string Z;
  ht_ci : gmap string Z;
}.

Definition eventMask : Z :=
  Z.lor (Z.lor EventTypeXidCriticalError EventTypeDoubleBitEccError) EventTypeSingleBitEccError.

(** The registration of one device: the tables, and whether it is sent to
    the channel. *)
Definition register_health (t : health_tables) (d : rm.Device) : health_tables * bool :=
  match getDevicePlacement d with
  | inr _ => (t, true)
  | inl (uuid, gi, ci) =>
      let t := mkTables (<[uuid := d]> (ht_parent t)) (<[rm.ID d := gi]> (ht_gi t)) (<[rm.ID d := ci]> (ht_ci t)) in
      if negb (hl_Handle lib uuid) then (t, true)
      else match hl_SupportedEvents lib uuid with
           | inr _ => (t, true)
           | inl supportedEvents =>
               match hl_RegisterEvents lib uuid (Z.land eventMask supportedEvents) with
               | RegisterSuccess => (t, false)
               | _ => (t, true)
               end
           end
  end.

Fixpoint register_loop (t : health_tables) (l : list rm.Device) : health_tables * list rm.Device :=
  match l with
  | [] => (t, [])
  | d :: l' =>
      let '(t, sent) := register_health t d in
      let '(t, unhealthy) := register_loop t l' in
      (t, if sent : bool then d :: unhealthy else unhealthy)
  end.

Section loop.
Context `{GoRuntime} (devices : rmDevices) (skippedXids : list Z) (t : health_tables).

Definition in_u32 (z : Z) : Z := z mod 4294967296.

(** One turn of the loop: the devices sent to the channel; [n] counts the
    turns. *)
Definition health_event (n : nat) (w : wait_result) : list rm.Device :=
  match w with
  | WaitTimeout => []
  | WaitError _ => (range ("checkHealth"%string, S n) devices).*2
  | WaitEvent e =>
      if negb (ev_EventType e =? EventTypeXidCriticalError) then []
      else if bool_decide (ev_EventData e ∈ skippedXids) then []
      else match ev_UUID e with
           | inr _ => (range ("checkHealth"%string, S n) devices).*2
           | inl eventUUID =>
               match ht_parent t !! eventUUID with
               | None => []
               | Some d =>
                   if IsMigDevice d && negb (ev_GpuInstanceId e =? NoInstance)
                        && negb (ev_ComputeInstanceId e =? NoInstance) then
                     let gi := default 0 (ht_gi t !! rm.ID d) in
                     let ci := default 0 (ht_ci t !! rm.ID d) in
                     if (in_u32 gi =? ev_GpuInstanceId e) && (in_u32 ci =? ev_ComputeInstanceId e) then [d] else []
                   else [d]
               end
           end
  end.

Fixpoint health_loop (n : nat) (ws : list wait_result) : list rm.Device :=
  match ws with
  | [] => []
  | w :: ws' => health_event n w ++ health_loop (S n) ws'
  end.
End loop.
End placement.

(** The whole check: the devices sent, in order, until it is stopped or gives
    up; [env] is the value of DP_DISABLE_HEALTHCHECKS. *)
Definition checkHealth `{GoRuntime} (lib : HealthLib) (FailOnInitError : bool) (env : string) (Init EventSetCreate : option error)
    (devices : rmDevices) (ws : list wait_result) : list rm.Device * option error :=
  let disableHealthChecks := to_lower env in
  let disableHealthChecks := if decide (disableHealthChecks = "all"%string) then "xids"%string else disableHealthChecks in
  if contains disableHealthChecks "xids" then ([], None)
  else match Init with
       | Some ret => ([], if FailOnInitError then Some ("failed to initialize NVML: " +:+ ret)%string else None)
       | None =>
           let skippedXids := applicationErrorXids ++ getAdditionalXids disableHealthChecks in
           match EventSetCreate with
           | Some ret => ([], Some ("failed to create event set: " +:+ ret)%string)
           | None =>
               let '(t, unhealthy) := register_loop lib (mkTables ∅ ∅ ∅) (range ("checkHealth"%string, 0%nat) devices).*2 in
               (unhealthy ++ health_loop devices skippedXids t 0 ws, None)
           end
       end.

(** ** [ListAndWatch] of plugin/server.go *)
Section watch.
Context `{GoRuntime} (DeviceSplitCount : Z).

(** [d.Health = pluginapi.Unhealthy] through the pointer the map holds. *)
Definition mark_unhealthy (ds : rmDevices) (d : rm.Device) : rmDevices :=
  alter (fun d => rm.mkDevice (rm.ID d) pluginapi.Unhealthy (rm.Topology d) (rm.Paths d) (rm.Index d)) (rm.ID d) ds.

(** The lists sent to the kubelet for the devices received. *)
Fixpoint watch_loop (ds : rmDevices) (health : list rm.Device) : outcome (rmDevices * list (list pluginapi.Device)) :=
  match health with
  | [] => Ret (ds, [])
  | d :: health' =>
      let ds := mark_unhealthy ds d in
      sent ← GetPluginDevices DeviceSplitCount ds;
      '(ds, rest) ← watch_loop ds health';
      Ret (ds, sent :: rest)
  end.

Definition ListAndWatch (ds : rmDevices) (health : list rm.Device) : outcome (rmDevices * list (list pluginapi.Device)) :=
  sent ← GetPluginDevices DeviceSplitCount ds;
  '(ds, rest) ← watch_loop ds health;
  Ret (ds, sent :: rest).
End watch.

(** ** Placement read back *)
Lemma cut_app sep a b : has_char sep a = false -> cut sep (a +:+ String sep b) = Some (a, b).
Proof.
  induction a as [|c a IH]; cbn [has_char String.append cut].
  - intros _. by rewrite Ascii.eqb_refl.
  - intros [-> Ha]%orb_false_iff. by rewrite (IH Ha).
Qed.

(** ** The tables *)
Section tables.
Context (lib : HealthLib).

(** The card a device is on. *)
Definition parent_of (d : rm.Device) : option string :=
  match getDevicePlacement lib d with inl (uuid, _, _) => Some uuid | inr _ => None end.

Lemma register_health_parent t d uuid :
  ht_parent (register_health lib t d).1 !! uuid
  = if decide (parent_of d = Some uuid) then Some d else ht_parent t !! uuid.
Proof.
  unfold register_health, parent_of. destruct (getDevicePlacement lib d) as [[[u gi] ci]|]; [|done].
  assert (forall b t', ht_parent t' = <[u := d]> (ht_parent t) ->
    ht_parent (t', b : bool).1 !! uuid = if decide (Some u = Some uuid) then Some d else ht_parent t !! uuid) as Ht.
  { intros b t' E. cbn [fst]. rewrite E. destruct (decide (Some u = Some uuid)) as [[= ->]|Hne].
    - by rewrite lookup_insert_eq.
    - rewrite lookup_insert_ne; congruence. }
  destruct (negb _); [by apply Ht|]. destruct (hl_SupportedEvents lib u); [|by apply Ht].
  destruct (hl_RegisterEvents lib u _); by apply Ht.
Qed.

Lemma register_loop_cons t d l :
  (register_loop lib t (d :: l)).1 = (register_loop lib (register_health lib t d).1 l).1.
Proof.
  cbn [register_loop]. destruct (register_health lib t d) as [t' sent]. cbn [fst].
  by destruct (register_loop lib t' l).
Qed.

(** The table holds, for a card, a device that is placed on it: the last one
    registered. *)
Lemma register_loop_parent l : forall t uuid d,
  ht_parent (register_loop lib t l).1 !! uuid = Some d ->
  (d ∈ l /\ parent_of d = Some uuid) \/ (ht_parent t !! uuid = Some d /\ Forall (fun d' => parent_of d' <> Some uuid) l).
Proof.
  induction l as [|d0 l IH]; intros t uuid d E; [right; by split|].
  rewrite register_loop_cons in E. apply IH in E as [[Hin Hp]|[E Hl]]; [left; split; [by right|done]|].
  rewrite register_health_parent in E. case_decide as Hp; [injection E as ->; left; split; [by left|done]|].
  right. split; [done|]. by constructor.
Qed.

Lemma register_loop_known l : forall t uuid d,
  d ∈ l -> parent_of d = Some uuid -> is_Some (ht_parent (register_loop lib t l).1 !! uuid).
Proof.
  intros t uuid d Hin Hp. destruct (ht_parent _ !! uuid) eqn:E; [by eexists|]. exfalso. revert t E.
  induction l as [|d0 l IH]; intros t E; [by apply elem_of_nil in Hin|]. rewrite register_loop_cons in E.
  apply elem_of_cons in Hin as [<-|Hin]; [|by eapply IH].
  clear IH. assert (forall l t, is_Some (ht_parent t !! uuid) -> is_Some (ht_parent (register_loop lib t l).1 !! uuid)) as Hm.
  { clear. induction l as [|d l IH]; intros t Ht; [done|]. rewrite register_loop_cons. apply IH.
    rewrite register_health_parent. by case_decide; [eexists|]. }
  destruct (Hm l (register_health lib t d).1) as [d' E']; [|congruence].
  rewrite register_health_parent, decide_True by done. by eexists.
Qed.

(** The instances recorded for a device are those of its placement. *)
Lemma register_health_instances t d d' :
  rm.ID d' <> rm.ID d ->
  ht_gi (register_health lib t d).1 !! rm.ID d' = ht_gi t !! rm.ID d'
  /\ ht_ci (register_health lib t d).1 !! rm.ID d' = ht_ci t !! rm.ID d'.
Proof.
  intros Hne. unfold register_health. destruct (getDevicePlacement lib d) as [[[u gi] ci]|]; [|done].
  destruct (negb _); [|destruct (hl_SupportedEvents lib u); [destruct (hl_RegisterEvents lib u _)|]];
    cbn; by rewrite !lookup_insert_ne.
Qed.

Lemma register_loop_instances l : forall t d uuid gi ci,
  NoDup (rm.ID <$> l) -> d ∈ l -> getDevicePlacement lib d = inl (uuid, gi, ci) ->
  ht_gi (register_loop lib t l).1 !! rm.ID d = Some gi /\ ht_ci (register_loop lib t l).1 !! rm.ID d = Some ci.
Proof.
  induction l as [|d0 l IH]; intros t d uuid gi ci Hnd Hin Hp; [by apply elem_of_nil in Hin|].
  apply NoDup_cons in Hnd as [Hni Hnd]. rewrite register_loop_cons. apply elem_of_cons in Hin as [->|Hin]; [|by eapply IH].
  clear IH. assert (forall l t, rm.ID d0 ∉ rm.ID <$> l ->
    ht_gi (register_loop lib t l).1 !! rm.ID d0 = ht_gi t !! rm.ID d0
    /\ ht_ci (register_loop lib t l).1 !! rm.ID d0 = ht_ci t !! rm.ID d0) as Hk.
  { clear. induction l as [|d l IH]; intros t Hni; [done|]. rewrite register_loop_cons.
    rewrite fmap_cons, not_elem_of_cons in Hni. destruct Hni as [Hne Hni]. destruct (IH (register_health lib t d).1 Hni) as [-> ->].
    by apply register_health_instances. }
  destruct (Hk l (register_health lib t d0).1 Hni) as [-> ->]. unfold register_health. rewrite Hp.
  destruct (negb _); [|destruct (hl_SupportedEvents lib uuid); [destruct (hl_RegisterEvents lib uuid _)|]];
    cbn; by rewrite !lookup_insert_eq.
Qed.
End tables.

(** ** Events *)

(** The event concerns the device: a critical error that is not ignored, on
    the card of the device and, for a MIG device, on its instance or on no
    instance in particular. *)
Definition affected (lib : HealthLib) (skippedXids : list Z) (e : EventData) (d : rm.Device) : Prop :=
  ev_EventType e = EventTypeXidCriticalError /\ (ev_EventData e ∉ skippedXids) /\
  exists uuid gi ci, ev_UUID e = inl uuid /\ getDevicePlacement lib d = inl (uuid, gi, ci)
    /\ (IsMigDevice d = true -> ev_GpuInstanceId e <> NoInstance -> ev_ComputeInstanceId e <> NoInstance ->
        in_u32 gi = ev_GpuInstanceId e /\ in_u32 ci = ev_ComputeInstanceId e).

Section events.
Context `{GoRuntime} (lib : HealthLib) (devices : rmDevices) (skippedXids : list Z).

(** The devices and the tables once they are registered. *)
Definition device_list : list rm.Device := (range ("checkHealth"%string, 0%nat) devices).*2.
Definition registered : health_tables := (register_loop lib (mkTables ∅ ∅ ∅) device_list).1.

Definition keyed_by_ID : Prop := forall k d, devices !! k = Some d -> rm.ID d = k.

Lemma device_list_elem d : keyed_by_ID -> d ∈ device_list <-> devices !! rm.ID d = Some d.
Proof.
  intros Hk. unfold device_list. rewrite list_elem_of_fmap. split.
  - intros ([k d'] & -> & Hin). apply elem_of_range in Hin. cbn [snd]. by rewrite (Hk k d').
  - intros E. exists (rm.ID d, d). split; [done|]. by apply elem_of_range.
Qed.

Lemma device_list_NoDup : keyed_by_ID -> NoDup (rm.ID <$> device_list).
Proof.
  intros Hk. unfold device_list. rewrite <- list_fmap_compose.
  rewrite (list_fmap_ext _ fst); [apply range_NoDup|]. intros i [k d] Hi. cbn.
  apply list_elem_of_lookup_2, elem_of_range in Hi. by apply Hk.
Qed.

(** An event on a known card is for one device at most: the one the table
    holds, and only when the event concerns it. *)
Lemma health_event_elem n e uuid d :
  keyed_by_ID -> ev_UUID e = inl uuid ->
  d ∈ health_event devices skippedXids registered n (WaitEvent e) <->
  ht_parent registered !! uuid = Some d /\ affected lib skippedXids e d.
Proof.
  intros Hk Hu. unfold health_event. rewrite Hu.
  assert (forall d0, ht_parent registered !! uuid = Some d0 ->
    exists gi ci, getDevicePlacement lib d0 = inl (uuid, gi, ci)
      /\ ht_gi registered !! rm.ID d0 = Some gi /\ ht_ci registered !! rm.ID d0 = Some ci) as Hreg.
  { intros d0 E. apply register_loop_parent in E as [[Hin Hp]|[E _]]; [|cbn in E; by rewrite lookup_empty in E].
    unfold parent_of in Hp. destruct (getDevicePlacement lib d0) as [[[u gi] ci]|] eqn:Ep; [|done]. injection Hp as ->.
    exists gi, ci. split; [done|]. eapply register_loop_instances; [by apply device_list_NoDup|done|exact Ep]. }
  unfold affected. rewrite Hu. destruct (Z.eqb_spec (ev_EventType e) EventTypeXidCriticalError) as [->|Hty]; cbn [negb].
  2:{ split; [by intros ?%elem_of_nil|naive_solver]. }
  case_bool_decide as Hsk; [split; [by intros ?%elem_of_nil|naive_solver]|].
  destruct (ht_parent registered !! uuid) as [d0|] eqn:Ep; [|split; [by intros ?%elem_of_nil|naive_solver]].
  destruct (Hreg d0 eq_refl) as (gi & ci & Epl & Egi & Eci). rewrite Egi, Eci. cbn [default Datatypes.id].
  assert (forall P : Prop, (P <-> (IsMigDevice d0 = true -> ev_GpuInstanceId e <> NoInstance ->
      ev_ComputeInstanceId e <> NoInstance -> in_u32 gi = ev_GpuInstanceId e /\ in_u32 ci = ev_ComputeInstanceId e)) ->
    ((d = d0 /\ P) <-> Some d0 = Some d /\ EventTypeXidCriticalError = EventTypeXidCriticalError /\ (ev_EventData e ∉ skippedXids) /\
      exists uuid0 gi0 ci0, inl uuid = (inl uuid0 : string + error) /\ getDevicePlacement lib d = inl (uuid0, gi0, ci0)
        /\ (IsMigDevice d = true -> ev_GpuInstanceId e <> NoInstance -> ev_ComputeInstanceId e <> NoInstance ->
            in_u32 gi0 = ev_GpuInstanceId e /\ in_u32 ci0 = ev_ComputeInstanceId e))) as Hiff.
  { intros P HP. split.
    - intros [-> Hp]. split_and!; try done. exists uuid, gi, ci. split_and!; [done|done|by apply HP].
    - intros ([= ->] & _ & _ & u0 & gi0 & ci0 & _ & E & Hm). rewrite Epl in E. injection E as <- <- <-.
      split; [done|by apply HP]. }
  destruct (IsMigDevice d0 && _ && _) eqn:Em.
  - apply andb_true_iff in Em as [[Hmig Hgi%negb_true_iff%Z.eqb_neq]%andb_true_iff Hci%negb_true_iff%Z.eqb_neq].
    destruct (_ && _) eqn:Ei; bool_to_prop.
    + rewrite list_elem_of_singleton, <- (Hiff True); [tauto|]. split; [done|]. done.
    + rewrite <- (Hiff False); [|]. { split; [by intros ?%elem_of_nil|tauto]. }
      split; [done|]. intros Hm. destruct (Hm Hmig Hgi Hci) as [E1 E2]. destruct Ei as [Ei|Ei]; bool_to_prop; congruence.
  - rewrite list_elem_of_singleton, <- (Hiff True); [tauto|]. split; [|done]. intros _ H1 H2 H3. exfalso.
    apply andb_false_iff in Em as [Em|Em]; [apply andb_false_iff in Em as [Em|Em]|]; bool_to_prop; congruence.
Qed.
End events.

(** ** What the kubelet is told *)
Section watch_facts.
Context `{GoRuntime} (DeviceSplitCount : Z).

Definition unhealthy_if (b : bool) (d : rm.Device) : rm.Device :=
  if b then rm.mkDevice (rm.ID d) pluginapi.Unhealthy (rm.Topology d) (rm.Paths d) (rm.Index d) else d.

(** The marks accumulate and nothing else changes. *)
Lemma marked_lookup h : forall (ds : rmDevices) id,
  foldl mark_unhealthy ds h !! id = unhealthy_if (bool_decide (id ∈ rm.ID <$> h)) <$> ds !! id.
Proof.
  induction h as [|d h IH]; intros ds id; cbn [foldl].
  { rewrite bool_decide_false by (rewrite fmap_nil; apply not_elem_of_nil). by destruct (ds !! id). }
  rewrite IH. unfold mark_unhealthy. rewrite fmap_cons. destruct (decide (rm.ID d = id)) as [<-|Hne].
  - rewrite lookup_alter_eq. rewrite (bool_decide_true (rm.ID d ∈ rm.ID d :: _)) by by left.
    destruct (ds !! rm.ID d) as [d0|]; cbn; [|done]. by case_bool_decide.
  - rewrite lookup_alter_ne by done. do 2 f_equal. apply bool_decide_ext. rewrite elem_of_cons. naive_solver.
Qed.

Lemma GetPluginDevices_returns (ds : rmDevices) : ds <> ∅ -> returns (GetPluginDevices DeviceSplitCount ds).
Proof.
  intros Hne. unfold GetPluginDevices, slice_get, returns.
  destruct (GetIDs _ ds !! 0%nat) eqn:E; [by eexists|]. exfalso. apply lookup_ge_None in E. unfold GetIDs in E.
  rewrite length_fmap, length_range in E. apply Hne, map_size_empty_inv. lia.
Qed.

Lemma mark_nonempty (ds : rmDevices) d : ds <> ∅ -> mark_unhealthy ds d <> ∅.
Proof.
  intros Hne E. apply Hne, map_eq. intros k. rewrite lookup_empty.
  apply (f_equal (lookup k)) in E. rewrite lookup_empty in E. unfold mark_unhealthy in E.
  rewrite lookup_alter in E. case_decide; [subst|done]. by destruct (ds !! rm.ID d).
Qed.

(** Every list sent shows the devices received so far as unhealthy. *)
Lemma watch_loop_lists h : forall ds : rmDevices,
  ds <> ∅ -> exists lists, watch_loop DeviceSplitCount ds h = Ret (foldl mark_unhealthy ds h, lists)
    /\ length lists = length h
    /\ forall i l, lists !! i = Some l -> GetPluginDevices DeviceSplitCount (foldl mark_unhealthy ds (take (S i) h)) = Ret l.
Proof.
  induction h as [|d h IH]; intros ds Hne; cbn [watch_loop foldl]; [by exists []|].
  destruct (GetPluginDevices_returns _ (mark_nonempty ds d Hne)) as [sent Es]. rewrite Es. cbn [mbind outcome_bind].
  destruct (IH _ (mark_nonempty ds d Hne)) as (lists & -> & Hlen & Hl). exists (sent :: lists). split_and!; [done|cbn; lia|].
  intros [|i] l E; cbn in E; [injection E as <-; exact Es|]. by apply Hl in E.
Qed.

Lemma ListAndWatch_lists (ds : rmDevices) h :
  ds <> ∅ -> exists lists, ListAndWatch DeviceSplitCount ds h = Ret (foldl mark_unhealthy ds h, lists)
    /\ length lists = S (length h)
    /\ forall i l, lists !! i = Some l -> GetPluginDevices DeviceSplitCount (foldl mark_unhealthy ds (take i h)) = Ret l.
Proof.
  intros Hne. unfold ListAndWatch. destruct (GetPluginDevices_returns ds Hne) as [sent Es]. rewrite Es. cbn [mbind outcome_bind].
  destruct (watch_loop_lists h ds Hne) as (lists & -> & Hlen & Hl). exists (sent :: lists). split_and!; [done|cbn; lia|].
  intros [|i] l E; cbn in E; [injection E as <-; exact Es|]. by apply Hl.
Qed.

(** A device of a node without MIG devices is offered [DeviceSplitCount]
    times, with its health. *)
Lemma plugin_devices_elem (ds : rmDevices) id d j l :
  (forall k d, ds !! k = Some d -> contains (rm.ID d) "MIG" = false) ->
  GetPluginDevices DeviceSplitCount ds = Ret l -> ds !! id = Some d -> 0 <= j < DeviceSplitCount ->
  pluginapi.mkDevice (rm.ID d +:+ "-" +:+ itoa j) (rm.Health d) ∈ l.
Proof.
  intros Hmig E Hd Hj. unfold GetPluginDevices in E. apply bind_Ret_inv in E as (first & Ef & E).
  apply slice_get_Ret in Ef. unfold GetIDs in Ef. rewrite list_lookup_fmap in Ef.
  destruct (range _ ds !! 0%nat) as [[k0 d0]|] eqn:Er; [|done]. injection Ef as <-.
  apply list_elem_of_lookup_2, elem_of_range in Er. cbn [snd] in E. rewrite (Hmig k0 d0 Er) in E. cbn [negb] in E.
  injection E as <-. apply elem_of_concat. eexists. split; [|apply list_elem_of_fmap; exists d; split; [reflexivity|]].
  - apply list_elem_of_fmap. exists (Z.to_nat j). split; [by rewrite Z2Nat.id by lia|]. apply elem_of_seq. lia.
  - apply list_elem_of_fmap. exists (id, d). split; [done|]. by apply elem_of_range.
Qed.

(** A device that was received is unhealthy in the last list. *)
Lemma marked_shown (ds : rmDevices) h d :
  keyed_by_ID ds -> (forall k d, ds !! k = Some d -> contains (rm.ID d) "MIG" = false) ->
  d ∈ device_list ds -> d ∈ h ->
  exists ds' lists shown, ListAndWatch DeviceSplitCount ds h = Ret (ds', lists) /\ last lists = Some shown
    /\ forall j, 0 <= j < DeviceSplitCount -> pluginapi.mkDevice (rm.ID d +:+ "-" +:+ itoa j) pluginapi.Unhealthy ∈ shown.
Proof.
  intros Hk Hnm Hin Hh. apply device_list_elem in Hin; [|done].
  destruct (ListAndWatch_lists ds h) as (lists & E & Hlen & Hl); [intros ->; by rewrite lookup_empty in Hin|].
  destruct (last lists) as [shown|] eqn:El; [|apply last_None in El; subst; cbn in Hlen; lia].
  exists (foldl mark_unhealthy ds h), lists, shown. split_and!; [done|done|]. intros j Hj.
  rewrite last_lookup, Hlen in El. apply Hl in El. cbn [Nat.pred] in El. rewrite firstn_all in El.
  assert (foldl mark_unhealthy ds h !! rm.ID d = Some (unhealthy_if true d)) as Ed.
  { rewrite marked_lookup, Hin, bool_decide_true; [done|]. apply list_elem_of_fmap. by exists d. }
  apply (plugin_devices_elem (foldl mark_unhealthy ds h) (rm.ID d) (unhealthy_if true d) j shown); [|done|done|done].
  intros k d1. rewrite marked_lookup. destruct (ds !! k) as [d2|] eqn:E2; [|done]. intros [= <-].
  by destruct (bool_decide _); apply (Hnm k d2).
Qed.
End watch_facts.

Module NvidiaHealthProps.
#[local] Existing Instance go_reference.

(** The event loop of the health check is right for a node on which every
    card carries one device: an event of a known card is passed on for
    exactly the devices it concerns, that is for the device of the card when
    the event is a critical Xid that is not ignored and, for a MIG device,
    is about its instance. *)
Theorem health_event_refines `{GoRuntime} lib devices skippedXids n e uuid d :
  keyed_by_ID devices ->
  (forall d1 d2 u, d1 ∈ device_list devices -> d2 ∈ device_list devices ->
     parent_of lib d1 = Some u -> parent_of lib d2 = Some u -> d1 = d2) ->
  ev_UUID e = inl uuid ->
  d ∈ health_event devices skippedXids (registered lib devices) n (WaitEvent e)
  <-> d ∈ device_list devices /\ affected lib skippedXids e d.
Proof.
  intros Hk Hone Hu. rewrite (health_event_elem lib devices skippedXids n e uuid d Hk Hu). split; intros [H1 H2]; (split; [|done]).
  - apply register_loop_parent in H1 as [[Hin _]|[E _]]; [done|cbn in E; by rewrite lookup_empty in E].
  - destruct H2 as (_ & _ & u & gi & ci & Eu & Ep & _). rewrite Hu in Eu. injection Eu as <-.
    assert (parent_of lib d = Some uuid) as Hp by (unfold parent_of; by rewrite Ep).
    destruct (register_loop_known lib (device_list devices) (mkTables ∅ ∅ ∅) uuid d H1 Hp) as [d' E].
    unfold registered. rewrite E. apply register_loop_parent in E as [[Hin Hp']|[E _]]; [|cbn in E; by rewrite lookup_empty in E].
    f_equal. symmetry. by eapply Hone.
Qed.

(** Two full GPUs and an NVML that knows them. *)
Definition two_cards : rmDevices :=
  {["GPU-a" := rm.mkDevice "GPU-a" pluginapi.Healthy None [] "0"; "GPU-b" := rm.mkDevice "GPU-b" pluginapi.Healthy None [] "1"]}.

Definition working_lib : HealthLib :=
  mkHealthLib (fun _ => true) (fun _ => Some "not a MIG device"%string) (fun _ => inr ""%string) (fun _ => inr ""%string)
    (fun _ => inr ""%string) (fun _ => inl 11) (fun _ _ => RegisterSuccess).

Definition xid_on (uuid : string) (xid : Z) : EventData :=
  mkEventData (inl uuid) EventTypeXidCriticalError xid NoInstance NoInstance.

Lemma two_cards_keyed : keyed_by_ID two_cards.
Proof.
  intros k d E. unfold two_cards in E. apply lookup_insert_Some in E as [[<- <-]|[_ E]]; [done|].
  apply lookup_singleton_Some in E as [<- <-]. done.
Qed.

Lemma health_event_refines_witness :
  rm.mkDevice "GPU-b" pluginapi.Healthy None [] "1"
    ∈ health_event two_cards applicationErrorXids (registered working_lib two_cards) 0 (WaitEvent (xid_on "GPU-b" 79)).
Proof.
  apply (health_event_refines working_lib two_cards applicationErrorXids 0 (xid_on "GPU-b" 79) "GPU-b").
  - apply two_cards_keyed.
  - assert (device_list two_cards = [rm.mkDevice "GPU-a" pluginapi.Healthy None [] "0"; rm.mkDevice "GPU-b" pluginapi.Healthy None [] "1"]) as ->
      by (vm_compute; reflexivity).
    intros d1 d2 u H1 H2. set_unfold. destruct H1 as [->|[->|[]]], H2 as [->|[->|[]]]; vm_compute; congruence.
  - reflexivity.
  - split; [by vm_compute; right; left|]. split; [done|]. split; [apply (bool_decide_unpack _); by vm_compute|].
    exists "GPU-b"%string, NoInstance, NoInstance. split_and!; [done|vm_compute; done|]. intros Hm. by vm_compute in Hm.
Defined.

(** C20. A critical error reaches the kubelet, on a node without MIG devices:
    when NVML reports a critical Xid that is not ignored for a card, the
    health check sends a device of that card, and in the last list the kubelet
    is sent every virtual device of that device is unhealthy.  When the card
    carries one device only, that is the device; of several devices on one
    card, replicas of a GPU, an event is passed on for one only
    ([siblings_not_all_marked]), so the theorem says that one of them is
    marked.  NVML initialises, the event set is created, the environment does
    not disable the Xid checks, and the device table is keyed by the
    identifiers of its devices. *)
Theorem xid_reaches_kubelet `{GoRuntime} lib env devices ws e d0 split FailOnInitError :
  keyed_by_ID devices ->
  (forall k d, devices !! k = Some d -> contains (rm.ID d) "MIG" = false /\ IsMigDevice d = false) ->
  contains (to_lower env) "xids" = false -> to_lower env <> "all"%string ->
  d0 ∈ device_list devices -> WaitEvent e ∈ ws ->
  ev_UUID e = inl (GetUUID d0) -> ev_EventType e = EventTypeXidCriticalError ->
  ev_EventData e ∉ applicationErrorXids ++ getAdditionalXids (to_lower env) ->
  exists sent d, checkHealth lib FailOnInitError env None None devices ws = (sent, None) /\ d ∈ sent
    /\ d ∈ device_list devices /\ GetUUID d = GetUUID d0
    /\ exists ds lists shown, ListAndWatch split devices sent = Ret (ds, lists) /\ last lists = Some shown
       /\ forall j, 0 <= j < split -> pluginapi.mkDevice (rm.ID d +:+ "-" +:+ itoa j) pluginapi.Unhealthy ∈ shown.
Proof.
  intros Hk Hnm Hd Hall Hin0 Hw Hu Hty Hsk. unfold checkHealth. rewrite decide_False, Hd by done.
  fold (device_list devices). destruct (register_loop lib (mkTables ∅ ∅ ∅) (device_list devices)) as [t unh] eqn:Er.
  assert (forall d, d ∈ device_list devices -> getDevicePlacement lib d = inl (GetUUID d, NoInstance, NoInstance)) as Hpl.
  { intros d Hin. apply device_list_elem in Hin; [|done]. unfold getDevicePlacement. by rewrite (proj2 (Hnm _ _ Hin)). }
  destruct (register_loop_known lib (device_list devices) (mkTables ∅ ∅ ∅) (GetUUID d0) d0 Hin0) as [d Ed];
    [unfold parent_of; by rewrite Hpl|].
  pose proof Ed as Ed'. apply register_loop_parent in Ed' as [[Hin Hp]|[E _]]; [|cbn in E; by rewrite lookup_empty in E].
  unfold parent_of in Hp. rewrite (Hpl d Hin) in Hp. injection Hp as Huuid.
  eexists. exists d. split; [reflexivity|].
  assert (t = registered lib devices) as -> by (unfold registered; by rewrite Er).
  assert (d ∈ unh ++ health_loop devices (applicationErrorXids ++ getAdditionalXids (to_lower env)) (registered lib devices) 0 ws) as Hsent.
  { apply elem_of_app. right. generalize 0%nat as n. induction ws as [|w ws IH]; intros n; [by apply elem_of_nil in Hw|].
    cbn [health_loop]. apply elem_of_app. apply elem_of_cons in Hw as [<-|Hw]; [left|right; by apply IH].
    apply (health_event_elem lib devices _ n e (GetUUID d0) d Hk Hu). split; [exact Ed|]. split_and!; [done|done|].
    exists (GetUUID d0), NoInstance, NoInstance. rewrite <- Huuid. split_and!; [congruence|by apply Hpl|].
    apply device_list_elem in Hin; [|done]. rewrite (proj2 (Hnm _ _ Hin)). done. }
  split_and!; [exact Hsent|done|done|]. set (sent := unh ++ _) in *. clearbody sent.
  apply marked_shown; [done|by intros k d1 [? _]%Hnm|done|done].
Qed.

Lemma xid_reaches_kubelet_witness :
  exists sent d, checkHealth working_lib true "" None None two_cards [WaitTimeout; WaitEvent (xid_on "GPU-b" 79)] = (sent, None)
    /\ d ∈ sent /\ GetUUID d = "GPU-b"%string.
Proof.
  assert (device_list two_cards = [rm.mkDevice "GPU-a" pluginapi.Healthy None [] "0"; rm.mkDevice "GPU-b" pluginapi.Healthy None [] "1"]) as Hl
    by (vm_compute; reflexivity).
  destruct (xid_reaches_kubelet working_lib "" two_cards [WaitTimeout; WaitEvent (xid_on "GPU-b" 79)] (xid_on "GPU-b" 79)
    (rm.mkDevice "GPU-b" pluginapi.Healthy None [] "1") 2 true) as (sent & d & E & Hin & _ & Hu & _).
  - apply two_cards_keyed.
  - intros k d Hd. unfold two_cards in Hd. apply lookup_insert_Some in Hd as [[<- <-]|[_ Hd]]; [split; vm_compute; reflexivity|].
    apply lookup_singleton_Some in Hd as [<- <-]. split; vm_compute; reflexivity.
  - reflexivity.
  - done.
  - rewrite Hl. by right; left.
  - by right; left.
  - reflexivity.
  - reflexivity.
  - apply (bool_decide_unpack _). by vm_compute.
  - exists sent, d. split; [exact E|]. split; [exact Hin|exact Hu].
Defined.

(** Devices that share a card are not all marked: of two devices on the
    same card, replicas of a GPU or MIG devices of one GPU, an event of the
    card is passed on for one at most, also when it concerns both. *)
Theorem siblings_not_all_marked `{GoRuntime} lib devices skippedXids n e uuid d1 d2 :
  keyed_by_ID devices -> ev_UUID e = inl uuid -> d1 <> d2 ->
  ~ (d1 ∈ health_event devices skippedXids (registered lib devices) n (WaitEvent e)
     /\ d2 ∈ health_event devices skippedXids (registered lib devices) n (WaitEvent e)).
Proof.
  intros Hk Hu Hne [H1 H2]. apply (health_event_elem lib devices skippedXids n e uuid _ Hk Hu) in H1 as [E1 _], H2 as [E2 _].
  congruence.
Qed.

Definition replicas_of_a : rmDevices :=
  {["GPU-a::0" := rm.mkDevice "GPU-a::0" pluginapi.Healthy None [] "0"; "GPU-a::1" := rm.mkDevice "GPU-a::1" pluginapi.Healthy None [] "0"]}.

Lemma siblings_not_all_marked_witness :
  let d0 := rm.mkDevice "GPU-a::0" pluginapi.Healthy None [] "0" in
  let d1 := rm.mkDevice "GPU-a::1" pluginapi.Healthy None [] "0" in
  affected working_lib applicationErrorXids (xid_on "GPU-a" 79) d0 /\ affected working_lib applicationErrorXids (xid_on "GPU-a" 79) d1
  /\ ~ (d0 ∈ health_event replicas_of_a applicationErrorXids (registered working_lib replicas_of_a) 0 (WaitEvent (xid_on "GPU-a" 79))
        /\ d1 ∈ health_event replicas_of_a applicationErrorXids (registered working_lib replicas_of_a) 0 (WaitEvent (xid_on "GPU-a" 79))).
Proof.
  intros d0 d1. split; [|split].
  - split; [done|]. split; [apply (bool_decide_unpack _); by vm_compute|]. exists "GPU-a"%string, NoInstance, NoInstance. split_and!; [done|vm_compute; done|].
    intros Hm. by vm_compute in Hm.
  - split; [done|]. split; [apply (bool_decide_unpack _); by vm_compute|]. exists "GPU-a"%string, NoInstance, NoInstance. split_and!; [done|vm_compute; done|].
    intros Hm. by vm_compute in Hm.
  - apply (siblings_not_all_marked working_lib replicas_of_a applicationErrorXids 0 (xid_on "GPU-a" 79) "GPU-a" d0 d1); [|done|done].
    intros k d E. unfold replicas_of_a in E. apply lookup_insert_Some in E as [[<- <-]|[_ E]]; [done|].
    apply lookup_singleton_Some in E as [<- <-]. done.
Defined.

(** The older UUID of a MIG device, written from the UUID of its GPU and
    its instances, is read back as these. *)
Theorem mig_uuid_roundtrip gpu gi ci :
  String.prefix "GPU-" gpu = true -> has_char "/" gpu = false -> in_i64 gi -> in_i64 ci ->
  parseMigDeviceUUID ("MIG-" +:+ gpu +:+ "/" +:+ itoa gi +:+ "/" +:+ itoa ci) = inl (gpu, gi, ci).
Proof.
  unfold in_i64, min_i64, max_i64. intros Hp Hs Hgi Hci. unfold parseMigDeviceUUID.
  change ("MIG-" +:+ gpu +:+ "/" +:+ itoa gi +:+ "/" +:+ itoa ci)%string
    with ("MIG" +:+ String "-" (gpu +:+ String "/" (itoa gi +:+ String "/" (itoa ci))))%string.
  rewrite cut_app by done. rewrite decide_False by tauto. unfold split_three.
  rewrite cut_app by done. cbn [mbind option_bind].
  rewrite cut_app by by apply itoa_has_char. cbn [mbind option_bind]. rewrite Hp. cbn [negb]. unfold atoi.
  by rewrite !parse_int_itoa by lia.
Qed.

Lemma mig_uuid_roundtrip_witness : parseMigDeviceUUID "MIG-GPU-b8ea3855/7/0" = inl ("GPU-b8ea3855"%string, 7, 0).
Proof. apply (mig_uuid_roundtrip "GPU-b8ea3855" 7 0); [reflexivity|reflexivity|unfold in_i64, min_i64, max_i64; lia..]. Defined.
End NvidiaHealthProps.
