(* ===== verification/NvidiaMain.v ===== *)
(** * The NVIDIA device plugin as a process: [cmd/device-plugin/nvidia]

    The configuration of the node ([vgpucfg.go]: command line flags, then the
    entries of the configuration file), the choice of a plugin manager
    ([plugin/manager]), the life of a plugin and its gRPC server
    ([plugin/server.go]), the loop that starts and restarts the plugins
    ([main.go]), and the registration of the cards in the annotations of the
    node ([plugin/register.go]).

    The options [util.DeviceMemoryScaling] and its like are pointers.  A
    pointer made from a flag points to a value of its own; a pointer made by
    [readFromConfigFile] points into the variable of its loop, which in the
    language version of go.mod (1.21) is one variable for the whole loop.
    The loop variables live in a store. *)

From Stdlib Require Import ZArith Lia Ascii String Sorted.
From stdpp Require Import base decidable option gmap strings numbers sorting list.
From S2P Require Import Prelude GoStrings GoScan GoTime GoRuntime Types Kube NodeLock Codec Devices Score Scheduler PodAlloc Nvidia NvidiaMap.

#[local] Open Scope Z_scope.

(** ** vgpucfg.go *)

(** An entry of [DevicePluginConfigs.Nodeconfig], with the fields the plugin
    reads. *)
Record Nodeconfig := mkNodeconfig {
  cfg_Name : string;
  cfg_Devicememoryscaling : float64;
  cfg_Devicecorescaling : float64;
  cfg_Devicesplitcount : Z;
}.

(** A pointer to an option: to a value of its own, or to the field of a loop
    variable. *)
Inductive ptr (A : Type) :=
| Fresh (a : A)
| LoopVar (l : nat).
Arguments Fresh {A} a.
Arguments LoopVar {A} l.

Record Globals := mkGlobals {
  g_store : list Nodeconfig;           (* the loop variables *)
  g_DeviceSplitCount : option (ptr Z);
  g_DeviceMemoryScaling : option (ptr float64);
  g_DeviceCoresScaling : option (ptr float64);
  g_DisableCoreLimit : option (ptr bool);
  g_NodeName : string;
}.

(** [*p]: a nil pointer panics. *)
Definition deref_opt {A} (field : Nodeconfig -> A) (g : Globals) (p : option (ptr A)) : outcome A :=
  match p with
  | None => Panic NilDereference
  | Some (Fresh a) => Ret a
  | Some (LoopVar l) => match g_store g !! l with Some v => Ret (field v) | None => Panic NilDereference end
  end.

Definition DeviceMemoryScaling (g : Globals) : outcome float64 := deref_opt cfg_Devicememoryscaling g (g_DeviceMemoryScaling g).
Definition DeviceCoresScaling (g : Globals) : outcome float64 := deref_opt cfg_Devicecorescaling g (g_DeviceCoresScaling g).
Definition DeviceSplitCount (g : Globals) : outcome Z := deref_opt cfg_Devicesplitcount g (g_DeviceSplitCount g).

(** One iteration of [readFromConfigFile]: the loop variable [l] takes the
    entry; a matching entry makes the options point into it. *)
Definition read_entry (NodeName : string) (l : nat) (g : Globals) (val : Nodeconfig) : Globals :=
  let store := <[l := val]> (g_store g) in
  if decide (NodeName = cfg_Name val) then
    mkGlobals store
      (if 0 <? cfg_Devicesplitcount val then Some (LoopVar l) else g_DeviceSplitCount g)
      (if f64_ltb f64_zero (cfg_Devicememoryscaling val) then Some (LoopVar l) else g_DeviceMemoryScaling g)
      (if f64_ltb f64_zero (cfg_Devicecorescaling val) then Some (LoopVar l) else g_DeviceCoresScaling g)
      (g_DisableCoreLimit g) (g_NodeName g)
  else mkGlobals store (g_DeviceSplitCount g) (g_DeviceMemoryScaling g) (g_DeviceCoresScaling g)
         (g_DisableCoreLimit g) (g_NodeName g).

Definition zeroNodeconfig : Nodeconfig := mkNodeconfig "" f64_zero f64_zero 0.

Definition with_store (g : Globals) (store : list Nodeconfig) : Globals :=
  mkGlobals store (g_DeviceSplitCount g) (g_DeviceMemoryScaling g) (g_DeviceCoresScaling g)
    (g_DisableCoreLimit g) (g_NodeName g).

(** [file] is the decoded /config/config.json, or the error of reading or
    decoding it; [NodeName] the environment variable. *)
Definition readFromConfigFile (NodeName : string) (file : list Nodeconfig + error) (g : Globals) : Globals * option error :=
  match file with
  | inr err => (g, Some err)
  | inl entries =>
      let l := length (g_store g) in
      (foldl (read_entry NodeName l) (with_store g (g_store g ++ [zeroNodeconfig])) entries, None)
  end.

(** What the command line gives: [c.IsSet], [c.String] and so on. *)
Record Cli := mkCli {
  cli_IsSet : string -> bool;
  cli_Uint : string -> Z;
  cli_Float64 : string -> float64;
  cli_Bool : string -> bool;
  cli_String : string -> string;
}.

(** [updateFromCLIFlag]: a flag that is set, or an option that is still nil,
    makes a pointer to a value of its own. *)
Definition updateFromCLIFlag {A} (value : string -> A) (c : Cli) (flagName : string) (p : option (ptr A)) : option (ptr A) :=
  match p with
  | Some _ => if cli_IsSet c flagName then Some (Fresh (value flagName)) else p
  | None => Some (Fresh (value flagName))
  end.

(** One flag name; [ResourceName] is the field of the new [DeviceConfig]. *)
Definition apply_flag (c : Cli) (st : Globals * option (ptr string)) (n : string) : Globals * option (ptr string) :=
  let '(g, ResourceName) := st in
  if decide (n = "device-split-count"%string) then
    (mkGlobals (g_store g) (updateFromCLIFlag (cli_Uint c) c n (g_DeviceSplitCount g)) (g_DeviceMemoryScaling g)
       (g_DeviceCoresScaling g) (g_DisableCoreLimit g) (g_NodeName g), ResourceName)
  else if decide (n = "device-memory-scaling"%string) then
    (mkGlobals (g_store g) (g_DeviceSplitCount g) (updateFromCLIFlag (cli_Float64 c) c n (g_DeviceMemoryScaling g))
       (g_DeviceCoresScaling g) (g_DisableCoreLimit g) (g_NodeName g), ResourceName)
  else if decide (n = "device-cores-scaling"%string) then
    (mkGlobals (g_store g) (g_DeviceSplitCount g) (g_DeviceMemoryScaling g)
       (updateFromCLIFlag (cli_Float64 c) c n (g_DeviceCoresScaling g)) (g_DisableCoreLimit g) (g_NodeName g), ResourceName)
  else if decide (n = "disable-core-limit"%string) then
    (mkGlobals (g_store g) (g_DeviceSplitCount g) (g_DeviceMemoryScaling g) (g_DeviceCoresScaling g)
       (updateFromCLIFlag (cli_Bool c) c n (g_DisableCoreLimit g)) (g_NodeName g), ResourceName)
  else if decide (n = "resource-name"%string) then
    (g, updateFromCLIFlag (cli_String c) c n ResourceName)
  else st.

(** [flags]: the names of the flags in order. *)
Definition generateDeviceConfigFromNvidia (NodeName : string) (file : list Nodeconfig + error) (c : Cli)
    (flags : list string) (g : Globals) : Globals * option (ptr string) :=
  let '(g, ResourceName) := foldl (apply_flag c) (g, None) flags in
  let g := (readFromConfigFile NodeName file g).1 in
  (mkGlobals (g_store g) (g_DeviceSplitCount g) (g_DeviceMemoryScaling g) (g_DeviceCoresScaling g)
     (g_DisableCoreLimit g) NodeName, ResourceName).

(** ** plugin/register.go: the cards of the node *)

(** What NVML says of the card at an index. *)
Record nvml_card := mkCard {
  nc_handle : option error;
  nc_memory : Z + error;      (* bytes *)
  nc_uuid : string + error;
  nc_name : string + error;
}.

(** [strings.EqualFold(s, "healthy")] *)
Definition is_healthy (s : string) : bool := bool_decide (to_lower s = "healthy"%string).

(** The health of the card in the device table: the first matching device of
    the range decides, and a card that is not there counts as healthy. *)
Fixpoint card_health (UUID : string) (devs : list rm.Device) : bool :=
  match devs with
  | [] => true
  | val :: devs' => if decide (rm.ID val = UUID) then is_healthy (rm.Health val) else card_health UUID devs'
  end.

(** [panic(0)] after a failed call. *)
Definition or_panic {A} (x : A + error) : outcome A :=
  match x with inl a => Ret a | inr _ => Panic Explicit end.

Section register.
Context `{GoRuntime} (g : Globals) (ds : rmDevices).
(** [nvml.DeviceGetHandleByIndex] and the output of [nvidia-smi topo -m], when
    the command succeeds. *)
Context (card : Z -> nvml_card) (topo : option string).

(** [getNumaInformation]: [log.Fatalf] when the command fails; the error of
    the parser is logged only. *)
Definition getNumaInformation (idx : Z) : outcome (Z * option num_error) :=
  match topo with Some out => parseNvidiaNumaInfo idx out | None => Panic Fatal end.

Definition api_device (idx : Z) : outcome api.DeviceInfo :=
  match nc_handle (card idx) with
  | Some _ => Panic Explicit
  | None =>
      memoryTotal ← or_panic (nc_memory (card idx));
      UUID ← or_panic (nc_uuid (card idx));
      Model ← or_panic (nc_name (card idx));
      let registeredmem := i32 (Z.quot (Z.quot (i64 memoryTotal) 1024) 1024) in
      scaling ← DeviceMemoryScaling g;
      let registeredmem := if f64_eqb scaling f64_one then registeredmem
                           else int32_of_f64 (f64_mul (f64_of_Z registeredmem) scaling) in
      let health := card_health UUID (range ("getApiDevices"%string, Z.to_nat idx) ds).*2 in
      '(numa, _) ← getNumaInformation idx;
      count ← DeviceSplitCount g;
      cores ← DeviceCoresScaling g;
      Ret (api.mkDeviceInfo 0 UUID (i32 count) registeredmem (int32_of_f64 (f64_mul cores (f64_of_Z 100)))
             ("NVIDIA-" +:+ Model) numa health)
  end.

Fixpoint api_devices_loop (n : nat) (idx : Z) (res : list api.DeviceInfo) : outcome (list api.DeviceInfo) :=
  match n with
  | O => Ret res
  | S n' => d ← api_device idx; api_devices_loop n' (idx + 1) (res ++ [d])
  end.

Definition getApiDevices : outcome (list api.DeviceInfo) := api_devices_loop (size ds) 0 [].

Context {W : Type} `{!KubeClient W}.

(** [now] is [time.Now().String()]. *)
Definition nvidia_RegistrInAnnotation (now : string) : K W (option error) :=
  devices ← lift getApiDevices;
  '(node, err) ← call (api_GetNode (g_NodeName g));
  match err with
  | Some e => mret (Some e)
  | None =>
      PatchNodeAnnotations node
        {[nvidia.HandshakeAnnos := ("Reported " +:+ now)%string; nvidia.RegisterAnnos := EncodeNodeDevices devices]}
  end.

(** One turn of [WatchAndRegister]: the seconds it sleeps afterwards. *)
Definition watch_and_register_round (now : string) : K W Z :=
  err ← nvidia_RegistrInAnnotation now;
  mret (match err with Some _ => 5 | None => 30 end).
End register.

(** ** main.go: the configuration *)
Section config.
Context `{SpecLib}.

(** One entry of [Sharing.TimeSlicing.Resources]. *)
Definition plain_resource (renameByDefault : bool) (r : spec.ReplicatedResource) : spec.ReplicatedResource :=
  let rename :=
    if negb renameByDefault && negb (bool_decide (spec.rr_Rename r = ""%string)) then ""%string
    else if renameByDefault && negb (bool_decide (spec.rr_Rename r = DefaultSharedRename (spec.rr_Name r)))
    then DefaultSharedRename (spec.rr_Name r)
    else spec.rr_Rename r in
  let devices := if spec.All (spec.rr_Devices r) then spec.rr_Devices r else spec.mkReplicatedDevices true 0 [] in
  spec.mkReplicatedResource (spec.rr_Name r) rename devices (spec.rr_Replicas r).

Definition disableResourceRenamingInConfig (cfg : DeviceConfig) : DeviceConfig :=
  mkDeviceConfig (dc_MigStrategy cfg) (dc_FailOnInitError cfg) [] [] (dc_RenameByDefault cfg)
    (plain_resource (dc_RenameByDefault cfg) <$> dc_TimeSlicing cfg) (dc_ResourceName cfg).
End config.

(** [NewDeviceListStrategies] is the library's check of the list strategy. *)
Definition validateFlags (NewDeviceListStrategies : list string -> option error) (DeviceListStrategy : list string)
    (DeviceIDStrategy : string) : option error :=
  match NewDeviceListStrategies DeviceListStrategy with
  | Some err => Some ("invalid --device-list-strategy option: " +:+ err)%string
  | None =>
      if negb (bool_decide (DeviceIDStrategy = DeviceIDStrategyUUID)) && negb (bool_decide (DeviceIDStrategy = DeviceIDStrategyIndex))
      then Some ("invalid --device-id-strategy option: " +:+ DeviceIDStrategy)%string
      else None
  end.

(** ** plugin/manager *)
Inductive manager_mode := ModeNvml | ModeTegra | ModeNull.

Definition resolveMode (hasNVML isTegra failOnInitError : bool) : manager_mode + error :=
  if negb hasNVML && negb isTegra then
    if failOnInitError then inr "platform detection failed"%string else inl ModeNull
  else if isTegra then if hasNVML then inl ModeNvml else inl ModeTegra
  else inl ModeNvml.

(** [manager.New]: the manager, and whether CDI stays enabled. *)
Definition New_manager (hasNVML isTegra failOnInitError cdiEnabled : bool) (Init : option error)
    : (manager_mode * bool) + error :=
  match resolveMode hasNVML isTegra failOnInitError with
  | inr err => inr err
  | inl ModeNvml =>
      match Init with
      | Some ret => if failOnInitError then inr ("nvml init failed: " +:+ ret)%string else inl (ModeNull, cdiEnabled)
      | None => inl (ModeNvml, cdiEnabled)
      end
  | inl mode => inl (mode, false)
  end.

(** [GetPlugins] of the three managers: one plugin per resource manager. *)
Definition GetPlugins `{GoRuntime, SpecLib, DeviceLib} ReadFile minors isWsl (mode : manager_mode) (Init : option error)
    (cfg : DeviceConfig) : outcome (list resourceManager + error) :=
  match mode with
  | ModeNull => Ret (inl [])
  | ModeNvml =>
      r ← NewNVMLResourceManagers ReadFile minors isWsl Init cfg;
      Ret (match r with inr err => inr ("failed to construct NVML resource managers: " +:+ err)%string | inl rms => inl rms end)
  | ModeTegra =>
      r ← NewTegraResourceManagers cfg;
      Ret (match r with inr err => inr ("failed to construct NVML resource managers: " +:+ err)%string | inl rms => inl rms end)
  end.

(** ** cdi/cdi.go: specifications for the container device interface *)
Section cdi.
Context `{GoRuntime}.

(** What the CDI library answers for a class of devices, step by step. *)
Record cdi_class := mkCdiClass {
  cls_GetSpec : option error;
  cls_Transform : option error;
  cls_GenerateName : string + error;
  cls_Save : option error;
}.

(** [nvcdi.New] for a class or a mode. *)
Context (nvcdi_New : string -> cdi_class + error).

Fixpoint additional_libs (modes : list string) (cdilibs : gmap string cdi_class) : gmap string cdi_class + error :=
  match modes with
  | [] => inl cdilibs
  | mode :: modes' =>
      match nvcdi_New mode with
      | inr err => inr ("failed to create nvcdi library: " +:+ err)%string
      | inl lib => additional_libs modes' (<[mode := lib]> cdilibs)
      end
  end.

(** The libraries of the handler; [None] is the null handler.
    [NewDeviceNamer] is the library's check of the strategy. *)
Definition newHandler (enabled gdsEnabled mofedEnabled : bool) (NewDeviceNamer : option error)
    : option (gmap string cdi_class) + error :=
  if negb enabled then inl None
  else match NewDeviceNamer with
       | Some err => inr err
       | None =>
           match nvcdi_New "gpu" with
           | inr err => inr ("failed to create nvcdi library: " +:+ err)%string
           | inl lib =>
               match additional_libs ((if gdsEnabled then ["gds"%string] else []) ++ (if mofedEnabled then ["mofed"%string] else []))
                       {["gpu"%string := lib]} with
               | inr err => inr err
               | inl cdilibs => inl (Some cdilibs)
               end
           end
       end.

Definition cdi_New (hasNVML enabled gdsEnabled mofedEnabled : bool) (NewDeviceNamer : option error)
    : option (gmap string cdi_class) + error :=
  if negb hasNVML then inl None else newHandler enabled gdsEnabled mofedEnabled NewDeviceNamer.

(** The specification of one class: the file it is saved to. *)
Definition create_spec (Init : option error) (class : string) (cdilib : cdi_class) : string + error :=
  match (if decide (class = "gpu"%string) then Init else None), cls_GetSpec cdilib, cls_Transform cdilib,
        cls_GenerateName cdilib, cls_Save cdilib with
  | Some ret, _, _, _, _ => inr ("failed to initialize NVML: " +:+ ret)%string
  | None, Some err, _, _, _ => inr ("failed to get CDI spec: " +:+ err)%string
  | None, None, Some err, _, _ => inr ("failed to transform driver root in CDI spec: " +:+ err)%string
  | None, None, None, inr err, _ => inr ("failed to generate spec name: " +:+ err)%string
  | None, None, None, inl _, Some err => inr ("failed to save CDI spec: " +:+ err)%string
  | None, None, None, inl specName, None => inl ("/var/run/cdi/" +:+ specName +:+ ".json")%string
  end.

Fixpoint create_specs (Init : option error) (libs : list (string * cdi_class)) (files : list string) : list string * option error :=
  match libs with
  | [] => (files, None)
  | (class, cdilib) :: libs' =>
      match create_spec Init class cdilib with
      | inr err => (files, Some err)
      | inl f => create_specs Init libs' (files ++ [f])
      end
  end.

(** The files that were written, and the error that ended the loop. *)
Definition CreateSpecFile (Init : option error) (handler : option (gmap string cdi_class)) : list string * option error :=
  match handler with
  | None => ([], None)
  | Some cdilibs => create_specs Init (range ("CreateSpecFile"%string, 0%nat) cdilibs) []
  end.

(** [cdiapi.QualifiedName] *)
Definition QualifiedName (vendor class id : string) : string := (vendor +:+ "/" +:+ class +:+ "=" +:+ id)%string.
End cdi.

(** ** main.go: from the flags to the resource managers *)

(** What the configuration library, the platform and NVML answer; the calls
    of [nvml.Init] are numbered. *)
Record platform := mkPlatform {
  pf_NewConfig : DeviceConfig + error;
  pf_DeviceListStrategy : list string;
  pf_DeviceIDStrategy : string;
  pf_NewDeviceListStrategies : list string -> option error;
  pf_IsCDIEnabled : bool;
  pf_GDSEnabled : bool;
  pf_MOFEDEnabled : bool;
  pf_NewDeviceNamer : option error;
  pf_nvcdi_New : string -> cdi_class + error;
  pf_hasNVML : bool;
  pf_isTegra : bool;
  pf_Init : nat -> option error;
  pf_MarshalIndent : option error;
}.

Definition loadConfig (pf : platform) : DeviceConfig + error :=
  match pf_NewConfig pf with
  | inr err => inr ("unable to finalize config: " +:+ err)%string
  | inl config =>
      match validateFlags (pf_NewDeviceListStrategies pf) (pf_DeviceListStrategy pf) (pf_DeviceIDStrategy pf) with
      | Some err => inr ("unable to validate flags: " +:+ err)%string
      | None => inl config
      end
  end.

Section load.
Context `{GoRuntime, SpecLib, DeviceLib}.
Context (ReadFile : string -> string + error) (minors : opened) (isWsl : bool).

Definition NewPluginManager (pf : platform) (config : DeviceConfig) : manager_mode + error :=
  if negb (bool_decide (dc_MigStrategy config ∈ [spec.MigStrategyNone; spec.MigStrategySingle; spec.MigStrategyMixed]))
  then inr ("unknown strategy: " +:+ dc_MigStrategy config)%string
  else
    match pf_NewDeviceListStrategies pf (pf_DeviceListStrategy pf) with
    | Some err => inr ("invalid device list strategy: " +:+ err)%string
    | None =>
        match cdi_New (pf_nvcdi_New pf) (pf_hasNVML pf) (pf_IsCDIEnabled pf) (pf_GDSEnabled pf) (pf_MOFEDEnabled pf)
                (pf_NewDeviceNamer pf) with
        | inr err => inr ("unable to create cdi handler: " +:+ err)%string
        | inl cdiHandler =>
            match New_manager (pf_hasNVML pf) (pf_isTegra pf) (dc_FailOnInitError config) (pf_IsCDIEnabled pf) (pf_Init pf 1) with
            | inr err => inr ("unable to create plugin manager: " +:+ err)%string
            | inl (m, _) =>
                match (match m with ModeNvml => (CreateSpecFile (pf_Init pf 2) cdiHandler).2 | _ => None end) with
                | Some err => inr ("unable to create cdi spec file: " +:+ err)%string
                | None => inl m
                end
            end
        end
    end.

(** The configuration with the resource name of the flags. *)
Definition with_ResourceName (config : DeviceConfig) (name : string) : DeviceConfig :=
  mkDeviceConfig (dc_MigStrategy config) (dc_FailOnInitError config) (dc_GPUs config) (dc_MIGs config)
    (dc_RenameByDefault config) (dc_TimeSlicing config) name.

(** [startPlugins] up to the loop over the plugins. *)
Definition load_plugins (NodeName : string) (file : list Nodeconfig + error) (c : Cli) (flags : list string)
    (pf : platform) (g : Globals) : outcome (Globals * (list resourceManager + error)) :=
  match loadConfig pf with
  | inr err => Ret (g, inr ("unable to load config: " +:+ err)%string)
  | inl config =>
      let config := disableResourceRenamingInConfig config in
      let '(g, ResourceName) := generateDeviceConfigFromNvidia NodeName file c flags g in
      match ResourceName with
      | Some (Fresh name) =>
          match AddDefaultResourcesToConfig (pf_hasNVML pf) (pf_Init pf 0) (with_ResourceName config name) with
          | (_, Some err) => Ret (g, inr ("unable to add default resources to config: " +:+ err)%string)
          | (devConfig, None) =>
              match pf_MarshalIndent pf with
              | Some err => Ret (g, inr ("failed to marshal config to JSON: " +:+ err)%string)
              | None =>
                  match NewPluginManager pf devConfig with
                  | inr err => Ret (g, inr ("error creating plugin manager: " +:+ err)%string)
                  | inl m =>
                      plugins ← GetPlugins ReadFile minors isWsl m (pf_Init pf 3) devConfig;
                      Ret (g, match plugins with
                              | inr err => inr ("error getting plugins: " +:+ err)%string
                              | inl rms => inl rms
                              end)
                  end
              end
          end
      | _ => Panic NilDereference
      end
  end.
End load.

(** ** plugin/server.go: the life of a plugin *)

(** [p_server]: the field is not nil; [p_serving]: that server runs;
    [p_leaked]: servers that run though the plugin has let go of them;
    [p_checks]: the health check of the current stop channel runs;
    [p_registrars]: the goroutines of [WatchAndRegister]. *)
Record proc := mkProc {
  p_rm : resourceManager;
  p_server : bool;
  p_serving : bool;
  p_leaked : nat;
  p_checks : bool;
  p_registrars : nat;
}.

Definition NewNvidiaDevicePlugin (r : resourceManager) : proc := mkProc r false false 0 false 0.

(** How the outside answers a [Start]: [net.Listen] fails, the plugin cannot
    dial its own server, the kubelet refuses the registration, or none. *)
Inductive start_answer :=
| ListenFails (e : error)
| DialFails (e : error)
| RegisterFails (e : error)
| Answers.

(** [cleanup]: closes the stop channel, which ends the health check. *)
Definition cleanup (p : proc) : proc := mkProc (p_rm p) false (p_serving p) (p_leaked p) false (p_registrars p).

(** [removed]: [os.Remove] of the socket succeeds or finds no file. *)
Definition Stop (removed : bool) (p : proc) : proc * option error :=
  if negb (p_server p) then (p, None)
  else
    let p := mkProc (p_rm p) true false (p_leaked p) (p_checks p) (p_registrars p) in
    if negb removed then (p, Some "remove socket"%string) else (cleanup p, None).

Definition Start (a : start_answer) (removed : bool) (p : proc) : proc * option error :=
  let p := mkProc (p_rm p) true (p_serving p) (p_leaked p) (p_checks p) (p_registrars p) in   (* initialize *)
  match a with
  | ListenFails e => (cleanup p, Some e)
  | DialFails e =>
      (cleanup (mkProc (p_rm p) true (p_serving p) (S (p_leaked p)) (p_checks p) (p_registrars p)), Some e)
  | RegisterFails e =>
      ((Stop removed (mkProc (p_rm p) true true (p_leaked p) (p_checks p) (p_registrars p))).1, Some e)
  | Answers => (mkProc (p_rm p) true true (p_leaked p) true (S (p_registrars p)), None)
  end.

(** The goroutine of [Serve]: what each [server.Serve] ended with, [None] for
    a regular end and [Some t] for a crash at the time [t]. *)
Inductive serve_end := ServeStopped | ServeQuits | ServeRunning (restartCount : Z).

Fixpoint serve_loop (restartCount lastCrashTime : Z) (ends : list (option Z)) : serve_end :=
  match ends with
  | [] => ServeRunning restartCount
  | None :: _ => ServeStopped
  | Some t :: ends' =>
      if 5 <? restartCount then ServeQuits
      else serve_loop (if 3600 * Second <? t - lastCrashTime then 1 else restartCount + 1) t ends'
  end.

(** ** main.go: starting and restarting *)

(** What one call of [startPlugins] meets: the result of [load_plugins], with
    the answers to the [Start]s and [Stop]s of the plugins. *)
Record attempt := mkAttempt {
  at_rms : list resourceManager + error;
  at_answers : list (start_answer * bool);
}.

(** The loop over the plugins; the flag asks for a restart. *)
Fixpoint start_loop (plugins : list proc) (answers : list (start_answer * bool)) (done_ : list proc) : list proc * bool :=
  match plugins with
  | [] => (done_, false)
  | p :: plugins' =>
      if (size (rmg_devices (p_rm p)) =? 0)%nat then start_loop plugins' (tail answers) (done_ ++ [p])
      else
        let '(a, removed) := default (Answers, true) (head answers) in
        match Start a removed p with
        | (p, Some _) => (done_ ++ p :: plugins', true)
        | (p, None) => start_loop plugins' (tail answers) (done_ ++ [p])
        end
  end.

Definition startPlugins (a : attempt) : (list proc * bool) + error :=
  match at_rms a with
  | inr err => inr err
  | inl rms => inl (start_loop (NewNvidiaDevicePlugin <$> rms) (at_answers a) [])
  end.

(** [stopPlugins] ignores the errors; [removed] are the answers of
    [os.Remove]. *)
Definition stopPlugins (removed : proc -> bool) (plugins : list proc) : list proc :=
  (fun p => (Stop (removed p) p).1) <$> plugins.

(** The state of [start]: the plugins, the plugins of earlier runs, whether a
    restart timer is pending, and whether [start] has returned. *)
Record main_state := mkMain {
  m_plugins : list proc;
  m_old : list proc;
  m_timeout : bool;
  m_returned : option (option error);
}.

Inductive main_event :=
| RestartTimeout
| KubeletSocketCreated
| OtherFileEvent
| WatcherError
| SIGHUP
| OtherSignal.

(** From the label [restart]: the plugins of the last run have been stopped. *)
Definition run_plugins (a : attempt) (old : list proc) (timeout : bool) : main_state :=
  match startPlugins a with
  | inr err => mkMain [] old timeout (Some (Some ("error starting plugins: " +:+ err)%string))
  | inl (plugins, restartPlugins) => mkMain plugins old (timeout || restartPlugins) None
  end.

Definition start_main (a : attempt) : main_state := run_plugins a [] false.

(** One turn of the loop with its event; the timer fires only when it is
    pending, and fires once. *)
Definition main_step (removed : proc -> bool) (a : attempt) (ev : main_event) (st : main_state) : main_state :=
  match m_returned st with
  | Some _ => st
  | None =>
      let restart timeout := run_plugins a (m_old st ++ stopPlugins removed (m_plugins st)) timeout in
      match ev with
      | RestartTimeout => if m_timeout st then restart false else st
      | KubeletSocketCreated | SIGHUP => restart (m_timeout st)
      | OtherFileEvent | WatcherError => st
      | OtherSignal => mkMain (stopPlugins removed (m_plugins st)) (m_old st) (m_timeout st) (Some None)
      end
  end.

Definition main_run (st : main_state) (l : list (main_event * attempt * (proc -> bool))) : main_state :=
  foldl (fun st '(ev, a, removed) => main_step removed a ev st) st l.
