(* ===== verification/NvidiaMainFacts.v ===== *)
(** * Properties of the NVIDIA device plugin as a process

    The options the process runs with; the limit on crashes of the gRPC
    server; the plugins across restarts; and, with the scheduler's side of
    the protocol, the way of the cards from NVML to the table of nodes. *)

From Stdlib Require Import ZArith Lia Ascii String Sorted.
From stdpp Require Import base decidable option gmap strings numbers sorting list.
From S2P Require Import Prelude GoStrings GoScan GoTime GoRuntime Types Kube NodeLock Codec Devices Score Scheduler Register UsageFacts RegisterProps PodAlloc Nvidia NvidiaMap NvidiaMapFacts NvidiaMain.

#[local] Open Scope Z_scope.

(** ** Options *)

(** A pointer that is not nil and points to a variable. *)
Definition ptr_ok {A} (n : nat) (p : option (ptr A)) : Prop :=
  match p with
  | None => False
  | Some (Fresh _) => True
  | Some (LoopVar l) => (l < n)%nat
  end.

(** Same, but nil is allowed. *)
Definition ptr_wf {A} (n : nat) (p : option (ptr A)) : Prop :=
  match p with Some (LoopVar l) => (l < n)%nat | _ => True end.

Record globals_wf (g : Globals) : Prop := {
  gw_count : ptr_wf (length (g_store g)) (g_DeviceSplitCount g);
  gw_memory : ptr_wf (length (g_store g)) (g_DeviceMemoryScaling g);
  gw_cores : ptr_wf (length (g_store g)) (g_DeviceCoresScaling g);
}.

Record globals_ok (g : Globals) : Prop := {
  gk_count : ptr_ok (length (g_store g)) (g_DeviceSplitCount g);
  gk_memory : ptr_ok (length (g_store g)) (g_DeviceMemoryScaling g);
  gk_cores : ptr_ok (length (g_store g)) (g_DeviceCoresScaling g);
}.

Lemma deref_opt_ok {A} (f : Nodeconfig -> A) g p :
  ptr_ok (length (g_store g)) p -> exists a, deref_opt f g p = Ret a.
Proof.
  destruct p as [[a|l]|]; simpl; [by eexists| |done].
  intros Hl. destruct (lookup_lt_is_Some_2 (g_store g) l Hl) as [v ->]. by eexists.
Qed.

(** The pointer after the loop of [readFromConfigFile]: into the loop
    variable when an entry of the node sets the option. *)
Definition sets {A} (NodeName : string) (positive : Nodeconfig -> bool) (l : nat) (p : option (ptr A)) (entries : list Nodeconfig)
    : option (ptr A) :=
  if existsb (fun v => bool_decide (NodeName = cfg_Name v) && positive v) entries then Some (LoopVar l) else p.

Lemma sets_cons {A} NodeName positive l (p : option (ptr A)) v entries :
  sets NodeName positive l p (v :: entries)
  = sets NodeName positive l (if bool_decide (NodeName = cfg_Name v) && positive v then Some (LoopVar l) else p) entries.
Proof. unfold sets. simpl. destruct (bool_decide _ && positive v); simpl; [by destruct existsb|done]. Qed.

Definition sets_count (v : Nodeconfig) : bool := 0 <? cfg_Devicesplitcount v.
Definition sets_memory (v : Nodeconfig) : bool := f64_ltb f64_zero (cfg_Devicememoryscaling v).
Definition sets_cores (v : Nodeconfig) : bool := f64_ltb f64_zero (cfg_Devicecorescaling v).

Lemma last_cons_default {A} (l : list A) x d : List.last (x :: l) d = List.last l x.
Proof.
  revert x d. induction l as [|y l IH]; intros x d; [done|].
  change (List.last (y :: l) d = List.last (y :: l) x). by rewrite !IH.
Qed.

Lemma read_entries NodeName l entries g v0 :
  l = length (g_store g) ->
  foldl (read_entry NodeName l) (with_store g (g_store g ++ [v0])) entries
  = mkGlobals (g_store g ++ [List.last entries v0])
      (sets NodeName sets_count l (g_DeviceSplitCount g) entries)
      (sets NodeName sets_memory l (g_DeviceMemoryScaling g) entries)
      (sets NodeName sets_cores l (g_DeviceCoresScaling g) entries)
      (g_DisableCoreLimit g) (g_NodeName g).
Proof.
  revert g v0. induction entries as [|v entries IH]; intros g v0 Hl; [done|].
  cbn [foldl]. rewrite !sets_cons.
  assert (<[l:=v]> (g_store g ++ [v0]) = g_store g ++ [v]) as Hst.
  { subst l. rewrite insert_app_r_alt by done. by rewrite Nat.sub_diag. }
  unfold read_entry at 2. cbn [g_store with_store g_DeviceSplitCount g_DeviceMemoryScaling g_DeviceCoresScaling g_DisableCoreLimit g_NodeName].
  rewrite Hst.
  rewrite last_cons_default.
  case_decide as Hn; [rewrite (bool_decide_true _ Hn)|rewrite (bool_decide_false _ Hn)]; cbn [andb].
  - exact (IH (mkGlobals (g_store g) _ _ _ _ _) v Hl).
  - exact (IH g v Hl).
Qed.

Lemma sets_wf {A} NodeName positive n (p : option (ptr A)) entries :
  ptr_ok n p -> ptr_ok (S n) (sets NodeName positive n p entries).
Proof.
  intros Hp. unfold sets. destruct existsb; [simpl; lia|]. destruct p as [[a|l]|]; simpl in *; [done|lia|done].
Qed.

Lemma readFromConfigFile_ok NodeName file g :
  globals_ok g -> globals_ok (readFromConfigFile NodeName file g).1.
Proof.
  intros [H1 H2 H3]. destruct file as [entries|]; [|done]. unfold readFromConfigFile. cbn [fst].
  rewrite read_entries by done.
  constructor; cbn; rewrite length_app, Nat.add_1_r; by apply sets_wf.
Qed.

(** The flags of the options. *)
Definition option_flags : list string := ["device-split-count"; "device-memory-scaling"; "device-cores-scaling"].

Lemma updateFromCLIFlag_ok {A} (value : string -> A) c n m (p : option (ptr A)) :
  ptr_wf m p -> ptr_ok m (updateFromCLIFlag value c n p).
Proof. destruct p as [[a|l]|]; simpl; [by destruct cli_IsSet|by destruct cli_IsSet|done]. Qed.

Lemma ptr_ok_wf {A} m (p : option (ptr A)) : ptr_ok m p -> ptr_wf m p.
Proof. by destruct p as [[]|]. Qed.
#[local] Hint Resolve ptr_ok_wf updateFromCLIFlag_ok : core.

Lemma apply_flag_store c g n p : g_store (apply_flag c (g, p) n).1 = g_store g.
Proof. unfold apply_flag. by repeat case_decide. Qed.

(** A flag keeps the pointers valid, and its own option is not nil after it. *)
Lemma apply_flag_wf c g n p : globals_wf g -> globals_wf (apply_flag c (g, p) n).1.
Proof. intros [H1 H2 H3]. unfold apply_flag. repeat case_decide; constructor; cbn; auto. Qed.

Lemma apply_flag_keeps c g n p :
  globals_wf g ->
  let g' := (apply_flag c (g, p) n).1 in
  (n = "device-split-count" \/ g_DeviceSplitCount g <> None -> g_DeviceSplitCount g' <> None)
  /\ (n = "device-memory-scaling" \/ g_DeviceMemoryScaling g <> None -> g_DeviceMemoryScaling g' <> None)
  /\ (n = "device-cores-scaling" \/ g_DeviceCoresScaling g <> None -> g_DeviceCoresScaling g' <> None).
Proof.
  intros _ g'. subst g'. unfold apply_flag.
  assert (forall A (value : string -> A) (q : option (ptr A)), updateFromCLIFlag value c n q <> None) as Hu.
  { intros A value [q|]; simpl; [by destruct cli_IsSet|done]. }
  repeat case_decide; simplify_eq; cbn; split_and!; intros [?|?]; simplify_eq; auto.
Qed.

Lemma apply_flags_wf c flags g p : globals_wf g -> globals_wf (foldl (apply_flag c) (g, p) flags).1.
Proof.
  revert g p. induction flags as [|n flags IH]; intros g p Hg; [done|]. cbn [foldl].
  pose proof (apply_flag_wf c g n p Hg). destruct (apply_flag c (g, p) n). by apply IH.
Qed.

Lemma apply_flags_set c flags g p :
  globals_wf g ->
  let g' := (foldl (apply_flag c) (g, p) flags).1 in
  ("device-split-count" ∈ flags \/ g_DeviceSplitCount g <> None -> g_DeviceSplitCount g' <> None)
  /\ ("device-memory-scaling" ∈ flags \/ g_DeviceMemoryScaling g <> None -> g_DeviceMemoryScaling g' <> None)
  /\ ("device-cores-scaling" ∈ flags \/ g_DeviceCoresScaling g <> None -> g_DeviceCoresScaling g' <> None).
Proof.
  revert g p. induction flags as [|n flags IH]; intros g p Hg.
  { cbn. split_and!; intros [?%not_elem_of_nil|?]; done. }
  cbn [foldl]. pose proof (apply_flag_wf c g n p Hg) as Hwf. destruct (apply_flag_keeps c g n p Hg) as (K1 & K2 & K3).
  destruct (apply_flag c (g, p) n) as [g1 p1]. destruct (IH g1 p1 Hwf) as (I1 & I2 & I3).
  split_and!; intros [[?|?]%elem_of_cons|?]; (apply I1 || apply I2 || apply I3); auto.
Qed.

Lemma ptr_wf_ok {A} n (p : option (ptr A)) : ptr_wf n p -> p <> None -> ptr_ok n p.
Proof. by destruct p as [[]|]. Qed.

Lemma generate_ok NodeName file c flags g :
  globals_wf g -> option_flags ⊆ flags ->
  globals_ok (generateDeviceConfigFromNvidia NodeName file c flags g).1.
Proof.
  intros Hg Hf. unfold generateDeviceConfigFromNvidia.
  pose proof (apply_flags_wf c flags g None Hg) as [W1 W2 W3].
  pose proof (apply_flags_set c flags g None Hg) as (S1 & S2 & S3).
  destruct (foldl (apply_flag c) (g, None) flags) as [g1 p1]. cbn in *.
  assert (globals_ok g1) as Hok.
  { constructor; apply ptr_wf_ok; [done|apply S1|done|apply S2|done|apply S3]; left; apply Hf;
      apply (bool_decide_unpack _); by vm_compute. }
  by destruct (readFromConfigFile_ok NodeName file g1 Hok).
Qed.

(** ** Crashes of the server *)

(** Each time is at most an hour after the one before it. *)
Fixpoint frequent (last : Z) (ts : list Z) : Prop :=
  match ts with
  | [] => True
  | t :: ts' => t - last <= 3600 * Second /\ frequent t ts'
  end.

Lemma serve_loop_frequent ts last n :
  0 <= n <= 6 -> frequent last ts ->
  serve_loop n last (Some <$> ts)
  = if n + Z.of_nat (length ts) <=? 6 then ServeRunning (n + Z.of_nat (length ts)) else ServeQuits.
Proof.
  revert last n. induction ts as [|t ts IH]; intros last n Hn Hf; cbn [fmap list_fmap serve_loop length].
  { rewrite Z.add_0_r. by rewrite (proj2 (Z.leb_le n 6)) by lia. }
  destruct Hf as [Ht Hf]. destruct (Z.ltb_spec 5 n).
  { rewrite (proj2 (Z.leb_gt _ 6)) by lia. done. }
  rewrite (proj2 (Z.ltb_ge _ _) Ht), IH by (done || lia).
  replace (n + 1 + Z.of_nat (length ts)) with (n + Z.of_nat (S (length ts))) by lia. done.
Qed.

(** ** Plugins across restarts *)

(** A plugin without a server serves nothing and checks nothing. *)
Definition proc_ok (p : proc) : Prop := p_server p = false -> p_serving p = false /\ p_checks p = false.

Lemma Stop_ok removed p : proc_ok p -> proc_ok (Stop removed p).1.
Proof. unfold Stop, proc_ok. destruct (p_server p) eqn:E, removed; cbn; auto; congruence. Qed.

Lemma Stop_stops removed p : proc_ok p -> p_serving (Stop removed p).1 = false.
Proof. unfold Stop, proc_ok. destruct (p_server p) eqn:E, removed; cbn; auto. by intros [? ?]. by intros [? ?]. Qed.

Lemma Stop_removed p : proc_ok p -> p_checks (Stop true p).1 = false.
Proof. unfold Stop, proc_ok. destruct (p_server p) eqn:E; cbn; auto. by intros [? ?]. Qed.

Lemma Stop_registrars removed p : p_registrars (Stop removed p).1 = p_registrars p.
Proof. unfold Stop. by destruct (p_server p), removed. Qed.

(** A plugin as [NewNvidiaDevicePlugin] makes it. *)
Definition is_new (p : proc) : Prop := p = NewNvidiaDevicePlugin (p_rm p).

Lemma Start_ok a removed p : is_new p -> proc_ok (Start a removed p).1.
Proof. intros ->. unfold proc_ok. destruct a, removed; cbn; auto; done. Qed.

Lemma start_loop_ok plugins answers done_ :
  Forall is_new plugins -> Forall proc_ok done_ -> Forall proc_ok (start_loop plugins answers done_).1.
Proof.
  intros Hp. revert answers done_. induction Hp as [|p plugins Hn Hp IH]; intros answers done_ Hd; [done|].
  assert (forall q, is_new q -> proc_ok q) as Hnew by (intros q ->; by split).
  cbn [start_loop]. destruct (_ =? 0)%nat; [apply IH, Forall_app; auto|].
  destruct (default (Answers, true) (head answers)) as [a removed]. pose proof (Start_ok a removed p Hn) as Hs.
  destruct (Start a removed p) as [p' [e|]]; cbn in *.
  - apply Forall_app. split; [done|]. constructor; [done|]. by eapply Forall_impl.
  - apply IH, Forall_app; auto.
Qed.

(** What holds of the process throughout. *)
Record main_ok (st : main_state) : Prop := {
  mo_plugins : Forall proc_ok (m_plugins st);
  mo_old : Forall (fun p => p_serving p = false) (m_old st);
  mo_returned : is_Some (m_returned st) -> Forall (fun p => p_serving p = false) (m_plugins st);
}.

Lemma run_plugins_ok a old timeout : Forall (fun p => p_serving p = false) old -> main_ok (run_plugins a old timeout).
Proof.
  intros Ho. unfold run_plugins, startPlugins. destruct (at_rms a) as [rms|err]; [|by constructor].
  destruct (start_loop _ _ _) as [plugins r] eqn:E. constructor; cbn; [|done|by intros [? ?]].
  change plugins with (plugins, r).1. rewrite <- E. apply start_loop_ok; [|constructor].
  apply Forall_fmap, Forall_true. done.
Qed.

Lemma stopPlugins_stops removed l : Forall proc_ok l -> Forall (fun p => p_serving p = false) (stopPlugins removed l).
Proof. intros Hl. apply Forall_fmap. eapply Forall_impl; [exact Hl|]. intros p. apply Stop_stops. Qed.

Lemma main_step_ok removed a ev st : main_ok st -> main_ok (main_step removed a ev st).
Proof.
  intros [Hp Ho Hr]. unfold main_step. destruct (m_returned st) as [r|] eqn:E; [constructor; by rewrite ?E|].
  assert (forall t, main_ok (run_plugins a (m_old st ++ stopPlugins removed (m_plugins st)) t)) as Hrun.
  { intros t. apply run_plugins_ok, Forall_app. split; [done|by apply stopPlugins_stops]. }
  assert (main_ok st) by (constructor; by rewrite ?E).
  destruct ev; [destruct (m_timeout st)| | | | |]; auto.
  constructor; cbn; [|done|intros _; by apply stopPlugins_stops].
  apply Forall_fmap. eapply Forall_impl; [exact Hp|]. intros p. apply Stop_ok.
Qed.

Lemma main_run_ok st l : main_ok st -> main_ok (main_run st l).
Proof.
  revert st. induction l as [|[[ev a] removed] l IH]; intros st Hs; [done|]. cbn. by apply IH, main_step_ok.
Qed.

(** The goroutines that write the node's annotations. *)
Definition registrars (st : main_state) : nat := sum_list (p_registrars <$> m_old st ++ m_plugins st).

Lemma registrars_stop removed l : p_registrars <$> stopPlugins removed l = p_registrars <$> l.
Proof.
  unfold stopPlugins. rewrite <- list_fmap_compose. apply list_fmap_ext. intros i p _. apply Stop_registrars.
Qed.

Lemma sum_list_fmap_app {A} (f : A -> nat) l k : sum_list (f <$> l ++ k) = (sum_list (f <$> l) + sum_list (f <$> k))%nat.
Proof. induction l as [|x l IH]; cbn in *; [done|]. rewrite IH. lia. Qed.

(** The plugins that have devices to serve. *)
Definition has_devices (r : resourceManager) : Prop := size (rmg_devices r) <> 0%nat.
#[local] Instance has_devices_dec r : Decision (has_devices r).
Proof. unfold has_devices. apply _. Defined.

Lemma start_loop_registrars rms answers done_ :
  Forall (fun x => x.1 = Answers) answers ->
  sum_list (p_registrars <$> (start_loop (NewNvidiaDevicePlugin <$> rms) answers done_).1)
  = (sum_list (p_registrars <$> done_) + length (filter has_devices rms))%nat.
Proof.
  revert answers done_. induction rms as [|r rms IH]; intros answers done_ Ha; [cbn; lia|].
  assert (Forall (fun x => x.1 = Answers) (tail answers)) as Ht by (by destruct Ha).
  cbn [fmap list_fmap start_loop]. rewrite filter_cons. change (p_rm (NewNvidiaDevicePlugin r)) with r.
  destruct (Nat.eqb_spec (size (rmg_devices r)) 0) as [H0|H0].
  - rewrite decide_False by (intros Hd; by apply Hd). rewrite IH, sum_list_fmap_app by done. cbn. lia.
  - rewrite decide_True by done.
    assert (exists b, default (Answers, true) (head answers) = (Answers, b)) as [b ->].
    { destruct answers as [|[a b] answers]; cbn [head default Datatypes.id]; [by eexists|].
      apply Forall_cons in Ha as [Hx _]. cbn in Hx. subst a. by eexists. }
    cbn [Start]. rewrite IH, sum_list_fmap_app by done. cbn. lia.
Qed.

(** The plugins with devices of a call of [startPlugins]. *)
Definition started (a : attempt) : nat :=
  match at_rms a with inl rms => length (filter has_devices rms) | inr _ => 0%nat end.

(** An event that restarts, with an attempt in which every call succeeds. *)
Definition restarts (x : main_event * attempt * (proc -> bool)) : Prop :=
  let '(ev, a, _) := x in
  (ev = KubeletSocketCreated \/ ev = SIGHUP) /\ (exists rms, at_rms a = inl rms) /\ Forall (fun x => x.1 = Answers) (at_answers a).

Lemma run_plugins_registrars a old timeout rms :
  at_rms a = inl rms -> Forall (fun x => x.1 = Answers) (at_answers a) ->
  m_returned (run_plugins a old timeout) = None
  /\ registrars (run_plugins a old timeout) = (sum_list (p_registrars <$> old) + started a)%nat.
Proof.
  intros Hr Ha. unfold run_plugins, startPlugins, started, registrars. rewrite Hr.
  pose proof (start_loop_registrars rms (at_answers a) [] Ha) as Hs.
  destruct (start_loop _ _ _) as [plugins r]. cbn in *. split; [done|]. by rewrite sum_list_fmap_app, Hs.
Qed.

Lemma main_step_registrars ev a removed st :
  m_returned st = None -> restarts (ev, a, removed) ->
  m_returned (main_step removed a ev st) = None
  /\ registrars (main_step removed a ev st) = (registrars st + started a)%nat.
Proof.
  intros Hn (He & [rms Hr] & Ha). unfold main_step. rewrite Hn.
  destruct (run_plugins_registrars a (m_old st ++ stopPlugins removed (m_plugins st)) (m_timeout st) rms Hr Ha) as [H1 H2].
  rewrite sum_list_fmap_app, registrars_stop, <- sum_list_fmap_app in H2.
  by destruct He as [-> | ->].
Qed.

Lemma main_run_registrars l st :
  m_returned st = None -> Forall restarts l ->
  registrars (main_run st l) = (registrars st + sum_list ((fun x => started x.1.2) <$> l))%nat.
Proof.
  intros Hn Hl. revert st Hn. induction Hl as [|[[ev a] removed] l Hx _ IH]; intros st Hn; [cbn; lia|].
  destruct (main_step_registrars _ _ _ _ Hn Hx) as [H1 H2].
  change (main_run st ((ev, a, removed) :: l)) with (main_run (main_step removed a ev st) l).
  rewrite IH, H2 by done. cbn. lia.
Qed.

(** ** From NVML to the scheduler *)
Section registration.
Context `{GoRuntime} (g : Globals) (ds : rmDevices) (card : Z -> nvml_card) (topo : option string).

(** The device at position [i] comes from the card with that index. *)
Definition card_device (i : nat) (d : api.DeviceInfo) : Prop := api_device g ds card topo (Z.of_nat i) = Ret d.

Lemma api_devices_loop_spec n i res devs :
  api_devices_loop g ds card topo n (Z.of_nat i) res = Ret devs ->
  exists l, devs = res ++ l /\ length l = n /\ forall j d, l !! j = Some d -> card_device (i + j) d.
Proof.
  revert i res. induction n as [|n IH]; intros i res; cbn [api_devices_loop].
  { intros [= <-]. exists []. by rewrite app_nil_r. }
  unfold mbind, outcome_bind. destruct (api_device g ds card topo (Z.of_nat i)) as [d|] eqn:E; [|done].
  replace (Z.of_nat i + 1) with (Z.of_nat (S i)) by lia. intros (l & -> & Hl & Hd)%IH.
  exists (d :: l). split_and!; [by rewrite <- app_assoc|cbn; lia|].
  intros [|j] d' Hj; cbn in Hj; [injection Hj as <-; by rewrite Nat.add_0_r|].
  replace (i + S j)%nat with (S i + j)%nat by lia. by apply Hd.
Qed.

Lemma getApiDevices_spec devs :
  getApiDevices g ds card topo = Ret devs ->
  length devs = size ds /\ forall i d, devs !! i = Some d -> card_device i d.
Proof. intros (l & -> & Hl & Hd)%(api_devices_loop_spec _ 0). split; [done|]. intros i d Hi. by apply (Hd i). Qed.

Lemma card_device_card i d :
  card_device i d -> nc_handle (card (Z.of_nat i)) = None /\ nc_uuid (card (Z.of_nat i)) = inl (api.Id d).
Proof.
  unfold card_device, api_device, mbind, outcome_bind. destruct (nc_handle _); [done|].
  destruct (nc_memory _) as [memoryTotal|]; [|done]. destruct (nc_uuid _) as [UUID|]; [|done].
  destruct (nc_name _) as [Model|]; [|done]. cbn [or_panic].
  destruct (DeviceMemoryScaling g); [|done]. destruct (getNumaInformation _ _) as [[numa ?]|]; [|done].
  destruct (DeviceSplitCount g); [|done]. destruct (DeviceCoresScaling g); [|done]. by intros [= <-].
Qed.
End registration.

Section report.
Context `{GoRuntime} {W : Type} `{!KubeClient W} `{!KubeServer W}.

(** After a registration, the current version of the node carries the
    devices and the report. *)
Lemma registration_annotates g ds card topo devs now (w w' : W) :
  getApiDevices g ds card topo = Ret devs ->
  nvidia_RegistrInAnnotation g ds card topo now w = Ret (None, w') ->
  exists val, head (history w' (g_NodeName g)) = Some val
    /\ node_annos val !! nvidia.RegisterAnnos = Some (EncodeNodeDevices devs)
    /\ node_annos val !! nvidia.HandshakeAnnos = Some ("Reported " +:+ now)%string.
Proof.
  intros Hd. unfold nvidia_RegistrInAnnotation, mbind, K_bind, lift, outcome_bind, call. rewrite Hd. cbn.
  destruct (api_GetNode (g_NodeName g) w) as [[node [e|]] w1] eqn:Eg; [done|].
  unfold PatchNodeAnnotations, call. intros E.
  destruct (api_PatchNode (node_Name node) _ w1) as [err w2] eqn:Ep. injection E as -> ->.
  assert (node_Name node = g_NodeName g) as Hn.
  { apply get_node_current in Eg. destruct (history w1 (g_NodeName g)) as [|n h] eqn:Eh; [done|].
    injection Eg as ->. eapply history_name. rewrite Eh. by left. }
  apply patch_node_applied in Ep as (val & Hv & Hsub). rewrite Hn in Hv. exists val.
  split_and!; [done|eapply lookup_weaken; [|exact Hsub]..].
  - rewrite lookup_insert_ne by done. apply lookup_insert_eq.
  - apply lookup_insert_eq.
Qed.

(** What the scheduler does with a node that has reported, once it has
    renewed the handshake. *)
Lemma register_device_report zone (val : Node) devhandsk devreg s nodeInfoCopy devs now (w w1 w2 w3 : W) t n err :
  node_annos val !! devreg = Some (EncodeNodeDevices devs) -> devs <> [] -> Forall wire_node_device devs ->
  node_annos val !! devhandsk = Some ("Reported " +:+ now)%string ->
  has_char "q" now = false -> has_char "l" now = false ->
  api_Now w = (t, w1) -> api_GetNode (node_Name val) w1 = ((n, None), w2) ->
  api_PatchNode (node_Name n) {[devhandsk := "Requesting_" +:+ format_plain zone t]} w2 = (err, w3) ->
  let '(s', l) := register_report s (node_Name val) (drop_index <$> devs) in
  register_device zone val devhandsk devreg (s, nodeInfoCopy) w = Ret ((s', <[devhandsk := l]> nodeInfoCopy), w3).
Proof.
  intros Hr Hne Hw Hh Hq Hl Hn Hg Hp. unfold register_device, lift, call, mbind, K_bind, outcome_bind.
  rewrite Hr, (decode_encode_node devs Hne Hw).
  rewrite (bool_decide_false (is_Some None)) by (by intros [? ?]).
  rewrite (bool_decide_false (_ = [])) by (by destruct devs). cbn [orb].
  unfold str_lookup. rewrite Hh. cbn [default Datatypes.id].
  rewrite (contains_no_char "q") by (done || by rewrite has_char_app, Hq).
  rewrite (contains_no_char "l") by (done || by rewrite has_char_app, Hl).
  rewrite Hn. unfold patch_handshake, call, mbind, K_bind, PatchNodeAnnotations. rewrite Hg. unfold call. rewrite Hp.
  cbn. by destruct (register_report s (node_Name val) (drop_index <$> devs)).
Qed.
End report.

(** ** Starting up without a panic *)
Section startup.
Context `{GoRuntime, SpecLib}.
Context (ReadFile : string -> string + error) (minors : opened) (isWsl : bool).

(** Replicas of a table whose devices are under their identifiers: every
    identifier that is asked for is found. *)
Lemma replicate_ids_returns name Replicas (ds : rmDevices) ids : forall m,
  Forall (fun id => is_Some (ds !! id)) ids -> exists m', replicate_ids name Replicas ds ids m = Ret m'.
Proof.
  induction ids as [|id ids IH]; intros m Hi; [by eexists|]. apply Forall_cons in Hi as [[d Hd] Hi].
  cbn [replicate_ids]. rewrite Hd. destruct (Replicas <=? 0); by apply IH.
Qed.

Lemma replicate_resources_returns o rs : forall n m,
  keyed o -> exists r, replicate_resources o n rs m = Ret r.
Proof.
  induction rs as [|r rs IH]; intros n m Ho; cbn [replicate_resources]; [by eexists|].
  destruct (getIDsOfDevicesToReplicate o n r) as [ids|err] eqn:Ei; [|by eexists].
  destruct ids as [|id ids]; [by apply IH|].
  match goal with |- context [replicate_ids ?nm ?R ?ds ?idl ?m0] =>
    destruct (replicate_ids_returns nm R ds idl m0) as [m' ->] end; [|by apply IH].
  apply Forall_forall. intros x Hx. destruct (getIDs_known o n r _ x Ho Ei Hx) as (d & ds & E & Ed).
  rewrite E. by eexists.
Qed.

Lemma update_returns cfg o : keyed o -> exists r, updateDeviceMapWithReplicas cfg o = Ret r.
Proof. intros Ho. by apply replicate_resources_returns. Qed.

Lemma visit_invariant {A S} (P : S -> Prop) (f : A -> S -> S * option error) :
  (forall a s, P s -> P (f a s).1) -> forall l s, P s -> P (visit f l s).1.
Proof.
  intros Hf. induction l as [|a l IH]; intros s Hs; [done|]. cbn [visit]. specialize (Hf a s Hs).
  destruct (f a s) as [s' [e|]]; [done|by apply IH].
Qed.

Lemma setEntry_keyed m name index info : keyed m -> keyed (setEntry m name index info).1.
Proof. unfold setEntry. destruct (BuildDevice index info); [|done]. intros Hm. by apply keyed_insert. Qed.

Lemma merge_keyed d o : keyed d -> keyed (DeviceMap_merge d o).
Proof.
  unfold DeviceMap_merge. revert d. induction (range ("merge"%string, 0%nat) o) as [|[name devices] l IH]; intros d Hd; [done|].
  cbn [foldl]. apply IH. clear IH. revert d Hd. induction (range ("merge " +:+ name, 1%nat)%string devices) as [|[k dev] l' IH];
    intros d Hd; [done|]. cbn [foldl]. by apply IH, keyed_insert.
Qed.

Lemma tegra_keyed rs : forall i m m', keyed m -> tegra_loop i rs m = inl m' -> keyed m'.
Proof.
  induction rs as [|r rs IH]; intros i m m' Hm; cbn [tegra_loop]; [by intros [= <-]|].
  destruct (Matches _ _); [|by apply IH]. pose proof (setEntry_keyed m (spec.Name r) (itoa i) tegraDevice Hm).
  destruct (setEntry _ _ _ _) as [m1 [e|]]; [done|]. by apply IH.
Qed.

Context `{DeviceLib, !DeviceLibSpec}.

Lemma gpu_map_keyed cfg : keyed (buildGPUDeviceMap ReadFile isWsl cfg).
Proof.
  unfold buildGPUDeviceMap. destruct (visit_devices (visit_gpu ReadFile isWsl cfg) ∅) as [-> _].
  apply visit_invariant; [|apply keyed_empty]. intros [i gpu] m Hm. cbn. unfold visit_gpu.
  destruct (gpu_Name gpu); [|done]. destruct (gpu_MigEnabled gpu); [|done]. destruct (_ && _); [done|].
  destruct (first_match _ _); [|done]. destruct (newGPUDevice _ _ _ _). by apply setEntry_keyed.
Qed.

Lemma mig_map_keyed cfg : keyed (buildMigDeviceMap ReadFile minors cfg).1.
Proof.
  unfold buildMigDeviceMap. destruct (visit_mig_devices (visit_mig ReadFile minors cfg) ∅) as [-> _].
  apply visit_invariant; [|apply keyed_empty]. intros [[[i d] j] mig] m Hm. cbn. unfold visit_mig.
  destruct (mig_Profile mig); [|done]. destruct (first_match _ _); [|done]. destruct (newMigDevice _ _ _ _ _).
  by apply setEntry_keyed.
Qed.

Lemma config_map_keyed cfg m : buildDeviceMapFromConfigResources ReadFile minors isWsl cfg = inl m -> keyed m.
Proof.
  unfold buildDeviceMapFromConfigResources. pose proof (gpu_map_keyed cfg) as Hg. case_decide; [by intros [= <-]|].
  destruct (buildMigDeviceMap _ _ _) as [migs [e|]]; [done|]. destruct (assertAllMigDevicesAreValid _); [done|].
  destruct (_ && _); [done|]. intros [= <-]. by apply merge_keyed.
Qed.

Lemma GetPlugins_returns mode Init cfg : exists r, GetPlugins ReadFile minors isWsl mode Init cfg = Ret r.
Proof.
  destruct mode; cbn [GetPlugins]; [| |by eexists].
  - unfold NewNVMLResourceManagers. destruct Init; [by eexists|]. unfold NewDeviceMap.
    destruct (buildDeviceMapFromConfigResources _ _ _ _) as [m|] eqn:E; [|by eexists].
    destruct (update_returns cfg m (config_map_keyed _ _ E)) as [r ->]. by eexists.
  - unfold NewTegraResourceManagers. destruct (buildTegraDeviceMap cfg) as [m|] eqn:E; [|by eexists].
    destruct (update_returns cfg m (tegra_keyed _ _ _ _ keyed_empty E)) as [r ->]. by eexists.
Qed.

(** The flag of the resource name makes a value of its own. *)
Lemma resource_name_fresh c flags g p :
  "resource-name"%string ∈ flags \/ (exists name, p = Some (Fresh name)) -> (forall l, p <> Some (LoopVar l)) ->
  exists name, (foldl (apply_flag c) (g, p) flags).2 = Some (Fresh name).
Proof.
  revert g p. induction flags as [|n flags IH]; intros g p Hf Hp.
  { destruct Hf as [?%not_elem_of_nil|[name ->]]; [done|by eexists]. }
  assert (exists g' p', apply_flag c (g, p) n = (g', p') /\ (forall l, p' <> Some (LoopVar l))
    /\ (n = "resource-name"%string \/ (exists name, p = Some (Fresh name)) -> exists name, p' = Some (Fresh name))) as (g' & p' & E & Hl & Hx).
  { unfold apply_flag. repeat case_decide; do 2 eexists; split_and!; try done; try (by intros [?|?]; simplify_eq); subst n.
    - intros l. unfold updateFromCLIFlag. destruct p; [destruct (cli_IsSet c _)|]; by auto.
    - intros _. unfold updateFromCLIFlag. destruct p as [[name|l]|]; [destruct (cli_IsSet c _)| |]; try by eexists. by destruct (Hp l). }
  cbn [foldl]. rewrite E. apply IH; [|done]. destruct Hf as [[?|?]%elem_of_cons|?]; auto.
Qed.
End startup.

(** ** A node with one card *)
Definition one_card (idx : Z) : nvml_card :=
  if idx =? 0 then mkCard None (inl 17179869184) (inl "GPU-a"%string) (inl "Tesla V100"%string)
  else mkCard (Some "invalid argument"%string) (inr ""%string) (inr ""%string) (inr ""%string).
Definition one_device (id : string) : rm.Device := rm.mkDevice id "Healthy" None [] "0".
Definition one_card_options : Globals := mkGlobals [] (Some (Fresh 10)) (Some (Fresh f64_one)) (Some (Fresh f64_one)) None "n1".
Definition one_rm (ds : rmDevices) : resourceManager := mkResourceManager NvmlManager "nvidia.com/gpu" ds.

Lemma options_set NodeName file c flags g :
  globals_wf g -> option_flags ⊆ flags ->
  let g' := (generateDeviceConfigFromNvidia NodeName file c flags g).1 in
  exists memory cores count, DeviceMemoryScaling g' = Ret memory /\ DeviceCoresScaling g' = Ret cores
    /\ DeviceSplitCount g' = Ret count.
Proof.
  intros Hg Hf g'. destruct (generate_ok NodeName file c flags g Hg Hf) as [H1 H2 H3].
  destruct (deref_opt_ok cfg_Devicesplitcount _ _ H1) as [count ?].
  destruct (deref_opt_ok cfg_Devicememoryscaling _ _ H2) as [memory ?].
  destruct (deref_opt_ok cfg_Devicecorescaling _ _ H3) as [cores ?].
  by exists memory, cores, count.
Qed.

Module NvidiaMainProps.

(** C24. The options of the node are never nil: whatever the flags and the
    configuration file say, once the configuration has been generated every
    one of the three pointers that the registration of the cards follows
    points to a value. *)
Theorem options_never_nil NodeName file c flags g :
  globals_wf g -> option_flags ⊆ flags ->
  let g' := (generateDeviceConfigFromNvidia NodeName file c flags g).1 in
  exists memory cores count, DeviceMemoryScaling g' = Ret memory /\ DeviceCoresScaling g' = Ret cores
    /\ DeviceSplitCount g' = Ret count.
Proof. apply options_set. Qed.

Definition no_globals : Globals := mkGlobals [] None None None None "".
Definition default_cli : Cli := mkCli (fun _ => false) (fun _ => 2) (fun _ => f64_one) (fun _ => false) (fun _ => "nvidia.com/gpu"%string).
Definition two_nodes_file : list Nodeconfig :=
  [mkNodeconfig "n1" (f64_of_Z 2) f64_zero 4; mkNodeconfig "n2" (f64_of_Z 3) f64_zero 8].

Lemma options_never_nil_witness :
  let g' := (generateDeviceConfigFromNvidia "n1" (inl two_nodes_file) default_cli option_flags no_globals).1 in
  exists memory cores count, DeviceMemoryScaling g' = Ret memory /\ DeviceCoresScaling g' = Ret cores
    /\ DeviceSplitCount g' = Ret count.
Proof. apply options_never_nil; [by constructor|done]. Defined.

(** Starting up never panics: whatever the flags, the configuration, the
    platform and the cards, the plugin gets to its resource managers or to an
    error; in particular every device the configuration shares is found in
    the table it is looked up in. *)
Theorem load_plugins_returns `{GoRuntime, SpecLib, DeviceLib, !DeviceLibSpec} ReadFile minors isWsl NodeName file c flags pf g :
  "resource-name"%string ∈ flags ->
  exists g' r, load_plugins ReadFile minors isWsl NodeName file c flags pf g = Ret (g', r).
Proof.
  intros Hf. unfold load_plugins. destruct (loadConfig pf) as [config|]; [|by do 2 eexists].
  destruct (generateDeviceConfigFromNvidia NodeName file c flags g) as [g1 p] eqn:E.
  assert (exists name, p = Some (Fresh name)) as [name ->].
  { unfold generateDeviceConfigFromNvidia in E. destruct (resource_name_fresh c flags g None) as [name Hn]; [by left|done|].
    destruct (foldl (apply_flag c) (g, None) flags) as [g0 p0]. cbn in Hn, E. exists name. congruence. }
  destruct (AddDefaultResourcesToConfig _ _ _) as [devConfig [e|]]; [by do 2 eexists|].
  destruct (pf_MarshalIndent pf); [by do 2 eexists|]. destruct (NewPluginManager pf devConfig); [|by do 2 eexists].
  match goal with |- context [GetPlugins ?a ?b ?x ?m ?i ?cfg] => destruct (GetPlugins_returns a b x m i cfg) as [r ->] end.
  by do 2 eexists.
Qed.

Definition demo_platform : platform :=
  mkPlatform (inl shared_gpus) ["envvar"%string] DeviceIDStrategyUUID (fun _ => None) false false false None
    (fun _ => inr "not supported"%string) true false (fun _ => None) None.

Lemma load_plugins_returns_witness :
  exists g' r, @load_plugins go_reference star_lib (visiting demo_node) no_file NotExist false "n1" (inl two_nodes_file)
    default_cli ("resource-name"%string :: option_flags) demo_platform no_globals = Ret (g', r).
Proof. apply (@load_plugins_returns go_reference star_lib (visiting demo_node) (visiting_spec demo_node)). by left. Defined.

(** An option that the file sets for this node has the value of the last
    entry of the file, whichever node that entry is for: the pointer is into
    the loop variable, which the remaining iterations overwrite. *)
Theorem node_config_is_last NodeName entries v g :
  existsb (fun e => bool_decide (NodeName = cfg_Name e) && sets_memory e) (entries ++ [v]) = true ->
  existsb (fun e => bool_decide (NodeName = cfg_Name e) && sets_count e) (entries ++ [v]) = true ->
  let g' := (readFromConfigFile NodeName (inl (entries ++ [v])) g).1 in
  DeviceMemoryScaling g' = Ret (cfg_Devicememoryscaling v) /\ DeviceSplitCount g' = Ret (cfg_Devicesplitcount v).
Proof.
  intros Hm Hc. unfold readFromConfigFile. cbn [fst]. rewrite read_entries by done.
  unfold DeviceMemoryScaling, DeviceSplitCount. cbn. unfold sets. rewrite Hm, Hc. cbn.
  rewrite List.last_last, lookup_app_r, Nat.sub_diag by done. done.
Qed.

Lemma node_config_is_last_witness :
  let g' := (readFromConfigFile "n1" (inl two_nodes_file) no_globals).1 in
  DeviceMemoryScaling g' = Ret (f64_of_Z 3) /\ DeviceSplitCount g' = Ret 8.
Proof. apply (node_config_is_last "n1" [mkNodeconfig "n1" (f64_of_Z 2) f64_zero 4]); reflexivity. Defined.

(** The limit on crashes of the gRPC server: when each crash comes at most
    an hour after the one before, the server is restarted after each of the
    first six, and the seventh ends the process. *)
Theorem crash_limit start ts :
  frequent start ts ->
  serve_loop 0 start (Some <$> ts)
  = if (length ts <=? 6)%nat then ServeRunning (Z.of_nat (length ts)) else ServeQuits.
Proof.
  intros Hf. rewrite serve_loop_frequent by (done || lia). rewrite Z.add_0_l.
  destruct (Nat.leb_spec (length ts) 6), (Z.leb_spec (Z.of_nat (length ts)) 6); done || lia.
Qed.

Lemma crash_limit_witness :
  serve_loop 0 0 (Some <$> [1; 2; 3; 4; 5; 6]) = ServeRunning 6
  /\ serve_loop 0 0 (Some <$> [1; 2; 3; 4; 5; 6; 7]) = ServeQuits.
Proof. split; [apply (crash_limit 0 [1; 2; 3; 4; 5; 6])|apply (crash_limit 0 [1; 2; 3; 4; 5; 6; 7])]; vm_compute; repeat split; discriminate. Defined.

(** Through any sequence of restarts, signals and failures, a plugin of an
    earlier run never serves: the servers of the plugins that were started
    before the last restart are stopped, and when the process returns the
    servers of the last plugins are stopped too. *)
Theorem old_plugins_stopped a l :
  let st := main_run (start_main a) l in
  Forall (fun p => p_serving p = false) (m_old st)
  /\ (is_Some (m_returned st) -> Forall (fun p => p_serving p = false) (m_plugins st)).
Proof. destruct (main_run_ok (start_main a) l) as [H1 H2 H3]; [by apply run_plugins_ok|by split]. Qed.

(** The goroutine that writes the cards of the node to its annotations has
    no way to stop, so each restart adds one per plugin with devices to those
    that run already: after [l] restarts of the kubelet all of them write the
    same annotation. *)
Theorem registrars_accumulate a l :
  Forall restarts ((SIGHUP, a, fun _ => true) :: l) ->
  registrars (main_run (start_main a) l) = (started a + sum_list ((fun x => started x.1.2) <$> l))%nat.
Proof.
  intros [(_ & [rms Hr] & Ha) Hl]%Forall_cons.
  destruct (run_plugins_registrars a [] false rms Hr Ha) as [H1 H2].
  rewrite main_run_registrars by done. unfold start_main. by rewrite H2.
Qed.

Lemma registrars_accumulate_witness :
  let a := mkAttempt (inl [one_rm {["GPU-a" := one_device "GPU-a"]}]) [] in
  registrars (main_run (start_main a) (replicate 5 (KubeletSocketCreated, a, fun _ => true))) = 6%nat.
Proof.
  intros a. rewrite (registrars_accumulate a); [reflexivity|].
  repeat constructor; (by left) || (by right) || (by eexists).
Defined.

(** C7. The cards reach the scheduler: after the plugin has registered its
    cards in the annotations of the node, a scheduler that reads the current
    version of the node (and whose read of the node succeeds) has in its
    table, for every entry of the plugin's device table, the card that NVML
    has at that index, for any order of the maps, any other writer of the
    node's annotations and any result of the write of the handshake. *)
Theorem cards_reach_scheduler `{GoRuntime} {W} `{!KubeClient W} `{!KubeServer W} g ds card topo devs now (w w' : W) :
  getApiDevices g ds card topo = Ret devs -> ds <> ∅ -> Forall wire_node_device devs ->
  has_char "q" now = false -> has_char "l" now = false ->
  nvidia_RegistrInAnnotation g ds card topo now w = Ret (None, w') ->
  exists val, head (history w' (g_NodeName g)) = Some val
    /\ forall zone s nodeInfoCopy (v v1 v2 : W) t n,
       nodes_ok s -> api_Now v = (t, v1) -> api_GetNode (node_Name val) v1 = ((n, None), v2) ->
       exists s' nodeInfoCopy' v',
         register_device zone val nvidia.HandshakeAnnos nvidia.RegisterAnnos (s, nodeInfoCopy) v
         = Ret ((s', nodeInfoCopy'), v')
         /\ forall i, (i < size ds)%nat ->
            exists uuid, nc_uuid (card (Z.of_nat i)) = inl uuid /\ uuid ∈ node_ids s' (g_NodeName g).
Proof.
  intros Hd Hds Hw Hq Hl Hr. destruct (getApiDevices_spec _ _ _ _ _ Hd) as [Hlen Hcards].
  destruct (registration_annotates g ds card topo devs now w w' Hd Hr) as (val & Hv & Hreg & Hhs).
  exists val. split; [done|]. intros zone s nodeInfoCopy v v1 v2 t n Hs Hnow Hget.
  assert (node_Name val = g_NodeName g) as Hname.
  { destruct (history w' (g_NodeName g)) as [|x h] eqn:E; [done|]. injection Hv as ->.
    eapply history_name. rewrite E. by left. }
  assert (devs <> []) as Hne. { intros ->. cbn in Hlen. symmetry in Hlen. by apply map_size_empty_inv in Hlen. }
  destruct (api_PatchNode (node_Name n) {[nvidia.HandshakeAnnos := ("Requesting_" +:+ format_plain zone t)%string]} v2)
    as [err v3] eqn:Ep.
  pose proof (register_device_report zone val _ _ s nodeInfoCopy devs now v v1 v2 v3 t n err Hreg Hne Hw Hhs Hq Hl Hnow Hget Ep) as Hrd.
  pose proof (register_report_spec s (node_Name val) (drop_index <$> devs) Hs) as (_ & Hids & _ & _).
  destruct (register_report s (node_Name val) (drop_index <$> devs)) as [s' l]. rewrite Hrd.
  eexists s', _, v3. split; [done|]. intros i Hi. cbn in Hids.
  destruct (lookup_lt_is_Some_2 devs i) as [d Hdi]; [by rewrite Hlen|].
  exists (api.Id d). split; [by apply (card_device_card g ds card topo), Hcards|].
  rewrite <- Hname, Hids. apply elem_of_app. destruct (decide (api.Id d ∈ node_ids s (node_Name val))); [by left|right].
  apply list_elem_of_filter. split; [done|]. apply list_elem_of_fmap. exists (drop_index d). split; [done|].
  apply list_elem_of_fmap. exists d. split; [done|]. by eapply list_elem_of_lookup_2.
Qed.

Definition one_server : Server := mkServer {["n1" := [Some ∅]]} [] [] epoch [].
Definition one_table : rmDevices := {["GPU-a" := one_device "GPU-a"]}.
Definition one_topo : option string := Some "no such file"%string.

Lemma cards_reach_scheduler_witness :
  let _ := go_reference in
  exists devs w' val,
    getApiDevices one_card_options one_table one_card one_topo = Ret devs
    /\ nvidia_RegistrInAnnotation one_card_options one_table one_card one_topo "2024-01-01 00:00:00" one_server = Ret (None, w')
    /\ head (history w' "n1") = Some val
    /\ exists s' copy v', register_device 0 val nvidia.HandshakeAnnos nvidia.RegisterAnnos (NewScheduler, ∅) w' = Ret ((s', copy), v')
    /\ "GPU-a"%string ∈ node_ids s' "n1".
Proof.
  intros rt.
  destruct (getApiDevices one_card_options one_table one_card one_topo) as [devs|] eqn:Ed; [|by vm_compute in Ed].
  destruct (nvidia_RegistrInAnnotation one_card_options one_table one_card one_topo "2024-01-01 00:00:00" one_server)
    as [[[e|] w']|] eqn:Er; [by vm_compute in Er| |by vm_compute in Er].
  destruct (cards_reach_scheduler one_card_options one_table one_card one_topo devs "2024-01-01 00:00:00" one_server w' Ed)
    as (val & Hv & Hs); [done| |reflexivity|reflexivity|exact Er|].
  { apply (bool_decide_unpack _). assert (devs = default [] (match getApiDevices one_card_options one_table one_card one_topo with Ret l => Some l | _ => None end)) as -> by (by rewrite Ed). vm_compute. exact I. }
  exists devs, w', val. split_and!; [reflexivity|reflexivity|exact Hv|].
  assert (api_GetNode (node_Name val) w' = ((val, None), w')) as Hg.
  { vm_compute in Er. injection Er as <-. vm_compute in Hv. injection Hv as <-. vm_compute. reflexivity. }
  destruct (Hs 0 NewScheduler ∅ w' w' w' (sv_now w') val) as (s' & copy & v' & Hrd & Hc);
    [apply map_Forall_empty|reflexivity|exact Hg|].
  exists s', copy, v'. split; [exact Hrd|].
  destruct (Hc 0%nat) as (uuid & Hu & Hin); [vm_compute; lia|]. vm_compute in Hu. injection Hu as <-. exact Hin.
Defined.

(** The registration asks NVML for one card per entry of the device table,
    by index: with more entries than cards (shared devices have an entry per
    replica, MIG devices one per instance) it asks for a card that does not
    exist and panics. *)
Theorem registration_panics_beyond_cards `{GoRuntime} g ds card topo i e :
  (i < size ds)%nat -> nc_handle (card (Z.of_nat i)) = Some e ->
  exists p, getApiDevices g ds card topo = Panic p.
Proof.
  intros Hi He. destruct (getApiDevices g ds card topo) as [devs|p] eqn:E; [|by eexists].
  destruct (getApiDevices_spec _ _ _ _ _ E) as [Hlen Hcards].
  destruct (lookup_lt_is_Some_2 devs i) as [d Hdi]; [by rewrite Hlen|].
  destruct (card_device_card g ds card topo i d) as [Hn _]; [by apply Hcards|congruence].
Qed.

Lemma registration_panics_beyond_cards_witness :
  let _ := go_reference in
  exists p, getApiDevices one_card_options {["GPU-a::0" := one_device "GPU-a::0"; "GPU-a::1" := one_device "GPU-a::1"]}
              one_card one_topo = Panic p.
Proof. intros rt. eapply (registration_panics_beyond_cards _ _ _ _ 1); [vm_compute; lia|reflexivity]. Defined.
End NvidiaMainProps.
