(* ===== verification/NvidiaOptions.v ===== *)
(** * The options of the CDI handler and of the plugin manager

    [cdi.New] and [manager.New] take functional options ([cdi/options.go],
    [plugin/manager/options.go]): each is a function on the structure that is
    being built, applied in the order of the call; afterwards what was left
    out gets its default.  The structures are modelled with the fields the
    code reads, and the results are shown to be those of [NvidiaMain], which
    takes the settings one by one. *)

From Stdlib Require Import ZArith Lia Ascii String.
From stdpp Require Import base decidable option gmap strings numbers list.
From S2P Require Import Prelude GoStrings GoRuntime Types Nvidia NvidiaMap NvidiaMain.

#[local] Open Scope Z_scope.

(** ** cdi/options.go *)
Module cdi.

(** [nvml]: the library was given; a logger and a device library never are. *)
Record cdiHandler := mkHandler {
  nvml : bool;
  driverRoot : string;
  targetDriverRoot : string;
  nvidiaCTKPath : string;
  vendor : string;
  deviceIDStrategy : string;
  enabled : bool;
  gdsEnabled : bool;
  mofedEnabled : bool;
}.

Definition zeroHandler : cdiHandler := mkHandler false "" "" "" "" "" false false false.

Definition Option : Type := cdiHandler -> cdiHandler.

Definition WithEnabled (enabled : bool) : Option := fun c =>
  mkHandler (nvml c) (driverRoot c) (targetDriverRoot c) (nvidiaCTKPath c) (vendor c) (deviceIDStrategy c) enabled (gdsEnabled c) (mofedEnabled c).
Definition WithDriverRoot (root : string) : Option := fun c =>
  mkHandler (nvml c) root (targetDriverRoot c) (nvidiaCTKPath c) (vendor c) (deviceIDStrategy c) (enabled c) (gdsEnabled c) (mofedEnabled c).
Definition WithTargetDriverRoot (root : string) : Option := fun c =>
  mkHandler (nvml c) (driverRoot c) root (nvidiaCTKPath c) (vendor c) (deviceIDStrategy c) (enabled c) (gdsEnabled c) (mofedEnabled c).
Definition WithNvidiaCTKPath (path : string) : Option := fun c =>
  mkHandler (nvml c) (driverRoot c) (targetDriverRoot c) path (vendor c) (deviceIDStrategy c) (enabled c) (gdsEnabled c) (mofedEnabled c).
Definition WithNvml (nvml : bool) : Option := fun c =>
  mkHandler nvml (driverRoot c) (targetDriverRoot c) (nvidiaCTKPath c) (vendor c) (deviceIDStrategy c) (enabled c) (gdsEnabled c) (mofedEnabled c).
Definition WithDeviceIDStrategy (strategy : string) : Option := fun c =>
  mkHandler (nvml c) (driverRoot c) (targetDriverRoot c) (nvidiaCTKPath c) (vendor c) strategy (enabled c) (gdsEnabled c) (mofedEnabled c).
Definition WithVendor (vendor : string) : Option := fun c =>
  mkHandler (nvml c) (driverRoot c) (targetDriverRoot c) (nvidiaCTKPath c) vendor (deviceIDStrategy c) (enabled c) (gdsEnabled c) (mofedEnabled c).
Definition WithGdsEnabled (enabled_ : bool) : Option := fun c =>
  mkHandler (nvml c) (driverRoot c) (targetDriverRoot c) (nvidiaCTKPath c) (vendor c) (deviceIDStrategy c) (enabled c) enabled_ (mofedEnabled c).
Definition WithMofedEnabled (enabled_ : bool) : Option := fun c =>
  mkHandler (nvml c) (driverRoot c) (targetDriverRoot c) (nvidiaCTKPath c) (vendor c) (deviceIDStrategy c) (enabled c) (gdsEnabled c) enabled_.

Definition apply_options (opts : list Option) : cdiHandler := foldl (fun c opt => opt c) zeroHandler opts.

(** The defaults of [newHandler]; the target root follows the root. *)
Definition with_defaults (c : cdiHandler) : cdiHandler :=
  let strategy := if decide (deviceIDStrategy c = "") then "uuid"%string else deviceIDStrategy c in
  let root := if decide (driverRoot c = "") then "/"%string else driverRoot c in
  let target := if decide (targetDriverRoot c = "") then root else targetDriverRoot c in
  mkHandler true root target (nvidiaCTKPath c) (vendor c) strategy (enabled c) (gdsEnabled c) (mofedEnabled c).

(** A call of [nvcdi.New]: for the class "gpu" with NVML and the namer, or
    for a mode. *)
Record lib_call := mkLibCall {
  lc_mode : string;
  lc_nvml : bool;
  lc_nvidiaCTKPath : string;
  lc_driverRoot : string;
  lc_deviceNamer : option string;
  lc_vendor : string;
}.

Definition call_of (c : cdiHandler) (mode : string) : lib_call :=
  if decide (mode = "gpu"%string) then mkLibCall mode (nvml c) (nvidiaCTKPath c) (driverRoot c) (Some (deviceIDStrategy c)) (vendor c)
  else mkLibCall mode false (nvidiaCTKPath c) (driverRoot c) None (vendor c).

(** The two implementations of the interface. *)
Inductive handler :=
| NullHandler
| Handler (c : cdiHandler) (cdilibs : gmap string cdi_class).

Definition NewNullHandler : handler := NullHandler.

Section new.
Context (NewDeviceNamer : string -> option error) (nvcdi_New : lib_call -> cdi_class + error).

Fixpoint new_libs (c : cdiHandler) (modes : list string) (cdilibs : gmap string cdi_class) : gmap string cdi_class + error :=
  match modes with
  | [] => inl cdilibs
  | mode :: modes' =>
      match nvcdi_New (call_of c mode) with
      | inr err => inr ("failed to create nvcdi library: " +:+ err)%string
      | inl lib => new_libs c modes' (<[mode := lib]> cdilibs)
      end
  end.

Definition newHandler (opts : list Option) : handler + error :=
  let c := apply_options opts in
  if negb (enabled c) then inl NullHandler
  else
    let c := with_defaults c in
    match NewDeviceNamer (deviceIDStrategy c) with
    | Some err => inr err
    | None =>
        match nvcdi_New (call_of c "gpu") with
        | inr err => inr ("failed to create nvcdi library: " +:+ err)%string
        | inl lib =>
            let additionalModes :=
              (if gdsEnabled c then ["gds"%string] else []) ++ (if mofedEnabled c then ["mofed"%string] else []) in
            match new_libs c additionalModes {["gpu"%string := lib]} with
            | inr err => inr err
            | inl cdilibs => inl (Handler c cdilibs)
            end
        end
    end.

Definition New (hasNVML : bool) (opts : list Option) : handler + error :=
  if negb hasNVML then inl NewNullHandler else newHandler opts.
End new.

(** The null handler names no device. *)
Definition handler_QualifiedName (h : handler) (class id : string) : string :=
  match h with
  | NullHandler => ""
  | Handler c _ => QualifiedName (vendor c) class id
  end.

Definition libs_of (h : handler) : option (gmap string cdi_class) :=
  match h with NullHandler => None | Handler _ cdilibs => Some cdilibs end.

Definition handler_CreateSpecFile `{GoRuntime} (Init : option error) (h : handler) : list string * option error :=
  CreateSpecFile Init (libs_of h).
End cdi.

(** ** plugin/manager/options.go *)
Module manager.

Record manager := mkManager {
  migStrategy : string;
  failOnInitError : bool;
  nvmllib : bool;
  cdiHandler : option cdi.handler;
  cdiEnabled : bool;
  config : option DeviceConfig;
}.

Definition zeroManager : manager := mkManager "" false false None false None.

Definition Option : Type := manager -> manager.

Definition WithCDIEnabled (enabled : bool) : Option := fun m =>
  mkManager (migStrategy m) (failOnInitError m) (nvmllib m) (cdiHandler m) enabled (config m).
Definition WithCDIHandler (handler : cdi.handler) : Option := fun m =>
  mkManager (migStrategy m) (failOnInitError m) (nvmllib m) (Some handler) (cdiEnabled m) (config m).
Definition WithNVML (nvmllib : bool) : Option := fun m =>
  mkManager (migStrategy m) (failOnInitError m) nvmllib (cdiHandler m) (cdiEnabled m) (config m).
Definition WithFailOnInitError (fail : bool) : Option := fun m =>
  mkManager (migStrategy m) fail (nvmllib m) (cdiHandler m) (cdiEnabled m) (config m).
Definition WithMigStrategy (strategy : string) : Option := fun m =>
  mkManager strategy (failOnInitError m) (nvmllib m) (cdiHandler m) (cdiEnabled m) (config m).
Definition WithConfig (config_ : option DeviceConfig) : Option := fun m =>
  mkManager (migStrategy m) (failOnInitError m) (nvmllib m) (cdiHandler m) (cdiEnabled m) config_.

(** The implementations of the interface: [null], [nvmlmanager], [tegramanager]. *)
Inductive impl :=
| Null
| Nvml (m : manager)
| Tegra (m : manager).

Definition New (hasNVML isTegra : bool) (Init : option error) (opts : list Option) : impl + error :=
  let m := foldl (fun m opt => opt m) zeroManager opts in
  match config m with
  | None => inl Null
  | Some _ =>
      let handler := default cdi.NewNullHandler (cdiHandler m) in
      match resolveMode hasNVML isTegra (failOnInitError m) with
      | inr err => inr err
      | inl mode =>
          let enabled := match mode with ModeNvml => cdiEnabled m | _ => false end in
          let m' nvml := mkManager (migStrategy m) (failOnInitError m) nvml (Some handler) enabled (config m) in
          match mode with
          | ModeNvml =>
              match Init with
              | Some ret => if failOnInitError m then inr ("nvml init failed: " +:+ ret)%string else inl Null
              | None => inl (Nvml (m' true))
              end
          | ModeTegra => inl (Tegra (m' (nvmllib m)))
          | ModeNull => inl Null
          end
      end
  end.

(** [CreateCDISpecFile] of the three. *)
Definition CreateCDISpecFile `{GoRuntime} (Init : option error) (x : impl) : outcome (list string * option error) :=
  match x with
  | Null | Tegra _ => Ret ([], None)
  | Nvml m =>
      match cdiHandler m with
      | Some h => Ret (cdi.handler_CreateSpecFile Init h)
      | None => Panic NilDereference
      end
  end.

Definition mode_of (x : impl) : manager_mode := match x with Null => ModeNull | Nvml _ => ModeNvml | Tegra _ => ModeTegra end.
End manager.

(** ** plugin-manager.go: the options [NewPluginManager] passes *)
Definition cdi_options (enabled : bool) (ContainerDriverRoot NvidiaDriverRoot NvidiaCTKPath DeviceIDStrategy : string) (gds mofed : bool)
    : list cdi.Option :=
  [cdi.WithEnabled enabled; cdi.WithDriverRoot ContainerDriverRoot; cdi.WithTargetDriverRoot NvidiaDriverRoot;
   cdi.WithNvidiaCTKPath NvidiaCTKPath; cdi.WithNvml true; cdi.WithDeviceIDStrategy DeviceIDStrategy;
   cdi.WithVendor "k8s.device-plugin.nvidia.com"; cdi.WithGdsEnabled gds; cdi.WithMofedEnabled mofed].

Definition manager_options (enabled : bool) (handler : cdi.handler) (config : DeviceConfig) : list manager.Option :=
  [manager.WithNVML true; manager.WithCDIEnabled enabled; manager.WithCDIHandler handler; manager.WithConfig (Some config);
   manager.WithFailOnInitError (dc_FailOnInitError config); manager.WithMigStrategy (dc_MigStrategy config)].

(** ** Facts *)
Lemma new_libs_modes nvcdi_New c modes libs :
  cdi.new_libs nvcdi_New c modes libs = additional_libs (fun mode => nvcdi_New (cdi.call_of c mode)) modes libs.
Proof.
  revert libs. induction modes as [|mode modes IH]; intros libs; cbn; [done|]. destruct (nvcdi_New _); [apply IH|done].
Qed.

(** The settings of a handler are complete. *)
Definition complete (h : cdi.handler) : Prop :=
  match h with
  | cdi.NullHandler => True
  | cdi.Handler c _ => cdi.nvml c = true /\ cdi.deviceIDStrategy c <> ""%string /\ cdi.driverRoot c <> ""%string
      /\ cdi.targetDriverRoot c <> ""%string /\ cdi.enabled c = true
  end.

Lemma with_defaults_complete c : cdi.enabled c = true -> complete (cdi.Handler (cdi.with_defaults c) ∅).
Proof. intros He. unfold complete, cdi.with_defaults. cbn. repeat case_decide; split_and!; congruence. Qed.

Lemma newHandler_complete NewDeviceNamer nvcdi_New opts h :
  cdi.newHandler NewDeviceNamer nvcdi_New opts = inl h -> complete h.
Proof.
  unfold cdi.newHandler. destruct (cdi.enabled (cdi.apply_options opts)) eqn:He; cbn [negb]; [|by intros [= <-]].
  destruct (NewDeviceNamer _); [done|]. destruct (nvcdi_New _); [|done]. destruct (cdi.new_libs _ _ _ _); [|done].
  intros [= <-]. by apply with_defaults_complete.
Qed.

(** The handler of the options, before the defaults. *)
Definition plugin_handler (enabled : bool) (root target ctk strategy : string) (gds mofed : bool) : cdi.cdiHandler :=
  cdi.mkHandler true root target ctk "k8s.device-plugin.nvidia.com" strategy enabled gds mofed.

Lemma apply_cdi_options enabled root target ctk strategy gds mofed :
  cdi.apply_options (cdi_options enabled root target ctk strategy gds mofed) = plugin_handler enabled root target ctk strategy gds mofed.
Proof. reflexivity. Qed.

(** [newHandler] after the options are applied. *)
Lemma newHandler_settings NewDeviceNamer nvcdi_New opts c0 :
  cdi.apply_options opts = c0 ->
  match cdi.newHandler NewDeviceNamer nvcdi_New opts,
        newHandler (fun mode => nvcdi_New (cdi.call_of (cdi.with_defaults c0) mode)) (cdi.enabled c0) (cdi.gdsEnabled c0) (cdi.mofedEnabled c0)
          (NewDeviceNamer (cdi.deviceIDStrategy (cdi.with_defaults c0))) with
  | inl h, inl libs => cdi.libs_of h = libs /\ (libs <> None -> h = cdi.Handler (cdi.with_defaults c0) (default ∅ libs))
  | inr err, inr err' => err = err'
  | _, _ => False
  end.
Proof.
  intros E. unfold cdi.newHandler, newHandler. rewrite E. destruct (cdi.enabled c0); cbn [negb]; [|by split].
  destruct (NewDeviceNamer _); [done|]. destruct (nvcdi_New _) as [lib|]; [|done]. rewrite new_libs_modes.
  change (cdi.gdsEnabled (cdi.with_defaults c0)) with (cdi.gdsEnabled c0).
  change (cdi.mofedEnabled (cdi.with_defaults c0)) with (cdi.mofedEnabled c0).
  destruct (additional_libs _ _ _) as [libs|]; [|done]. by split.
Qed.

Lemma cdi_New_nvml NewDeviceNamer nvcdi_New opts :
  cdi.New NewDeviceNamer nvcdi_New true opts = cdi.newHandler NewDeviceNamer nvcdi_New opts.
Proof. reflexivity. Qed.

(** An enabled handler is a real one. *)
Lemma newHandler_real NewDeviceNamer nvcdi_New opts h :
  cdi.enabled (cdi.apply_options opts) = true -> cdi.newHandler NewDeviceNamer nvcdi_New opts = inl h ->
  exists libs, h = cdi.Handler (cdi.with_defaults (cdi.apply_options opts)) libs.
Proof.
  intros He. unfold cdi.newHandler. rewrite He. cbn [negb]. destruct (NewDeviceNamer _); [done|]. destruct (nvcdi_New _); [|done].
  destruct (cdi.new_libs _ _ _ _) as [libs|]; [|done]. intros [= <-]. by exists libs.
Qed.

(** The manager with NVML keeps the handler and the switch of the options. *)
Lemma manager_nvml hasNVML isTegra Init enabled h config m :
  manager.New hasNVML isTegra Init (manager_options enabled h config) = inl (manager.Nvml m) ->
  hasNVML = true /\ manager.cdiHandler m = Some h /\ manager.cdiEnabled m = enabled.
Proof.
  unfold manager.New. cbn [manager_options foldl manager.config manager.WithMigStrategy manager.WithFailOnInitError manager.WithConfig manager.failOnInitError].
  destruct hasNVML; unfold resolveMode; destruct isTegra, (dc_FailOnInitError config), Init; cbn; try done; by intros [= <-].
Qed.

Module NvidiaOptionsProps.

(** [cdi.New] with options computes what [NvidiaMain.cdi_New] computes
    from the settings: the options of [NewPluginManager] reach the library,
    every handler has a root, a target root and an identifier strategy, and
    the target root defaults to the root. *)
Theorem cdi_options_refine NewDeviceNamer nvcdi_New hasNVML enabled root target ctk strategy gds mofed :
  let c := cdi.with_defaults (cdi.apply_options (cdi_options enabled root target ctk strategy gds mofed)) in
  match cdi.New NewDeviceNamer nvcdi_New hasNVML (cdi_options enabled root target ctk strategy gds mofed),
        cdi_New (fun mode => nvcdi_New (cdi.call_of c mode)) hasNVML enabled gds mofed (NewDeviceNamer (cdi.deviceIDStrategy c)) with
  | inl h, inl libs => cdi.libs_of h = libs /\ complete h
      /\ (libs <> None -> h = cdi.Handler c (default ∅ libs) /\ cdi.vendor c = "k8s.device-plugin.nvidia.com"%string)
  | inr err, inr err' => err = err'
  | _, _ => False
  end.
Proof.
  intros c. unfold cdi.New, cdi_New. destruct hasNVML; cbn [negb]; [|by split_and!].
  pose proof (newHandler_settings NewDeviceNamer nvcdi_New _ _ (apply_cdi_options enabled root target ctk strategy gds mofed)) as Hs.
  pose proof (newHandler_complete NewDeviceNamer nvcdi_New (cdi_options enabled root target ctk strategy gds mofed)) as Hc.
  subst c. rewrite apply_cdi_options. cbn [cdi.enabled cdi.gdsEnabled cdi.mofedEnabled plugin_handler] in Hs.
  destruct (cdi.newHandler _ _ _) as [h|err], (newHandler _ _ _ _ _) as [libs|err']; try done.
  destruct Hs as [Hl Hh]. split_and!; [done|by apply Hc|]. intros Hn. split; [by apply Hh|reflexivity].
Qed.

(** A device is never given an empty CDI name: when [manager.New] builds
    the NVML manager with CDI enabled, its handler is a real one, so every
    qualified name begins with the vendor. *)
Theorem cdi_names_qualified `{GoRuntime} NewDeviceNamer nvcdi_New hasNVML isTegra Init enabled root target ctk strategy gds mofed config h m class id :
  cdi.New NewDeviceNamer nvcdi_New hasNVML (cdi_options enabled root target ctk strategy gds mofed) = inl h ->
  manager.New hasNVML isTegra Init (manager_options enabled h config) = inl (manager.Nvml m) -> manager.cdiEnabled m = true ->
  exists h', manager.cdiHandler m = Some h'
    /\ cdi.handler_QualifiedName h' class id = ("k8s.device-plugin.nvidia.com/" +:+ class +:+ "=" +:+ id)%string.
Proof.
  intros Eh (-> & Eh' & <-)%manager_nvml Hen. exists h. split; [done|]. rewrite cdi_New_nvml in Eh.
  apply newHandler_real in Eh as [libs ->]; rewrite apply_cdi_options; [|exact Hen].
  unfold cdi.handler_QualifiedName, QualifiedName. cbn [cdi.vendor cdi.with_defaults plugin_handler]. by rewrite <- !str_app_assoc.
Qed.

Definition cdi_ok (c : cdi.lib_call) : cdi_class + error := inl (mkCdiClass None None (inl "gpu"%string) None).
Definition plain_device_config : DeviceConfig := mkDeviceConfig "none" true [] [] false [] "nvidia.com/gpu".

Lemma cdi_names_qualified_witness :
  let _ := go_reference in
  exists h m, cdi.New (fun _ => None) cdi_ok true (cdi_options true "" "/run/nvidia" "" "" false true) = inl h
    /\ manager.New true false None (manager_options true h plain_device_config) = inl (manager.Nvml m)
    /\ exists h', manager.cdiHandler m = Some h' /\ cdi.handler_QualifiedName h' "gpu" "0" = "k8s.device-plugin.nvidia.com/gpu=0"%string.
Proof.
  intros rt.
  destruct (cdi.New (fun _ => None) cdi_ok true (cdi_options true "" "/run/nvidia" "" "" false true)) as [h|] eqn:Eh;
    [|vm_compute in Eh; discriminate Eh].
  destruct (manager.New true false None (manager_options true h plain_device_config)) as [[|m|]|] eqn:Em; try discriminate Em.
  assert (manager.cdiEnabled m = true) as He by (injection Em as <-; reflexivity).
  exists h, m. split; [reflexivity|]. split; [exact Em|].
  destruct (cdi_names_qualified (fun _ => None) cdi_ok true false None true "" "/run/nvidia" "" "" false true plain_device_config h m "gpu" "0"
    Eh Em He) as (h' & E & Q). exists h'. split; [exact E|exact Q].
Defined.

(** [manager.New] with the options of [NewPluginManager] chooses the mode that
    [NvidiaMain.New_manager] chooses, and writes the specifications of the
    handler it was given. *)
Theorem manager_options_refine `{GoRuntime} hasNVML isTegra Init enabled h config Init' :
  match manager.New hasNVML isTegra Init (manager_options enabled h config),
        New_manager hasNVML isTegra (dc_FailOnInitError config) enabled Init with
  | inl x, inl (mode, _) => manager.mode_of x = mode
      /\ manager.CreateCDISpecFile Init' x = Ret (match mode with ModeNvml => CreateSpecFile Init' (cdi.libs_of h) | _ => ([], None) end)
  | inr err, inr err' => err = err'
  | _, _ => False
  end.
Proof.
  unfold manager.New, New_manager. cbn. destruct (resolveMode _ _ _) as [[]|]; [|by split..|done].
  destruct Init; [destruct (dc_FailOnInitError config); by split_and?|by split].
Qed.
End NvidiaOptionsProps.
