(* ===== verification/Handshake.v ===== *)
(** * The handshake of a device plugin and the scheduler

    The NVIDIA plugin writes its cards and "Reported ..." into two annotations
    of its node ([nvidia_RegistrInAnnotation], nvinternal/plugin/register.go);
    a round of the scheduler ([register_round], pkg/scheduler/scheduler.go)
    registers them and answers "Requesting_<time>"; a request that is not
    answered in time makes it remove the cards and write "Deleted_<time>".
    Here both loops run against one API server in any order, with time passing
    between their turns, and are related to a small machine: four phases and
    the identifiers the scheduler has registered.

    One node carries the plugin, nobody else writes to it, and no call fails.
    The code lists the nodes through the informer's cache; here a round of the
    scheduler reads the current version of the node, as if the cache had
    caught up before every round. *)

From Stdlib Require Import ZArith Lia Ascii String Sorted.
From stdpp Require Import base decidable option gmap strings numbers sorting list.
From S2P Require Import Prelude GoStrings GoTime GoRuntime Types Kube NodeLock Codec Devices Score Scheduler Register UsageFacts FilterFacts RegisterProps Nvidia NvidiaMain NvidiaMainFacts.

#[local] Open Scope Z_scope.

(** ** The abstract machine *)
Inductive phase :=
| Unseen                   (* the plugin has not reported yet *)
| Reported
| Requested (t0 : Z)       (* the time of the request *)
| Removed.

(** [hs_known] are the identifiers registered for the node, [hs_before] those
    that were registered before the last report. *)
Record machine := mkMachine { hs_phase : phase; hs_known : list string; hs_before : list string; hs_now : Z }.

Inductive hs_event :=
| Tick (d : Z)             (* nanoseconds pass *)
| Report (now : string)    (* a turn of the plugin's loop; its time as a text *)
| Round.                   (* a round of the scheduler *)

(** The time a request expires at, as the scheduler reads it back. *)
Definition deadline (zone t0 : Z) : Z := (t0 / Second + zone + 60) * Second.

Definition machine_event (zone : Z) (ids : list string) (m : machine) (e : hs_event) : machine :=
  match e with
  | Tick d => mkMachine (hs_phase m) (hs_known m) (hs_before m) (hs_now m + d)
  | Report _ => mkMachine Reported (hs_known m) (hs_before m) (hs_now m)
  | Round =>
      match hs_phase m with
      | Reported =>
          mkMachine (Requested (hs_now m)) (hs_known m ++ filter (fun id => id ∉ hs_known m) ids) (hs_known m) (hs_now m)
      | Requested t0 => if deadline zone t0 <? hs_now m then mkMachine Removed (hs_before m) (hs_before m) (hs_now m) else m
      | Unseen | Removed => m
      end
  end.

Definition machine_run (zone : Z) (ids : list string) : machine -> list hs_event -> machine := foldl (machine_event zone ids).

(** ** The two programs *)
Section programs.
Context `{GoRuntime} (zone : Z) (g : Globals) (ds : rmDevices) (card : Z -> nvml_card) (topo : option string).

Abbreviation system := (Scheduler * gmap string loc * Server)%type.

Definition with_now (w : Server) (t : Z) : Server := mkServer (sv_nodes w) (sv_pods w) (sv_bound w) t (sv_script w).

Definition system_event (e : hs_event) (x : system) : outcome system :=
  let '(s, copy, w) := x in
  match e with
  | Tick d => Ret (s, copy, with_now w (sv_now w + d))
  | Report now =>
      match watch_and_register_round g ds card topo now w with
      | Ret (_, w) => Ret (s, copy, w)
      | Panic p => Panic p
      end
  | Round =>
      match register_round zone (s, copy) w with
      | Ret ((s, copy, _), w) => Ret (s, copy, w)
      | Panic p => Panic p
      end
  end.

Fixpoint system_run (es : list hs_event) (x : system) : outcome system :=
  match es with
  | [] => Ret x
  | e :: es' => x ← system_event e x; system_run es' x
  end.

(** ** What relates them *)
Context (devs : list api.DeviceInfo).
Abbreviation name := (g_NodeName g).
Abbreviation report_text := (EncodeNodeDevices devs).

(** The handshake of a phase, and what the scheduler needs to undo the last
    report. *)
Definition phase_annos (p : phase) (annos : gmap string string) : Prop :=
  match p with
  | Unseen => annos !! nvidia.RegisterAnnos = None
  | Reported => annos !! nvidia.RegisterAnnos = Some report_text
      /\ exists now, annos !! nvidia.HandshakeAnnos = Some ("Reported " +:+ now)%string /\ has_char "q" now = false /\ has_char "l" now = false
  | Requested t0 => annos !! nvidia.RegisterAnnos = Some report_text
      /\ annos !! nvidia.HandshakeAnnos = Some ("Requesting_" +:+ format_plain zone t0)%string /\ plain_time t0
  | Removed => annos !! nvidia.RegisterAnnos = Some report_text
      /\ exists t, annos !! nvidia.HandshakeAnnos = Some ("Deleted_" +:+ format_plain zone t)%string /\ plain_time t
  end.

Definition phase_undo (m : machine) (s : Scheduler) (copy : gmap string loc) : Prop :=
  match hs_phase m with
  | Requested _ => exists l, copy !! nvidia.HandshakeAnnos = Some l /\ undoes s name l (hs_before m)
  | _ => True
  end.

Definition related (m : machine) (x : system) : Prop :=
  let '(s, copy, w) := x in
  exists annos h, w = quiet name (Some annos :: h) (hs_now m)
    /\ phase_annos (hs_phase m) annos /\ annos !! cambricon.RegisterAnnos = None /\ annos !! hygon.RegisterAnnos = None
    /\ nodes_ok s /\ node_ids s name = hs_known m /\ (""%string ∉ hs_known m) /\ (""%string ∉ hs_before m)
    /\ phase_undo m s copy.
End programs.

(** ** The server nobody else writes to *)
Section quiet_server.
Context (name : string) (annos : gmap string string) (h : list (option (gmap string string))) (t : Z).
Abbreviation w := (quiet name (Some annos :: h) t).

Lemma quiet_patch a :
  api_PatchNode name a w = (None, quiet name (Some (a ∪ annos) :: Some annos :: h) t).
Proof.
  change (api_PatchNode (W := Server)) with server_PatchNode. unfold server_PatchNode.
  change (step w) with (None : option error, w). cbv iota beta. rewrite quiet_history. cbn [versions head].
  unfold write_node, quiet, with_nodes. cbn. by rewrite lookup_singleton_eq, insert_singleton_eq.
Qed.

Lemma quiet_list : api_ListNodes w = (([mkNode name (Some annos) (Z.of_nat (length h))], None), w).
Proof.
  change (api_ListNodes w) with (let '(err, w) := step w in
    ((omap (fun name => head (server_history w name)) (map_to_list (sv_nodes w)).*1, err), w)).
  change (step w) with (None : option error, w). cbv iota beta. cbn [sv_nodes quiet].
  rewrite map_to_list_singleton. cbn [fmap list_fmap fst omap list_omap]. by rewrite quiet_history.
Qed.

Lemma quiet_now : api_Now w = (t, w).
Proof. done. Qed.

(** Reading the node and writing one annotation. *)
Lemma quiet_handshake devhandsk text :
  patch_handshake name devhandsk text w
  = Ret (true, quiet name (Some ({[devhandsk := text]} ∪ annos) :: Some annos :: h) t).
Proof.
  unfold patch_handshake, call, mbind, K_bind, PatchNodeAnnotations. rewrite quiet_get. cbv iota beta. cbn [node_Name].
  unfold call. by rewrite quiet_patch.
Qed.
End quiet_server.

(** ** A round on one node with one kind of card *)
Section round.
Context `{GoRuntime} (zone : Z).

Lemma register_skips {W} `{!KubeClient W} val devhandsk devreg st (w : W) :
  node_annos val !! devreg = None -> register_device zone val devhandsk devreg st w = Ret (st, w).
Proof. intros Hn. unfold register_device. destruct st as [s copy]. by rewrite Hn. Qed.

Lemma register_kinds_only {W} `{!KubeClient W} val hs reg kinds st (w : W) :
  NoDup kinds.*1 -> (hs, reg) ∈ kinds ->
  Forall (fun x => x.1 <> hs -> node_annos val !! x.2 = None) kinds ->
  register_kinds zone val kinds st w = register_device zone val hs reg st w.
Proof.
  assert (forall l st (w : W), Forall (fun x => node_annos val !! x.2 = None) l -> register_kinds zone val l st w = Ret (st, w)) as Hskip.
  { intros l st' w' Hl. revert st' w'. induction Hl as [|[k v] l Hk _ IH]; intros st' w'; cbn [register_kinds]; [done|].
    unfold mbind, K_bind. rewrite register_skips by done. apply IH. }
  intros Hnd Hin Hf. apply list_elem_of_split in Hin as (pre & post & ->). rewrite fmap_app, fmap_cons in Hnd.
  apply NoDup_app in Hnd as (_ & Hpre & Hpost). apply NoDup_cons in Hpost as [Hpost _]. cbn [fst] in *.
  apply Forall_app in Hf as [Hf1 Hf2]. apply Forall_cons in Hf2 as [_ Hf2].
  assert (Forall (fun x => node_annos val !! x.2 = None) post) as Hq.
  { rewrite Forall_forall in *. intros x Hx. apply Hf2; [done|]. intros E. apply Hpost. rewrite <- E. by apply list_elem_of_fmap_2. }
  revert Hpre Hf1 st w. induction pre as [|[k v] pre IH]; intros Hpre Hf1 st w; cbn [app register_kinds].
  - unfold mbind, K_bind. destruct (register_device zone val hs reg st w) as [[st' w']|p]; [by rewrite Hskip|done].
  - apply Forall_cons in Hf1 as [Hk Hf1]. unfold mbind, K_bind. rewrite register_skips.
    + apply IH; [|done]. intros x Hx. apply Hpre. by right.
    + apply Hk. cbn [fst]. intros ->. apply (Hpre hs); [by left|by left].
Qed.

Lemma round_one_node name annos h t s copy :
  annos !! cambricon.RegisterAnnos = None -> annos !! hygon.RegisterAnnos = None ->
  register_round zone (s, copy) (quiet name (Some annos :: h) t)
  = match register_device zone (mkNode name (Some annos) (Z.of_nat (length h))) nvidia.HandshakeAnnos nvidia.RegisterAnnos (s, copy)
            (quiet name (Some annos :: h) t) with
    | Ret ((s, copy), w) => Ret ((((getNodesUsage s [name]).1.1, copy), None), w)
    | Panic p => Panic p
    end.
Proof.
  intros Hc Hh. unfold register_round, call, mbind, K_bind. rewrite quiet_list. cbv iota beta. cbn [register_nodes].
  unfold mbind, K_bind. rewrite (register_kinds_only _ nvidia.HandshakeAnnos nvidia.RegisterAnnos).
  - destruct (register_device _ _ _ _ _ _) as [[[s' copy'] w']|p]; [|done]. unfold mret, K_ret. cbn [fmap list_fmap node_Name fst snd].
    by destruct (getNodesUsage s' [name]) as [[? ?] ?].
  - rewrite (range_perm _ KnownDevice). apply NoDup_fst_map_to_list.
  - rewrite range_perm. apply elem_of_map_to_list. reflexivity.
  - rewrite range_perm. apply Forall_forall. intros [k v] Hk%elem_of_map_to_list Hne. cbn [fst snd] in *.
    unfold KnownDevice in Hk. apply lookup_insert_Some in Hk as [[<- _]|[_ Hk]]; [done|].
    apply lookup_insert_Some in Hk as [[_ <-]|[_ Hk]]; [exact Hc|].
    apply lookup_singleton_Some in Hk as [_ <-]. exact Hh.
Qed.
End round.

(** ** One event *)
Section steps.
Context `{GoRuntime} (zone : Z) (g : Globals) (ds : rmDevices) (card : Z -> nvml_card) (topo : option string) (devs : list api.DeviceInfo).
Context (Hdevs : getApiDevices g ds card topo = Ret devs) (Hne : devs <> []) (Hwire : Forall wire_node_device devs)
        (Hid : ""%string ∉ api.Id <$> devs) (Hz : plain_zone zone).
Abbreviation name := (g_NodeName g).
Abbreviation rel := (related zone g devs).
Abbreviation next m e := (machine_event zone (api.Id <$> devs) m e).
Abbreviation sys := (system_event zone g ds card topo).

Lemma tick_step d m x : rel m x -> exists x', sys (Tick d) x = Ret x' /\ rel (next m (Tick d)) x'.
Proof.
  destruct x as [[s copy] w]. intros (annos & h & -> & Hrel). eexists. split; [reflexivity|]. exists annos, h. by split.
Qed.

Lemma report_step now m x :
  has_char "q" now = false -> has_char "l" now = false -> rel m x ->
  exists x', sys (Report now) x = Ret x' /\ rel (next m (Report now)) x'.
Proof.
  intros Hq Hl. destruct x as [[s copy] w]. intros (annos & h & -> & _ & Hc & Hh & Hs & Hk & Hb1 & Hb2 & _).
  eexists. split.
  { unfold system_event, watch_and_register_round, nvidia_RegistrInAnnotation, mbind, K_bind, lift, call.
    rewrite Hdevs. unfold mbind, outcome_bind. cbv iota beta. rewrite quiet_get. cbv iota beta. cbn [node_Name]. unfold PatchNodeAnnotations, call.
    rewrite quiet_patch. reflexivity. }
  eexists _, _. split; [reflexivity|].
  split_and!; [|by rewrite lookup_union_r by done|by rewrite lookup_union_r by done|done|exact Hk|exact Hb1|exact Hb2|exact I].
  split; [|exists now; split; [|done]]; by apply lookup_union_Some_l.
Qed.

(** A request that has expired, and a handshake that says so. *)
Lemma register_expired val s copy t0 l s' annos h t :
  val = mkNode name (Some annos) (Z.of_nat (length h)) -> annos !! nvidia.RegisterAnnos = Some (EncodeNodeDevices devs) ->
  annos !! nvidia.HandshakeAnnos = Some ("Requesting_" +:+ format_plain zone t0)%string -> plain_time t0 -> deadline zone t0 < t ->
  is_Some (s_nodes s !! name) -> copy !! nvidia.HandshakeAnnos = Some l -> rmNodeDevice s name l = Ret s' ->
  register_device zone val nvidia.HandshakeAnnos nvidia.RegisterAnnos (s, copy) (quiet name (Some annos :: h) t)
  = Ret ((s', copy), quiet name (Some ({[nvidia.HandshakeAnnos := ("Deleted_" +:+ format_plain zone t)%string]} ∪ annos) :: Some annos :: h) t).
Proof.
  intros -> Hreg Hhs Ht0 Hlt [l0 Hl0] Hl Erm.
  assert (str_lookup annos nvidia.HandshakeAnnos = ("Requesting_" +:+ format_plain zone t0)%string) as Hhs' by (unfold str_lookup; by rewrite Hhs).
  unfold register_device, lift, call, mbind, K_bind, outcome_bind.
  change (node_annos (mkNode name (Some annos) (Z.of_nat (length h)))) with annos. rewrite Hreg, Hhs', (decode_encode_node devs Hne Hwire).
  rewrite (bool_decide_false (is_Some None)) by (by intros [? ?]). rewrite (bool_decide_false (_ = [])) by (by destruct devs).
  cbn [orb]. rewrite contains_requesting. destruct (handshake_time zone t0 Ht0 Hz) as [-> Hpt]. cbn [slice_get lookup list_lookup]. cbv beta iota.
  rewrite quiet_now, Hpt. cbv beta iota. unfold deadline in Hlt.
  destruct (Z.ltb_spec ((t0 / Second + zone) * Second + 60 * Second) t) as [_|]; [|lia].
  cbn [node_Name]. rewrite Hl0, Hl, Erm. cbv beta iota. rewrite quiet_now. cbv beta iota. by rewrite quiet_handshake.
Qed.

Lemma register_deleted val s copy t1 (w : Server) :
  node_annos val !! nvidia.RegisterAnnos = Some (EncodeNodeDevices devs) ->
  node_annos val !! nvidia.HandshakeAnnos = Some ("Deleted_" +:+ format_plain zone t1)%string -> plain_time t1 ->
  register_device zone val nvidia.HandshakeAnnos nvidia.RegisterAnnos (s, copy) w = Ret ((s, copy), w).
Proof.
  intros Hreg Hhs Ht. unfold register_device, str_lookup. rewrite Hreg, Hhs, (decode_encode_node devs Hne Hwire).
  rewrite (bool_decide_false (is_Some None)) by (by intros [? ?]). rewrite (bool_decide_false (_ = [])) by (by destruct devs).
  cbn [orb default]. unfold Datatypes.id. rewrite (contains_no_char "q"); [done|done|]. rewrite has_char_app. cbn [has_char].
  apply plain_no_char; [|done..]. split; [done|by repeat constructor].
Qed.

(** What a round does with the scheduler's tables only. *)
Lemma usage_keeps m s copy annos h t :
  phase_annos zone devs (hs_phase m) annos -> annos !! cambricon.RegisterAnnos = None -> annos !! hygon.RegisterAnnos = None ->
  nodes_ok s -> node_ids s name = hs_known m -> (""%string ∉ hs_known m) -> (""%string ∉ hs_before m) -> phase_undo g m s copy ->
  hs_now m = t -> rel m ((getNodesUsage s [name]).1.1, copy, quiet name (Some annos :: h) t).
Proof.
  intros Hp Hc Hh Hs Hk Hb1 Hb2 Hu <-. unfold getNodesUsage. destruct (cache_nodes s [name]) as [cached failed].
  exists annos, h. by split_and!.
Qed.

Lemma round_step m x : plain_time (hs_now m) -> rel m x -> exists x', sys Round x = Ret x' /\ rel (next m Round) x'.
Proof.
  intros Ht. destruct x as [[s copy] w]. intros (annos & h & -> & Hp & Hc & Hh & Hs & Hk & Hb1 & Hb2 & Hu).
  unfold system_event. rewrite round_one_node by done. cbn [machine_event].
  pose proof (quiet_now name annos h (hs_now m)) as Hnow. pose proof (quiet_get name (Some annos) h (hs_now m)) as Hget.
  set (val := mkNode name (Some annos) (Z.of_nat (length h))) in *.
  destruct (hs_phase m) as [| |t0|] eqn:Em.
  - rewrite register_skips by exact Hp. eexists. split; [reflexivity|]. apply usage_keeps; try done. by rewrite Em.
  - destruct Hp as [Hreg (now & Hhs & Hq & Hl)].
    pose proof (quiet_patch name annos h (hs_now m) {[nvidia.HandshakeAnnos := ("Requesting_" +:+ format_plain zone (hs_now m))%string]}) as Hpatch.
    pose proof (register_device_report zone val nvidia.HandshakeAnnos nvidia.RegisterAnnos s copy devs now _ _ _ _ _ _ _
      Hreg Hne Hwire Hhs Hq Hl Hnow Hget Hpatch) as Hrd. cbn [node_Name val] in Hrd.
    pose proof (register_report_spec s name (drop_index <$> devs) Hs) as (Hs' & Hids & _ & _).
    pose proof (report_undoes s name (drop_index <$> devs) Hs ltac:(by destruct devs) ltac:(by rewrite Hk)) as Hun.
    destruct (register_report s name (drop_index <$> devs)) as [s' l]. cbn [fst] in *. rewrite Hrd. eexists. split; [reflexivity|].
    assert (api.Id <$> (drop_index <$> devs) = api.Id <$> devs) as Eid by (rewrite <- list_fmap_compose; by apply list_fmap_ext).
    rewrite Eid, Hk in Hids. apply usage_keeps; cbn [hs_phase hs_known hs_before hs_now]; try done.
    + split_and!; [by rewrite lookup_union_r by done|by apply lookup_union_Some_l, lookup_singleton_eq|done].
    + by rewrite lookup_union_r by done.
    + by rewrite lookup_union_r by done.
    + intros [?|[_ ?]%list_elem_of_filter]%elem_of_app; [by apply Hb1|by apply Hid].
    + exists l. rewrite lookup_insert_eq. split; [done|]. by rewrite <- Hk.
  - destruct Hp as (Hreg & Hhs & Ht0). destruct (Z.ltb_spec (deadline zone t0) (hs_now m)) as [Hlt|Hge].
    + unfold phase_undo in Hu. rewrite Em in Hu. destruct Hu as (l & Hl & Hun).
      destruct (undoes_removes s name l (hs_before m) Hs Hun) as (s' & Erm & Hs' & Hids). pose proof Hun as (l0 & Hl0 & _).
      rewrite (register_expired val s copy t0 l s' annos h (hs_now m) eq_refl Hreg Hhs Ht0 Hlt (ex_intro _ l0 Hl0) Hl Erm).
      eexists. split; [reflexivity|]. apply usage_keeps; cbn [hs_phase hs_known hs_before hs_now]; try done.
      * split; [by rewrite lookup_union_r by done|]. exists (hs_now m). split; [by apply lookup_union_Some_l, lookup_singleton_eq|done].
      * by rewrite lookup_union_r by done.
      * by rewrite lookup_union_r by done.
    + assert (str_lookup (node_annos val) nvidia.HandshakeAnnos = ("Requesting_" +:+ format_plain zone t0)%string) as Hhs'
        by (unfold str_lookup; cbn [node_annos val node_Annotations default]; unfold Datatypes.id; by rewrite Hhs).
      rewrite (request_pending zone val nvidia.HandshakeAnnos nvidia.RegisterAnnos s copy _ (drop_index <$> devs) t0 _ _ _
        Hreg (decode_encode_node devs Hne Hwire) ltac:(by destruct devs) Hhs' Ht0 Hz Hnow Hge).
      eexists. split; [reflexivity|]. apply usage_keeps; try done. by rewrite Em.
  - destruct Hp as (Hreg & t & Hhs & Htt). rewrite (register_deleted val s copy t) by done.
    eexists. split; [reflexivity|]. apply usage_keeps; try done. rewrite Em. split; [done|]. by exists t.
Qed.
End steps.

(** ** Runs *)
Definition valid_event (e : hs_event) : Prop :=
  match e with
  | Tick d => 0 <= d
  | Report now => has_char "q" now = false /\ has_char "l" now = false
  | Round => True
  end.

Definition no_report (e : hs_event) : Prop := match e with Report _ => False | _ => True end.

(** The time that passes in a run. *)
Fixpoint ticks (es : list hs_event) : Z :=
  match es with
  | [] => 0
  | Tick d :: es' => d + ticks es'
  | _ :: es' => ticks es'
  end.

(** The plugin is never silent for longer than [D]. *)
Definition punctual (D : Z) (es : list hs_event) : Prop :=
  forall pre mid post, es = pre ++ mid ++ post -> Forall no_report mid -> ticks mid <= D.

Lemma second_floor t : t / Second * Second <= t < (t / Second + 1) * Second.
Proof. unfold Second. Z.to_euclidean_division_equations. lia. Qed.

Section machine.
Context (zone : Z) (ids : list string).
Abbreviation run := (machine_run zone ids).

Lemma machine_now m e : hs_now (machine_event zone ids m e) = hs_now m + ticks [e].
Proof.
  destruct e as [d|now|]; cbn [machine_event ticks hs_now]; [lia|lia|].
  destruct (hs_phase m) as [| |t0|]; cbn [hs_now]; try lia. destruct (_ <? _); cbn [hs_now]; lia.
Qed.

Lemma ticks_cons e es : ticks (e :: es) = ticks [e] + ticks es.
Proof. destruct e; cbn; lia. Qed.

Lemma ticks_app es es' : ticks (es ++ es') = ticks es + ticks es'.
Proof. induction es as [|e es IH]; [done|]. rewrite <- app_comm_cons, (ticks_cons e (es ++ es')), (ticks_cons e es), IH. lia. Qed.

Lemma ticks_nonneg es : Forall valid_event es -> 0 <= ticks es.
Proof. induction 1 as [|e es He _ IH]; [done|]. rewrite (ticks_cons e es). destruct e; cbn in *; lia. Qed.

Lemma run_now es m : hs_now (run m es) = hs_now m + ticks es.
Proof.
  revert m. induction es as [|e es IH]; intros m; [cbn; lia|]. change (run m (e :: es)) with (run (machine_event zone ids m e) es).
  rewrite IH, machine_now, (ticks_cons e es). lia.
Qed.

(** As long as requests are answered in time, nothing is removed. *)
Lemma punctual_kept D es : forall m el,
  0 <= zone -> D <= 59 * Second -> 0 <= el -> Forall valid_event es ->
  hs_phase m <> Removed -> (forall t0, hs_phase m = Requested t0 -> hs_now m <= t0 + el) ->
  (forall mid post, es = mid ++ post -> Forall no_report mid -> el + ticks mid <= D) -> punctual D es ->
  hs_phase (run m es) <> Removed /\ hs_known m `prefix_of` hs_known (run m es).
Proof.
  induction es as [|e es IH]; intros m el Hz HD He Hv Hph Hreq Hmid Hp; [done|].
  apply Forall_cons in Hv as [Hve Hv]. assert (punctual D es) as Hp'.
  { intros pre mid post -> Hm. by apply (Hp (e :: pre) mid post). }
  change (run m (e :: es)) with (run (machine_event zone ids m e) es).
  assert (no_report e -> forall mid post, es = mid ++ post -> Forall no_report mid -> el + ticks [e] + ticks mid <= D) as Hrest.
  { intros Hn mid post -> Hm. rewrite <- Z.add_assoc, <- (ticks_cons e mid). apply (Hmid (e :: mid) post); [done|by constructor]. }
  destruct e as [d|now|]; cbn [machine_event valid_event ticks] in *.
  - destruct (IH (mkMachine (hs_phase m) (hs_known m) (hs_before m) (hs_now m + d)) (el + d)) as [H1 H2]; cbn; try done; try lia.
    + intros t0 E. specialize (Hreq t0 E). lia.
    + intros mid post E Hm. specialize (Hrest I mid post E Hm). lia.
  - destruct (IH (mkMachine Reported (hs_known m) (hs_before m) (hs_now m)) 0) as [H1 H2]; cbn; try done; try lia.
    intros mid post E Hm. apply (Hp' [] mid post E Hm).
  - assert (el <= D) as Hel by (specialize (Hmid [] (Round :: es) eq_refl (Forall_nil_2 _)); cbn in Hmid; lia).
    specialize (Hrest I). setoid_rewrite Z.add_0_r in Hrest.
    destruct (hs_phase m) as [| |t0|] eqn:Em; [apply (IH m el); rewrite ?Em; done| | |done].
    + destruct (IH (mkMachine (Requested (hs_now m)) (hs_known m ++ filter (fun id => id ∉ hs_known m) ids) (hs_known m) (hs_now m)) el)
        as [H1 H2]; cbn; try done; [by intros t0 [= ->]; lia|].
      split; [done|]. etransitivity; [|exact H2]. cbn. by apply prefix_app_r.
    + specialize (Hreq t0 eq_refl). pose proof (second_floor t0).
      destruct (Z.ltb_spec (deadline zone t0) (hs_now m)) as [Hlt|_]; [exfalso|].
      { unfold deadline in Hlt. set (q := t0 / Second) in *. clearbody q. unfold Second in *. nia. }
      apply (IH m el); rewrite ?Em; try done. by intros t1 [= <-].
Qed.

(** A run without reports only makes requests expire. *)
Lemma silent_phase es : forall m t0,
  Forall no_report es -> hs_phase m = Requested t0 \/ hs_phase m = Removed /\ hs_known m = hs_before m ->
  hs_before (run m es) = hs_before m
  /\ (hs_phase (run m es) = Requested t0 \/ hs_phase (run m es) = Removed /\ hs_known (run m es) = hs_before m).
Proof.
  induction es as [|e es IH]; intros m t0 Hn Hph; [done|]. apply Forall_cons in Hn as [He Hn].
  change (run m (e :: es)) with (run (machine_event zone ids m e) es).
  assert (hs_before (machine_event zone ids m e) = hs_before m /\ (hs_phase (machine_event zone ids m e) = Requested t0
    \/ hs_phase (machine_event zone ids m e) = Removed /\ hs_known (machine_event zone ids m e) = hs_before m)) as [Hb H1].
  { destruct e as [d|now|]; cbn [machine_event] in *; [by cbn|done|]. destruct Hph as [E|[E1 E2]].
    - rewrite E. destruct (_ <? _); cbn; tauto.
    - rewrite E1. tauto. }
  destruct (IH _ t0 Hn ltac:(by rewrite Hb)) as [H2 H3]. rewrite Hb in *. done.
Qed.
End machine.

(** ** The programs follow the machine *)
Section refine.
Context `{GoRuntime} (zone : Z) (g : Globals) (ds : rmDevices) (card : Z -> nvml_card) (topo : option string) (devs : list api.DeviceInfo).

(** What the cards and the zone have to be. *)
Record sound_report : Prop := {
  sr_devices : getApiDevices g ds card topo = Ret devs;
  sr_some : devs <> [];
  sr_wire : Forall wire_node_device devs;
  sr_named : ""%string ∉ api.Id <$> devs;
  sr_zone : plain_zone zone;
}.

Lemma run_refines es : forall m x,
  sound_report -> related zone g devs m x -> Forall valid_event es ->
  plain_time (hs_now m) -> plain_time (hs_now m + ticks es) ->
  exists x', system_run zone g ds card topo es x = Ret x' /\ related zone g devs (machine_run zone (api.Id <$> devs) m es) x'.
Proof.
  induction es as [|e es IH]; intros m x Hs Hr Hv Ht Ht'; [by exists x|]. apply Forall_cons in Hv as [He Hv].
  pose proof Hs as [H1 H2 H3 H4 H5]. pose proof (ticks_nonneg es Hv) as Hn. rewrite (ticks_cons e es) in Ht'.
  assert (exists x1, system_event zone g ds card topo e x = Ret x1
    /\ related zone g devs (machine_event zone (api.Id <$> devs) m e) x1) as (x1 & E1 & Hr1).
  { destruct e as [d|now|]; [by apply tick_step|destruct He; by eapply report_step|by eapply round_step]. }
  assert (0 <= ticks [e]) as Hd by (apply ticks_nonneg; by constructor).
  destruct (IH _ x1 Hs Hr1 Hv) as (x' & E' & Hr').
  - rewrite machine_now. unfold plain_time, Second in *. split; [destruct Ht|destruct Ht']; Z.to_euclidean_division_equations; lia.
  - rewrite machine_now. by rewrite <- Z.add_assoc.
  - exists x'. split; [|done]. cbn [system_run]. rewrite E1. exact E'.
Qed.
End refine.

(** The cluster of the examples: one node, one card. *)
Definition fresh_node : Scheduler * gmap string loc * Server := (NewScheduler, ∅, quiet "n1" [Some ∅] epoch).
Definition single_table : rmDevices := {["GPU-a" := one_device "GPU-a"]}.
Definition no_topo : option string := Some "no such file"%string.
Definition one_report : list api.DeviceInfo :=
  match @getApiDevices go_reference one_card_options single_table one_card no_topo with Ret l => l | Panic _ => [] end.
Definition report_now : string := "2024-01-01 00:00:00".
Definition unseen : machine := mkMachine Unseen [] [] epoch.

Lemma one_report_sound : @sound_report go_reference 0 one_card_options single_table one_card no_topo one_report.
Proof.
  split; [vm_compute; reflexivity|vm_compute; discriminate| | |done].
  - vm_compute (one_report). repeat constructor; vm_compute; intuition congruence.
  - apply (bool_decide_unpack (_ ∉ _)). vm_compute. exact I.
Qed.

Lemma fresh_related : related 0 one_card_options one_report unseen fresh_node.
Proof. exists ∅, []. split_and!; try done; by apply not_elem_of_nil. Qed.

Lemma punctual_short D es : Forall valid_event es -> ticks es <= D -> punctual D es.
Proof.
  intros Hv Hd pre mid post -> _. rewrite !ticks_app in Hd. apply Forall_app in Hv as [H1 Hv]. apply Forall_app in Hv as [_ H2].
  apply ticks_nonneg in H1, H2. lia.
Qed.

Lemma reported_related :
  exists x, @system_event go_reference 0 one_card_options single_table one_card no_topo (Report report_now) fresh_node = Ret x
    /\ related 0 one_card_options one_report (mkMachine Reported [] [] epoch) x.
Proof.
  pose proof one_report_sound as [H1 H2 H3 H4 H5].
  apply (@report_step go_reference 0 one_card_options single_table one_card no_topo one_report H1 report_now unseen);
    [reflexivity|reflexivity|exact fresh_related].
Qed.

Module HandshakeProps.

(** C8. The plugin's loop and the scheduler's loop, run against one API server
    in any order and with any time between their turns, never panic and follow
    the handshake machine: the annotations always say the phase the machine is
    in, and the identifiers registered for the node are the machine's.  The
    cluster is one node with its plugin; nobody else writes to it, no call
    fails, [getApiDevices] returns a report of devices that survive their
    encoding, the times have the width of the layout, and the scheduler reads
    the current version of the node (the code reads the cache of the
    informer). *)
Theorem handshake_refines `{GoRuntime} zone g ds card topo devs m x es :
  sound_report zone g ds card topo devs -> related zone g devs m x -> Forall valid_event es ->
  plain_time (hs_now m) -> plain_time (hs_now m + ticks es) ->
  exists x', system_run zone g ds card topo es x = Ret x' /\ related zone g devs (machine_run zone (api.Id <$> devs) m es) x'.
Proof. apply run_refines. Qed.

Lemma handshake_refines_witness :
  exists x', @system_run go_reference 0 one_card_options single_table one_card no_topo
      [Report report_now; Round; Tick (120 * Second); Round] fresh_node = Ret x'
    /\ related 0 one_card_options one_report (machine_run 0 (api.Id <$> one_report) unseen [Report report_now; Round; Tick (120 * Second); Round]) x'.
Proof.
  apply (@handshake_refines go_reference 0 one_card_options single_table one_card no_topo one_report unseen fresh_node);
    [exact one_report_sound|exact fresh_related|repeat constructor; done|vm_compute; split; congruence|vm_compute; split; congruence].
Defined.

(** C10. A plugin that keeps answering keeps its cards: while it reports at
    least every 59 seconds (its loop sleeps 30), and the scheduler's clock is
    not west of Greenwich, no interleaving of the two loops takes a registered
    card out of the scheduler's table, and after its first report that a round
    has seen all its cards are in it. *)
Theorem answering_plugin_kept `{GoRuntime} zone g ds card topo devs m x es1 es2 now :
  sound_report zone g ds card topo devs -> related zone g devs m x -> hs_phase m = Unseen -> 0 <= zone ->
  let es := es1 ++ Report now :: Round :: es2 in
  Forall valid_event es -> punctual (59 * Second) es -> plain_time (hs_now m) -> plain_time (hs_now m + ticks es) ->
  exists s copy w, system_run zone g ds card topo es x = Ret (s, copy, w)
    /\ hs_known m `prefix_of` node_ids s (g_NodeName g) /\ Forall (fun d => api.Id d ∈ node_ids s (g_NodeName g)) devs.
Proof.
  intros Hs Hr Hph Hz es Hv Hp Ht Ht'. destruct (run_refines zone g ds card topo devs es m x Hs Hr Hv Ht Ht') as ([[s copy] w] & E & Hr').
  exists s, copy, w. split; [exact E|]. destruct Hr' as (_ & _ & _ & _ & _ & _ & _ & Hk & _).
  set (ids := api.Id <$> devs) in *. rewrite Hk. split.
  { apply (punctual_kept zone ids (59 * Second) es m 0); try done; [by rewrite Hph|by rewrite Hph|].
    intros mid post E' Hm. apply (Hp [] mid post E' Hm). }
  set (m1 := machine_run zone ids m (es1 ++ [Report now; Round])).
  assert (machine_run zone ids m es = machine_run zone ids m1 es2) as -> by (unfold m1, es, machine_run; by rewrite !foldl_app).
  assert (es = (es1 ++ [Report now; Round]) ++ es2) as Ees by (unfold es; by rewrite <- app_assoc).
  assert (hs_phase m1 = Requested (hs_now m1) /\ forall i, i ∈ ids -> i ∈ hs_known m1) as [Hm1 Hin].
  { unfold m1, machine_run. rewrite foldl_app. cbn [foldl machine_event hs_phase hs_known hs_now]. split; [done|]. intros i Hi. apply elem_of_app.
    destruct (decide (i ∈ hs_known (foldl (machine_event zone ids) m es1))); [by left|right]. by apply list_elem_of_filter. }
  destruct (punctual_kept zone ids (59 * Second) es2 m1 0) as [_ [k Hk2]]; try done.
  - rewrite Ees in Hv. by apply Forall_app in Hv as [_ Hv].
  - by rewrite Hm1.
  - intros t0 E'. rewrite Hm1 in E'. injection E' as <-. lia.
  - intros mid post -> Hm. apply (Hp (es1 ++ [Report now; Round]) mid post); [done|done].
  - intros pre mid post -> Hm. apply (Hp ((es1 ++ [Report now; Round]) ++ pre) mid post); [|done]. by rewrite Ees, <- !app_assoc.
  - rewrite Hk2. apply Forall_forall. intros d Hd. apply elem_of_app. left. by apply Hin, list_elem_of_fmap_2.
Qed.

Lemma answering_plugin_kept_witness :
  exists s copy w, @system_run go_reference 0 one_card_options single_table one_card no_topo
      [Report report_now; Round; Tick (30 * Second); Round; Report report_now; Round] fresh_node = Ret (s, copy, w)
    /\ Forall (fun d => api.Id d ∈ node_ids s "n1") one_report.
Proof.
  destruct (@answering_plugin_kept go_reference 0 one_card_options single_table one_card no_topo one_report unseen fresh_node
    [] [Tick (30 * Second); Round; Report report_now; Round] report_now one_report_sound fresh_related eq_refl ltac:(lia))
    as (s & copy & w & E & _ & Hin).
  - repeat constructor; done.
  - apply punctual_short; [repeat constructor; done|vm_compute; congruence].
  - vm_compute. split; congruence.
  - vm_compute. split; congruence.
  - exists s, copy, w. split; [exact E|exact Hin].
Defined.

(** C11. A plugin that falls silent loses the cards of its last report: once a
    round has seen the report, a run without further reports that lasts 61
    seconds (and the offset of the scheduler's zone) and ends with a round
    leaves exactly the identifiers that were registered before the report, and
    the handshake says so.  For the first report that is none; for a later one
    that brought nothing new, the cards stay. *)
Theorem silent_plugin_dropped `{GoRuntime} zone g ds card topo devs m x es :
  sound_report zone g ds card topo devs -> related zone g devs m x -> hs_phase m = Reported ->
  Forall valid_event es -> Forall no_report es -> (61 + zone) * Second <= ticks es ->
  plain_time (hs_now m) -> plain_time (hs_now m + ticks es) ->
  exists s copy w, system_run zone g ds card topo (Round :: es ++ [Round]) x = Ret (s, copy, w)
    /\ node_ids s (g_NodeName g) = hs_known m
    /\ exists t, str_lookup (default ∅ (current_annos w (g_NodeName g))) nvidia.HandshakeAnnos = ("Deleted_" +:+ format_plain zone t)%string.
Proof.
  intros Hs Hr Hph Hv Hn Hlong Ht Ht'. set (ids := api.Id <$> devs).
  destruct (run_refines zone g ds card topo devs (Round :: es ++ [Round]) m x Hs Hr) as ([[s copy] w] & E & Hr').
  { constructor; [done|]. apply Forall_app. split; [done|by repeat constructor]. } { done. }
  { cbn [ticks]. rewrite ticks_app. cbn [ticks]. by rewrite Z.add_0_r. }
  set (m1 := mkMachine (Requested (hs_now m)) (hs_known m ++ filter (fun id => id ∉ hs_known m) ids) (hs_known m) (hs_now m)).
  assert (machine_run zone ids m (Round :: es ++ [Round]) = machine_event zone ids (machine_run zone ids m1 es) Round) as Em.
  { unfold machine_run. cbn [foldl machine_event]. rewrite Hph, foldl_app. done. }
  destruct (silent_phase zone ids es m1 (hs_now m) Hn ltac:(by left)) as [Hb Hp1].
  assert (hs_phase (machine_run zone ids m (Round :: es ++ [Round])) = Removed
    /\ hs_known (machine_run zone ids m (Round :: es ++ [Round])) = hs_known m) as [Hfin Hkn].
  { rewrite Em. cbn [machine_event]. destruct Hp1 as [-> | [E1 E2]]; [|by rewrite E1].
    pose proof (second_floor (hs_now m)) as Hfl. rewrite run_now.
    destruct (Z.ltb_spec (deadline zone (hs_now m)) (hs_now m1 + ticks es)) as [_|Hge]; [by rewrite Hb|exfalso].
    unfold deadline in Hge. cbn [hs_now m1] in Hge. set (q := hs_now m / Second) in *. clearbody q. unfold Second in *. lia. }
  exists s, copy, w. split; [exact E|]. destruct Hr' as (annos & h & -> & Hpa & _ & _ & _ & Hk & _). fold ids in Hk, Hpa.
  rewrite Hk, Hkn. split; [done|]. rewrite Hfin in Hpa. destruct Hpa as (_ & t & Hh & _). exists t.
  unfold current_annos. rewrite quiet_history. unfold str_lookup. cbn. by rewrite Hh.
Qed.

Lemma silent_plugin_dropped_witness :
  exists x s copy w, @system_event go_reference 0 one_card_options single_table one_card no_topo (Report report_now) fresh_node = Ret x
    /\ @system_run go_reference 0 one_card_options single_table one_card no_topo [Round; Tick (120 * Second); Round] x = Ret (s, copy, w)
    /\ node_ids s "n1" = [].
Proof.
  destruct reported_related as (x & Ex & Hr). exists x.
  destruct (@silent_plugin_dropped go_reference 0 one_card_options single_table one_card no_topo one_report _ x [Tick (120 * Second)]
    one_report_sound Hr eq_refl) as (s & copy & w & E & Hk & _).
  - repeat constructor; done.
  - repeat constructor.
  - vm_compute. congruence.
  - vm_compute. split; congruence.
  - vm_compute. split; congruence.
  - exists s, copy, w. split; [exact Ex|]. split; [exact E|exact Hk].
Defined.

(** West of Greenwich the handshake removes a plugin that answers: the time of
    a request reads back as hours ago, so the first two rounds after a report
    register the cards and remove them again, with no time in between. *)
Theorem west_zone_removes_live `{GoRuntime} zone g ds card topo devs m x :
  sound_report zone g ds card topo devs -> related zone g devs m x -> hs_phase m = Reported -> zone < -60 -> plain_time (hs_now m) ->
  exists s copy w, system_run zone g ds card topo [Round; Round] x = Ret (s, copy, w) /\ node_ids s (g_NodeName g) = hs_known m.
Proof.
  intros Hs Hr Hph Hz Ht. destruct (run_refines zone g ds card topo devs [Round; Round] m x Hs Hr) as ([[s copy] w] & E & Hr');
    [by repeat constructor|done|cbn [ticks]; by rewrite Z.add_0_r|].
  exists s, copy, w. split; [exact E|]. destruct Hr' as (_ & _ & _ & _ & _ & _ & _ & -> & _).
  unfold machine_run. cbn [foldl machine_event]. rewrite Hph. cbn [machine_event hs_phase hs_now hs_before].
  pose proof (second_floor (hs_now m)) as Hfl.
  destruct (Z.ltb_spec (deadline zone (hs_now m)) (hs_now m)) as [_|Hge]; [done|exfalso].
  unfold deadline in Hge. set (q := hs_now m / Second) in *. clearbody q. unfold Second in *. nia.
Qed.
End HandshakeProps.
