(* ===== verification/NvidiaServe.v ===== *)
(** * The NVIDIA device plugin towards the kubelet

    The rest of [nvinternal/plugin/server.go]: the socket of a plugin, the
    request with which it registers, and the calls of the device-plugin API
    that answer at once; the resource managers' side of the preferred
    allocation ([rm/allocate.go], [nvml_manager.go], [tegra_manager.go]); the
    command line of [cmd/device-plugin/nvidia] ([main], [addFlags]) and the
    version of [nvinternal/info].

    [gpuallocator] is not part of the repository: class [GpuAllocator] holds
    the calls, [GpuAllocatorSpec] what its documentation promises.  The split
    of a resource name is a parameter too. *)

From Stdlib Require Import ZArith Lia Ascii String Sorted.
From stdpp Require Import base decidable option gmap strings numbers sorting list.
From S2P Require Import Prelude GoStrings GoTime GoRuntime Types Kube Codec Devices PodAlloc Nvidia NvidiaFacts NvidiaMap NvidiaMapFacts NvidiaMain NvidiaMainFacts.

#[local] Open Scope Z_scope.

(** ** rm: the preferred allocation *)
Class GpuAllocator (D : Type) := {
  NewDevicesFrom : list string -> list D + error;
  alignedAllocationPolicy_Allocate : list D -> list D -> Z -> list D;
  device_UUID : D -> string;
}.

(** A list of devices stands for the UUIDs asked for; the best-effort policy
    returns nothing, or as many devices as asked for, each once, from the
    available ones and with the required ones among them. *)
Class GpuAllocatorSpec (D : Type) `{!GpuAllocator D} := {
  devices_from uuids ds : NewDevicesFrom uuids = inl ds -> device_UUID <$> ds = uuids;
  policy_exact available required size :
    let l := alignedAllocationPolicy_Allocate available required size in
    l = [] \/ Z.of_nat (length l) = size /\ required ⊆ l /\ l ⊆ available
              /\ (NoDup (device_UUID <$> available) -> NoDup (device_UUID <$> l));
}.

Section allocate.
Context `{GoRuntime} {D : Type} `{!GpuAllocator D}.

Definition alignedAlloc (available required : list string) (size : Z) : outcome (list string * option error) :=
  match NewDevicesFrom available with
  | inr err => Ret ([], Some ("unable to retrieve list of available devices: " +:+ err)%string)
  | inl availableDevices =>
      match NewDevicesFrom required with
      | inr err => Ret ([], Some ("unable to retrieve list of required devices: " +:+ err)%string)
      | inl requiredDevices =>
          Ret (device_UUID <$> alignedAllocationPolicy_Allocate availableDevices requiredDevices size, None)
      end
  end.

(** The method of the two managers. *)
Definition rm_GetPreferredAllocation (r : resourceManager) (available required : list string) (size : Z)
    : outcome (list string * option error) :=
  match rmg_kind r with
  | NvmlManager => getPreferredAllocation alignedAlloc (rmg_devices r) available required size
  | TegraManager => distributedAlloc (rmg_devices r) available required size
  end.

Definition rm_GetDevicePaths (r : resourceManager) (ids : list string) : list string :=
  match rmg_kind r with
  | NvmlManager => GetDevicePaths (rmg_devices r) ids
  | TegraManager => []
  end.

Lemma fmap_incl {A B} (f : A -> B) (l k : list A) : l ⊆ k -> f <$> l ⊆ f <$> k.
Proof. intros Hlk x (y & -> & Hy)%list_elem_of_fmap. apply list_elem_of_fmap_2. by apply Hlk. Qed.

(** What the policy returns, in terms of UUIDs. *)
Lemma alignedAlloc_exact `{!GpuAllocatorSpec D} available required size l :
  NoDup available -> alignedAlloc available required size = Ret (l, None) ->
  l = [] \/ Z.of_nat (length l) = size /\ required ⊆ l /\ l ⊆ available /\ NoDup l.
Proof.
  intros Hnd. unfold alignedAlloc.
  destruct (NewDevicesFrom available) as [ads|] eqn:Ea; [|done]. destruct (NewDevicesFrom required) as [rds|] eqn:Er; [|done].
  apply devices_from in Ea, Er. subst available required. intros [= <-].
  destruct (policy_exact ads rds size) as [->|(Hl & Hr & Ha & Hn)]; [by left|]. right. rewrite length_fmap.
  split_and!; [done|by apply fmap_incl|by apply fmap_incl|by apply Hn].
Qed.
End allocate.

(** ** plugin/server.go *)
Module plugin.

Definition DevicePluginPath : string := "/var/lib/kubelet/device-plugins/".
Definition KubeletSocket : string := DevicePluginPath +:+ "kubelet.sock".

Record RegisterRequest := mkRegisterRequest {
  Version : string;
  Endpoint : string;
  ResourceName : string;
  GetPreferredAllocationAvailable : bool;
}.

Section server.
Context (resource_Split : string -> string * string).

(** The field [socket] of a new plugin. *)
Definition socket (r : resourceManager) : string :=
  DevicePluginPath +:+ "nvidia-" +:+ (resource_Split (rmg_resource r)).2 +:+ ".sock".

(** The options: the preferred allocation is announced. *)
Definition GetDevicePluginOptions : bool := true.

(** The body of [GetPreferredAllocation] is commented out: no response for any
    of the containers. *)
Definition GetPreferredAllocation (reqs : list (list string * list string * Z)) : list (list string) * option error := ([], None).

Definition PreStartContainer : option error := None.

(** [dial] answers the connection to a socket, [kubelet] the call. *)
Definition Register (dial : string -> option error) (kubelet : RegisterRequest -> option error) (r : resourceManager) : option error :=
  match dial KubeletSocket with
  | Some err => Some err
  | None => kubelet (mkRegisterRequest "v1beta1" (path_base (socket r)) (rmg_resource r) GetDevicePluginOptions)
  end.

(** How the outside answers the calls of [Start]: [Serve] listens on the socket
    and dials it, then [Register] runs. *)
Definition answer_of (listen dial : string -> option error) (kubelet : RegisterRequest -> option error) (r : resourceManager)
    : start_answer :=
  match listen (socket r) with
  | Some e => ListenFails e
  | None =>
      match dial (socket r) with
      | Some e => DialFails e
      | None =>
          match Register dial kubelet r with
          | Some e => RegisterFails e
          | None => Answers
          end
      end
  end.
End server.
End plugin.

(** ** cmd/device-plugin/nvidia: the command line *)
Inductive flag_value :=
| StringFlag (Value : string)
| BoolFlag (Value : bool)
| StringSliceFlag (Value : list string)
| UintFlag (Value : Z)
| Float64Flag (Value : float64).

Record cli_flag := mkCliFlag { flag_Name : string; flag_Value : flag_value; flag_EnvVars : list string }.

(** [main]; the defaults of the [spec] package are arguments. *)
Definition main_flags (DeviceListStrategyEnvvar DefaultNvidiaCTKPath DefaultContainerDriverRoot : string) : list cli_flag :=
  [mkCliFlag "mig-strategy" (StringFlag spec.MigStrategyNone) ["MIG_STRATEGY"];
   mkCliFlag "fail-on-init-error" (BoolFlag true) ["FAIL_ON_INIT_ERROR"];
   mkCliFlag "nvidia-driver-root" (StringFlag "/") ["NVIDIA_DRIVER_ROOT"];
   mkCliFlag "pass-device-specs" (BoolFlag false) ["PASS_DEVICE_SPECS"];
   mkCliFlag "device-list-strategy" (StringSliceFlag [DeviceListStrategyEnvvar]) ["DEVICE_LIST_STRATEGY"];
   mkCliFlag "device-id-strategy" (StringFlag DeviceIDStrategyUUID) ["DEVICE_ID_STRATEGY"];
   mkCliFlag "gds-enabled" (BoolFlag false) ["GDS_ENABLED"];
   mkCliFlag "mofed-enabled" (BoolFlag false) ["MOFED_ENABLED"];
   mkCliFlag "config-file" (StringFlag "") ["CONFIG_FILE"];
   mkCliFlag "cdi-annotation-prefix" (StringFlag DefaultCDIAnnotationPrefix) ["CDI_ANNOTATION_PREFIX"];
   mkCliFlag "nvidia-ctk-path" (StringFlag DefaultNvidiaCTKPath) ["NVIDIA_CTK_PATH"];
   mkCliFlag "container-driver-root" (StringFlag DefaultContainerDriverRoot) ["CONTAINER_DRIVER_ROOT"]]%string.

(** [addFlags]; [NodeName] is the environment variable. *)
Definition addFlags (NodeName : string) : list cli_flag :=
  [mkCliFlag "node-name" (StringFlag NodeName) ["NodeName"];
   mkCliFlag "device-split-count" (UintFlag 2) ["DEVICE_SPLIT_COUNT"];
   mkCliFlag "device-memory-scaling" (Float64Flag f64_one) ["DEVICE_MEMORY_SCALING"];
   mkCliFlag "device-cores-scaling" (Float64Flag f64_one) ["DEVICE_CORES_SCALING"];
   mkCliFlag "disable-core-limit" (BoolFlag false) ["DISABLE_CORE_LIMIT"];
   mkCliFlag "resource-name" (StringFlag "nvidia.com/gpu") []]%string.

(** [c.Flags] of [main]. *)
Definition app_flags (listStrategy ctk root NodeName : string) : list cli_flag :=
  main_flags listStrategy ctk root ++ addFlags NodeName.

(** ** info/version.go *)
Definition GetVersionParts (version gitCommit : string) : list string :=
  version :: (if decide (gitCommit = "") then [] else ["commit: " +:+ gitCommit])%string.
Definition GetVersionString (version gitCommit : string) (more : list string) : string :=
  join (String "010" "") (GetVersionParts version gitCommit ++ more).

(** ** Examples of the parameters *)
Definition last_slash (name : string) : string * string := ("nvidia.com", path_base name)%string.

(** An allocator whose devices are their UUIDs and that takes the required
    devices and the first of the others. *)
#[export] Instance first_fit : GpuAllocator string := {|
  NewDevicesFrom uuids := inl uuids;
  alignedAllocationPolicy_Allocate available required size :=
    let l := required ++ filter (fun d => d ∉ required) available in
    if decide (Z.of_nat (length required) <= size <= Z.of_nat (length l) /\ required ⊆ available /\ NoDup required)
    then take (Z.to_nat size) l else [];
  device_UUID u := u;
|}.

#[export] Instance first_fit_spec : GpuAllocatorSpec string.
Proof.
  split.
  - intros uuids ds [= <-]. apply list_fmap_id.
  - intros available required size. cbn. case_decide as Hd; [|by left]. right. destruct Hd as ([H1 H2] & H3 & H4).
    rewrite !list_fmap_id, length_take. split_and!; [lia| | |].
    + intros x Hx. rewrite take_app_ge by lia. apply elem_of_app. by left.
    + intros x Hx%subseteq_take. apply elem_of_app in Hx as [?|[_ ?]%list_elem_of_filter]; [by apply H3|done].
    + intros Hn. eapply sublist_NoDup; [|apply sublist_take]. apply NoDup_app. split_and!; [done| |by apply NoDup_filter].
      intros x Hx [? _]%list_elem_of_filter. done.
Qed.

(** ** Sockets *)
Lemma str_app_inj_r (c a b : string) : a +:+ c = b +:+ c -> a = b.
Proof.
  assert (forall x y : string, String.length (x +:+ y) = (String.length x + String.length y)%nat) as Hl
    by (intros x y; induction x as [|? x IH]; cbn; [done|by rewrite <- IH]).
  revert b. induction a as [|x a IH]; intros [|y b] E; [done| | |injection E as -> E; by rewrite (IH b E)];
    apply (f_equal String.length) in E; rewrite ?Hl in E; cbn [String.length] in E; lia.
Qed.

Lemma has_char_path_base s : has_char "/" s = false -> path_base s = s.
Proof. destruct s as [|c s]; [done|]. intros Hs. cbn [path_base]. by rewrite Hs. Qed.

Lemma path_base_app a b : has_char "/" b = false -> path_base (a +:+ String "/" b) = b.
Proof.
  intros Hb. induction a as [|c a IH].
  - cbn [path_base String.app]. change (path_base (String "/" b) = b). cbn. by rewrite Hb.
  - change (path_base (String c (a +:+ String "/" b)) = b). cbn [path_base].
    assert (has_char "/" (a +:+ String "/" b) = true) as Ha by (rewrite has_char_app; cbn; apply orb_true_r).
    assert (has_char "/" (String c (a +:+ String "/" b)) = true) as Hc by (cbn [has_char]; rewrite Ha; apply orb_true_r).
    rewrite Hc, Ha. cbn [negb]. rewrite andb_false_r. exact IH.
Qed.

Section sockets.
Context (resource_Split : string -> string * string).
Definition short_name (r : resourceManager) : string := (resource_Split (rmg_resource r)).2.

Lemma socket_base r :
  has_char "/" (short_name r) = false ->
  path_base (plugin.socket resource_Split r) = ("nvidia-" +:+ short_name r +:+ ".sock")%string.
Proof.
  intros Hs. apply (path_base_app "/var/lib/kubelet/device-plugins"). fold (short_name r).
  change ("nvidia-" +:+ short_name r +:+ ".sock") with ("nvidia-" +:+ (short_name r +:+ ".sock")).
  rewrite !has_char_app, Hs. reflexivity.
Qed.
End sockets.

Module NvidiaServeProps.

(** The preferred allocation of a resource manager respects the request:
    for whole GPUs through the allocation policy, otherwise (and on Tegra)
    distributed over the cards, it is empty or consists of exactly as many
    distinct devices as asked for, all of them available, with every
    required device among them. *)
Theorem preferred_allocation_honours_request `{GoRuntime} {D} `{!GpuAllocator D, !GpuAllocatorSpec D} r available required size l :
  NvidiaFacts.keyed (rmg_devices r) -> NoDup available -> NoDup required -> required ⊆ available -> Z.of_nat (length required) <= size ->
  rm_GetPreferredAllocation r available required size = Ret (l, None) ->
  l = [] \/ Z.of_nat (length l) = size /\ required ⊆ l /\ l ⊆ available /\ NoDup l.
Proof.
  intros Hkey Hav Hreq Hsub Hsz. unfold rm_GetPreferredAllocation, getPreferredAllocation.
  assert (forall l, distributedAlloc (rmg_devices r) available required size = Ret (l, None) ->
    Z.of_nat (length l) = size /\ required ⊆ l /\ l ⊆ available /\ NoDup l) as Hdist.
  { intros k E. destruct (distributedAlloc_spec (rmg_devices r) available required size Hkey) as [Hno Hyes].
    set (candidates := candidates_of (rmg_devices r) available required) in *.
    destruct (decide (size - Z.of_nat (length required) <= Z.of_nat (length candidates))) as [Hle|Hlt];
      [|rewrite Hno in E by lia; done].
    destruct (Hyes Hle) as (chosen & rest & E' & Hp & Hl & _). rewrite E in E'. injection E' as ->.
    pose proof (candidates_NoDup _ Hkey available required) as Hnd. fold candidates in Hnd. rewrite <- Hp in Hnd.
    apply NoDup_app in Hnd as [Hnd _].
    assert (forall c, c ∈ chosen -> c ∈ available /\ (c ∉ required)) as Hc.
    { intros c Hc. edestruct (elem_of_candidates _ Hkey available required c) as [Hx _].
      destruct Hx as (? & ? & _); [fold candidates; rewrite <- Hp; apply elem_of_app; by left|done]. }
    rewrite length_app. split_and!; [lia|by intros c ?; apply elem_of_app; left| |].
    - intros c [?|?%Hc]%elem_of_app; [by apply Hsub|naive_solver].
    - apply NoDup_app. split_and!; [done| |done]. intros c Hr Hch%Hc. naive_solver. }
  destruct (rmg_kind r); [|by right; apply Hdist].
  destruct (_ && _); [by apply alignedAlloc_exact|by right; apply Hdist].
Qed.

Lemma preferred_allocation_honours_request_witness :
  let r := mkResourceManager TegraManager "nvidia.com/gpu" shared_cards in
  exists l, @rm_GetPreferredAllocation go_reference string first_fit r ["a::0"; "a::1"; "b::1"]%string ["a::1"%string] 2
              = Ret (l, None)
    /\ (l = [] \/ Z.of_nat (length l) = 2 /\ ["a::1"%string] ⊆ l /\ l ⊆ ["a::0"; "a::1"; "b::1"]%string /\ NoDup l).
Proof.
  intros r. assert (exists l, @rm_GetPreferredAllocation go_reference string first_fit r ["a::0"; "a::1"; "b::1"]%string ["a::1"%string] 2
    = Ret (l, None)) as [l E] by (eexists; vm_compute; reflexivity).
  exists l. split; [exact E|].
  refine (@preferred_allocation_honours_request go_reference string first_fit first_fit_spec r _ _ _ l shared_cards_keyed _ _ _ _ E).
  - apply (bool_decide_unpack (NoDup _)). vm_compute. exact I.
  - apply NoDup_singleton.
  - intros x ->%list_elem_of_singleton. right. left.
  - discriminate.
Defined.

(** A plugin that has started is reachable: [Start] returns without an error
    only after the plugin listens on its socket, has dialled it, and the
    kubelet has accepted a registration of its resource whose endpoint, in the
    kubelet's directory, is that socket; and two plugins whose resources have
    different names listen on different sockets. *)
Theorem started_plugin_reachable resource_Split listen dial kubelet removed p p' :
  has_char "/" (short_name resource_Split (p_rm p)) = false ->
  Start (plugin.answer_of resource_Split listen dial kubelet (p_rm p)) removed p = (p', None) ->
  let sock := plugin.socket resource_Split (p_rm p) in
  p_serving p' = true /\ listen sock = None /\ dial sock = None /\ dial plugin.KubeletSocket = None
  /\ (exists rq, kubelet rq = None /\ plugin.ResourceName rq = rmg_resource (p_rm p)
        /\ (plugin.DevicePluginPath +:+ plugin.Endpoint rq)%string = sock)
  /\ forall r, plugin.socket resource_Split r = sock -> short_name resource_Split r = short_name resource_Split (p_rm p).
Proof.
  intros Hs. unfold Start, plugin.answer_of, plugin.Register.
  destruct (listen _) as [e|]; [done|]. destruct (dial (plugin.socket _ _)) as [e|]; [done|].
  destruct (dial plugin.KubeletSocket) as [e|]; [done|]. destruct (kubelet _) as [e|] eqn:Ek; [done|]. intros [= <-].
  split_and!; try done.
  - eexists. split; [exact Ek|]. split; [done|]. cbn [plugin.Endpoint]. rewrite socket_base by done. reflexivity.
  - intros r E. unfold plugin.socket in E. apply str_app_inj_l in E. apply str_app_inj_l in E. by apply str_app_inj_r in E.
Qed.

(** The options of the node never stay nil with the flags the binary declares:
    no flag name and no environment variable is declared twice, every flag
    that the configuration reads is declared, and so the three options that
    the registration follows have values whatever the user sets. *)
Theorem declared_flags_set_options listStrategy ctk root NodeName file c g :
  globals_wf g ->
  let flags := flag_Name <$> app_flags listStrategy ctk root NodeName in
  NoDup flags /\ NoDup (concat (flag_EnvVars <$> app_flags listStrategy ctk root NodeName)) /\
  (forall n c st, apply_flag c st n <> st -> n ∈ flags) /\
  let g' := (generateDeviceConfigFromNvidia NodeName file c flags g).1 in
  exists memory cores count, DeviceMemoryScaling g' = Ret memory /\ DeviceCoresScaling g' = Ret cores
    /\ DeviceSplitCount g' = Ret count.
Proof.
  intros Hg flags. split_and!.
  - apply (bool_decide_unpack (NoDup _)). vm_compute. exact I.
  - apply (bool_decide_unpack (NoDup _)). vm_compute. exact I.
  - intros n c' [g0 r0] Hn. unfold apply_flag in Hn.
    repeat (case_decide; [subst n; apply (bool_decide_unpack (_ ∈ _)); vm_compute; exact I|]). done.
  - assert (option_flags ⊆ flags) as Hf.
    { intros x Hx. repeat (apply elem_of_cons in Hx as [->|Hx]; [apply (bool_decide_unpack (_ ∈ _)); vm_compute; exact I|]).
      by apply not_elem_of_nil in Hx. }
    by apply options_set.
Qed.
End NvidiaServeProps.
