(* ===== verification/Oci.v ===== *)
(** * The OCI runtime shim ([pkg/oci])

    spec.go: a specification kept in a file, read with [Load], changed with
    [Modify] and written back with [Flush]; runtime_exec.go: a low-level
    runtime the process execs into; the mocks of both.  The specification type
    and its JSON text come from a library: they are arguments, with the law
    that decoding an encoded specification gives it back. *)

From Stdlib Require Import ZArith Lia Ascii String.
From stdpp Require Import base decidable option gmap strings numbers list.
From S2P Require Import Prelude GoStrings GoRuntime Types.

#[local] Open Scope string_scope.
#[local] Open Scope Z_scope.

(** ** Files *)

(** The files, and which calls fail. *)
Record Files := mkFiles {
  fs_text : gmap string string;
  fs_open : string -> option error;         (* [os.Open] of a file that exists *)
  fs_create : string -> option error;       (* [os.Create] *)
  fs_write : string -> option (nat * error); (* a write fails after that many bytes *)
}.

Definition with_text (w : Files) (t : gmap string string) : Files := mkFiles t (fs_open w) (fs_create w) (fs_write w).
Definition no_file : error := "no such file or directory".

Definition os_Open (path : string) (w : Files) : string + error :=
  match fs_open w path, fs_text w !! path with
  | Some e, _ => inr e
  | None, Some t => inl t
  | None, None => inr no_file
  end.

(** ** The interface *)

(** What a specification offers; [S] is the type behind the pointer, [T] the
    object that implements the interface. *)
Class SpecOps (S T : Type) := {
  Load : T -> Files -> T * option error;
  Flush : T -> Files -> Files * option error;
  Modify : T -> (S -> S * option error) -> outcome (T * option error);
}.

(** ** spec.go *)
Record fileSpec (S : Type) := mkFileSpec { fspec : option S; fpath : string }.
Arguments mkFileSpec {S}.
Arguments fspec {S}.
Arguments fpath {S}.

Definition NewSpecFromFile {S} (filepath : string) : fileSpec S := mkFileSpec None filepath.

Section file.
Context {S : Type}.
(** [json.Decoder.Decode] and [json.Encoder.Encode]; a nil pointer is encoded
    as "null". *)
Context (decode : string -> S + error) (encode : option S -> string + error).

Definition open_spec_error (e : error) : error := "error opening OCI specification file: " +:+ e.
Definition read_spec_error (e : error) : error := "error reading OCI specification from file: " +:+ e.
Definition write_spec_error (e : error) : error := "error writing OCI specification to file: " +:+ e.
Definition no_spec_error : error := "no spec loaded for modification".

Definition fileSpec_Load (s : fileSpec S) (w : Files) : fileSpec S * option error :=
  match os_Open (fpath s) w with
  | inr err => (s, Some (open_spec_error err))
  | inl text =>
      match decode text with
      | inr err => (s, Some (read_spec_error err))
      | inl spec => (mkFileSpec (Some spec) (fpath s), None)
      end
  end.

Definition fileSpec_Modify (s : fileSpec S) (f : S -> S * option error) : outcome (fileSpec S * option error) :=
  Ret match fspec s with
      | None => (s, Some no_spec_error)
      | Some spec => let '(spec', err) := f spec in (mkFileSpec (Some spec') (fpath s), err)
      end.

(** [os.Create] empties the file first. *)
Definition fileSpec_Flush (s : fileSpec S) (w : Files) : Files * option error :=
  match fs_create w (fpath s) with
  | Some err => (w, Some (open_spec_error err))
  | None =>
      let put t := with_text w (<[fpath s := t]> (fs_text w)) in
      match encode (fspec s) with
      | inr err => (put "", Some (write_spec_error err))
      | inl text =>
          match fs_write w (fpath s) with
          | Some (n, err) => (put (String.substring 0 n text), Some (write_spec_error err))
          | None => (put text, None)
          end
      end
  end.

#[export] Instance fileSpec_ops : SpecOps S (fileSpec S) := {|
  Load := fileSpec_Load; Flush := fileSpec_Flush; Modify := fileSpec_Modify;
|}.
End file.

(** ** spec_mock.go *)
Record mockFunc := mkMockFunc { Callcount : Z; mf_result : option error }.
Definition mock_call (m : mockFunc) : mockFunc * option error := (mkMockFunc (Callcount m + 1) (mf_result m), mf_result m).

Record MockSpec (S : Type) := mkMockSpec { mspec : option S; MockLoad : mockFunc; MockFlush : mockFunc; MockModify : mockFunc }.
Arguments mkMockSpec {S}.
Arguments mspec {S}.
Arguments MockLoad {S}.
Arguments MockFlush {S}.
Arguments MockModify {S}.

Definition NewMockSpec {S} (spec : option S) (flushResult modifyResult : option error) : MockSpec S :=
  mkMockSpec spec (mkMockFunc 0 None) (mkMockFunc 0 flushResult) (mkMockFunc 0 modifyResult).

Definition MockSpec_Load {S} (s : MockSpec S) : MockSpec S * option error :=
  let '(m, err) := mock_call (MockLoad s) in (mkMockSpec (mspec s) m (MockFlush s) (MockModify s), err).
Definition MockSpec_Flush {S} (s : MockSpec S) : MockSpec S * option error :=
  let '(m, err) := mock_call (MockFlush s) in (mkMockSpec (mspec s) (MockLoad s) m (MockModify s), err).
(** The result of the modifier is dropped; a modifier that reads a nil
    specification panics. *)
Definition MockSpec_Modify {S} (s : MockSpec S) (f : S -> S * option error) : outcome (MockSpec S * option error) :=
  match mspec s with
  | None => Panic NilDereference
  | Some spec =>
      let '(m, err) := mock_call (MockModify s) in
      Ret (mkMockSpec (Some (f spec).1) (MockLoad s) (MockFlush s) m, err)
  end.

(** ** runtime_exec.go *)
Record exec_call := mkExec { ex_argv0 : string; ex_argv : list string; ex_envv : list string }.

Record SyscallExecRuntime := mkRuntime { rt_path : string; rt_exec : exec_call -> option error }.

(** [os.Stat]: a directory, the permission bits. *)
Definition bad_path_error (path e : string) : error := "invalid path '" +:+ path +:+ "': " +:+ e.
Definition not_executable_error (path : string) : error := "specified path '" +:+ path +:+ "' is not an executable file".

Definition NewSyscallExecRuntimeWithLogger (Stat : string -> (bool * Z) + error) (exec : exec_call -> option error) (path : string)
    : SyscallExecRuntime + error :=
  match Stat path with
  | inr err => inr (bad_path_error path err)
  | inl (isDir, mode) =>
      if isDir || (Z.land mode 73 =? 0) then inr (not_executable_error path) else inl (mkRuntime path exec)
  end.

Definition exec_error (path e : string) : error := "could not exec '" +:+ path +:+ "': " +:+ e.
Definition exec_returned (path : string) : error := "unexpected return from exec '" +:+ path +:+ "'".

(** The call of [exec], and the error: it returns only when it failed. *)
Definition Exec (Environ : list string) (s : SyscallExecRuntime) (args : list string) : exec_call * error :=
  let runtimeArgs := (rt_path s :: (if (1 <? length args)%nat then drop 1 args else []))%list in
  let c := mkExec (rt_path s) runtimeArgs Environ in
  (c, match rt_exec s c with
      | Some err => exec_error (rt_path s) err
      | None => exec_returned (rt_path s)
      end).

(** ** runtime_mock.go *)
Record execMock := mkExecMock { em_call : exec_call; em_result : option error }.
Definition execMock_exec (m : execMock) (c : exec_call) : execMock * option error := (mkExecMock c (em_result m), em_result m).

(** A specification of one flag. *)
Definition flag_decode (t : string) : bool + error :=
  if decide (t = "true") then inl true else if decide (t = "false") then inl false else inr "syntax".
Definition flag_encode (s : option bool) : string + error :=
  inl match s with Some true => "true" | Some false => "false" | None => "null" end.
Definition flag_files : Files := mkFiles {["/spec" := "true"]} (fun _ => None) (fun _ => None) (fun _ => None).

Module OciProps.

(** A specification that is loaded, modified and flushed without an error
    is the one that is loaded next time: the file then holds the modified
    specification, and no other file has changed. *)
Theorem spec_update_roundtrip {S} decode encode path (f : S -> S * option error) w s1 s2 w' :
  (forall spec, exists text, encode (Some spec) = inl text /\ decode text = inl spec) ->
  fileSpec_Load decode (NewSpecFromFile path) w = (s1, None) ->
  fileSpec_Modify s1 f = Ret (s2, None) -> fileSpec_Flush encode s2 w = (w', None) ->
  exists spec, fspec s1 = Some spec /\ fspec s2 = Some (f spec).1 /\
    fileSpec_Load decode (NewSpecFromFile path) w' = (s2, None) /\
    forall other, other <> path -> fs_text w' !! other = fs_text w !! other.
Proof.
  intros Hjson. unfold fileSpec_Load, NewSpecFromFile, os_Open. cbn [fpath].
  destruct (fs_open w path) eqn:Eo; [by intros [=]|]. destruct (fs_text w !! path) as [text|] eqn:Et; [|by intros [=]].
  destruct (decode text) as [spec|] eqn:Ed; [|by intros [=]]. intros [= <-]. unfold fileSpec_Modify. cbn [fspec fpath].
  destruct (f spec) as [spec' err] eqn:Ef. intros [= <- ->]. unfold fileSpec_Flush. cbn [fspec fpath].
  destruct (fs_create w path); [by intros [=]|]. destruct (Hjson spec') as (text' & Ee & Edd). rewrite Ee.
  destruct (fs_write w path) as [[n e]|]; [by intros [=]|]. intros [= <-]. exists spec. split_and!; [done|by rewrite Ef| |].
  - cbn [fs_open fs_text with_text]. by rewrite Eo, lookup_insert_eq, Edd.
  - intros other Hne. cbn [fs_text with_text]. by rewrite lookup_insert_ne.
Qed.

Lemma spec_update_roundtrip_witness :
  exists w' s2, fileSpec_Load flag_decode (NewSpecFromFile "/spec") w' = (s2, None) /\ fspec s2 = Some false.
Proof.
  destruct (spec_update_roundtrip flag_decode flag_encode "/spec" (fun b => (negb b, None)) flag_files
    (mkFileSpec (Some true) "/spec") (mkFileSpec (Some false) "/spec") (with_text flag_files {["/spec" := "false"]}))
    as (spec & H1 & H2 & H3 & _).
  - intros [|]; eexists; split; reflexivity.
  - vm_compute. reflexivity.
  - reflexivity.
  - vm_compute. reflexivity.
  - eexists. eexists. split; [exact H3|reflexivity].
Defined.

(** A failed write loses the specification: the file was emptied when it was
    opened, so after an error of [Flush] other than a failed open the file
    holds a prefix of the new text. *)
Theorem failed_flush_truncates {S} encode (s : fileSpec S) w w' e :
  fs_create w (fpath s) = None -> fileSpec_Flush encode s w = (w', Some e) ->
  exists n, fs_text w' !! fpath s
    = Some match encode (fspec s) with inl text => String.substring 0 n text | inr _ => "" end.
Proof.
  intros Hc. unfold fileSpec_Flush. rewrite Hc. destruct (encode (fspec s)) as [text|err].
  - destruct (fs_write w (fpath s)) as [[n err]|]; [|by intros [=]]. intros [= <- _]. exists n. apply lookup_insert_eq.
  - intros [= <- _]. exists 0%nat. apply lookup_insert_eq.
Qed.

(** [Exec] runs the wrapped binary under its own path with the caller's
    arguments after the first, and when it returns it reports an error, also
    when [exec] reported none. *)
Theorem exec_passes_arguments Environ Stat exec path rt a args :
  NewSyscallExecRuntimeWithLogger Stat exec path = inl rt ->
  (Exec Environ rt (a :: args)).1 = mkExec path (path :: args) Environ /\
  (Exec Environ rt []).1 = mkExec path [path] Environ /\
  (exec (mkExec path (path :: args) Environ) = None -> (Exec Environ rt (a :: args)).2 = exec_returned path).
Proof.
  unfold NewSyscallExecRuntimeWithLogger. destruct (Stat path) as [[d mode]|]; [|done]. destruct (d || _); [done|].
  intros [= <-]. unfold Exec. cbn [rt_path rt_exec length fst snd]. split_and!.
  - by destruct args.
  - done.
  - destruct args as [|b args]; cbn; by intros ->.
Qed.

(** The mock does not behave as a specification: without a specification it
    panics where the file reports an error, and it drops the error of the
    modifier. *)
Theorem mock_modify_differs {S} (f : S -> S * option error) err r :
  (exists e, fileSpec_Modify (NewSpecFromFile "/x" : fileSpec S) f = Ret (NewSpecFromFile "/x", Some e)) /\
  MockSpec_Modify (NewMockSpec None r None) f = Panic NilDereference /\
  forall spec, (f spec).2 = Some err ->
    (exists s, MockSpec_Modify (NewMockSpec (Some spec) r None) f = Ret (s, None)) /\
    exists s, fileSpec_Modify (mkFileSpec (Some spec) "/x") f = Ret (s, Some err).
Proof.
  split_and!; [by eexists|done|]. intros spec Hf. split; [by eexists|]. unfold fileSpec_Modify. cbn [fspec].
  destruct (f spec) as [spec' e]. cbn in Hf. subst e. by eexists.
Qed.
End OciProps.
