(* ===== verification/Prometheus.v ===== *)
(** * The Prometheus client as an interface

    The metrics of the scheduler, of the monitor and of the test collector go
    through the Prometheus client library, which is not part of the
    repository.  [PromClient] is what the code uses of it with the guarantees
    its documentation gives: [NewConstMetric] refuses a wrong number of label
    values; a descriptor can be registered when it is valid and, among the
    descriptors of its name, has the same help and label names and constant
    labels of its own; [Gather] returns the metrics of every registered
    collector unless two are one series, and a pedantic registry also refuses
    a metric whose descriptor was not described.  [prom_reference] is one
    implementation, on which examples and witnesses evaluate. *)

From Stdlib Require Import ZArith Lia Ascii String.
From stdpp Require Import base decidable option gmap strings numbers list.
From S2P Require Import Prelude GoStrings GoRuntime.

#[local] Open Scope Z_scope.

(** ** [utf8.ValidString] *)
Definition in_byte (lo hi : Z) (c : ascii) : bool := (lo <=? byte_val c) && (byte_val c <=? hi).

Fixpoint valid_utf8 (s : string) : bool :=
  match s with
  | EmptyString => true
  | String a s1 =>
      if in_byte 0 127 a then valid_utf8 s1
      else match s1 with
        | EmptyString => false
        | String b s2 =>
            if in_byte 194 223 a then in_byte 128 191 b && valid_utf8 s2
            else match s2 with
              | EmptyString => false
              | String c s3 =>
                  if in_byte 224 239 a then
                    in_byte (if byte_val a =? 224 then 160 else 128) (if byte_val a =? 237 then 159 else 191) b
                    && in_byte 128 191 c && valid_utf8 s3
                  else match s3 with
                    | EmptyString => false
                    | String d s4 =>
                        in_byte 240 244 a
                        && in_byte (if byte_val a =? 240 then 144 else 128) (if byte_val a =? 244 then 143 else 191) b
                        && in_byte 128 191 c && in_byte 128 191 d && valid_utf8 s4
                    end
              end
        end
  end.

(** ** Descriptors and metrics *)
Inductive ValueType := CounterValue | GaugeValue.

#[export] Instance ValueType_eq_dec : EqDecision ValueType.
Proof. solve_decision. Defined.

Abbreviation Labels := (list (string * string)).

Record Desc := mkDesc {
  fqName : string;
  help : string;
  variableLabels : list string;
  constLabels : Labels;
}.

#[export] Instance Desc_eq_dec : EqDecision Desc.
Proof. solve_decision. Defined.

Definition NewDesc (name help : string) (variableLabels : list string) : Desc := mkDesc name help variableLabels [].

Record PMetric := mkPMetric { pm_desc : Desc; pm_type : ValueType; pm_value : float64; pm_values : list string }.

(** What [WrapRegistererWith] adds. *)
Definition wrap_desc (ls : Labels) (d : Desc) : Desc := mkDesc (fqName d) (help d) (variableLabels d) (constLabels d ++ ls).
Definition wrap_metric (ls : Labels) (m : PMetric) : PMetric :=
  mkPMetric (wrap_desc ls (pm_desc m)) (pm_type m) (pm_value m) (pm_values m).

(** What identifies a series: the name and the labels. *)
Definition pm_series (m : PMetric) : string * gmap string string :=
  (fqName (pm_desc m), list_to_map (zip (variableLabels (pm_desc m)) (pm_values m) ++ constLabels (pm_desc m))).

(** ** When the library accepts them *)

(** The names of the data model: letters, digits and underscores, and colons
    in the name of a metric. *)
Definition name_char (colon digit : bool) (c : ascii) : bool :=
  in_byte 65 90 c || in_byte 97 122 c || (byte_val c =? 95) || (colon && (byte_val c =? 58)) || (digit && in_byte 48 57 c).

Fixpoint name_rest (colon : bool) (s : string) : bool :=
  match s with EmptyString => true | String c s' => name_char colon true c && name_rest colon s' end.

Definition valid_name (colon : bool) (s : string) : bool :=
  match s with EmptyString => false | String c s' => name_char colon false c && name_rest colon s' end.

Definition label_names (d : Desc) : list string := variableLabels d ++ (constLabels d).*1.

Definition valid_desc (d : Desc) : Prop :=
  valid_name true (fqName d) = true /\ NoDup (label_names d)
  /\ Forall (fun l => valid_name false l = true /\ String.prefix "__" l = false) (label_names d)
  /\ Forall (fun l => valid_utf8 l.2 = true) (constLabels d).

Definition same_dimensions (d d' : Desc) : Prop :=
  help d = help d'
  /\ list_to_set (C := gset string) (variableLabels d) = list_to_set (variableLabels d')
  /\ list_to_set (C := gset string) (constLabels d).*1 = list_to_set (constLabels d').*1.

Definition const_map (d : Desc) : gmap string string := list_to_map (constLabels d).

(** New descriptors next to those of other collectors. *)
Definition registrable (old new : list Desc) : Prop :=
  Forall valid_desc new
  /\ Forall (fun d => Forall (fun d' => fqName d <> fqName d' \/ same_dimensions d d') new) new
  /\ Forall (fun d => Forall (fun d' => fqName d <> fqName d' \/ same_dimensions d d' /\ const_map d <> const_map d') old) new.

Definition well_labelled (m : PMetric) : Prop :=
  length (pm_values m) = length (variableLabels (pm_desc m)) /\ Forall (fun l => valid_utf8 l = true) (pm_values m).

(** Metrics of one name are of one type and have one help. *)
Definition same_family (m m' : PMetric) : Prop :=
  fqName (pm_desc m) <> fqName (pm_desc m') \/ pm_type m = pm_type m' /\ help (pm_desc m) = help (pm_desc m').

Definition consistent (ms : list PMetric) : Prop :=
  Forall well_labelled ms /\ Forall (fun m => Forall (same_family m) ms) ms /\ NoDup (pm_series <$> ms).

#[export] Instance valid_desc_dec d : Decision (valid_desc d).
Proof. unfold valid_desc. apply _. Defined.
#[export] Instance same_dimensions_dec d d' : Decision (same_dimensions d d').
Proof. unfold same_dimensions. apply _. Defined.
#[export] Instance registrable_dec old new : Decision (registrable old new).
Proof. unfold registrable. apply _. Defined.
#[export] Instance well_labelled_dec m : Decision (well_labelled m).
Proof. unfold well_labelled. apply _. Defined.
#[export] Instance same_family_dec m m' : Decision (same_family m m').
Proof. unfold same_family. apply _. Defined.
#[export] Instance consistent_dec ms : Decision (consistent ms).
Proof. unfold consistent. apply _. Defined.

(** ** Collectors and registries

    A collector reads the state [S] of its program when it is called. *)
Record collector (S : Type) := mkCollector {
  co_Describe : S -> outcome (list Desc);
  co_Collect : S -> outcome (list PMetric);
}.
Arguments mkCollector {S}.
Arguments co_Describe {S}.
Arguments co_Collect {S}.

(** A registered collector: the labels of its registerer and what it described. *)
Record registration (S : Type) := mkRegistration { rg_labels : Labels; rg_descs : list Desc; rg_collector : collector S }.
Arguments mkRegistration {S}.
Arguments rg_labels {S}.
Arguments rg_descs {S}.
Arguments rg_collector {S}.

(** The metrics of every registered collector; a collector that described
    nothing is unchecked. *)
Definition collect_one {S} (s : S) (x : registration S) : outcome (list PMetric) :=
  ms ← co_Collect (rg_collector x) s; Ret (map (wrap_metric (rg_labels x)) ms).

Fixpoint collect_all {S} (s : S) (rs : list (registration S)) : outcome (list (list PMetric)) :=
  match rs with
  | [] => Ret []
  | x :: rs' => ms ← collect_one s x; mss ← collect_all s rs'; Ret (ms :: mss)
  end.

Definition described {S} (rs : list (registration S)) (x : registration S) (ms : list PMetric) : Prop :=
  rg_descs x = [] \/ Forall (fun m => pm_desc m ∈ concat (rg_descs <$> rs)) ms.

#[export] Instance described_dec {S} (rs : list (registration S)) x ms : Decision (described rs x ms).
Proof. unfold described. apply _. Defined.

(** What a registry holds: the collectors, and whether it is pedantic. *)
Class PromClient := {
  NewConstMetric : Desc -> ValueType -> float64 -> list string -> PMetric + error;
  Registry : Type -> Type;
  registrations {S} : Registry S -> list (registration S);
  pedantic {S} : Registry S -> bool;
  NewRegistry {S} : Registry S;
  NewPedanticRegistry {S} : Registry S;
  Register {S} : Labels -> collector S -> S -> Registry S -> outcome (Registry S + error);
  Gather {S} : Registry S -> S -> outcome (list PMetric + error);
  const_metric_ok d t v ls :
    well_labelled (mkPMetric d t v ls) -> NewConstMetric d t v ls = inl (mkPMetric d t v ls);
  const_metric_cardinality d t v ls :
    length ls <> length (variableLabels d) -> exists e, NewConstMetric d t v ls = inr e;
  new_registry {S} : registrations (@NewRegistry S) = [] /\ pedantic (@NewRegistry S) = false;
  new_pedantic {S} : registrations (@NewPedanticRegistry S) = [] /\ pedantic (@NewPedanticRegistry S) = true;
  register_panics {S} ls c (s : S) r p : co_Describe c s = Panic p -> Register ls c s r = Panic p;
  register_ok {S} ls c (s : S) r ds :
    co_Describe c s = Ret ds -> registrable (concat (rg_descs <$> registrations r)) (wrap_desc ls <$> ds) ->
    exists r', Register ls c s r = Ret (inl r') /\ pedantic r' = pedantic r
      /\ registrations r' = registrations r ++ [mkRegistration ls (wrap_desc ls <$> ds) c];
  register_refused {S} ls c (s : S) r ds :
    co_Describe c s = Ret ds -> ~ registrable (concat (rg_descs <$> registrations r)) (wrap_desc ls <$> ds) ->
    exists e, Register ls c s r = Ret (inr e);
  gather_panics {S} r (s : S) p : collect_all s (registrations r) = Panic p -> Gather r s = Panic p;
  gather_ok {S} r (s : S) mss :
    collect_all s (registrations r) = Ret mss -> consistent (concat mss) ->
    (pedantic r = true -> Forall2 (described (registrations r)) (registrations r) mss) ->
    exists ms, Gather r s = Ret (inl ms) /\ ms ≡ₚ concat mss;
  gather_inconsistent {S} r (s : S) mss :
    collect_all s (registrations r) = Ret mss -> ~ NoDup (pm_series <$> concat mss) ->
    exists e, Gather r s = Ret (inr e);
  gather_undescribed {S} r (s : S) mss :
    collect_all s (registrations r) = Ret mss -> pedantic r = true ->
    ~ Forall2 (described (registrations r)) (registrations r) mss -> exists e, Gather r s = Ret (inr e);
}.

(** ** A reference implementation *)
Definition ref_registry (S : Type) : Type := list (registration S) * bool.

Definition ref_const (d : Desc) (t : ValueType) (v : float64) (ls : list string) : PMetric + error :=
  if decide (well_labelled (mkPMetric d t v ls)) then inl (mkPMetric d t v ls) else inr "inconsistent label values"%string.

Definition ref_register {S} (ls : Labels) (c : collector S) (s : S) (r : ref_registry S) : outcome (ref_registry S + error) :=
  ds ← co_Describe c s;
  let ds := map (wrap_desc ls) ds in
  Ret (if decide (registrable (concat (rg_descs <$> r.1)) ds) then inl (r.1 ++ [mkRegistration ls ds c], r.2)
       else inr "duplicate or inconsistent descriptor"%string).

Definition ref_gather {S} (r : ref_registry S) (s : S) : outcome (list PMetric + error) :=
  mss ← collect_all s r.1;
  Ret (if decide (consistent (concat mss)) then
         if decide (r.2 = false \/ Forall2 (described r.1) r.1 mss) then inl (concat mss)
         else inr "unregistered descriptor"%string
       else inr "inconsistent metrics"%string).

Definition prom_reference : PromClient.
Proof.
  refine {| NewConstMetric := ref_const; Registry := ref_registry; registrations S r := r.1; pedantic S r := r.2;
    NewRegistry S := ([], false); NewPedanticRegistry S := ([], true); Register S := ref_register; Gather S := ref_gather |};
    try (intros; split; reflexivity).
  - intros. unfold ref_const. by rewrite decide_True.
  - intros d t v ls Hl. unfold ref_const. rewrite decide_False; [eauto|]. by intros [? _].
  - intros S ls c s r p E. unfold ref_register. by rewrite E.
  - intros S ls c s r ds E Hr. unfold ref_register. rewrite E. cbn. rewrite decide_True by done. eauto.
  - intros S ls c s r ds E Hr. unfold ref_register. rewrite E. cbn. rewrite decide_False by done. eauto.
  - intros S r s p E. unfold ref_gather. by rewrite E.
  - intros S r s mss E Hc Hp. unfold ref_gather. rewrite E. cbn. rewrite decide_True by done. rewrite decide_True; [eauto|].
    destruct r.2; auto.
  - intros S r s mss E Hn. unfold ref_gather. rewrite E. cbn. rewrite decide_False; [eauto|]. by intros (_ & _ & ?).
  - intros S r s mss E Hp Hn. unfold ref_gather. rewrite E. cbn. destruct (decide (consistent _)); [|eauto].
    rewrite decide_False; [eauto|]. intros [?|?]; [congruence|done].
Defined.
