(* ===== verification/Metrics.v ===== *)
(** * The metrics of the three programs

    [cmd/scheduler/metrics.go], [cmd/vGPUmonitor/metrics.go] and
    [cmd/vGPUmonitor/testcollector/main.go] over the interface [PromClient]:
    their descriptors, [Describe] and [Collect], [NewClusterManager], which
    registers a collector with a wrapping registerer that adds its zone,
    [initmetrics] and the answer of the handler.

    The metrics of a program form a [Catalogue]: descriptors told apart by
    their names, none with a label [zone] of its own.  The lemmas about
    registering and scraping are proved once, for every catalogue. *)

From Stdlib Require Import ZArith Lia Ascii String.
From stdpp Require Import base decidable option gmap strings numbers list.
From S2P Require Import Prelude GoStrings GoRuntime Types Scheduler SchedServer Monitor MonitorServer Prometheus.

#[local] Open Scope Z_scope.

(** ** Samples of a catalogue *)
Class Catalogue (K : Type) := {
  desc_of : K -> Desc;
  type_of : K -> ValueType;
  desc_inj k k' : fqName (desc_of k) = fqName (desc_of k') -> k = k';
  desc_zoned k zone : valid_utf8 zone = true -> valid_desc (wrap_desc [("zone"%string, zone)] (desc_of k));
}.

Record sample (K : Type) := mkSample { sm_key : K; sm_value : float64; sm_labels : list string }.
Arguments mkSample {K}.
Arguments sm_key {K}.
Arguments sm_value {K}.
Arguments sm_labels {K}.

Definition render `{Catalogue K} (x : sample K) : PMetric :=
  mkPMetric (desc_of (sm_key x)) (type_of (sm_key x)) (sm_value x) (sm_labels x).

(** The number of label values is the descriptor's; and they are text. *)
Definition labels_fit `{Catalogue K} (x : sample K) : Prop :=
  length (sm_labels x) = length (variableLabels (desc_of (sm_key x))).
Definition labels_text {K} (x : sample K) : Prop := Forall (fun l => valid_utf8 l = true) (sm_labels x).

(** Different samples are different series. *)
Definition samples_distinct {K} (xs : list (sample K)) : Prop := NoDup ((fun x => (sm_key x, sm_labels x)) <$> xs).

(** A descriptor that is valid with one zone is valid with every zone. *)
Lemma zoned_valid d zone :
  bool_decide (constLabels d = []) -> bool_decide (valid_desc (wrap_desc [("zone", "")] d))%string ->
  valid_utf8 zone = true -> valid_desc (wrap_desc [("zone"%string, zone)] d).
Proof.
  intros Hc%bool_decide_unpack Hd%bool_decide_unpack Hz. unfold valid_desc, label_names, wrap_desc in *. cbn in *.
  rewrite Hc in *. cbn in *. destruct Hd as (? & ? & ? & _). split_and!; [done..|]. by constructor.
Qed.

(** ** Calls of the library *)
Section calls.
Context `{PromClient}.

Definition MustNewConstMetric (d : Desc) (t : ValueType) (v : float64) (ls : list string) : outcome PMetric :=
  match NewConstMetric d t v ls with inl m => Ret m | inr _ => Panic Explicit end.

Definition MustRegister {S} (ls : Labels) (c : collector S) (s : S) (r : Registry S) : outcome (Registry S) :=
  x ← Register ls c s r; match x with inl r => Ret r | inr _ => Panic Explicit end.

Definition DescribeByCollect {S} (Collect : S -> outcome (list PMetric)) (s : S) : outcome (list Desc) :=
  ms ← Collect s; Ret (map pm_desc ms).

(** [ch <- prometheus.MustNewConstMetric(...)] for each sample. *)
Fixpoint send_all `{Catalogue K} (xs : list (sample K)) : outcome (list PMetric) :=
  match xs with
  | [] => Ret []
  | x :: xs' =>
      m ← MustNewConstMetric (desc_of (sm_key x)) (type_of (sm_key x)) (sm_value x) (sm_labels x);
      ms ← send_all xs';
      Ret (m :: ms)
  end.

(** [promhttp.HandlerFor(reg, promhttp.HandlerOpts{})]: an error of [Gather]
    is answered with the status 500. *)
Definition metrics_handler {S} (r : Registry S) (s : S) : outcome (Z * list PMetric) :=
  x ← Gather r s; Ret (match x with inl ms => (200, ms) | inr _ => (500, []) end).

Definition zone_label (zone : string) : Labels := [("zone"%string, zone)].
End calls.

(** ** The scheduler *)
Module SchedulerMetrics.

Definition scheduler_Desc (d : desc) : Desc :=
  match d with
  | GPUDeviceMemoryLimit =>
      NewDesc "GPUDeviceMemoryLimit" "Device memory limit for a certain GPU" ["nodeid"; "deviceuuid"; "deviceidx"]
  | GPUDeviceCoreLimit =>
      NewDesc "GPUDeviceCoreLimit" "Device memory core limit for a certain GPU" ["nodeid"; "deviceuuid"; "deviceidx"]
  | GPUDeviceMemoryAllocated =>
      NewDesc "GPUDeviceMemoryAllocated" "Device memory allocated for a certain GPU"
        ["nodeid"; "deviceuuid"; "deviceidx"; "devicecores"]
  | GPUDeviceSharedNum =>
      NewDesc "GPUDeviceSharedNum" "Number of containers sharing this GPU" ["nodeid"; "deviceuuid"; "deviceidx"]
  | GPUDeviceCoreAllocated =>
      NewDesc "GPUDeviceCoreAllocated" "Device core allocated for a certain GPU" ["nodeid"; "deviceuuid"; "deviceidx"]
  | NodeGPUOverview =>
      NewDesc "nodeGPUOverview" "GPU overview on a certain node"
        ["nodeid"; "deviceuuid"; "deviceidx"; "devicecores"; "sharedcontainers"; "devicememorylimit"; "devicetype"]
  | NodeGPUMemoryPercentage =>
      NewDesc "nodeGPUMemoryPercentage" "GPU Memory Allocated Percentage on a certain GPU" ["nodeid"; "deviceuuid"; "deviceidx"]
  | VGPUPodsDeviceAllocated =>
      NewDesc "vGPUPodsDeviceAllocated" "vGPU Allocated from pods"
        ["podnamespace"; "nodename"; "podname"; "containeridx"; "deviceuuid"; "deviceusedcore"]
  | VGPUMemoryPercentage =>
      NewDesc "vGPUMemoryPercentage" "vGPU memory percentage allocated from a container"
        ["podnamespace"; "nodename"; "podname"; "containeridx"; "deviceuuid"]
  | VGPUCorePercentage =>
      NewDesc "vGPUCorePercentage" "vGPU core allocated from a container"
        ["podnamespace"; "nodename"; "podname"; "containeridx"; "deviceuuid"]
  end%string.

#[global] Program Instance scheduler_catalogue : Catalogue desc := {| desc_of := scheduler_Desc; type_of _ := GaugeValue |}.
Next Obligation. intros [] [] E; first [reflexivity|discriminate E]. Qed.
Next Obligation. intros k zone. apply zoned_valid; destruct k; vm_compute; exact I. Qed.

Definition sample_of (m : Metric) : sample desc := mkSample (mt_desc m) (mt_value m) (mt_labels m).

Section program.
Context `{GoRuntime, PromClient}.

Definition collector_Collect (sher : Scheduler) : outcome (list PMetric) := send_all (sample_of <$> SchedServer.Collect sher).

Definition scheduler_Describe : Scheduler -> outcome (list Desc) := DescribeByCollect collector_Collect.

Definition scheduler_collector : collector Scheduler := mkCollector scheduler_Describe collector_Collect.

Definition NewClusterManager (zone : string) (sher : Scheduler) (reg : Registry Scheduler) : outcome (Registry Scheduler) :=
  MustRegister (zone_label zone) scheduler_collector sher reg.

(** Up to [http.ListenAndServe], which serves [metrics_handler]. *)
Definition initmetrics (sher : Scheduler) : outcome (Registry Scheduler) := NewClusterManager "vGPU" sher NewRegistry.
End program.
End SchedulerMetrics.

(** ** The monitor *)
Module MonitorMetrics.

Definition monitor_Desc (d : monitor_desc) : Desc :=
  match d with
  | HostGPUMemoryUsage => NewDesc "HostGPUMemoryUsage" "GPU device memory usage" ["deviceidx"; "deviceuuid"]
  | HostCoreUtilization => NewDesc "HostCoreUtilization" "GPU core utilization" ["deviceidx"; "deviceuuid"]
  | VGPUMemoryUsage =>
      NewDesc "vGPU_device_memory_usage_in_bytes" "vGPU device usage"
        ["podnamespace"; "podname"; "ctrname"; "vdeviceid"; "deviceuuid"]
  | VGPUMemoryLimit =>
      NewDesc "vGPU_device_memory_limit_in_bytes" "vGPU device limit"
        ["podnamespace"; "podname"; "ctrname"; "vdeviceid"; "deviceuuid"]
  | ContainerDeviceMemory =>
      NewDesc "Device_memory_desc_of_container" "Container device meory description"
        ["podnamespace"; "podname"; "ctrname"; "vdeviceid"; "deviceuuid"; "context"; "module"; "data"; "offset"]
  end%string.

Definition monitor_type (d : monitor_desc) : ValueType :=
  match d with ContainerDeviceMemory => CounterValue | _ => GaugeValue end.

#[global] Program Instance monitor_catalogue : Catalogue monitor_desc := {| desc_of := monitor_Desc; type_of := monitor_type |}.
Next Obligation. intros [] [] E; first [reflexivity|discriminate E]. Qed.
Next Obligation. intros k zone. apply zoned_valid; destruct k; vm_compute; exact I. Qed.

Definition sample_of (m : monitor_metric) : sample monitor_desc := mkSample (mm_desc m) (mm_value m) (mm_labels m).

(** What a scrape reads: NVML, the pods of the lister, the table of regions. *)
Record monitor_state := mkMonitorState {
  mo_devnum : list host_card + error;
  mo_pods : list Pod;
  mo_srPodList : gmap string podusage;
}.

Section program.
Context `{GoRuntime, PromClient}.

Definition collector_Collect (s : monitor_state) : outcome (list PMetric) :=
  ms ← monitor_Collect (mo_devnum s) (mo_pods s) (mo_srPodList s);
  send_all (map sample_of ms).

Definition monitor_Describe (s : monitor_state) : outcome (list Desc) :=
  Ret [monitor_Desc HostGPUMemoryUsage; monitor_Desc VGPUMemoryUsage; monitor_Desc VGPUMemoryLimit; monitor_Desc HostCoreUtilization].

Definition monitor_collector : collector monitor_state := mkCollector monitor_Describe collector_Collect.

Definition NewClusterManager (zone : string) (s : monitor_state) (reg : Registry monitor_state) : outcome (Registry monitor_state) :=
  MustRegister (zone_label zone) monitor_collector s reg.

(** [config]: the configuration of the cluster, and the client made of it;
    the function returns when there is none. *)
Definition initmetrics (InClusterConfig NewForConfig : option error) (s : monitor_state) : outcome (option (Registry monitor_state)) :=
  match InClusterConfig, NewForConfig with
  | Some _, _ | None, Some _ => Ret None
  | None, None => r ← NewClusterManager "vGPU" s NewRegistry; Ret (Some r)
  end.
End program.
End MonitorMetrics.

(** ** The test collector *)
Module TestCollector.

Inductive test_desc := OomCount | RamUsage.

#[export] Instance test_desc_eq_dec : EqDecision test_desc.
Proof. solve_decision. Defined.

Definition test_Desc (d : test_desc) : Desc :=
  match d with
  | OomCount => NewDesc "clustermanager_oom_crashes_total" "Number of OOM crashes." ["host"]
  | RamUsage => NewDesc "clustermanager_ram_usage_bytes" "RAM usage as reported to the cluster manager." ["host"]
  end%string.

Definition test_type (d : test_desc) : ValueType := match d with OomCount => CounterValue | RamUsage => GaugeValue end.

#[global] Program Instance test_catalogue : Catalogue test_desc := {| desc_of := test_Desc; type_of := test_type |}.
Next Obligation. intros [] [] E; first [reflexivity|discriminate E]. Qed.
Next Obligation. intros k zone. apply zoned_valid; destruct k; vm_compute; exact I. Qed.

Definition ReallyExpensiveAssessmentOfTheSystemState : gmap string Z * gmap string float64 :=
  ({["foo.example.org" := 42; "bar.example.org" := 2001]},
   {["foo.example.org" := f64_of_Z 602300000000000000000000; "bar.example.org" := f64_div (f64_of_Z 314) (f64_of_Z 100)]})%string.

Section program.
Context `{GoRuntime, PromClient}.

Definition test_samples : list (sample test_desc) :=
  let '(oomCountByHost, ramUsageByHost) := ReallyExpensiveAssessmentOfTheSystemState in
  ((fun x => mkSample OomCount (f64_of_Z x.2) [x.1]) <$> range ("Collect"%string, 0%nat) oomCountByHost)
  ++ ((fun x => mkSample RamUsage x.2 [x.1]) <$> range ("Collect"%string, 1%nat) ramUsageByHost).

Definition test_Collect {S} (s : S) : outcome (list PMetric) := send_all test_samples.

Definition test_Describe {S} : S -> outcome (list Desc) := DescribeByCollect test_Collect.

Definition test_collector {S} : collector S := mkCollector test_Describe test_Collect.

Definition NewClusterManager {S} (zone : string) (s : S) (reg : Registry S) : outcome (Registry S) :=
  MustRegister (zone_label zone) test_collector s reg.

(** The standard collectors are the library's. *)
Definition main {S} (NewProcessCollector NewGoCollector : collector S) (s : S) : outcome (Registry S) :=
  reg ← NewClusterManager "db" s NewPedanticRegistry;
  reg ← NewClusterManager "ca" s reg;
  reg ← MustRegister [] NewProcessCollector s reg;
  MustRegister [] NewGoCollector s reg.
End program.
End TestCollector.
