(* ===== verification/MetricsFacts.v ===== *)
(** * Properties of the metrics of the three programs *)

From Stdlib Require Import ZArith Lia Ascii String.
From stdpp Require Import base decidable option gmap strings numbers list.
From S2P Require Import Prelude GoStrings GoRuntime Types Scheduler SchedServer Monitor MonitorServer MonitorServerFacts Prometheus Metrics.

#[local] Open Scope Z_scope.

(** ** Series *)

Lemma assoc_map_inj (l1 l2 : list (string * string)) :
  l1.*1 = l2.*1 -> NoDup l1.*1 -> list_to_map (M := gmap string string) l1 = list_to_map l2 -> l1 = l2.
Proof.
  revert l2. induction l1 as [|[k a] l1 IH]; intros [|[k' b] l2] Ek Hnd Em; try done.
  cbn in Ek, Hnd, Em. injection Ek as <- Ek. apply NoDup_cons in Hnd as [Hk Hnd].
  assert (a = b) as <-.
  { apply (f_equal (lookup k)) in Em. rewrite !lookup_insert_eq in Em. congruence. }
  f_equal. apply IH; [done|done|]. apply (f_equal (delete k)) in Em.
  rewrite !delete_insert_id in Em; [done|..]; apply not_elem_of_list_to_map_1; [by rewrite <- Ek|done].
Qed.

Section catalogue.
Context `{Catalogue K}.

(** A sample as the zone's registerer exports it. *)
Definition zoned (zone : string) (x : sample K) : PMetric := wrap_metric (zone_label zone) (render x).

Lemma zoned_names zone x :
  labels_fit x ->
  (zip (variableLabels (pm_desc (zoned zone x))) (pm_values (zoned zone x)) ++ constLabels (pm_desc (zoned zone x))).*1
  = label_names (wrap_desc (zone_label zone) (desc_of (sm_key x))).
Proof. intros Hf. unfold label_names. rewrite fmap_app, fst_zip; [done|]. cbn. unfold labels_fit in Hf. lia. Qed.

Lemma zoned_label_names zone k : label_names (wrap_desc (zone_label zone) (desc_of k)) = label_names (wrap_desc (zone_label "") (desc_of k)).
Proof. unfold label_names. cbn. by rewrite !fmap_app. Qed.

Lemma zoned_NoDup zone k : NoDup (label_names (wrap_desc (zone_label zone) (desc_of k))).
Proof. rewrite zoned_label_names. by apply (desc_zoned k ""). Qed.

(** The series of a sample shows its zone, its descriptor and its labels. *)
Lemma zoned_series_inj zone zone' x x' :
  labels_fit x -> labels_fit x' -> pm_series (zoned zone x) = pm_series (zoned zone' x') ->
  zone = zone' /\ sm_key x = sm_key x' /\ sm_labels x = sm_labels x'.
Proof.
  intros Hf Hf' [= Ename Emap]. apply desc_inj in Ename. apply assoc_map_inj in Emap.
  - cbn in Emap. rewrite Ename, !app_assoc in Emap. apply app_inj_tail in Emap as [Emap Ez].
    injection Ez as ->. split_and!; [done|done|]. apply app_inv_tail in Emap.
    unfold labels_fit in Hf, Hf'. rewrite Ename in Hf.
    rewrite <- (snd_zip (variableLabels (desc_of (sm_key x'))) (sm_labels x)) by lia.
    rewrite Emap. apply snd_zip. lia.
  - etrans; [exact (zoned_names zone x Hf)|]. symmetry. etrans; [exact (zoned_names zone' x' Hf')|].
    rewrite (zoned_label_names zone), (zoned_label_names zone'). by rewrite Ename.
  - pose proof (zoned_names zone x Hf) as E. cbn in E |- *. rewrite E. apply zoned_NoDup.
Qed.

(** The samples of several zones are consistent metrics. *)
Definition zoned_samples (zs : list (string * list (sample K))) : list PMetric := concat ((fun y : string * list (sample K) => zoned y.1 <$> y.2) <$> zs).

Lemma zoned_fits zone x : labels_fit x -> labels_text x -> well_labelled (zoned zone x).
Proof. done. Qed.

Lemma zoned_family zone zone' x x' : same_family (zoned zone x) (zoned zone' x').
Proof.
  unfold same_family. destruct (decide (fqName (desc_of (sm_key x)) = fqName (desc_of (sm_key x')))) as [E|E]; [right|by left].
  apply desc_inj in E. cbn. by rewrite E.
Qed.

Lemma zoned_consistent zs :
  NoDup zs.*1 -> Forall (fun y => Forall labels_fit y.2 /\ Forall labels_text y.2 /\ samples_distinct y.2) zs ->
  consistent (zoned_samples zs).
Proof.
  intros Hz Hf.
  assert (forall m, m ∈ zoned_samples zs -> exists y x, y ∈ zs /\ x ∈ y.2 /\ m = zoned y.1 x) as Hin.
  { intros m (l & Hm & (y & -> & Hy)%list_elem_of_fmap)%elem_of_concat. apply list_elem_of_fmap in Hm as (x & -> & Hx). eauto. }
  rewrite Forall_forall in Hf. split_and!.
  - apply Forall_forall. intros m (y & x & Hy & Hx & ->)%Hin. destruct (Hf y Hy) as (H1 & H2 & _).
    rewrite Forall_forall in H1, H2. apply zoned_fits; auto.
  - apply Forall_forall. intros m (y & x & _ & _ & ->)%Hin. apply Forall_forall. intros m' (y' & x' & _ & _ & ->)%Hin.
    apply zoned_family.
  - apply (NoDup_pieces pm_series (fun y : string * list (sample K) => zoned y.1 <$> y.2) fst (fun c => default "" (c.2 !! "zone"))%string).
    + intros y m Hy (x & -> & Hx)%list_elem_of_fmap. cbn [pm_series snd].
      destruct (Hf y Hy) as (Hfit & _). rewrite Forall_forall in Hfit.
      erewrite elem_of_list_to_map_1; [reflexivity| |].
      * rewrite zoned_names by auto. apply zoned_NoDup.
      * apply elem_of_app. right. apply elem_of_app. right. by left.
    + done.
    + intros y Hy. destruct (Hf y Hy) as (Hfit & _ & Hd). rewrite <- list_fmap_compose.
      rewrite Forall_forall in Hfit. unfold samples_distinct in Hd.
      apply NoDup_fmap_2_strong; [|by eapply NoDup_fmap_1].
      intros x x' Hx Hx' (_ & E1 & E2)%zoned_series_inj; auto.
      apply list_elem_of_lookup in Hx as [i Hi], Hx' as [j Hj].
      assert (i = j) as <-; [|congruence].
      eapply (proj1 (NoDup_alt _) Hd i j (sm_key x, sm_labels x)); rewrite list_lookup_fmap; [by rewrite Hi|by rewrite Hj; cbn; rewrite E1, E2].
Qed.

Lemma zoned_duplicate zone xs :
  NoDup (pm_series <$> (zoned zone <$> xs)) -> samples_distinct xs.
Proof.
  intros Hnd. unfold samples_distinct. rewrite <- list_fmap_compose in Hnd. apply NoDup_alt. intros i j [k ls] Hi Hj.
  rewrite list_lookup_fmap in Hi, Hj. destruct (xs !! i) as [x|] eqn:Ei; [|done]. destruct (xs !! j) as [y|] eqn:Ej; [|done].
  injection Hi as <- <-. injection Hj as E1 E2.
  apply (proj1 (NoDup_alt _) Hnd i j (pm_series (zoned zone x))); rewrite list_lookup_fmap; [by rewrite Ei|rewrite Ej; cbn].
  f_equal. unfold pm_series. cbn. by rewrite E1, E2.
Qed.
End catalogue.

(** ** Registering and scraping *)
Section programs.
Context `{Catalogue K, PromClient}.

Lemma send_all_ok (xs : list (sample K)) :
  Forall labels_fit xs -> Forall labels_text xs -> send_all xs = Ret (render <$> xs).
Proof.
  intros Hf Ht. induction xs as [|x xs IH]; [done|]. apply Forall_cons in Hf as [Hx Hf]. apply Forall_cons in Ht as [Tx Ht].
  cbn [send_all]. unfold MustNewConstMetric. rewrite const_metric_ok by done. cbn. by rewrite (IH Hf Ht).
Qed.

Lemma describes_by_collect {S} (Collect : S -> outcome (list PMetric)) s xs :
  Collect s = send_all xs -> Forall labels_fit xs -> Forall labels_text xs ->
  DescribeByCollect Collect s = Ret (desc_of <$> (sm_key <$> xs)).
Proof.
  intros E Hf Ht. unfold DescribeByCollect. rewrite E, send_all_ok by done. cbn. f_equal.
  etrans; [apply map_map|symmetry; apply map_map].
Qed.

Lemma const_map_zone zone k : const_map (wrap_desc (zone_label zone) (desc_of k)) !! "zone"%string = Some zone.
Proof.
  apply elem_of_list_to_map_1.
  - pose proof (zoned_NoDup zone k) as Hn. by apply NoDup_app in Hn as (_ & _ & ?).
  - apply elem_of_app. right. by left.
Qed.

(** The descriptors of the catalogue's names in [old] are those of other zones. *)
Definition other_zones (zone : string) (old : list Desc) : Prop :=
  Forall (fun d => forall k, fqName (desc_of k) = fqName d ->
    exists zone', zone' <> zone /\ d = wrap_desc (zone_label zone') (desc_of k)) old.

Lemma same_dims_zones zone zone' k : same_dimensions (wrap_desc (zone_label zone) (desc_of k)) (wrap_desc (zone_label zone') (desc_of k)).
Proof. unfold same_dimensions. cbn. by rewrite !fmap_app. Qed.

Lemma zone_registrable zone old ks :
  valid_utf8 zone = true -> other_zones zone old -> registrable old (wrap_desc (zone_label zone) <$> (desc_of <$> ks)).
Proof.
  intros Hz Ho. unfold other_zones in Ho. rewrite Forall_forall in Ho. rewrite <- list_fmap_compose. split_and!.
  - apply Forall_fmap, Forall_forall. intros k _. by apply desc_zoned.
  - apply Forall_fmap, Forall_forall. intros k _. apply Forall_fmap, Forall_forall. intros k' _. cbn.
    destruct (decide (fqName (desc_of k) = fqName (desc_of k'))) as [->%desc_inj|]; [right|by left]. apply same_dims_zones.
  - apply Forall_fmap, Forall_forall. intros k _. apply Forall_forall. intros d Hd.
    destruct (decide (fqName (desc_of k) = fqName d)) as [E|]; [right|by left].
    destruct (Ho d Hd k E) as (zone' & Hne & ->). split; [apply same_dims_zones|].
    intros Em. pose proof (const_map_zone zone k) as Ez. pose proof (const_map_zone zone' k) as Ez'.
    unfold const_map in Em, Ez, Ez'. cbn in Em, Ez, Ez'. congruence.
Qed.

Lemma zone_registers {S} zone c (s : S) r ks :
  valid_utf8 zone = true -> co_Describe c s = Ret (desc_of <$> ks) -> other_zones zone (concat (rg_descs <$> registrations r)) ->
  exists r', MustRegister (zone_label zone) c s r = Ret r' /\ pedantic r' = pedantic r
    /\ registrations r' = registrations r ++ [mkRegistration (zone_label zone) (wrap_desc (zone_label zone) <$> (desc_of <$> ks)) c].
Proof.
  intros Hz Hd Ho. destruct (register_ok (zone_label zone) c s r _ Hd (zone_registrable _ _ _ Hz Ho)) as (r' & E & Hp & Hr).
  exists r'. unfold MustRegister. by rewrite E.
Qed.

(** A collector of samples registered alone. *)
Lemma zone_scraped {S} zone c (s : S) r ds xs :
  registrations r = [mkRegistration (zone_label zone) ds c] -> co_Collect c s = send_all xs ->
  Forall labels_fit xs -> Forall labels_text xs ->
  (pedantic r = true -> ds = [] \/ Forall (fun x => wrap_desc (zone_label zone) (desc_of (sm_key x)) ∈ ds) xs) ->
  (samples_distinct xs -> exists ms, metrics_handler r s = Ret (200, ms) /\ ms ≡ₚ zoned zone <$> xs)
  /\ (~ samples_distinct xs -> metrics_handler r s = Ret (500, [])).
Proof.
  intros Hr Hc Hf Ht Hp.
  assert (collect_all s (registrations r) = Ret [zoned zone <$> xs]) as Ea.
  { rewrite Hr. cbn. unfold collect_one. cbn. rewrite Hc, send_all_ok by done. cbn. do 2 f_equal. apply map_map. }
  unfold metrics_handler. split.
  - intros Hd. destruct (gather_ok r s _ Ea) as (ms & -> & Hms).
    + pose proof (zoned_consistent [(zone, xs)]) as Hz. unfold zoned_samples in Hz. apply Hz; [apply NoDup_singleton|].
      by repeat constructor.
    + intros Hped. rewrite Hr. constructor; [|constructor]. unfold described. cbn [rg_descs].
      destruct (Hp Hped) as [?|Hin]; [by left|right]. apply Forall_fmap. eapply Forall_impl; [exact Hin|].
      intros x Hx. apply elem_of_app. by left.
    + cbn [concat] in Hms. rewrite app_nil_r in Hms. eauto.
  - intros Hd. destruct (gather_inconsistent r s _ Ea) as (e & ->); [|done].
    cbn [concat]. rewrite app_nil_r. by intros ?%zoned_duplicate.
Qed.

(** A second registration of a catalogue under the same zone is refused. *)
Lemma zone_refused {S} zone c (s : S) r k ks :
  co_Describe c s = Ret (desc_of <$> k :: ks) ->
  wrap_desc (zone_label zone) (desc_of k) ∈ concat (rg_descs <$> registrations r) ->
  MustRegister (zone_label zone) c s r = Panic Explicit.
Proof.
  intros Hd Hin. unfold MustRegister. destruct (register_refused (zone_label zone) c s r _ Hd) as (e & ->); [|done].
  intros (_ & _ & Ho). apply Forall_inv in Ho. rewrite Forall_forall in Ho.
  destruct (Ho _ Hin) as [|[_ ?]]; done.
Qed.
End programs.

(** ** The samples of the scheduler fit their descriptors *)
Lemma scheduler_labels_fit `{GoRuntime} sher : Forall labels_fit (SchedulerMetrics.sample_of <$> SchedServer.Collect sher).
Proof.
  apply Forall_fmap, Forall_forall. intros m. unfold SchedServer.Collect. rewrite elem_of_app. intros [Hm|Hm].
  - unfold node_metrics in Hm. apply elem_of_concat in Hm as (l & Hm & ([n u] & -> & _)%list_elem_of_fmap).
    apply elem_of_concat in Hm as (l & Hm & (d & -> & _)%list_elem_of_fmap).
    unfold SchedServer.device_metrics in Hm. repeat (apply elem_of_cons in Hm as [->|Hm]; [done|]). by apply elem_of_nil in Hm.
  - apply elem_of_concat in Hm as (l & Hm & (x & -> & _)%list_elem_of_fmap). unfold pod_metrics in Hm.
    apply elem_of_concat in Hm as (l & Hm & ([kind ps] & -> & _)%list_elem_of_fmap).
    rewrite kind_metrics_places in Hm. apply elem_of_concat in Hm as (l & Hm & (y & -> & _)%list_elem_of_fmap).
    unfold place_metrics, device_share_metrics in Hm. apply elem_of_cons in Hm as [->|Hm]; [done|].
    apply elem_of_app in Hm as [Hm|Hm%list_elem_of_singleton]; [|by subst m].
    destruct (0 <? _); [apply list_elem_of_singleton in Hm as ->; done|by apply elem_of_nil in Hm].
Qed.

Lemma scheduler_distinct l : samples_distinct (SchedulerMetrics.sample_of <$> l) <-> scrape_ok l.
Proof. unfold samples_distinct, scrape_ok. by rewrite <- list_fmap_compose. Qed.

(** ** The samples of the monitor *)

(** The metrics of a part of the loop, none when it panics. *)
Definition sent {A} (o : outcome (list A)) : list A := match o with Ret l => l | Panic _ => [] end.

Lemma collect_each_sent {A} (f : A -> outcome (list monitor_metric)) l ms :
  collect_each f l = Ret ms -> ms = concat ((fun a => sent (f a)) <$> l).
Proof.
  revert ms. induction l as [|a l IH]; intros ms E; cbn [collect_each] in E; [by injection E as <-|].
  unfold mbind, outcome_bind in E. cbn. destruct (f a) as [m1|]; [|done].
  destruct (collect_each f l) as [m2|] eqn:E2; [|done]. injection E as <-. cbn. f_equal. by apply IH.
Qed.

(** Pieces told apart by their keys. *)
Lemma NoDup_pieces_rel {A B C} (key : B -> C) (g : A -> list B) l :
  NoDup l -> (forall a a' b b', a ∈ l -> a' ∈ l -> b ∈ g a -> b' ∈ g a' -> key b = key b' -> a = a') ->
  (forall a, a ∈ l -> NoDup (key <$> g a)) -> NoDup (key <$> concat (g <$> l)).
Proof.
  intros Hnd Hk Hg. induction Hnd as [|a l Ha Hnd IH]; [constructor|]. cbn [fmap list_fmap concat]. rewrite fmap_app.
  apply NoDup_app. split_and!.
  - apply Hg. by left.
  - intros c (b & -> & Hb)%list_elem_of_fmap (b' & E & Hb')%list_elem_of_fmap.
    apply elem_of_concat in Hb' as (x & Hb' & (a' & -> & Ha')%list_elem_of_fmap).
    apply Ha. rewrite (Hk a a' b b'); [done|by left|by right|done..].
  - apply IH; [intros a1 a2 b1 b2 H1 H2; apply Hk; by right|intros a1 H1; apply Hg; by right].
Qed.

(** The first labels of a metric of a container. *)
Definition mm_series (m : monitor_metric) : monitor_desc * list string := (mm_desc m, mm_labels m).

Lemma device_series ns name ctr usage sr i m :
  m ∈ sent (MonitorServer.device_metrics ns name ctr usage sr i) ->
  take 4 (mm_labels m) = [ns; name; ctr; itoa (Z.of_nat i)] /\ labels_fit (MonitorMetrics.sample_of m)
  /\ mm_desc m ∈ [VGPUMemoryUsage; VGPUMemoryLimit; ContainerDeviceMemory].
Proof.
  unfold MonitorServer.device_metrics, mbind, outcome_bind. destruct (gettotalusage usage i) as [value|]; [|by intros ?%elem_of_nil].
  destruct (slice_get (sr_uuids sr) i) as [u|]; [|by intros ?%elem_of_nil].
  destruct (slice_get (sr_limit sr) i) as [lim|]; [|by intros ?%elem_of_nil]. cbn [sent].
  intros Hm. repeat (apply elem_of_cons in Hm as [->|Hm]; [split_and!; [done|done|cbn; set_solver]|]). by apply elem_of_nil in Hm.
Qed.

Lemma device_series_distinct ns name ctr usage sr i : NoDup (mm_series <$> sent (MonitorServer.device_metrics ns name ctr usage sr i)).
Proof.
  unfold MonitorServer.device_metrics, mbind, outcome_bind. destruct (gettotalusage usage i) as [value|]; [|constructor].
  destruct (slice_get (sr_uuids sr) i); [|constructor]. destruct (slice_get (sr_limit sr) i); [|constructor].
  apply (NoDup_fmap_1 fst), (bool_decide_unpack (NoDup _)). vm_compute. exact I.
Qed.

Lemma elem_of_collect_each {A} (f : A -> outcome (list monitor_metric)) l m :
  m ∈ sent (collect_each f l) -> exists a, a ∈ l /\ m ∈ sent (f a).
Proof.
  destruct (collect_each f l) as [ms|] eqn:E; [|by intros ?%elem_of_nil]. apply collect_each_sent in E as ->.
  intros (x & Hm & (a & -> & Ha)%list_elem_of_fmap)%elem_of_concat. eauto.
Qed.

Lemma NoDup_collect_each {A} (f : A -> outcome (list monitor_metric)) l :
  NoDup l ->
  (forall a a' m m', a ∈ l -> a' ∈ l -> m ∈ sent (f a) -> m' ∈ sent (f a') -> mm_series m = mm_series m' -> a = a') ->
  (forall a, a ∈ l -> NoDup (mm_series <$> sent (f a))) -> NoDup (mm_series <$> sent (collect_each f l)).
Proof.
  intros Hl Hk Hg. destruct (collect_each f l) as [ms|] eqn:E; [|constructor]. apply collect_each_sent in E as ->.
  by apply NoDup_pieces_rel.
Qed.

(** The devices of a region for a container, and the containers of a pod. *)
Definition container_metrics (val : Pod) (usage : podusage) (sr : sharedRegionT) (ctr_name : string) (ctr : Container)
    : outcome (list monitor_metric) :=
  if decide (ctr_Name ctr = ctr_name)
  then collect_each (MonitorServer.device_metrics (pod_Namespace val) (pod_Name val) ctr_name usage sr)
         (seq 0 (Z.to_nat (i64 (sr_num sr))))
  else Ret [].

Lemma container_sent val usage sr ctr_name ctr m :
  m ∈ sent (container_metrics val usage sr ctr_name ctr) ->
  ctr_Name ctr = ctr_name /\ exists i, (i < Z.to_nat (i64 (sr_num sr)))%nat
    /\ m ∈ sent (MonitorServer.device_metrics (pod_Namespace val) (pod_Name val) ctr_name usage sr i).
Proof.
  unfold container_metrics. case_decide as Hc; [|by intros ?%elem_of_nil].
  intros (i & Hi%elem_of_seq & Hm)%elem_of_collect_each. split; [done|]. exists i. split; [lia|done].
Qed.

Lemma container_distinct val usage sr ctr_name ctr : NoDup (mm_series <$> sent (container_metrics val usage sr ctr_name ctr)).
Proof.
  unfold container_metrics. case_decide; [|constructor]. apply NoDup_collect_each.
  - apply NoDup_seq.
  - intros i j m m' Hi%elem_of_seq Hj%elem_of_seq (E & _)%device_series (E' & _)%device_series [= _ Em].
    rewrite Em in E. rewrite E in E'. injection E' as Ei. apply itoa_inj in Ei; [lia|..].
    all: pose proof (Z.mod_pos_bound (sr_num sr + 2 ^ (64 - 1)) (2 ^ 64) ltac:(lia)); unfold in_i64, min_i64, max_i64, wrap in *; lia.
  - intros i _. apply device_series_distinct.
Qed.

(** The metrics of a region for a pod are those of its container's devices. *)
Lemma region_sent val usage m :
  m ∈ sent (region_metrics val usage) ->
  exists ctr_name rest, split "_" (pu_idstr usage) = pod_UID val :: ctr_name :: rest
    /\ labels_fit (MonitorMetrics.sample_of m) /\ mm_desc m ∈ [VGPUMemoryUsage; VGPUMemoryLimit; ContainerDeviceMemory]
    /\ take 3 (mm_labels m) = [pod_Namespace val; pod_Name val; ctr_name].
Proof.
  unfold region_metrics, mbind, outcome_bind. destruct (pu_sr usage) as [sr|]; [|by intros ?%elem_of_nil].
  destruct (split "_" (pu_idstr usage)) as [|u [|c rest]]; cbn; [by intros ?%elem_of_nil..|].
  case_decide as Hu; [|by intros ?%elem_of_nil]. subst u.
  intros (ctr & _ & Hm)%elem_of_collect_each. apply (container_sent val usage sr c ctr) in Hm as (_ & i & _ & Hm).
  apply device_series in Hm as (Hl & Hf & Hd). exists c, rest. split_and!; try done.
  apply (f_equal (take 3)) in Hl. by rewrite take_take in Hl.
Qed.

Lemma region_distinct val usage :
  NoDup (ctr_Name <$> pod_Containers val) -> NoDup (mm_series <$> sent (region_metrics val usage)).
Proof.
  intros Hnd. unfold region_metrics, mbind, outcome_bind. destruct (pu_sr usage) as [sr|]; [|constructor].
  destruct (split "_" (pu_idstr usage)) as [|u [|c rest]]; cbn; [constructor..|]. case_decide; [|constructor].
  apply (NoDup_collect_each (container_metrics val usage sr c)); [by eapply NoDup_fmap_1| |intros; apply container_distinct].
  intros a a' m m' Ha Ha' (E & _)%container_sent (E' & _)%container_sent _.
  apply list_elem_of_lookup in Ha as [i Hi], Ha' as [j Hj]. assert (i = j) as <-; [|congruence].
  eapply (proj1 (NoDup_alt _) Hnd i j c); rewrite list_lookup_fmap; [by rewrite Hi; cbn; rewrite E|by rewrite Hj; cbn; rewrite E'].
Qed.

(** The metrics of the cards. *)
Lemma card_series ii c m :
  m ∈ card_metrics ii c -> labels_fit (MonitorMetrics.sample_of m) /\ mm_desc m ∈ [HostGPUMemoryUsage; HostCoreUtilization]
    /\ take 1 (mm_labels m) = [itoa (Z.of_nat ii)].
Proof.
  unfold card_metrics. rewrite elem_of_app.
  intros [Hm|Hm]; [destruct (hc_uuid c)|destruct (hc_utilization c)]; try by apply elem_of_nil in Hm.
  all: apply list_elem_of_singleton in Hm as ->; split_and!; [done|cbn; set_solver|done].
Qed.

Lemma imap_pair_NoDup {A} (l : list A) : NoDup (imap pair l).
Proof.
  apply NoDup_alt. intros i j x Hi Hj. rewrite list_lookup_imap in Hi, Hj.
  destruct (l !! i), (l !! j); try done. cbn in Hi, Hj. congruence.
Qed.

Lemma elem_of_imap_pair {A} (l : list A) n a : (n, a) ∈ imap pair l <-> l !! n = Some a.
Proof.
  rewrite list_elem_of_lookup. setoid_rewrite list_lookup_imap. split.
  - intros [i Hi]. destruct (l !! i) eqn:E; [|done]. cbn in Hi. congruence.
  - intros E. exists n. by rewrite E.
Qed.

Lemma cards_pieces cards : concat (imap card_metrics cards) = concat ((fun x => card_metrics x.1 x.2) <$> imap pair cards).
Proof. by rewrite fmap_imap. Qed.

Lemma cards_distinct cards : Z.of_nat (length cards) <= max_i64 -> NoDup (mm_series <$> concat (imap card_metrics cards)).
Proof.
  intros Hlen. rewrite cards_pieces. apply NoDup_pieces_rel; [apply imap_pair_NoDup| |].
  - intros [i c] [j d] m m' Hi%elem_of_imap_pair Hj%elem_of_imap_pair (_ & _ & E)%card_series (_ & _ & E')%card_series [= _ Em].
    cbn in *. rewrite Em, E' in E. injection E as Ei. apply lookup_lt_Some in Hi as Li. apply lookup_lt_Some in Hj as Lj.
    apply itoa_inj in Ei; [|unfold in_i64, min_i64 in *; lia..]. apply Nat2Z.inj in Ei as ->. congruence.
  - intros [i c] _. cbn. unfold card_metrics. destruct (hc_uuid c), (hc_utilization c); cbn; try (constructor; fail).
    all: apply (NoDup_fmap_1 fst), (bool_decide_unpack (NoDup _)); vm_compute; exact I.
Qed.

(** What Kubernetes and [monitorpath] give: pods told apart by namespace and
    name, containers by name, and directories named after the pod and the
    container, whose name has no underscore. *)
Record well_named (containerPath : string) (s : MonitorMetrics.monitor_state) : Prop := {
  wn_cards cards : MonitorMetrics.mo_devnum s = inl cards -> Z.of_nat (length cards) <= max_i64;
  wn_pods : NoDup ((fun p => (pod_Namespace p, pod_Name p)) <$> MonitorMetrics.mo_pods s);
  wn_containers : Forall (fun p => NoDup (ctr_Name <$> pod_Containers p)) (MonitorMetrics.mo_pods s);
  wn_dirs : map_Forall (fun dir u => dir = (containerPath +:+ "/" +:+ pu_idstr u)%string /\ length (split "_" (pu_idstr u)) = 2%nat)
    (MonitorMetrics.mo_srPodList s);
}.

Section monitor.
Context `{GoRuntime}.
Import MonitorMetrics.

Lemma two_parts_inj a b : length (split "_" a) = 2%nat -> length (split "_" b) = 2%nat ->
  take 2 (split "_" a) = take 2 (split "_" b) -> a = b.
Proof.
  intros Ha Hb E. rewrite !take_ge in E by lia. rewrite <- (join_split "_" a), <- (join_split "_" b). by rewrite E.
Qed.

(** The table's regions for a pod. *)
Lemma pod_regions_distinct containerPath s n val :
  well_named containerPath s -> mo_pods s !! n = Some val ->
  NoDup (mm_series <$> sent (collect_each (fun y => region_metrics val y.2) (range ("Collect"%string, n) (mo_srPodList s)))).
Proof.
  intros Hw Hval. apply NoDup_collect_each.
  - eapply NoDup_fmap_1, range_NoDup.
  - intros [d1 u1] [d2 u2] m m' H1%elem_of_range H2%elem_of_range (c1 & r1 & E1 & _ & _ & L1)%region_sent
      (c2 & r2 & E2 & _ & _ & L2)%region_sent [= _ Em].
    cbn in *. rewrite Em, L2 in L1. injection L1 as ->.
    destruct (wn_dirs _ _ Hw d1 u1 H1) as [D1 N1]. destruct (wn_dirs _ _ Hw d2 u2 H2) as [D2 N2].
    assert (pu_idstr u1 = pu_idstr u2) as Eid by (apply two_parts_inj; [done..|by rewrite E1, E2]).
    rewrite Eid, <- D2 in D1. subst d1. congruence.
  - intros [d u] _. apply region_distinct. pose proof (wn_containers _ _ Hw) as Hc. rewrite Forall_forall in Hc.
    apply Hc. by eapply list_elem_of_lookup_2.
Qed.

Lemma pod_regions_sent s n val m :
  m ∈ sent (collect_each (fun y => region_metrics val y.2) (range ("Collect"%string, n) (mo_srPodList s))) ->
  labels_fit (sample_of m) /\ mm_desc m ∈ [VGPUMemoryUsage; VGPUMemoryLimit; ContainerDeviceMemory]
  /\ take 2 (mm_labels m) = [pod_Namespace val; pod_Name val].
Proof.
  intros (y & _ & (c & r & _ & Hf & Hd & Hl)%region_sent)%elem_of_collect_each. split_and!; [done|done|].
  apply (f_equal (take 2)) in Hl. by rewrite take_take in Hl.
Qed.

Lemma pods_distinct containerPath s :
  well_named containerPath s ->
  NoDup (mm_series <$> sent (collect_each (fun x => collect_each (fun y => region_metrics x.2 y.2)
    (range ("Collect"%string, x.1) (mo_srPodList s))) (imap pair (mo_pods s)))).
Proof.
  intros Hw. apply NoDup_collect_each; [apply imap_pair_NoDup| |].
  - intros [n p] [n' p'] m m' Hn%elem_of_imap_pair Hn'%elem_of_imap_pair (_ & _ & L)%pod_regions_sent (_ & _ & L')%pod_regions_sent [= _ Em].
    cbn in *. rewrite Em, L' in L. injection L as En Ens.
    assert (n = n') as <-; [|congruence].
    eapply (proj1 (NoDup_alt _) (wn_pods _ _ Hw) n n' (pod_Namespace p, pod_Name p)); rewrite list_lookup_fmap;
      [by rewrite Hn|by rewrite Hn'; cbn; rewrite En, Ens].
  - intros [n p] Hn%elem_of_imap_pair. by apply (pod_regions_distinct containerPath).
Qed.

(** What a scrape sends fits the descriptors and is free of duplicates. *)
Lemma monitor_samples s ms :
  monitor_Collect (mo_devnum s) (mo_pods s) (mo_srPodList s) = Ret ms ->
  Forall labels_fit (sample_of <$> ms) /\ (forall containerPath, well_named containerPath s -> samples_distinct (sample_of <$> ms)).
Proof.
  unfold monitor_Collect, mbind, outcome_bind. destruct (collect_each _ _) as [ctr|] eqn:Ec; [|done]. intros [= <-].
  assert (forall m, m ∈ match mo_devnum s with inl cards => concat (imap card_metrics cards) | inr _ => [] end ->
    labels_fit (sample_of m) /\ mm_desc m ∈ [HostGPUMemoryUsage; HostCoreUtilization]) as Hhost.
  { intros m Hm. destruct (mo_devnum s) as [cards|]; [|by apply elem_of_nil in Hm]. rewrite cards_pieces in Hm.
    apply elem_of_concat in Hm as (l & Hm & (x & -> & _)%list_elem_of_fmap). by apply card_series in Hm as (? & ? & _). }
  assert (forall m, m ∈ ctr -> labels_fit (sample_of m) /\ mm_desc m ∈ [VGPUMemoryUsage; VGPUMemoryLimit; ContainerDeviceMemory]) as Hctr.
  { intros m Hm. change ctr with (sent (Ret ctr)) in Hm. rewrite <- Ec in Hm.
    apply elem_of_collect_each in Hm as (x & _ & (? & ? & _)%pod_regions_sent). done. }
  split.
  - apply Forall_fmap, Forall_forall. intros m [Hm|Hm]%elem_of_app; [by apply Hhost|by apply Hctr].
  - intros containerPath Hw. unfold samples_distinct. rewrite <- list_fmap_compose.
    change (NoDup (mm_series <$> match mo_devnum s with inl cards => concat (imap card_metrics cards) | inr _ => [] end ++ ctr)).
    rewrite fmap_app. apply NoDup_app. split_and!.
    + destruct (mo_devnum s) as [cards|] eqn:Ed; [|constructor]. apply cards_distinct. by apply (wn_cards _ _ Hw).
    + intros x (m & -> & Hm%Hhost)%list_elem_of_fmap (m' & [= E _] & Hm'%Hctr)%list_elem_of_fmap.
      rewrite E in Hm. destruct Hm as [_ Hm], Hm' as [_ Hm']. 
      clear - Hm Hm'. destruct (mm_desc m'); first [by apply (bool_decide_pack (_ ∈ _)) in Hm|by apply (bool_decide_pack (_ ∈ _)) in Hm'].
    + change ctr with (sent (Ret ctr)). rewrite <- Ec. by apply (pods_distinct containerPath).
Qed.
End monitor.

(** ** Collectors with names of their own *)
Lemma wrap_desc_nil d : wrap_desc [] d = d.
Proof. destruct d. unfold wrap_desc. cbn. by rewrite app_nil_r. Qed.
Lemma wrap_metric_nil m : wrap_metric [] m = m.
Proof. destruct m. unfold wrap_metric. cbn. by rewrite wrap_desc_nil. Qed.

Lemma registrable_other_names ours old new :
  registrable old new -> (forall d d', d ∈ new -> d' ∈ ours -> fqName d <> fqName d') -> registrable (ours ++ old) new.
Proof.
  intros (Hv & Hs & Ho) Hn. split_and!; [done..|]. rewrite Forall_forall in Ho |- *. intros d Hd. apply Forall_app. split; [|by apply Ho].
  apply Forall_forall. intros d' Hd'. left. by apply Hn.
Qed.

Lemma consistent_other_names ms ms' :
  consistent ms -> consistent ms' ->
  (forall m m', m ∈ ms -> m' ∈ ms' -> fqName (pm_desc m) <> fqName (pm_desc m')) -> consistent (ms ++ ms').
Proof.
  intros (Hl & Hf & Hd) (Hl' & Hf' & Hd') Hn. rewrite Forall_forall in Hf, Hf'. split_and!.
  - by apply Forall_app.
  - apply Forall_app. split; apply Forall_forall; intros m Hm; apply Forall_app; split; auto.
    + apply Forall_forall. intros m' Hm'. left. by apply Hn.
    + apply Forall_forall. intros m' Hm'. left. intros E. by apply (Hn m' m).
  - rewrite fmap_app. apply NoDup_app. split_and!; [done| |done].
    intros x (m & -> & Hm)%list_elem_of_fmap (m' & [= E _] & Hm')%list_elem_of_fmap. by apply (Hn m m').
Qed.

Lemma described_own {S} (rs : list (registration S)) x ms :
  x ∈ rs -> Forall (fun m => pm_desc m ∈ rg_descs x) ms -> described rs x ms.
Proof.
  intros Hx Hm. right. eapply Forall_impl; [exact Hm|]. intros m Hin. apply elem_of_concat. eexists. split; [exact Hin|].
  by apply list_elem_of_fmap_2.
Qed.

(** What the test program relies on of the library's two collectors: they
    describe what they collect, consistently, under names that are not the
    program's. *)
Record standard_collectors {S} (s : S) (proc go : collector S) (dp dg : list Desc) (mp mg : list PMetric) : Prop := {
  sc_describe : co_Describe proc s = Ret dp /\ co_Describe go s = Ret dg;
  sc_collect : co_Collect proc s = Ret mp /\ co_Collect go s = Ret mg;
  sc_registrable : registrable [] dp /\ registrable dp dg;
  sc_described : Forall (fun m => pm_desc m ∈ dp) mp /\ Forall (fun m => pm_desc m ∈ dg) mg;
  sc_consistent : consistent (mp ++ mg);
  sc_names : Forall (fun d => forall k, fqName (desc_of (K := TestCollector.test_desc) k) <> fqName d) (dp ++ dg);
}.

Section test.
Context `{GoRuntime, PromClient}.
Import TestCollector.

Lemma test_samples_fit : Forall labels_fit test_samples /\ Forall labels_text test_samples.
Proof.
  split; apply Forall_app; split; apply Forall_fmap, Forall_forall; intros [host v] Hin%elem_of_range; try done.
  all: apply lookup_insert_Some in Hin as [[<- _]|[_ [<- _]%lookup_singleton_Some]]; repeat constructor.
Qed.

Lemma test_samples_distinct : samples_distinct test_samples.
Proof.
  unfold samples_distinct, test_samples. cbn [ReallyExpensiveAssessmentOfTheSystemState]. rewrite fmap_app, <- !list_fmap_compose.
  apply NoDup_app. split_and!.
  - apply NoDup_fmap_2_strong; [|eapply NoDup_fmap_1, range_NoDup].
    intros [h v] [h' v'] H1%elem_of_range H2%elem_of_range [= ->]. congruence.
  - by intros x ([h v] & -> & _)%list_elem_of_fmap ([h' v'] & [=] & _)%list_elem_of_fmap.
  - apply NoDup_fmap_2_strong; [|eapply NoDup_fmap_1, range_NoDup].
    intros [h v] [h' v'] H1%elem_of_range H2%elem_of_range [= ->]. congruence.
Qed.

Definition test_keys : list test_desc := sm_key <$> test_samples.

Lemma test_describes {S} (s : S) : co_Describe test_collector s = Ret (desc_of <$> test_keys).
Proof. apply (describes_by_collect _ _ test_samples); [done|apply test_samples_fit..]. Qed.

Definition test_zone (zone : string) {S} : registration S :=
  mkRegistration (zone_label zone) (wrap_desc (zone_label zone) <$> (desc_of <$> test_keys)) test_collector.

Lemma test_zone_registers {S} zone zones (s : S) r :
  valid_utf8 zone = true -> registrations r = (fun z => test_zone z) <$> zones -> zone ∉ zones ->
  exists r', NewClusterManager zone s r = Ret r' /\ pedantic r' = pedantic r
    /\ registrations r' = registrations r ++ [test_zone zone].
Proof.
  intros Hz Hr Hni. eapply zone_registers; [done|apply test_describes|]. rewrite Hr. apply Forall_forall.
  intros d (l & Hd & (x & -> & (z & -> & Hin)%list_elem_of_fmap)%list_elem_of_fmap)%elem_of_concat.
  cbn in Hd. apply list_elem_of_fmap in Hd as (d' & -> & (k & -> & _)%list_elem_of_fmap).
  intros k' E. pose proof (desc_inj k' k E) as ->. exists z. split; [|done]. by intros ->.
Qed.

Lemma plain_registers {S} c (s : S) r ds :
  co_Describe c s = Ret ds -> registrable (concat (rg_descs <$> registrations r)) ds ->
  exists r', MustRegister [] c s r = Ret r' /\ pedantic r' = pedantic r /\ registrations r' = registrations r ++ [mkRegistration [] ds c].
Proof.
  intros Hd Hr. assert (wrap_desc [] <$> ds = ds) as Ew.
  { rewrite <- (list_fmap_id ds) at 2. apply list_fmap_ext. intros. apply wrap_desc_nil. }
  rewrite <- Ew in Hr. destruct (register_ok [] c s r ds Hd Hr) as (r' & E & Hp & Hr'). rewrite Ew in Hr'.
  exists r'. unfold MustRegister. by rewrite E.
Qed.

Lemma test_zone_names {S} zones (d : Desc) :
  d ∈ concat (rg_descs <$> ((fun z => test_zone z (S := S)) <$> zones)) -> exists k : test_desc, fqName d = fqName (desc_of k).
Proof.
  intros (l & Hd & (x & -> & (z & -> & _)%list_elem_of_fmap)%list_elem_of_fmap)%elem_of_concat.
  cbn in Hd. apply list_elem_of_fmap in Hd as (d' & -> & (k & -> & _)%list_elem_of_fmap). by exists k.
Qed.

Context {S : Type} (s : S) (proc go : collector S) (dp dg : list Desc) (mp mg : list PMetric)
        (Hstd : standard_collectors s proc go dp dg mp mg).

(** [main]: the four collectors are accepted by the pedantic registry. *)
Lemma test_main_registers :
  exists reg, main proc go s = Ret reg /\ pedantic reg = true
    /\ registrations reg = [test_zone "db"; test_zone "ca"; mkRegistration [] dp proc; mkRegistration [] dg go].
Proof.
  destruct Hstd as [[Dp Dg] _ [Rp Rg] _ _ Hn]. rewrite Forall_app, !Forall_forall in Hn. destruct Hn as [Np Ng].
  destruct (test_zone_registers "db" [] s NewPedanticRegistry) as (r1 & E1 & P1 & R1);
    [done|exact (proj1 new_pedantic)|by apply not_elem_of_nil|]. rewrite (proj1 new_pedantic) in R1.
  destruct (test_zone_registers "ca" ["db"%string] s r1) as (r2 & E2 & P2 & R2); [done|done|set_solver|]. rewrite R1 in R2.
  destruct (plain_registers proc s r2 dp Dp) as (r3 & E3 & P3 & R3).
  { rewrite <- (app_nil_r (concat _)). apply registrable_other_names; [done|].
    intros d d' Hd Hd' E. rewrite R2 in Hd'. apply (test_zone_names ["db"; "ca"]%string) in Hd' as (k & Ek). apply (Np d Hd k). congruence. }
  destruct (plain_registers go s r3 dg Dg) as (r4 & E4 & P4 & R4).
  { rewrite R3, fmap_app, concat_app. cbn [fmap list_fmap concat rg_descs]. rewrite app_nil_r. apply registrable_other_names; [done|].
    intros d d' Hd Hd' E. rewrite R2 in Hd'. apply (test_zone_names ["db"; "ca"]%string) in Hd' as (k & Ek). apply (Ng d Hd k). congruence. }
  exists r4. rewrite P4, P3, P2, P1, (proj2 new_pedantic), R4, R3, R2. split_and!; [|done|done].
  unfold main, mbind, outcome_bind. by rewrite E1, E2, E3.
Qed.

Lemma test_collects :
  collect_all s [test_zone "db"; test_zone "ca"; mkRegistration [] dp proc; mkRegistration [] dg go]
  = Ret [zoned "db" <$> test_samples; zoned "ca" <$> test_samples; mp; mg].
Proof.
  destruct Hstd as [_ [Cp Cg] _ _ _ _]. destruct test_samples_fit as [Hf Ht].
  assert (forall zone, collect_one s (test_zone zone) = Ret (zoned zone <$> test_samples)) as Ez.
  { intros zone. unfold collect_one, test_zone. cbn [rg_collector co_Collect test_collector rg_labels]. unfold test_Collect.
    rewrite send_all_ok by done. cbn [mbind outcome_bind]. f_equal. apply map_map. }
  assert (forall ms, map (wrap_metric []) ms = ms) as Ew.
  { intros ms. rewrite <- (map_id ms) at 2. apply map_ext. intros. apply wrap_metric_nil. }
  cbn [collect_all]. rewrite !Ez. unfold collect_one. cbn [rg_collector rg_labels]. rewrite Cp, Cg. cbn. by rewrite !Ew.
Qed.

Lemma test_consistent :
  consistent (concat [zoned "db" <$> test_samples; zoned "ca" <$> test_samples; mp; mg]).
Proof.
  destruct Hstd as [_ _ _ [Ip Ig] Hc Hn]. destruct test_samples_fit as [Hf Ht].
  pose proof (zoned_consistent [("db", test_samples); ("ca", test_samples)]%string) as Hz.
  unfold zoned_samples in Hz. cbn [fmap list_fmap concat fst snd] in Hz |- *. rewrite app_nil_r in Hz |- *.
  rewrite app_assoc. apply consistent_other_names; [|done|].
  - apply Hz; [apply (bool_decide_unpack (NoDup _)); vm_compute; exact I|].
    repeat constructor; try done; apply test_samples_distinct.
  - intros m m' Hm Hm' E. rewrite Forall_forall in Hn.
    assert (pm_desc m' ∈ dp ++ dg) as Hd.
    { rewrite Forall_forall in Ip, Ig. apply elem_of_app in Hm' as [Hm'|Hm']; apply elem_of_app; [left|right]; auto. }
    assert (exists zone x, m = zoned zone x) as (zone & x & ->).
    { apply elem_of_app in Hm as [Hm|Hm]; apply list_elem_of_fmap in Hm as (x & -> & _); eauto. }
    by apply (Hn _ Hd (sm_key x)).
Qed.

Lemma test_described reg :
  registrations reg = [test_zone "db"; test_zone "ca"; mkRegistration [] dp proc; mkRegistration [] dg go] ->
  Forall2 (described (registrations reg)) (registrations reg) [zoned "db" <$> test_samples; zoned "ca" <$> test_samples; mp; mg].
Proof.
  intros R. rewrite R. destruct Hstd as [_ _ _ [Ip Ig] _ _].
  assert (forall zone, Forall (fun m => pm_desc m ∈ rg_descs (test_zone zone (S := S))) (zoned zone <$> test_samples)) as Hz.
  { intros zone. apply Forall_forall. intros m (x & -> & Hx)%list_elem_of_fmap. cbn [rg_descs test_zone].
    change (wrap_desc (zone_label zone) (desc_of (sm_key x)) ∈ wrap_desc (zone_label zone) <$> (desc_of <$> (sm_key <$> test_samples))).
    by do 3 apply list_elem_of_fmap_2. }
  repeat apply Forall2_cons_2; try apply Forall2_nil_2; apply described_own; try done; rewrite !elem_of_cons; auto.
Qed.
End test.

Module MetricsProps.

(** C33. A scrape of the scheduler, through the Prometheus library: [initmetrics]
    never panics, whatever state the scheduler is in when the collector is
    registered, every metric has as many labels as its descriptor, and a
    scrape is answered with exactly the metrics of [Collect], each with the
    zone added, when no two have the same name and labels; otherwise the whole
    scrape is answered with status 500.  The label values, which are names of
    nodes, pods and cards, are valid UTF-8. *)
Theorem scheduler_scrape `{GoRuntime, PromClient} sher0 sher :
  Forall labels_text (SchedulerMetrics.sample_of <$> SchedServer.Collect sher0) ->
  Forall labels_text (SchedulerMetrics.sample_of <$> SchedServer.Collect sher) ->
  exists reg, SchedulerMetrics.initmetrics sher0 = Ret reg
    /\ (scrape_ok (SchedServer.Collect sher) -> exists ms, metrics_handler reg sher = Ret (200, ms)
          /\ ms ≡ₚ zoned "vGPU" <$> (SchedulerMetrics.sample_of <$> SchedServer.Collect sher))
    /\ (~ scrape_ok (SchedServer.Collect sher) -> metrics_handler reg sher = Ret (500, [])).
Proof.
  intros T0 T. pose proof (scheduler_labels_fit sher0) as F0.
  destruct (zone_registers "vGPU" SchedulerMetrics.scheduler_collector sher0 NewRegistry
    (sm_key <$> (SchedulerMetrics.sample_of <$> SchedServer.Collect sher0))) as (reg & E & Hp & Hr).
  - done.
  - by apply describes_by_collect.
  - rewrite (proj1 new_registry). constructor.
  - exists reg. split; [exact E|]. rewrite (proj1 new_registry) in Hr. rewrite (proj2 new_registry) in Hp.
    rewrite <- scheduler_distinct. eapply zone_scraped; [exact Hr|done|apply scheduler_labels_fit|done|by rewrite Hp].
Qed.

Lemma scheduler_scrape_witness :
  let _ := go_reference in let _ := prom_reference in
  exists reg, SchedulerMetrics.initmetrics NewScheduler = Ret reg
    /\ metrics_handler reg (SchedServerProps.busy "GPU-a") = Ret (500, []).
Proof.
  intros rt pc. destruct (scheduler_scrape NewScheduler (SchedServerProps.busy "GPU-a")) as (reg & E & _ & H).
  - apply (bool_decide_unpack (Forall _ _)). vm_compute. exact I.
  - apply (bool_decide_unpack (Forall _ _)). vm_compute. exact I.
  - exists reg. split; [exact E|]. apply H. intros Hn. apply (bool_decide_pack (NoDup _)) in Hn. vm_compute in Hn. exact Hn.
Defined.

(** Registering the monitor's collector. *)
Lemma monitor_registers `{GoRuntime, PromClient} zone s0 reg :
  valid_utf8 zone = true -> registrations reg = [] ->
  exists reg', MonitorMetrics.NewClusterManager zone s0 reg = Ret reg' /\ pedantic reg' = pedantic reg
    /\ registrations reg' = [mkRegistration (zone_label zone)
         (wrap_desc (zone_label zone) <$> (desc_of <$> [HostGPUMemoryUsage; VGPUMemoryUsage; VGPUMemoryLimit; HostCoreUtilization]))
         MonitorMetrics.monitor_collector].
Proof.
  intros Hz Hr. destruct (zone_registers zone MonitorMetrics.monitor_collector s0 reg
    [HostGPUMemoryUsage; VGPUMemoryUsage; VGPUMemoryLimit; HostCoreUtilization]) as (reg' & E & Hp & Hr');
    [done|done|rewrite Hr; constructor|]. exists reg'. split_and!; [exact E|done|]. by rewrite Hr' , Hr.
Qed.

(** A scrape of the monitor, through the Prometheus library: with a client,
    [initmetrics] registers the collector, and a scrape in which [Collect]
    returns is answered with exactly its metrics, each with the zone added,
    when pods are told apart by namespace and name, the containers of a pod
    by name, and the directories are named after the pod and the container. *)
Theorem monitor_scrape `{GoRuntime, PromClient} containerPath s0 s ms :
  monitor_Collect (MonitorMetrics.mo_devnum s) (MonitorMetrics.mo_pods s) (MonitorMetrics.mo_srPodList s) = Ret ms ->
  Forall labels_text (MonitorMetrics.sample_of <$> ms) -> well_named containerPath s ->
  exists reg l, MonitorMetrics.initmetrics None None s0 = Ret (Some reg) /\ metrics_handler reg s = Ret (200, l)
    /\ l ≡ₚ zoned "vGPU" <$> (MonitorMetrics.sample_of <$> ms).
Proof.
  intros E Ht Hw. destruct (monitor_registers "vGPU" s0 NewRegistry eq_refl (proj1 new_registry)) as (reg & Er & Hp & Hr).
  rewrite (proj2 new_registry) in Hp. destruct (monitor_samples s ms E) as [Hf Hd].
  destruct (zone_scraped _ _ s reg _ (MonitorMetrics.sample_of <$> ms) Hr) as [Hok _]; [|done|done|by rewrite Hp|].
  - cbn. unfold MonitorMetrics.collector_Collect. by rewrite E.
  - destruct (Hok (Hd _ Hw)) as (l & El & Hl). exists reg, l. split_and!; [|done|done].
    unfold MonitorMetrics.initmetrics. by rewrite Er.
Qed.

Lemma monitor_scrape_witness :
  let _ := go_reference in let _ := prom_reference in
  let s := MonitorMetrics.mkMonitorState (inl []) [MonitorServerProps.busy_pod] MonitorServerProps.busy_table in
  exists reg l, MonitorMetrics.initmetrics None None s = Ret (Some reg) /\ metrics_handler reg s = Ret (200, l) /\ length l = 3%nat.
Proof.
  intros rt pc s. destruct (monitor_Collect (inl []) [MonitorServerProps.busy_pod] MonitorServerProps.busy_table) as [ms|] eqn:E;
    [|vm_compute in E; discriminate].
  destruct (monitor_scrape "/usr/local/vgpu/containers" s s ms E) as (reg & l & Er & Eh & Hl).
  - vm_compute in E. injection E as <-. apply (bool_decide_unpack (Forall _ _)). vm_compute. exact I.
  - constructor.
    + intros cards [= <-]. vm_compute. discriminate.
    + apply NoDup_singleton.
    + constructor; [apply NoDup_singleton|constructor].
    + apply map_Forall_singleton. split; reflexivity.
  - exists reg, l. split_and!; [done|done|]. rewrite Hl. vm_compute in E. injection E as <-. reflexivity.
Defined.

(** [Describe] leaves out the descriptor of the container's memory that
    [Collect] sends: in a pedantic registry, which the commented line of
    [initmetrics] creates, every scrape with a device of a container fails. *)
Theorem monitor_describes_too_little `{GoRuntime, PromClient} zone s0 s ms m :
  valid_utf8 zone = true ->
  monitor_Collect (MonitorMetrics.mo_devnum s) (MonitorMetrics.mo_pods s) (MonitorMetrics.mo_srPodList s) = Ret ms ->
  Forall labels_text (MonitorMetrics.sample_of <$> ms) -> m ∈ ms -> mm_desc m = ContainerDeviceMemory ->
  exists reg, MonitorMetrics.NewClusterManager zone s0 NewPedanticRegistry = Ret reg /\ metrics_handler reg s = Ret (500, []).
Proof.
  intros Hz E Ht Hm Hd. destruct (monitor_registers zone s0 NewPedanticRegistry Hz (proj1 new_pedantic)) as (reg & Er & Hp & Hr).
  rewrite (proj2 new_pedantic) in Hp. exists reg. split; [done|].
  assert (collect_all s (registrations reg) = Ret [zoned zone <$> (MonitorMetrics.sample_of <$> ms)]) as Ea.
  { rewrite Hr. cbn. unfold collect_one, MonitorMetrics.collector_Collect. cbn. rewrite E. cbn.
    change (map MonitorMetrics.sample_of ms) with (MonitorMetrics.sample_of <$> ms).
    rewrite send_all_ok by (done || by apply (monitor_samples s)). cbn. do 2 f_equal. apply map_map. }
  unfold metrics_handler. destruct (gather_undescribed reg s _ Ea Hp) as (e & ->); [|done].
  rewrite Hr. intros HF. inversion HF as [|x y xs ys Hx _]; subst. destruct Hx as [Hx|Hx]; [done|].
  rewrite Forall_forall in Hx. specialize (Hx (zoned zone (MonitorMetrics.sample_of m))). cbn in Hx. rewrite Hd in Hx.
  rewrite !elem_of_cons, elem_of_nil in Hx. destruct Hx as [Hx|[Hx|[Hx|[Hx|[]]]]]; [|discriminate Hx..].
  apply list_elem_of_fmap. eexists. split; [reflexivity|]. by apply list_elem_of_fmap_2.
Qed.

Lemma monitor_describes_too_little_witness :
  let _ := go_reference in let _ := prom_reference in
  let s := MonitorMetrics.mkMonitorState (inl []) [MonitorServerProps.busy_pod] MonitorServerProps.busy_table in
  exists reg, MonitorMetrics.NewClusterManager "vGPU" s NewPedanticRegistry = Ret reg /\ metrics_handler reg s = Ret (500, []).
Proof.
  intros rt pc s. destruct (monitor_Collect (inl []) [MonitorServerProps.busy_pod] MonitorServerProps.busy_table) as [ms|] eqn:E;
    [|vm_compute in E; discriminate].
  pose proof E as E'. vm_compute in E'. injection E' as E'.
  eapply (monitor_describes_too_little "vGPU" s s ms); [reflexivity|exact E|..]; subst ms.
  - apply (bool_decide_unpack (Forall _ _)). vm_compute. exact I.
  - right. right. left.
  - reflexivity.
Defined.

(** The test program: both cluster managers and the standard collectors are
    accepted by a pedantic registry, since the zones differ, and a scrape
    gives the four metrics of each zone and those of the standard collectors. *)
Theorem test_main_serves `{GoRuntime, PromClient} {S} (s : S) proc go dp dg mp mg :
  standard_collectors s proc go dp dg mp mg ->
  exists reg l, TestCollector.main proc go s = Ret reg /\ metrics_handler reg s = Ret (200, l)
    /\ l ≡ₚ (zoned "db" <$> TestCollector.test_samples) ++ (zoned "ca" <$> TestCollector.test_samples) ++ mp ++ mg.
Proof.
  intros Hstd. destruct (test_main_registers s proc go dp dg mp mg Hstd) as (reg & E & Hp & R).
  destruct (gather_ok reg s [zoned "db" <$> TestCollector.test_samples; zoned "ca" <$> TestCollector.test_samples; mp; mg])
    as (l & El & Hl).
  - rewrite R. by apply test_collects.
  - by eapply test_consistent.
  - intros _. by eapply test_described.
  - exists reg, l. unfold metrics_handler. rewrite El. split_and!; [done|done|]. cbn [concat] in Hl. by rewrite app_nil_r in Hl.
Qed.

Lemma test_main_serves_witness :
  let _ := go_reference in let _ := prom_reference in
  let c := mkCollector (fun _ : unit => Ret []) (fun _ => Ret []) in
  exists reg l, TestCollector.main c c tt = Ret reg /\ metrics_handler reg tt = Ret (200, l) /\ length l = 8%nat.
Proof.
  intros rt pc c. destruct (test_main_serves tt c c [] [] [] []) as (reg & l & E & Eh & Hl).
  - constructor; [done|done|split; apply (bool_decide_unpack (registrable _ _)); vm_compute; exact I|done| |constructor].
    apply (bool_decide_unpack (consistent _)). vm_compute. exact I.
  - exists reg, l. split_and!; [done|done|]. rewrite Hl. reflexivity.
Defined.

(** A zone can be registered once: a second cluster manager of the same zone
    makes [MustRegister] panic. *)
Theorem same_zone_refused `{GoRuntime, PromClient} {S} zone (s : S) reg reg' :
  valid_utf8 zone = true -> registrations reg = [] -> TestCollector.NewClusterManager zone s reg = Ret reg' ->
  TestCollector.NewClusterManager zone s reg' = Panic Explicit.
Proof.
  intros Hz Hr E. destruct (test_zone_registers zone [] s reg Hz Hr) as (r & E' & _ & R); [by apply not_elem_of_nil|].
  rewrite E in E'. injection E' as <-. destruct test_keys as [|k ks] eqn:Ek.
  - exfalso. assert (TestCollector.OomCount ∈ test_keys) as Hk; [|rewrite Ek in Hk; by apply elem_of_nil in Hk].
    apply (list_elem_of_fmap_2' sm_key _ (mkSample TestCollector.OomCount (f64_of_Z 42) ["foo.example.org"%string])); [|done].
    apply elem_of_app. left. apply list_elem_of_fmap. exists ("foo.example.org"%string, 42). split; [done|].
    apply elem_of_range. apply lookup_insert_eq.
  - eapply (zone_refused zone _ s reg' k ks); [rewrite test_describes; by rewrite Ek|].
    rewrite R, Hr. cbn [app fmap list_fmap concat rg_descs test_zone]. rewrite Ek. left.
Qed.

Lemma same_zone_refused_witness :
  let _ := go_reference in let _ := prom_reference in
  exists reg, TestCollector.NewClusterManager "db" tt NewPedanticRegistry = Ret reg
    /\ TestCollector.NewClusterManager "db" tt reg = Panic Explicit.
Proof.
  intros rt pc. destruct (TestCollector.NewClusterManager "db" tt NewPedanticRegistry) as [reg|] eqn:E; [|vm_compute in E; discriminate].
  exists reg. split; [done|]. apply (same_zone_refused "db" tt NewPedanticRegistry reg); [reflexivity|reflexivity|exact E].
Defined.
End MetricsProps.
