(* ===== verification/MonitorMain.v ===== *)
(** * The monitor's process

    [cmd/vGPUmonitor/main.go], [init] and [serveInfo] of [pathmonitor.go],
    [watchAndFeedback] of [feedback.go] and the way [Collect] of [metrics.go]
    shares the table [srPodList] and the client with it.

    Two goroutines work on the table: the feedback loop and the scrape of the
    metrics.  Both call [monitorpath], which holds [lock], and then walk the
    table without it ([Observe], and the loops of [Collect]).  The Go runtime
    ends a program in which a map is walked while it is written ("concurrent
    map iteration and map write"); [step_race] is that event.

    The client is made by the goroutine of [initmetrics]; a method of a nil
    [*kubernetes.Clientset] reads a field of it. *)

From Stdlib Require Import ZArith Lia Ascii String.
From stdpp Require Import base decidable option gmap strings numbers list relations.
From S2P Require Import Prelude GoStrings GoTime GoRuntime Types Monitor MonitorServer Nvidia.

#[local] Open Scope Z_scope.

(** ** Start-up *)

(** [init] of pathmonitor.go: [containerPath], empty when the variable is not set. *)
Definition container_path (LookupEnv : string -> option string) : string :=
  match LookupEnv "HOOK_PATH"%string with
  | Some hookPath => filepath_Join hookPath "containers"
  | None => ""
  end.

(** [serveInfo]: what it sends on the channel of errors; [Serve] returns when
    the server stops. *)
Definition serveInfo (Listen Serve : option error) : list error :=
  match Listen with
  | Some err => ["failed to listen: " +:+ err]%string
  | None => match Serve with Some err => ["failed to serve: " +:+ err]%string | None => [] end
  end.

(** [main] up to its loop over the channel, which logs each error. *)
Definition monitor_main `{GoRuntime} (LookupEnv : string -> option string) (Listen Serve : option error) : outcome (list error) :=
  match ValidateEnvVars LookupEnv with
  | Some _ => Panic Fatal
  | None => Ret ((fun err => "failed to serve: " +:+ err)%string <$> serveInfo Listen Serve)
  end.

(** ** The goroutines *)

(** The file system, the clock and the API server during a call of [monitorpath]. *)
Record surroundings := mkSurroundings {
  su_ReadDir : string -> list string + error;
  su_Stat : string -> fileInfo + error;
  su_RemoveAll : string -> option error;
  su_mapped : string -> option sharedRegionT;
  su_now : string -> Z;
  su_listed : list Pod + error;
}.

Section process.
Context `{GoRuntime} (containerPath : string).

(** [monitorpath] with the client it finds in [clientset]. *)
Definition path_round (clientset : bool) (su : surroundings) (srPodList : gmap string podusage)
    : outcome (gmap string podusage * list string * option error) :=
  match su_ReadDir su containerPath with
  | inr err => Ret (srPodList, [], Some err)
  | inl _ =>
      if clientset then monitorpath containerPath (su_ReadDir su) (su_Stat su) (su_RemoveAll su) (su_mapped su) (su_now su) (su_listed su) srPodList
      else Panic NilDereference
  end.

(** One turn of [watchAndFeedback] on its own. *)
Definition feedback_round (clientset : bool) (su : surroundings) (srPodList : gmap string podusage) : outcome (gmap string podusage * list string) :=
  '(srPodList, removed, _) ← path_round clientset su srPodList;
  srPodList ← Observe srPodList;
  Ret (srPodList, removed).

Inductive goroutine := Feedback | Scrape.

#[global] Instance goroutine_eq_dec : EqDecision goroutine.
Proof. solve_decision. Defined.

(** Where a goroutine is: outside, in [monitorpath] with the lock, or walking
    the table with [n] entries left. *)
Inductive position :=
| Outside
| Locked (su : surroundings)
| Walking (n : nat).

Record process := mkProcess {
  pr_clientset : bool;
  pr_srPodList : gmap string podusage;
  pr_at : goroutine -> position;
}.

Definition move (g : goroutine) (p : position) (m : goroutine -> position) : goroutine -> position :=
  fun h => if decide (h = g) then p else m h.

(** A step of one of the goroutines; [None] is a process that has ended. *)
Inductive monitor_step : option process -> option process -> Prop :=
| step_connect s :      (* [initmetrics] *)
    monitor_step (Some s) (Some (mkProcess true (pr_srPodList s) (pr_at s)))
| step_lock s g su :
    pr_at s g = Outside -> (forall h su', pr_at s h <> Locked su') -> (g = Scrape -> pr_clientset s = true) ->
    monitor_step (Some s) (Some (mkProcess (pr_clientset s) (pr_srPodList s) (move g (Locked su) (pr_at s))))
| step_unlock s g su srPodList removed err :
    pr_at s g = Locked su -> path_round (pr_clientset s) su (pr_srPodList s) = Ret (srPodList, removed, err) ->
    monitor_step (Some s) (Some (mkProcess (pr_clientset s) srPodList (move g (Walking (size srPodList)) (pr_at s))))
| step_path_panic s g su p :
    pr_at s g = Locked su -> path_round (pr_clientset s) su (pr_srPodList s) = Panic p -> monitor_step (Some s) None
| step_walk s g n :
    pr_at s g = Walking (S n) ->
    monitor_step (Some s) (Some (mkProcess (pr_clientset s) (pr_srPodList s) (move g (Walking n) (pr_at s))))
| step_race s g h n su srPodList removed err :
    pr_at s g = Walking (S n) -> pr_at s h = Locked su ->
    path_round (pr_clientset s) su (pr_srPodList s) = Ret (srPodList, removed, err) -> srPodList <> pr_srPodList s ->
    monitor_step (Some s) None
| step_observed s srPodList :
    pr_at s Feedback = Walking 0 -> Observe (pr_srPodList s) = Ret srPodList ->
    monitor_step (Some s) (Some (mkProcess (pr_clientset s) srPodList (move Feedback Outside (pr_at s))))
| step_observe_panic s p :
    pr_at s Feedback = Walking 0 -> Observe (pr_srPodList s) = Panic p -> monitor_step (Some s) None
| step_scraped s :
    pr_at s Scrape = Walking 0 ->
    monitor_step (Some s) (Some (mkProcess (pr_clientset s) (pr_srPodList s) (move Scrape Outside (pr_at s)))).

Definition started : process := mkProcess false ∅ (fun _ => Outside).

(** [lock] is held by one goroutine, and a scrape runs with a client. *)
Definition lock_inv (x : option process) : Prop :=
  forall s, x = Some s ->
    (forall g h su su', pr_at s g = Locked su -> pr_at s h = Locked su' -> g = h)
    /\ (pr_at s Scrape <> Outside -> pr_clientset s = true).

Lemma lock_inv_step x y : monitor_step x y -> lock_inv x -> lock_inv y.
Proof.
  intros Hst Hi. destruct Hst as [s|s g su Hg Hfree Hc|s g su t r e Hg E|s g su p Hg E|s g n Hg|s g h n su t r e Hg Hh E Hne|s t Hg E|s p Hg E|s Hg];
    intros s' [= <-]; destruct (Hi _ eq_refl) as [Hl Hsc]; cbn; unfold move.
  - split; [exact Hl|done].
  - split; [|intros ?; destruct (decide (Scrape = g)) as [<-|]; auto].
    intros g1 g2 su1 su2. repeat case_decide; subst; try done; intros ? ?; by exfalso; eapply Hfree.
  - split; [|intros ?; case_decide; subst; apply Hsc; [by rewrite Hg|done]].
    intros g1 g2 su1 su2. repeat case_decide; subst; try done. apply Hl.
  - split; [|intros ?; case_decide; subst; apply Hsc; [by rewrite Hg|done]].
    intros g1 g2 su1 su2. repeat case_decide; subst; try done. apply Hl.
  - split; [|intros ?; apply Hsc; by case_decide].
    intros g1 g2 su1 su2. repeat case_decide; subst; try done. apply Hl.
  - split; [|intros ?; by case_decide].
    intros g1 g2 su1 su2. repeat case_decide; subst; try done. apply Hl.
Qed.

Lemma lock_inv_reachable x : rtc monitor_step (Some started) x -> lock_inv x.
Proof.
  apply (rtc_ind_r lock_inv); [by intros s [= <-]|]. intros y z _ Hst IH. by eapply lock_inv_step.
Qed.
End process.

Module MonitorMainProps.

(** The monitor runs only when HOOK_PATH is set, so its directory is the one
    the variable names. *)
Theorem main_has_path `{GoRuntime} LookupEnv Listen Serve errs :
  monitor_main LookupEnv Listen Serve = Ret errs ->
  exists hookPath, LookupEnv "HOOK_PATH"%string = Some hookPath
    /\ container_path LookupEnv = filepath_Join hookPath "containers" /\ (length errs <= 1)%nat.
Proof.
  unfold monitor_main. destruct (ValidateEnvVars LookupEnv) as [|] eqn:E; [done|]. intros [= <-].
  unfold ValidateEnvVars in E. destruct (list_find _ _) as [[? [? ?]]|] eqn:Ef; [done|].
  rewrite list_find_None, Forall_forall in Ef. specialize (Ef ("HOOK_PATH"%string, true)).
  unfold container_path. destruct (LookupEnv "HOOK_PATH"%string) as [hookPath|] eqn:El.
  - exists hookPath. split_and!; [done|done|]. unfold serveInfo. destruct Listen, Serve; cbn; lia.
  - exfalso. apply Ef; [apply elem_of_range; reflexivity|]. cbn. by rewrite El.
Qed.

Lemma main_has_path_witness :
  let _ := go_reference in
  let env x := if decide (x = "HOOK_PATH")%string then Some "/usr/local/vgpu/"%string else None in
  exists hookPath, env "HOOK_PATH"%string = Some hookPath /\ container_path env = "/usr/local/vgpu/containers"%string.
Proof.
  intros rt env. destruct (main_has_path env (Some "in use"%string) None ["failed to serve: failed to listen: in use"]%string)
    as (hookPath & E & Ep & _); [reflexivity|]. exists hookPath. split; [exact E|]. rewrite Ep. injection E as <-. reflexivity.
Defined.

(** The table is shared safely by two calls of [monitorpath], which hold
    the lock one at a time in every interleaving of the feedback loop and the
    scrapes, and a scrape only runs when the client exists; a feedback turn
    alone is [watch_round]. *)
Theorem one_path_at_a_time `{GoRuntime} containerPath s :
  rtc (monitor_step containerPath) (Some started) (Some s) ->
  (forall g h su su', pr_at s g = Locked su -> pr_at s h = Locked su' -> g = h)
  /\ (pr_at s Scrape <> Outside -> pr_clientset s = true)
  /\ (pr_clientset s = true -> forall su, feedback_round containerPath true su (pr_srPodList s)
      = watch_round containerPath (su_ReadDir su) (su_Stat su) (su_RemoveAll su) (su_mapped su) (su_now su) (su_listed su) (pr_srPodList s)).
Proof.
  intros Hr. destruct (lock_inv_reachable _ _ Hr s eq_refl) as [Hl Hc]. split_and!; [done|done|].
  intros _ su. unfold feedback_round, watch_round, path_round, monitorpath.
  destruct (su_ReadDir su containerPath); reflexivity.
Qed.

(** The table of the example: one region whose pod is gone. *)
Definition gone_pod : surroundings :=
  mkSurroundings (fun p => if decide (p = "/c")%string then inl ["uid_c"%string] else inl [])
    (fun _ => inl (mkFileInfo "uid_c" 0)) (fun _ => None) (fun _ => None) (fun _ => 400 * Second) (inl []).
Definition no_dirs : surroundings := mkSurroundings (fun _ => inl []) (fun _ => inr ""%string) (fun _ => None) (fun _ => None) (fun _ => 0) (inl []).
Definition one_region : gmap string podusage := {["/c/uid_c"%string := mkPodusage "uid_c" (Some (mkRegion 0 [] [] [] 0 0 0))]}.

Lemma one_path_at_a_time_witness :
  let _ := go_reference in
  (forall su, feedback_round "/c" true su ∅
      = watch_round "/c" (su_ReadDir su) (su_Stat su) (su_RemoveAll su) (su_mapped su) (su_now su) (su_listed su) ∅).
Proof.
  intros rt. destruct (one_path_at_a_time "/c" (mkProcess true ∅ (fun _ => Outside))) as (_ & _ & H).
  - apply rtc_once. apply (step_connect "/c" started).
  - by apply H.
Defined.

(** A scrape walks the table without the lock, so a feedback turn that adds or
    removes a region meanwhile ends the process. *)
Theorem scrape_races_feedback `{GoRuntime} containerPath s su1 su2 t1 r1 e1 t2 r2 e2 :
  pr_clientset s = true -> (forall g, pr_at s g = Outside) ->
  path_round containerPath true su1 (pr_srPodList s) = Ret (t1, r1, e1) -> t1 <> ∅ ->
  path_round containerPath true su2 t1 = Ret (t2, r2, e2) -> t2 <> t1 ->
  rtc (monitor_step containerPath) (Some s) None.
Proof.
  intros Hc Hout E1 Hne E2 Hch. destruct (size t1) as [|n] eqn:En; [by apply map_size_empty_inv in En|].
  eapply rtc_l; [apply (step_lock _ s Scrape su1); [done|intros h su'; by rewrite Hout|done]|].
  eapply rtc_l; [eapply (step_unlock _ _ Scrape su1); [done|cbn; by rewrite Hc]|]. cbn.
  eapply rtc_l; [apply (step_lock _ _ Feedback su2); [exact (Hout Feedback)|intros [] su'; cbn; unfold move; cbn; by rewrite ?Hout|done]|].
  eapply rtc_l; [|apply rtc_refl]. eapply (step_race _ _ Scrape Feedback n su2); [cbn; by rewrite En|done|cbn; by rewrite Hc|done].
Qed.

Lemma scrape_races_feedback_witness :
  let _ := go_reference in rtc (monitor_step "/c") (Some (mkProcess true one_region (fun _ => Outside))) None.
Proof.
  intros rt. apply (scrape_races_feedback "/c" (mkProcess true one_region (fun _ => Outside)) no_dirs gone_pod
    one_region [] None ∅ ["/c/uid_c"%string] None);
    [reflexivity|reflexivity|reflexivity|vm_compute; discriminate|vm_compute; reflexivity|vm_compute; discriminate].
Defined.

(** The feedback loop does not wait for the client: when [initmetrics] has
    found no configuration, or is later than the first turn, and the directory
    can be read, [monitorpath] dereferences the nil client and the process ends. *)
Theorem feedback_needs_client `{GoRuntime} containerPath su files :
  su_ReadDir su containerPath = inl files ->
  path_round containerPath false su ∅ = Panic NilDereference /\ rtc (monitor_step containerPath) (Some started) None.
Proof.
  intros Hf. assert (path_round containerPath false su ∅ = Panic NilDereference) as E by (unfold path_round; by rewrite Hf).
  split; [done|]. eapply rtc_l; [apply (step_lock _ started Feedback su); [done|done|done]|].
  apply rtc_once. by eapply (step_path_panic _ _ Feedback su).
Qed.

Lemma feedback_needs_client_witness :
  let _ := go_reference in rtc (monitor_step "/c") (Some started) None.
Proof. intros rt. apply (feedback_needs_client "/c" no_dirs []). reflexivity. Defined.
End MonitorMainProps.
