(* ===== verification/LockCycle.v ===== *)
(** * The life of a node's lock, from [Bind] to [Allocate]

    [Bind] (pkg/scheduler) locks the node, marks the pod as being allocated
    and binds it; the plugin's [Allocate] (nvinternal/plugin) serves the
    kubelet of the node and, through [PodAllocationTrySuccess] or
    [PodAllocationFailed], marks the pod and releases the lock.  The theorem
    composes the two on a server nobody else writes to meanwhile. *)

From Stdlib Require Import ZArith Lia Ascii String.
From stdpp Require Import base decidable option gmap strings numbers sorting list.
From S2P Require Import Prelude GoStrings GoTime GoRuntime Types Kube NodeLock Codec Devices Score Scheduler FilterFacts FilterProps PodAlloc Nvidia NvidiaFacts EndToEnd.

#[local] Open Scope Z_scope.

(** A server without interference on which the node [node] exists with the
    annotations [annos]; no pod carries the annotation of devices still to be
    handed out, which nothing in the repository writes. *)
Record calm (node : string) (annos : gmap string string) (w : Server) : Prop := {
  calm_script : sv_script w = [];
  calm_node : exists h, sv_nodes w !! node = Some (Some annos :: h);
  calm_pods : Forall (fun p => pod_Annotations p !! AssignedIDsToAllocateAnnotations = None) (sv_pods w);
}.

Section calm_calls.
Context (node : string) (annos : gmap string string).

Lemma calm_step w : calm node annos w -> step w = (None, w).
Proof. intros [Hs _ _]. unfold step. by rewrite Hs. Qed.

Lemma calm_history w h : sv_nodes w !! node = Some (Some annos :: h) ->
  server_history w node = mkNode node (Some annos) (Z.of_nat (length h)) :: versions node h.
Proof. intros Hn. unfold server_history. by rewrite Hn. Qed.

Lemma calm_current w : calm node annos w -> current_annos w node = Some annos.
Proof. intros [_ [h Hh] _]. unfold current_annos. by rewrite (calm_history w h Hh). Qed.

(** A read of the node, and an update that replaces its annotations. *)
Lemma calm_get w : calm node annos w ->
  exists v, api_GetNode node w = ((mkNode node (Some annos) v, None), w)
    /\ (forall annos', exists w', api_UpdateNode (mkNode node (Some annos') v) w = (None, w') /\ calm node annos' w'
          /\ sv_pods w' = sv_pods w /\ sv_bound w' = sv_bound w /\ sv_now w' = sv_now w).
Proof.
  intros Hc. pose proof (calm_step w Hc) as Hst. destruct Hc as [Hs [h Hh] Hp]. pose proof (calm_history w h Hh) as Hhist.
  exists (Z.of_nat (length h)). split.
  - change (api_GetNode node w) with (server_GetNode node w). unfold server_GetNode. rewrite Hst. cbv iota beta. by rewrite Hhist.
  - intros annos'. change (api_UpdateNode (W := Server)) with server_UpdateNode. unfold server_UpdateNode. rewrite Hst. cbv iota beta.
    cbn [node_Name node_ResourceVersion node_Annotations]. rewrite Hhist. cbn [head]. cbn [node_ResourceVersion]. rewrite Z.eqb_refl.
    eexists. split; [reflexivity|]. unfold write_node. rewrite Hh. split_and!; try done. constructor; cbn; [done| |done].
    eexists. apply lookup_insert_eq.
Qed.

Lemma calm_release w : calm node annos w ->
  exists w', ReleaseNodeLock node w = Ret (None, w') /\ calm node (delete NodeLockTime annos) w' /\ sv_pods w' = sv_pods w.
Proof.
  intros Hc. destruct (calm_get w Hc) as (v & Hget & Hupd). unfold ReleaseNodeLock, call, mbind, K_bind. rewrite Hget. cbv beta iota.
  cbn [node_annos node_Annotations]. destruct (decide _) as [Hl|Hl].
  - destruct (Hupd (delete NodeLockTime annos)) as (w' & Eu & Hc' & Hp & _). exists w'. unfold del_lock.
    cbn [node_Name node_Annotations node_ResourceVersion]. change (delete NodeLockTime <$> Some annos) with (Some (delete NodeLockTime annos)).
    by rewrite Eu.
  - exists w. rewrite delete_id; [done|]. by apply eq_None_not_Some.
Qed.

Lemma calm_lock zone w : calm node annos w -> annos !! NodeLockTime = None ->
  exists w', LockNode zone node w = Ret (None, w') /\ calm node (<[NodeLockTime := format_rfc3339 zone (sv_now w)]> annos) w'
    /\ sv_pods w' = sv_pods w /\ sv_bound w' = sv_bound w /\ sv_now w' = sv_now w.
Proof.
  intros Hc Hl. destruct (calm_get w Hc) as (v & Hget & Hupd).
  destruct (Hupd (<[NodeLockTime := format_rfc3339 zone (sv_now w)]> annos)) as (w' & Eu & Hw'). exists w'.
  split; [|done]. unfold LockNode, SetNodeLock, call, lift, mbind, K_bind, outcome_bind. rewrite Hget. cbv beta iota.
  cbn [node_annos node_Annotations default id]. rewrite Hl, Hget. cbv beta iota. cbn [node_annos node_Annotations default id].
  rewrite decide_False by (rewrite Hl; by intros [? ?]).
  change (api_Now w) with (sv_now w, w). unfold set_lock. cbn [node_Name node_Annotations node_ResourceVersion]. by rewrite Eu.
Qed.

(** A patch of a pod's annotations leaves the node alone. *)
Lemma calm_patch pod patch w : calm node annos w -> patch !! AssignedIDsToAllocateAnnotations = None ->
  exists err w', PatchPodAnnotations pod patch w = Ret (err, w') /\ calm node annos w' /\ sv_now w' = sv_now w
    /\ (is_Some (find_pod (pod_Namespace pod) (pod_Name pod) (sv_pods w)) -> err = None
        /\ exists p, find_pod (pod_Namespace pod) (pod_Name pod) (sv_pods w') = Some p /\ patch ⊆ pod_Annotations p).
Proof.
  intros Hc Hk. pose proof (calm_step w Hc) as Hst. destruct Hc as [Hs [h Hh] Hp].
  unfold PatchPodAnnotations, call. change (api_PatchPod (W := Server)) with server_PatchPod. unfold server_PatchPod. rewrite Hst. cbv iota beta.
  unfold find_pod. destruct (list_find _ (sv_pods w)) as [[i p]|] eqn:Ef.
  2:{ do 2 eexists. split_and!; [reflexivity|by constructor; eauto|done|]. by intros [? ?]. }
  do 2 eexists. split; [reflexivity|]. apply list_find_Some in Ef as (Hi & Hpod & Hfirst). split_and!; [|done|].
  - constructor; cbn; [done|eauto|]. apply Forall_insert; [done|]. cbn. apply lookup_union_None. split; [done|].
    rewrite Forall_lookup in Hp. by eapply Hp.
  - intros _. split; [done|]. exists (with_annotations p (patch ∪ pod_Annotations p)). split; [|apply map_union_subseteq_l].
    cbn. assert (list_find (is_pod (pod_Namespace pod) (pod_Name pod)) (<[i := with_annotations p (patch ∪ pod_Annotations p)]> (sv_pods w))
      = Some (i, with_annotations p (patch ∪ pod_Annotations p))) as ->; [|done].
    apply list_find_Some. split_and!; [apply list_lookup_insert_eq; by eapply lookup_lt_Some|done|].
    intros j y Hj Hlt. rewrite list_lookup_insert_ne in Hj by lia. by eapply Hfirst.
Qed.
End calm_calls.

Section plugin.
Context `{GoRuntime} (node : string) (annos : gmap string string).

Definition pod_phase (w : Server) (pod : Pod) : option string :=
  p ← find_pod (pod_Namespace pod) (pod_Name pod) (sv_pods w); pod_Annotations p !! DeviceBindPhase.

Definition known (w : Server) (pod : Pod) : Prop := is_Some (find_pod (pod_Namespace pod) (pod_Name pod) (sv_pods w)).

(** The pod is marked and the node released. *)
Definition finished (phase : string) (pod : Pod) (w : Server) : Prop :=
  calm node (delete NodeLockTime annos) w /\ pod_phase w pod = Some phase.

Lemma calm_finish phase pod w : calm node annos w -> known w pod ->
  exists w', finish_allocation phase node pod w = Ret (tt, w') /\ finished phase pod w'.
Proof.
  intros Hc Hk. unfold finish_allocation, mbind, K_bind.
  destruct (calm_patch node annos pod {[DeviceBindPhase := phase]} w Hc ltac:(by apply lookup_singleton_ne)) as (err & w1 & -> & Hc1 & _ & Hp). cbv beta iota.
  destruct (calm_release node annos w1 Hc1) as (w2 & -> & Hc2 & Hpods). cbv beta iota. exists w2. split; [done|]. split; [done|].
  destruct (Hp Hk) as (_ & p & Ef & Hsub). unfold pod_phase. rewrite Hpods, Ef. cbn. eapply lookup_weaken; [|exact Hsub]. apply lookup_singleton_eq.
Qed.

Lemma calm_try_success pod w : calm node annos w -> known w pod ->
  exists w', PodAllocationTrySuccess node pod w = Ret (tt, w') /\ finished DeviceBindSuccess pod w'.
Proof.
  intros Hc Hk. destruct (calm_finish DeviceBindSuccess pod w Hc Hk) as (w' & E & Hf). exists w'. split; [|done].
  destruct Hk as [p Hp]. rewrite (PodAllocProps.TrySuccess_never_waits node pod p None w w); [exact E| |].
  - cbn. rewrite (calm_step node annos w Hc). by rewrite Hp.
  - unfold find_pod in Hp. apply fmap_Some in Hp as ([i q] & Hq & ->). apply list_find_Some in Hq as (Hi & _).
    destruct Hc as [_ _ Hf']. rewrite Forall_lookup in Hf'. by eapply Hf'.
Qed.

Lemma calm_erase dtype pod w err w' : calm node annos w -> known w pod ->
  EraseNextDeviceTypeFromAnnotation dtype pod w = Ret (err, w') -> calm node annos w' /\ known w' pod.
Proof.
  intros Hc Hk. unfold EraseNextDeviceTypeFromAnnotation. destruct (DecodePodDevices _ _) as [pdevices [e|]]; [by intros [= _ <-]|].
  destruct (pdevices !! dtype) as [pd|]; [|by intros [= _ <-]]. intros E.
  edestruct (calm_patch node annos pod) as (e' & w1 & E' & Hc' & _ & Hp); [exact Hc| |].
  2:{ rewrite E in E'. injection E' as <- <-. split; [done|]. destruct (Hp Hk) as (_ & p & Ef & _). by exists p. }
  apply lookup_singleton_None. unfold InRequestDevices. rewrite str_lookup_single. by case_decide.
Qed.

Context (cfg : NvidiaConfig) (ds : rmDevices) (QualifiedName : string -> string -> string)
        (UpdateAnnotations : string -> list string -> gmap string string + error) (uuid_New : nat -> string)
        (exists_ : string -> bool) (hostHookPath : string).

(** The errors [Allocate] returns without marking the pod or releasing the node. *)
Definition unreported (e : error) : Prop :=
  (exists e', e = response_error e') \/ exists idx ids, mig_response cfg ds QualifiedName UpdateAnnotations uuid_New exists_ idx ids = inr e.

Definition settled (pod : Pod) (err : option error) (w : Server) : Prop :=
  match err with
  | None => finished DeviceBindSuccess pod w
  | Some e => finished DeviceBindFailed pod w \/ unreported e /\ calm node annos w
  end.

Lemma loop_settles pod reqs : forall idx resps w r err w',
  calm node annos w -> known w pod ->
  nvidia_loop cfg ds QualifiedName UpdateAnnotations uuid_New exists_ hostHookPath node pod idx reqs resps w = Ret ((r, err), w') ->
  settled pod err w'.
Proof.
  assert (forall e w r err w', calm node annos w -> known w pod ->
    (_ ← PodAllocationFailed node pod; mret ([] : list NvidiaResponse, Some e)) w = Ret ((r, err), w') -> settled pod err w') as Hfail.
  { intros e w r err w' Hc Hk E. destruct (calm_finish DeviceBindFailed pod w Hc Hk) as (w1 & E1 & Hf).
    unfold mbind, K_bind, PodAllocationFailed in E. rewrite E1 in E. injection E as _ <- <-. by left. }
  induction reqs as [|ids reqs IH]; intros idx resps w r err w' Hc Hk; cbn [nvidia_loop].
  { destruct (calm_try_success pod w Hc Hk) as (w1 & E1 & Hf). unfold mbind, K_bind. rewrite E1. by intros [= _ <- <-]. }
  intros (first & w1 & [_ Ew]%lift_inv & E)%K_bind_inv. cbn in Ew. subst w1. destruct (contains first "MIG").
  { destruct (mig_response _ _ _ _ _ _ _ _) as [resp|e] eqn:Em; [by eapply IH|].
    injection E as _ <- <-. right. split; [|done]. right. eauto. }
  apply K_bind_inv in E as ([[ctr devreq] gerr] & w1 & [_ Ew]%lift_inv & E). cbn in Ew. subst w1.
  destruct gerr as [e|]; [by eapply Hfail|]. destruct (negb _); [by eapply Hfail|].
  destruct (getAllocateResponse _ _ _ _ _ _ _) as [resp|e]; [|injection E as _ <- <-; right; split; [left; eauto|done]].
  apply K_bind_inv in E as (eerr & w1 & Ee & E). destruct (calm_erase _ _ _ _ _ Hc Hk Ee) as [Hc1 Hk1].
  destruct eerr as [e|]; [by eapply Hfail|].
  apply K_bind_inv in E as (x & w2 & [_ Ew]%lift_inv & E). cbn in Ew. subst w2. by eapply IH.
Qed.

(** [Allocate] on a node whose pod is found or not. *)
Lemma allocate_settles reqs w r err w' :
  calm node annos w ->
  nvidia_Allocate cfg ds QualifiedName UpdateAnnotations uuid_New exists_ hostHookPath node reqs w = Ret ((r, err), w') ->
  (err <> None /\ calm node (delete NodeLockTime annos) w' /\ Forall (fun p => is_pending node p = false) (sv_pods w))
  \/ exists pod, pod ∈ sv_pods w /\ is_pending node pod = true /\ settled pod err w'.
Proof.
  intros Hc. unfold nvidia_Allocate, GetPendingPod, mbind, K_bind, call, mret, K_ret. cbn [api_ListPods server].
  rewrite (calm_step node annos w Hc). destruct (list_find _ (sv_pods w)) as [[i pod]|] eqn:Ef.
  - apply list_find_Some in Ef as (Hi & Hp & _). intros E. right. exists pod. apply list_elem_of_lookup_2 in Hi as Hin. split_and!; [done|done|].
    eapply loop_settles; [exact Hc| |exact E]. unfold known, find_pod.
    destruct (list_find (is_pod (pod_Namespace pod) (pod_Name pod)) (sv_pods w)) as [[]|] eqn:Eq; [by eexists|].
    apply list_find_None in Eq. rewrite Forall_forall in Eq. by destruct (Eq pod Hin).
  - destruct (calm_release node annos w Hc) as (w1 & -> & Hc1 & _). intros [= _ <- <-]. left. split_and!; [done|done|].
    apply list_find_None in Ef. eapply Forall_impl; [exact Ef|]. intros p Hp. by apply not_true_is_false.
Qed.
End plugin.

(** ** [Bind] *)
Lemma calm_bind zone node annos podName podNamespace podUID w :
  calm node annos w -> annos !! NodeLockTime = None -> is_Some (find_pod podNamespace podName (sv_pods w)) ->
  exists w', Bind zone podName podNamespace podUID node w = Ret (""%string, w')
    /\ calm node (<[NodeLockTime := format_rfc3339 zone (sv_now w)]> annos) w' /\ (podName, node) ∈ sv_bound w'
    /\ exists p, find_pod podNamespace podName (sv_pods w') = Some p /\ pod_Annotations p !! DeviceBindPhase = Some DeviceBindAllocating
       /\ is_Some (pod_Annotations p !! BindTimeAnnotations).
Proof.
  intros Hc Hl [pod Hp]. unfold Bind, mbind, K_bind, call. cbn [api_GetPod server]. rewrite (calm_step node annos w Hc), Hp.
  destruct (calm_lock node annos zone w Hc Hl) as (w1 & -> & Hc1 & Hp1 & _ & Hn1). cbv beta iota.
  change (api_Now w1) with (sv_now w1, w1). cbv beta iota.
  assert (pod_Namespace pod = podNamespace /\ pod_Name pod = podName) as [En Em].
  { unfold find_pod in Hp. apply fmap_Some in Hp as ([i q] & Hq & ->). by apply list_find_Some in Hq as (_ & Hq & _). }
  edestruct (calm_patch node _ pod {[DeviceBindPhase := DeviceBindAllocating; BindTimeAnnotations := itoa (sv_now w1 / Second)]} w1 Hc1)
    as (err & w2 & Ep & Hc2 & _ & Hf); [by rewrite lookup_insert_ne, lookup_singleton_ne|].
  change "allocating"%string with DeviceBindAllocating. rewrite Ep. cbv beta iota. rewrite En, Em, Hp1, Hp in Hf.
  destruct Hf as (_ & p & Ef & Hsub); [by eexists|]. cbn [api_Bind server]. unfold server_Bind. rewrite (calm_step _ _ w2 Hc2), Ef. cbv beta iota.
  eexists. split; [reflexivity|]. split_and!.
  - destruct Hc2 as [? ? ?]. by constructor.
  - left.
  - exists p. split_and!; [done| |eexists]; (eapply lookup_weaken; [|exact Hsub]); [apply lookup_insert_eq|].
    rewrite lookup_insert_ne by done. apply lookup_singleton_eq.
Qed.

Module LockCycleProps.

(** C9. The life of a node's lock.  On a server nobody else writes to
    meanwhile and whose calls do not fail, [Bind] locks a free node, binds the
    pod, and leaves it in the phase "allocating" with the time of the binding.
    When the plugin's next [Allocate] on that node returns, whatever the
    kubelet asks for, either no pod was found being allocated there, an error
    is returned and the node is exactly as before [Bind]; or one was found,
    and it is in the phase "success" with the node as before [Bind] when
    [Allocate] answers, and in the phase "failed" with the node as before
    [Bind] when it returns an error, unless the error is one of the response
    itself, which leaves the lock. *)
Theorem lock_cycle `{GoRuntime} zone node annos podName podNamespace podUID w
    cfg ds QualifiedName UpdateAnnotations uuid_New exists_ hook :
  calm node annos w -> annos !! NodeLockTime = None -> is_Some (find_pod podNamespace podName (sv_pods w)) ->
  exists w1, Bind zone podName podNamespace podUID node w = Ret (""%string, w1)
    /\ current_annos w1 node = Some (<[NodeLockTime := format_rfc3339 zone (sv_now w)]> annos)
    /\ (podName, node) ∈ sv_bound w1
    /\ (exists p, find_pod podNamespace podName (sv_pods w1) = Some p
          /\ pod_Annotations p !! DeviceBindPhase = Some DeviceBindAllocating
          /\ is_Some (pod_Annotations p !! BindTimeAnnotations))
    /\ forall reqs resps err w2,
       nvidia_Allocate cfg ds QualifiedName UpdateAnnotations uuid_New exists_ hook node reqs w1 = Ret ((resps, err), w2) ->
       err <> None /\ current_annos w2 node = Some annos /\ Forall (fun p => is_pending node p = false) (sv_pods w1)
       \/ exists pod, pod ∈ sv_pods w1 /\ is_pending node pod = true
          /\ match err with
             | None => pod_phase w2 pod = Some DeviceBindSuccess /\ current_annos w2 node = Some annos
             | Some e => pod_phase w2 pod = Some DeviceBindFailed /\ current_annos w2 node = Some annos
                 \/ unreported cfg ds QualifiedName UpdateAnnotations uuid_New exists_ e
                   /\ current_annos w2 node = current_annos w1 node
             end.
Proof.
  intros Hc Hl Hp. destruct (calm_bind zone node annos podName podNamespace podUID w Hc Hl Hp) as (w1 & E & Hc1 & Hb & Hph).
  exists w1. split_and!; [done|by apply calm_current|done|done|]. intros reqs resps err w2 Ea.
  eapply allocate_settles in Ea; [|exact Hc1]. rewrite delete_insert_id in Ea by done.
  destruct Ea as [(Herr & Hc2 & Hnone)|(pod & Hin & Hpend & Hs)]; [left; split_and!; [done|by apply calm_current|done]|right].
  exists pod. split_and!; [done|done|]. unfold settled, finished in Hs. rewrite delete_insert_id in Hs by done. destruct err as [e|].
  - destruct Hs as [[Hc2 Hf]|[Hu Hc2]]; [left; split; [done|by apply calm_current]|right].
    split; [done|]. by rewrite (calm_current _ _ w2 Hc2), (calm_current _ _ w1 Hc1).
  - destruct Hs as [Hc2 Hf]. split; [done|by apply calm_current].
Qed.

Lemma filtered_calm : calm "n1" ∅ filtered_world.
Proof. constructor; [reflexivity|eexists; reflexivity|vm_compute; repeat constructor]. Qed.

Lemma lock_cycle_witness :
  exists w1 resps w2, @Bind Server server 0 "p" "default" "uid-p" "n1" filtered_world = Ret (""%string, w1)
    /\ @nvidia_Allocate go_reference Server server plain_config ∅ (fun _ x => x) (fun _ _ => inl ∅)
      (fun _ => "u"%string) (fun _ => false) "/hook" "n1" [["g1-0"%string]] w1 = Ret ((resps, None), w2)
    /\ current_annos w2 "n1" = Some ∅ /\ exists pod, pod ∈ sv_pods w1 /\ pod_phase w2 pod = Some DeviceBindSuccess.
Proof.
  destruct (@lock_cycle go_reference 0 "n1" ∅ "p" "default" "uid-p" filtered_world plain_config ∅ (fun _ x => x) (fun _ _ => inl ∅)
    (fun _ => "u"%string) (fun _ => false) "/hook"%string filtered_calm eq_refl ltac:(eexists; reflexivity)) as (w1 & E & _ & _ & _ & Hal).
  destruct (@nvidia_Allocate go_reference Server server plain_config ∅ (fun _ x => x) (fun _ _ => inl ∅)
    (fun _ => "u"%string) (fun _ => false) "/hook" "n1" [["g1-0"%string]] w1) as [[[resps [e|]] w2]|] eqn:Ea.
  - exfalso. vm_compute in E. injection E as <-. vm_compute in Ea. discriminate Ea.
  - exists w1, resps, w2. split; [exact E|]. split; [exact Ea|]. destruct (Hal _ _ _ _ Ea) as [[[] _]|(pod & Hin & _ & Hph & H)]; [reflexivity|].
    split; [exact H|]. exists pod. split; [exact Hin|exact Hph].
  - exfalso. vm_compute in E. injection E as <-. vm_compute in Ea. discriminate Ea.
Defined.
End LockCycleProps.
